(* ===== verification/_CoqProject ===== *)
-Q . S2P
Prelude.v
GoStrings.v
Json.v
GoPath.v
GoFS.v
Protoio.v
Lib.v
Store.v
Dummy.v
Mapping.v
Wire.v
Hfcache.v
Tree.v
Snapshot.v
Sources.v
Evict.v
Config.v
Identity.v
Net.v
Node.v
Reach.v
Start.v
Blocks.v
Reconstruct.v
Job.v
Exchange.v
Materialise.v
Pull.v
Ingest.v
Hfapi.v
Idle.v
Fallback.v
Pipeline.v
Controls.v
Socket.v
Watch.v
Cli.v
Daemon.v
