(* ===== verification/Prelude.v ===== *)
(** * A verification development for the [sf] binary (module hf-ipfs)

    [sf] shares the Hugging Face cache of a machine with other machines over
    libp2p and pulls repositories from them.  A daemon watches the cache,
    ingests every finished snapshot into a DAG whose leaves are references into
    the cache's own files, announces it under a CID derived from the commit
    hash, and answers two stream protocols: [map] (which DAG and which files
    stand for a commit) and [block] (one block per CID).  [sf pull] asks the
    swarm for a commit, checks what it gets against the manifest, places the
    files in the cache as [hf] would, and falls back to the Hub.  A Unix socket
    lets the command line work through a running daemon.

    ** The library, file by file

    Foundations.
    - [Prelude]: errors, the state-and-error monad [M], relations between the
      states before and after an operation ([pres], [alike]), tactics.
    - [GoStrings], [Json], [GoPath], [GoFS]: what the program uses of Go's
      strings, encoding/json, path/filepath and os.
    - [Lib], [Net]: go-cid, boxo, libp2p and kad-dht as interfaces.

    Components (sources below src/internal unless said otherwise).
    - [Protoio]: protoio/protoio.go, length-prefixed frames.
    - [Store]: store/bolt.go, the datastore adapter, batches, the lock.
    - [Dummy]: dummy/dummy.go, commit hashes as CIDs.
    - [Mapping]: mapping/mapping.go, the table of shared revisions.
    - [Wire]: wire/wire.go, messages and their JSON.
    - [Hfcache], [Tree], [Snapshot]: hfcache/cache.go and tree.go, the layout of
      the cache, writing and reading snapshots.
    - [Sources]: pull/sources.go.  [Config]: config/config.go.  [Identity]:
      identity/identity.go.
    - [Evict]: evict/evict.go, removing a revision without harming others.
    - [Node], [Reach], [Start]: node/node.go, the protocol handlers, announcing
      and dialling; reachability and relay candidates; opening and closing.
    - [Blocks], [Reconstruct], [Job], [Exchange], [Materialise], [Pull]:
      pull/pull.go from the block client up to trying one peer after the other.
    - [Ingest]: ingest/ingest.go, sharing a snapshot.
    - [Hfapi], [Idle]: hfapi/hfapi.go, the client of the Hub and the watchdog on
      its downloads.  [Fallback]: pull/hffallback.go, pulling from the Hub.
    - [Pipeline]: [Run] of pull/pull.go, the sources put together.
    - [Controls], [Socket]: controls/controls.go, a connection with its command
      and the client's side; the socket file and the shutdown channel.
    - [Watch]: watch/watch.go, events, debouncing, rescans and pruning.
    - [Cli], [Daemon]: src/main.go, the flags, what each command does with its
      arguments, the daemon a pull starts; the life of the daemon.

    States nest as the program's structures do: an [osst] (files) and the
    stores make a [node]; a node with the events reported so far is a [job]; a
    job that may talk to the Hub is a [hub]; a hub with a shutdown flag is a
    [daemon], a job with fsnotify's state a [watcher], a node with AutoNAT's
    verdicts a [tracker], and a node with the locks, handles and the socket of
    its process a [process].  [m_zoom] runs an
    operation of a part on the whole, so that a component's lemmas carry over.

    ** What the theorems show

    - Delivery: a pull that succeeds, from peers ([Pull.pullFromPeers_delivers])
      or from the Hub ([Fallback.pullFromHF_delivers]), leaves every file of the
      manifest readable through the snapshot with its size and hash, the
      reference pointing at the commit and the revision in the table
      ([Pipeline.Run_shares]), whatever the other side sends.
    - Integrity under failure: system calls may fail or the process die between
      any two; a blob is the verified one or what was there before
      ([Reconstruct.reconstructFile_verified], [reconstructFile_rollback],
      [Fallback.fetchBlob_verified]).
    - Confinement: names from the network or the table never lead outside a
      repository's directories ([Hfcache.safe_names_confine],
      [Evict.Commit_confined]); evicting keeps what other revisions use; tokens
      go to the Hub's origin only; the control socket is never open to others.
    - Storage: batches are atomic, the table implements a finite map.
    - Agreement of two sides: client and server of the map and of the block
      protocol, of the control socket ([Controls.Call_truth],
      [handle_answers], [proxied_pull]), and a command with and without a daemon
      ([Cli.same_work], [fork_same_config]).
    - Liveness and termination: [Node.handleBlocks_terminates], one final event
      per command ([Pipeline.Run_speaks]), announcing every revision before the
      daemon serves ([Daemon.daemon_ready]) and when it turns out to be public
      ([Reach.public_reannounces]), downloads that end ([Idle.guard_two_sided]).
    - Resources: the daemon gives back whatever it took ([Daemon.daemon_releases]).
    - The cache watcher: what one look at a repository does, which repositories
      a timer looks at, where an event belongs, when a rescan is idle.
    Witnesses apply the theorems to concrete states built from the [Toy]
    modules, in which every interface has a computable instance and every law
    is proved.

    ** Conventions

    - A Go error keeps its sentinel and the contexts around it, not the formatted
      arguments of its message.  Log lines are left out, events are kept.
    - Cancellation and deadlines appear as what they cause: an error of a stream,
      of a body or of a system call.  [Idle.guard] says which bodies the watchdog
      makes of those a server sends; [Hfapi] works on any body.  [GoFS.os_faults]
      schedules failures; a theorem that names no schedule holds for all.
    - An append of bytes to a file happens whole or fails.
    - The iteration order of a Go map is a parameter that permutes its keys.
    - Integers are [Z] with their wrap-around written out ([wrap64], [wrap32u]).
    - Events of one connection are sent when its command has ended.

    ** Fuel

    Where the code loops or recurses over data it does not control, a bound is
    explicit.  [Node.serve] gets one round per byte to come and one more: a
    frame takes at least four.  [Blocks.collectLeaves] has the depth of the
    recursion as fuel and answers [None] beyond it, since the program's own
    recursion is unbounded; [Ingest.buildDir] needs one level per directory, and
    [buildDir_fuel] shows that enough; [Evict.walk] is complete with the fuel
    that [Evict.enough] asks for, one more than the stored blocks and their links;
    [Controls.call_loop] one round per byte, as an event takes four.
    [Watch.climb] has the code's own limit of six.

    ** Interfaces

    [Lib] (multiformats, UnixFS, block store, file manager, hashes),
    [Store.Bolt]/[Datastore], [Identity.Keys], [Net.Network],
    [Ingest.Importer], [Hfapi.Urls], [Watch.Notifier], and in [Cli] the
    functions [parse_int64], [parse_duration] and [level_ok].  The laws that
    theorems use ([...Laws]) are documented behaviour of one call each.  Within
    the repository, [Store.Batching] with [BatchingLaws] is what the adapter
    promises and the table relies on.

    ** Not modelled

    - node.go: the options handed to libp2p (transports, limits, AutoNAT, hole
      punching), which configure a library and are not observable here.
    - main.go: the output of commands other than the daemon's banner, usage,
      signals, and the start of the child process itself.
    - The scheduling of goroutines: one command, handler or look at a repository
      runs at a time.  Exceptions are the race on the shutdown channel
      ([Socket]), the reader of reachability verdicts and the other users of the
      node beside it ([Reach]), and what is done to a daemon's node while it
      serves ([Daemon]).
    - The pass-through methods of readThrough and absFile, dialHint (a text added
      to one error), log lines, tests, packaging. *)
From stdpp Require Export base gmap strings list fin_maps option sorting.
From Stdlib Require Export Ascii ZArith Lia.

Set Default Goal Selector "!".

(** ** Go errors

    A Go error is modelled by what the program can observe of it: the sentinel
    at its root (tested with [errors.Is] or [==]) and the contexts wrapped
    around it with [fmt.Errorf("ctx: %w", err)].  The formatted arguments of a
    message are not kept: no branch of the program reads them. *)
Inductive sentinel :=
  | SNotExist          (* os.ErrNotExist, ENOENT *)
  | SExist             (* os.ErrExist, EEXIST *)
  | SNotDir            (* ENOTDIR *)
  | SIsDir             (* EISDIR *)
  | SNotEmpty          (* ENOTEMPTY *)
  | SInval             (* EINVAL *)
  | SLoop              (* ELOOP *)
  | SIO                (* any other failure of the operating system *)
  | SEOF               (* io.EOF *)
  | SUnexpectedEOF     (* io.ErrUnexpectedEOF *)
  | SFrameTooLarge     (* protoio.ErrFrameTooLarge *)
  | SDsNotFound        (* datastore.ErrNotFound *)
  | SIpldNotFound      (* ipld.ErrNotFound *)
  | SKeyRequired       (* bbolt.ErrKeyRequired *)
  | SReset             (* network.ErrReset *)
  | SCanceled          (* context.Canceled *)
  | STimeout           (* an error whose Timeout() is true *)
  | SText.             (* errors.New / fmt.Errorf without a wrapped error *)

#[export] Instance sentinel_eq_dec : EqDecision sentinel.
Proof. solve_decision. Defined.

Inductive error :=
  | ErrRoot (s : sentinel) (msg : string)
  | ErrWrap (ctx : string) (e : error).

#[export] Instance error_eq_dec : EqDecision error.
Proof. solve_decision. Defined.

(** [errors.New] and [fmt.Errorf] without [%w]. *)
Abbreviation errorf msg := (ErrRoot SText msg).

Fixpoint error_root (e : error) : sentinel :=
  match e with
  | ErrRoot s _ => s
  | ErrWrap _ e' => error_root e'
  end.

(** [errors.Is(err, sentinel)]. *)
Definition errors_is (e : error) (s : sentinel) : bool := bool_decide (error_root e = s).

(** ** Results and the state-and-error monad *)
Inductive result (A : Type) :=
  | Ok (a : A)
  | Err (e : error).
Arguments Ok {A} a.
Arguments Err {A} e.

#[export] Instance result_eq_dec {A} `{EqDecision A} : EqDecision (result A).
Proof. solve_decision. Defined.

#[export] Instance result_ret : MRet result := @Ok.
#[export] Instance result_bind : MBind result := λ A B f r,
  match r with Ok a => f a | Err e => Err e end.
#[export] Instance result_throw : MThrow error result := λ A e, Err e.

Definition is_ok {A} (r : result A) : bool := match r with Ok _ => true | Err _ => false end.

Definition ok_or {A} (e : error) (o : option A) : result A :=
  match o with Some a => Ok a | None => Err e end.

Definition wrap_result {A} (ctx : string) (r : result A) : result A :=
  match r with Ok a => Ok a | Err e => Err (ErrWrap ctx e) end.

(** A Go function over the state [S]: the state it leaves survives an error. *)
Definition M (S A : Type) : Type := S → result A * S.

#[export] Instance M_ret {S} : MRet (M S) := λ A a s, (Ok a, s).
#[export] Instance M_bind {S} : MBind (M S) := λ A B f m s,
  match m s with
  | (Ok a, s') => f a s'
  | (Err e, s') => (Err e, s')
  end.
#[export] Instance M_throw {S} : MThrow error (M S) := λ A e s, (Err e, s).

Definition m_fail {S A} (e : error) : M S A := λ s, (Err e, s).
Definition m_lift {S A} (r : result A) : M S A := λ s, (r, s).
Definition m_get {S} : M S S := λ s, (Ok s, s).
Definition m_gets {S A} (f : S → A) : M S A := λ s, (Ok (f s), s).
Definition m_modify {S} (f : S → S) : M S unit := λ s, (Ok tt, f s).

(** [x, err := m], the error kept as a value. *)
Definition m_try {S A} (m : M S A) : M S (result A) := λ s,
  let '(r, s') := m s in (Ok r, s').

(** [_ = m], the error dropped. *)
Definition m_ignore {S A} (m : M S A) : M S unit := λ s, (Ok tt, (m s).2).

(** [if err != nil { return fmt.Errorf("ctx: %w", err) }]. *)
Definition m_wrap {S A} (ctx : string) (m : M S A) : M S A := λ s,
  let '(r, s') := m s in (wrap_result ctx r, s').

(** Running a component's operation on the part of a larger state it owns. *)
Definition m_zoom {S T A} (get : S → T) (set : T → S → S) (m : M T A) : M S A := λ s,
  let '(r, t) := m (get s) in (r, set t s).

(** [for _, x := range l { if err := f(x); err != nil { return err } }]. *)
Fixpoint m_foreach {S A} (f : A → M S unit) (l : list A) : M S unit :=
  match l with
  | [] => mret tt
  | x :: l' => f x ;; m_foreach f l'
  end.

(** Collecting a slice over a loop that may stop at the first error. *)
Fixpoint m_flat_map {S A B} (f : A → M S (list B)) (l : list A) : M S (list B) :=
  match l with
  | [] => mret []
  | x :: l' => ys ← f x; zs ← m_flat_map f l'; mret (ys ++ zs)
  end.

(** ** Reasoning about [M]

    [pres R m]: whatever [m] returns, the state it leaves is [R]-related to the
    state it found.  For a preorder [R] the property is closed under the
    combinators, so "this handler never touches that part of the state" is one
    call of [pres_auto]. *)
Definition pres {S A} (R : relation S) (m : M S A) : Prop := ∀ s, R s (m s).2.

(** [triple P m Q]: from a state in [P], [m] ends with a result and state in [Q]. *)
Definition triple {S A} (P : S → Prop) (m : M S A) (Q : result A → S → Prop) : Prop :=
  ∀ s, P s → Q (m s).1 (m s).2.

Section monad_laws.
Context {S : Type}.
Implicit Types s : S.

Lemma bind_run_ok {A B} (m : M S A) (f : A → M S B) s a s' :
  m s = (Ok a, s') → (m ≫= f) s = f a s'.
Proof. intros E. unfold mbind, M_bind. by rewrite E. Qed.

Lemma bind_run_err {A B} (m : M S A) (f : A → M S B) s e s' :
  m s = (Err e, s') → (m ≫= f) s = (Err e, s').
Proof. intros E. unfold mbind, M_bind. by rewrite E. Qed.

Lemma bind_try_run {A B} (m : M S A) (f : result A → M S B) s r s' :
  m s = (r, s') → (m_try m ≫= f) s = f r s'.
Proof. intros E. unfold m_try, mbind, M_bind. by rewrite E. Qed.

Lemma bind_ignore_run {A B} (m : M S A) (f : unit → M S B) s :
  (m_ignore m ≫= f) s = f tt (m s).2.
Proof. done. Qed.

Lemma bind_gets_run {A B} (g : S → A) (f : A → M S B) s : (m_gets g ≫= f) s = f (g s) s.
Proof. done. Qed.

Lemma bind_wrap_run {A B} ctx (m : M S A) (f : A → M S B) s r s' :
  m s = (r, s') →
  (m_wrap ctx m ≫= f) s = match r with Ok a => f a s' | Err e => (Err (ErrWrap ctx e), s') end.
Proof. intros E. unfold m_wrap, mbind, M_bind. rewrite E. by destruct r. Qed.

Lemma bind_lift_run {A B} (r : result A) (f : A → M S B) s :
  (m_lift r ≫= f) s = match r with Ok a => f a s | Err e => (Err e, s) end.
Proof. by destruct r. Qed.

Lemma bind_ok_inv {A B} (m : M S A) (f : A → M S B) s b s'' :
  (m ≫= f) s = (Ok b, s'') → ∃ a s', m s = (Ok a, s') ∧ f a s' = (Ok b, s'').
Proof.
  unfold mbind, M_bind. destruct (m s) as [[a|e] s'] eqn:E; [|done]. eauto.
Qed.

Lemma bind_err_inv {A B} (m : M S A) (f : A → M S B) s e s'' :
  (m ≫= f) s = (Err e, s'') →
  m s = (Err e, s'') ∨ ∃ a s', m s = (Ok a, s') ∧ f a s' = (Err e, s'').
Proof.
  unfold mbind, M_bind. destruct (m s) as [[a|e'] s'] eqn:E; [eauto|].
  intros [= -> ->]. by left.
Qed.

Lemma wrap_ok_inv {A} ctx (m : M S A) s a s' : m_wrap ctx m s = (Ok a, s') → m s = (Ok a, s').
Proof. unfold m_wrap. by destruct (m s) as [[]]. Qed.
Lemma bind_assoc {A B C} (m : M S A) (f : A → M S B) (g : B → M S C) s :
  ((m ≫= f) ≫= g) s = (m ≫= λ a, f a ≫= g) s.
Proof. unfold mbind, M_bind. by destruct (m s) as [[]]. Qed.
End monad_laws.

Section preservation.
Context {S : Type} (R : relation S) `{!PreOrder R}.

Lemma pres_ret {A} (a : A) : pres R (mret a : M S A).
Proof. intros s. reflexivity. Qed.
Lemma pres_fail {A} e : pres R (m_fail e : M S A).
Proof. intros s. reflexivity. Qed.
Lemma pres_throw {A} (e : error) : pres R (mthrow e : M S A).
Proof. intros s. reflexivity. Qed.
Lemma pres_lift {A} (r : result A) : pres R (m_lift r).
Proof. intros s. reflexivity. Qed.
Lemma pres_get : pres R m_get.
Proof. intros s. reflexivity. Qed.
Lemma pres_gets {A} (f : S → A) : pres R (m_gets f).
Proof. intros s. reflexivity. Qed.
Lemma pres_modify f : (∀ s, R s (f s)) → pres R (m_modify f).
Proof. intros H s. apply H. Qed.
Lemma pres_bind {A B} (m : M S A) (f : A → M S B) :
  pres R m → (∀ a, pres R (f a)) → pres R (m ≫= f).
Proof.
  intros Hm Hf s. specialize (Hm s). unfold mbind, M_bind.
  destruct (m s) as [[a|e] s']; [|done]. etrans; [apply Hm|apply Hf].
Qed.
Lemma pres_try {A} (m : M S A) : pres R m → pres R (m_try m).
Proof. intros Hm s. specialize (Hm s). unfold m_try. by destruct (m s). Qed.
Lemma pres_ignore {A} (m : M S A) : pres R m → pres R (m_ignore m).
Proof. intros Hm s. apply Hm. Qed.
Lemma pres_wrap {A} ctx (m : M S A) : pres R m → pres R (m_wrap ctx m).
Proof. intros Hm s. specialize (Hm s). unfold m_wrap. by destruct (m s). Qed.
Lemma pres_foreach {A} (f : A → M S unit) l :
  (∀ x, pres R (f x)) → pres R (m_foreach f l).
Proof.
  intros Hf. induction l as [|x l IH]; [apply pres_ret|]. by apply pres_bind.
Qed.
Lemma pres_foreach_in {A} (f : A → M S unit) l :
  (∀ x, x ∈ l → pres R (f x)) → pres R (m_foreach f l).
Proof.
  induction l as [|x l IH]; intros Hf; [apply pres_ret|].
  apply pres_bind; [apply Hf; set_solver|]. intros _. apply IH. set_solver.
Qed.
Lemma pres_flat_map {A B} (f : A → M S (list B)) l :
  (∀ x, pres R (f x)) → pres R (m_flat_map f l).
Proof.
  intros Hf. induction l as [|x l IH]; [apply pres_ret|].
  apply pres_bind; [apply Hf|]. intros ys. apply pres_bind; [apply IH|]. intros zs. apply pres_ret.
Qed.
End preservation.

Lemma pres_zoom {S T A} (R : relation S) (Q : relation T) (get : S → T) set (m : M T A) :
  (∀ s t, Q (get s) t → R s (set t s)) → pres Q m → pres R (m_zoom get set m).
Proof.
  intros H Hm s. specialize (Hm (get s)). unfold m_zoom.
  destruct (m (get s)) as [r t]. by apply H.
Qed.

Section triples.
Context {S : Type}.

Lemma triple_bind {A B} (P : S → Prop) (m : M S A) (mid : A → S → Prop)
    (f : A → M S B) (Q : result B → S → Prop) :
  triple P m (λ r s, match r with Ok a => mid a s | Err e => Q (Err e) s end) →
  (∀ a, triple (mid a) (f a) Q) →
  triple P (m ≫= f) Q.
Proof.
  intros Hm Hf s Hs. specialize (Hm s Hs). unfold mbind, M_bind.
  destruct (m s) as [[a|e] s']; [|done]. by apply Hf.
Qed.
Lemma triple_conseq {A} (P P' : S → Prop) (m : M S A) (Q Q' : result A → S → Prop) :
  triple P' m Q' → (∀ s, P s → P' s) → (∀ r s, Q' r s → Q r s) → triple P m Q.
Proof. unfold triple. eauto. Qed.
Lemma triple_foreach {A} (I : S → Prop) (f : A → M S unit) l :
  (∀ x, triple I (f x) (λ _, I)) → triple I (m_foreach f l) (λ _, I).
Proof.
  intros Hf. induction l as [|x l IH]; [by intros s|].
  eapply (triple_bind _ _ (λ _, I)); [|done].
  eapply triple_conseq; [apply Hf|done|]. by intros [].
Qed.
End triples.

Create HintDb pres discriminated.
#[export] Hint Constants Opaque : pres.
#[export] Hint Resolve pres_ret pres_fail pres_throw pres_lift pres_get pres_gets : pres.
#[export] Hint Resolve pres_bind pres_try pres_ignore pres_wrap pres_foreach pres_flat_map : pres.
#[export] Hint Extern 5 (∀ _, pres _ _) => intros ? : pres.

(** Closes [pres] goals by following the shape of the program: binds, returns
    and the case splits in between. *)
Ltac pres_step :=
  match goal with
  | |- pres _ (match ?x with _ => _ end) => destruct x
  | |- pres _ (if ?x then _ else _) => destruct x
  | |- pres _ (let '(_, _) := ?x in _) => destruct x
  | |- pres _ (_ ≫= _) => apply pres_bind; [try exact _| |intros ?]
  | |- pres _ (m_wrap _ (_ ≫= _)) => apply pres_wrap
  | |- pres _ (m_try (_ ≫= _)) => apply pres_try
  | |- pres _ (m_ignore (_ ≫= _)) => apply pres_ignore
  | |- pres _ _ => solve [eauto 3 with pres typeclass_instances]
  end.
Ltac pres_auto := repeat pres_step.

(** ** Two runs side by side

    [alike R m1 m2]: from states an observer of [R] cannot tell apart, both
    programs return the same and leave such states. *)
Definition alike {S A} (R : relation S) (m1 m2 : M S A) : Prop :=
  ∀ s1 s2, R s1 s2 → (m1 s1).1 = (m2 s2).1 ∧ R (m1 s1).2 (m2 s2).2.

Section alike.
Context {S : Type} (R : relation S).

Lemma alike_ret {A} (a : A) : alike R (mret a) (mret a).
Proof. by intros s1 s2. Qed.
Lemma alike_fail {A} e : alike R (m_fail e : M S A) (m_fail e).
Proof. by intros s1 s2. Qed.
Lemma alike_lift {A} (r : result A) : alike R (m_lift r) (m_lift r).
Proof. by intros s1 s2. Qed.
Lemma alike_bind {A B} (m1 m2 : M S A) (f1 f2 : A → M S B) :
  alike R m1 m2 → (∀ a, alike R (f1 a) (f2 a)) → alike R (m1 ≫= f1) (m2 ≫= f2).
Proof.
  intros Hm Hf s1 s2 Hs. destruct (Hm s1 s2 Hs) as [Hr Hs']. unfold mbind, M_bind.
  destruct (m1 s1) as [[a|e] t1], (m2 s2) as [[b|e'] t2]; simplify_eq/=; [by apply Hf|done].
Qed.
Lemma alike_try {A} (m1 m2 : M S A) : alike R m1 m2 → alike R (m_try m1) (m_try m2).
Proof.
  intros Hm s1 s2 Hs. destruct (Hm s1 s2 Hs) as [Hr Hs']. unfold m_try.
  destruct (m1 s1), (m2 s2); simplify_eq/=. done.
Qed.
Lemma alike_wrap {A} ctx (m1 m2 : M S A) : alike R m1 m2 → alike R (m_wrap ctx m1) (m_wrap ctx m2).
Proof.
  intros Hm s1 s2 Hs. destruct (Hm s1 s2 Hs) as [Hr Hs']. unfold m_wrap.
  destruct (m1 s1) as [[] ?], (m2 s2) as [[] ?]; by simplify_eq/=.
Qed.
Lemma alike_ignore {A} (m1 m2 : M S A) : alike R m1 m2 → alike R (m_ignore m1) (m_ignore m2).
Proof. intros Hm s1 s2 Hs. destruct (Hm s1 s2 Hs) as [_ Hs']. done. Qed.
End alike.
Lemma alike_zoom {S T A} (R : relation S) (Q : relation T) (get : S → T) set (m1 m2 : M T A) :
  (∀ s1 s2, R s1 s2 → Q (get s1) (get s2)) →
  (∀ s1 s2 t1 t2, R s1 s2 → Q t1 t2 → R (set t1 s1) (set t2 s2)) →
  alike Q m1 m2 → alike R (m_zoom get set m1) (m_zoom get set m2).
Proof.
  intros Hg Hs Hm s1 s2 H. destruct (Hm _ _ (Hg _ _ H)) as [Hr Ht]. unfold m_zoom.
  destruct (m1 (get s1)), (m2 (get s2)); simplify_eq/=. auto.
Qed.

(** ** Machine integers *)
Definition int64_min : Z := - 2 ^ 63.
Definition int64_max : Z := 2 ^ 63 - 1.
Definition in_int64 (z : Z) : Prop := (int64_min ≤ z ≤ int64_max)%Z.
(** Two's complement wrap-around of Go's [int64]. *)
Definition wrap64 (z : Z) : Z := ((z + 2 ^ 63) mod 2 ^ 64 - 2 ^ 63)%Z.
Definition wrap32u (z : Z) : Z := (z mod 2 ^ 32)%Z.

Lemma wrap64_small z : in_int64 z → wrap64 z = z.
Proof.
  unfold in_int64, wrap64, int64_min, int64_max. intros H.
  rewrite Z.mod_small; lia.
Qed.
Lemma wrap64_range z : in_int64 (wrap64 z).
Proof.
  unfold in_int64, wrap64, int64_min, int64_max.
  pose proof (Z.mod_pos_bound (z + 2 ^ 63) (2 ^ 64)). lia.
Qed.
