(* ===== verification/GoStrings.v ===== *)
(** * Go's [strings], [encoding/hex] and [strconv] as the program uses them.

    A Go [string] and a Go [[]byte] are both sequences of bytes; both are
    modelled by [String.string], whose characters are the 256 byte values.
    [TrimSpace] and [ToLower] are given on ASCII: every caller compares the
    result with an ASCII word or measures a hexadecimal hash, for which the
    non-ASCII part of Unicode's tables makes no difference. *)
From S2P Require Import Prelude.
From Stdlib Require Import DecimalString DecimalZ.

(** ** Characters *)
Definition ch_slash : ascii := "/"%char.
Definition ch_dash : ascii := "-"%char.
Definition ch_quote : ascii := "034"%char.
Definition ch_backslash : ascii := "\"%char.
Definition ch_nl : ascii := "010"%char.
Definition nl : string := String ch_nl EmptyString.

Definition ascii_in (lo hi : N) (a : ascii) : bool :=
  (lo <=? N_of_ascii a)%N && (N_of_ascii a <=? hi)%N.
(** '\t', '\n', '\v', '\f', '\r' and ' '. *)
Definition is_space (a : ascii) : bool := ascii_in 9 13 a || (N_of_ascii a =? 32)%N.
Definition lower_ascii (a : ascii) : ascii :=
  if ascii_in 65 90 a then ascii_of_N (N_of_ascii a + 32) else a.

(** ** Prefixes and searching *)
Fixpoint has_prefix (s p : string) {struct p} : bool :=
  match p, s with
  | "", _ => true
  | String b p', String a s' => Ascii.eqb a b && has_prefix s' p'
  | String _ _, "" => false
  end.

Fixpoint drop_bytes (n : nat) (s : string) {struct n} : string :=
  match n, s with
  | O, _ => s
  | S n', String _ s' => drop_bytes n' s'
  | S _, "" => ""
  end.

Fixpoint take_bytes (n : nat) (s : string) {struct n} : string :=
  match n, s with
  | O, _ => ""
  | S n', String a s' => String a (take_bytes n' s')
  | S _, "" => ""
  end.

Definition trim_prefix (s p : string) : string :=
  if has_prefix s p then drop_bytes (String.length p) s else s.

Fixpoint contains_char (c : ascii) (s : string) : bool :=
  match s with
  | "" => false
  | String a s' => Ascii.eqb a c || contains_char c s'
  end.

(** [strings.ContainsAny(s, chars)]. *)
Fixpoint contains_any (s chars : string) : bool :=
  match s with
  | "" => false
  | String a s' => contains_char a chars || contains_any s' chars
  end.

(** ** Splitting and joining *)
(** [strings.Split(s, sep)] for a separator of one byte; never empty. *)
Fixpoint split_on (c : ascii) (s : string) : list string :=
  match s with
  | "" => [""]
  | String a s' =>
      if Ascii.eqb a c then "" :: split_on c s'
      else match split_on c s' with
           | w :: ws => String a w :: ws
           | [] => [String a ""]
           end
  end.

(** [strings.Join(l, sep)]. *)
Fixpoint join (sep : string) (l : list string) : string :=
  match l with
  | [] => ""
  | [w] => w
  | w :: ws => w +:+ sep +:+ join sep ws
  end.

(** [strings.ReplaceAll(s, old, new)], [old] not empty: [skip] counts the bytes
    of the current match still to be dropped. *)
Fixpoint replace_all_from (skip : nat) (old new s : string) : string :=
  match s with
  | "" => ""
  | String a s' =>
      match skip with
      | S k => replace_all_from k old new s'
      | O =>
          if has_prefix s old
          then new +:+ replace_all_from (String.length old - 1) old new s'
          else String a (replace_all_from 0 old new s')
      end
  end.
Definition replace_all (s old new : string) : string := replace_all_from 0 old new s.

(** ** Trimming and case *)
Fixpoint trim_left_fn (f : ascii → bool) (s : string) : string :=
  match s with
  | "" => ""
  | String a s' => if f a then trim_left_fn f s' else s
  end.
Fixpoint trim_right_fn (f : ascii → bool) (s : string) : string :=
  match s with
  | "" => ""
  | String a s' =>
      match trim_right_fn f s' with
      | "" => if f a then "" else String a ""
      | t => String a t
      end
  end.
Definition trim_space (s : string) : string := trim_right_fn is_space (trim_left_fn is_space s).
Fixpoint to_lower (s : string) : string :=
  match s with
  | "" => ""
  | String a s' => String (lower_ascii a) (to_lower s')
  end.

(** ** Hexadecimal *)
Definition hex_digit (n : N) : ascii :=
  if (n <? 10)%N then ascii_of_N (48 + n) else ascii_of_N (87 + n).
Definition hex_val (a : ascii) : option N :=
  if ascii_in 48 57 a then Some (N_of_ascii a - 48)%N
  else if ascii_in 97 102 a then Some (N_of_ascii a - 87)%N
  else if ascii_in 65 70 a then Some (N_of_ascii a - 55)%N
  else None.

(** [hex.EncodeToString]. *)
Fixpoint hex_encode (s : string) : string :=
  match s with
  | "" => ""
  | String a s' =>
      String (hex_digit (N_of_ascii a / 16)) (String (hex_digit (N_of_ascii a mod 16)) (hex_encode s'))
  end.

(** [hex.DecodeString]: [None] on an odd length or a byte that is no digit. *)
Fixpoint hex_decode (s : string) : option string :=
  match s with
  | "" => Some ""
  | String a (String b s') =>
      h ← hex_val a; l ← hex_val b; r ← hex_decode s';
      Some (String (ascii_of_N (16 * h + l)) r)
  | String _ "" => None
  end.

(** ** Decimal integers: [%d] and its inverse *)
Definition dec_of_Z (z : Z) : string := NilZero.string_of_int (Z.to_int z).
Definition Z_of_dec (s : string) : option Z := Z.of_int <$> NilZero.int_of_string s.

(** ** Lemmas *)
Section strings.
Implicit Types s t p w : string.

Lemma sapp_cons a s t : String a s +:+ t = String a (s +:+ t).
Proof. done. Qed.
Lemma sapp_nil_l s : "" +:+ s = s.
Proof. done. Qed.
Lemma sapp_nil_r s : s +:+ "" = s.
Proof. induction s as [|a s IH]; [done|]. by rewrite sapp_cons, IH. Qed.
Lemma sapp_assoc s t p : (s +:+ t) +:+ p = s +:+ t +:+ p.
Proof. induction s as [|a s IH]; [done|]. by rewrite !sapp_cons, IH. Qed.
Lemma slength_app s t : String.length (s +:+ t) = String.length s + String.length t.
Proof. induction s as [|a s IH]; [done|]. rewrite sapp_cons. simpl. by rewrite IH. Qed.

Lemma has_prefix_app s p : has_prefix (p +:+ s) p = true.
Proof.
  induction p as [|a p IH]; [done|]. rewrite sapp_cons. simpl.
  by rewrite Ascii.eqb_refl, IH.
Qed.
Lemma has_prefix_spec s p : has_prefix s p = true ↔ ∃ t, s = p +:+ t.
Proof.
  split; [|intros [t ->]; apply has_prefix_app].
  revert s. induction p as [|b p IH]; intros s H; [by exists s|].
  destruct s as [|a s]; [done|]. simpl in H.
  apply andb_true_iff in H as [->%Ascii.eqb_eq H].
  destruct (IH s H) as [t ->]. by exists t.
Qed.
Lemma drop_bytes_app p s : drop_bytes (String.length p) (p +:+ s) = s.
Proof. by induction p. Qed.
Lemma trim_prefix_app p s : trim_prefix (p +:+ s) p = s.
Proof. unfold trim_prefix. by rewrite has_prefix_app, drop_bytes_app. Qed.
Lemma take_bytes_app p s : take_bytes (String.length p) (p +:+ s) = p.
Proof.
  induction p as [|a p IH]; [by destruct s|]. rewrite sapp_cons. simpl. by rewrite IH.
Qed.
Lemma take_drop_bytes n s : take_bytes n s +:+ drop_bytes n s = s.
Proof.
  revert s. induction n as [|n IH]; intros [|a s]; try done.
  simpl. by rewrite sapp_cons, IH.
Qed.
Lemma length_take_bytes n s : String.length (take_bytes n s) = n `min` String.length s.
Proof. revert s. induction n as [|n IH]; intros [|a s]; simpl; [done..|]. by rewrite IH. Qed.
Lemma length_drop_bytes n s : String.length (drop_bytes n s) = String.length s - n.
Proof. revert s. induction n as [|n IH]; intros [|a s]; simpl; [done..|]. by rewrite IH. Qed.

Lemma contains_char_app c s t :
  contains_char c (s +:+ t) = contains_char c s || contains_char c t.
Proof.
  induction s as [|a s IH]; [done|]. rewrite sapp_cons. simpl. by rewrite IH, orb_assoc.
Qed.
Lemma contains_any_chars s chars :
  contains_any s chars = false →
  ∀ c, contains_char c chars = true → contains_char c s = false.
Proof.
  induction s as [|a s IH]; intros H c Hc; [done|]. simpl in *.
  apply orb_false_iff in H as [Ha H]. rewrite (IH H c Hc), orb_false_r.
  destruct (Ascii.eqb_spec a c) as [->|]; [congruence|done].
Qed.

Lemma split_on_nonempty c s : split_on c s ≠ [].
Proof. destruct s as [|a s]; simpl; [done|]. repeat case_match; done. Qed.
Lemma split_on_none c s : contains_char c s = false → split_on c s = [s].
Proof.
  induction s as [|a s IH]; simpl; [done|].
  intros [-> H]%orb_false_iff. by rewrite IH.
Qed.
Lemma split_on_app_sep c s t :
  contains_char c s = false →
  split_on c (s +:+ String c t) = s :: split_on c t.
Proof.
  induction s as [|a s IH]; simpl.
  - intros _. cbn. by rewrite Ascii.eqb_refl.
  - intros [Ha H]%orb_false_iff. by rewrite Ha, IH.
Qed.
Lemma split_on_app c s t :
  split_on c (s +:+ String c t) = split_on c s ++ split_on c t.
Proof.
  induction s as [|a s IH].
  - rewrite sapp_nil_l. simpl. by rewrite Ascii.eqb_refl.
  - rewrite sapp_cons. simpl. destruct (Ascii.eqb a c); [by rewrite IH|].
    rewrite IH. destruct (split_on c s) eqn:E; [|done].
    by destruct (split_on_nonempty c s).
Qed.
Lemma join_cons sep w ws : ws ≠ [] → join sep (w :: ws) = w +:+ sep +:+ join sep ws.
Proof. by destruct ws. Qed.
Lemma join_split c s : join (String c "") (split_on c s) = s.
Proof.
  induction s as [|a s IH]; [done|]. simpl.
  destruct (Ascii.eqb_spec a c) as [->|].
  - rewrite join_cons by apply split_on_nonempty. by rewrite IH.
  - pose proof (split_on_nonempty c s).
    destruct (split_on c s) as [|w ws]; [done|].
    destruct ws; simpl in *; by rewrite <- IH.
Qed.
Lemma split_join c l :
  l ≠ [] → Forall (λ w, contains_char c w = false) l →
  split_on c (join (String c "") l) = l.
Proof.
  induction l as [|w l IH]; [done|]. intros _ [Hw Hl]%Forall_cons.
  destruct l as [|w' l]; [by apply split_on_none|].
  rewrite join_cons by done. rewrite sapp_cons, sapp_nil_l.
  rewrite split_on_app_sep by done. by rewrite IH.
Qed.
Lemma split_on_pieces c s : Forall (λ w, contains_char c w = false) (split_on c s).
Proof.
  induction s as [|a s IH]; simpl; [by repeat constructor|].
  destruct (Ascii.eqb a c) eqn:E; [by constructor|].
  destruct (split_on c s) as [|w ws]; constructor; simpl; rewrite ?E.
  - done.
  - constructor.
  - by inversion IH.
  - by inversion IH.
Qed.
End strings.

(** ** Hexadecimal round trips *)
Lemma hex_val_digit n : (n < 16)%N → hex_val (hex_digit n) = Some n.
Proof.
  intros H. assert (∃ k, k < 16 ∧ n = N.of_nat k) as (k & Hk & ->) by (exists (N.to_nat n); lia).
  do 16 (destruct k as [|k]; [done|]). lia.
Qed.

Lemma hex_decode_encode s : hex_decode (hex_encode s) = Some s.
Proof.
  induction s as [|a s IH]; [done|]. cbn [hex_encode hex_decode].
  rewrite !hex_val_digit; [|by destruct a as [[] [] [] [] [] [] [] []]|by apply N.mod_lt].
  simpl. rewrite IH. simpl. f_equal. f_equal.
  rewrite <- N.div_mod by done. apply ascii_N_embedding.
Qed.

Lemma hex_val_inv a n :
  hex_val a = Some n → (n < 16)%N ∧ hex_digit n = lower_ascii a.
Proof.
  destruct a as [[] [] [] [] [] [] [] []]; vm_compute; intros [= <-]; done.
Qed.

(** Ten digits and six letters in either case: decoding forgets only the case. *)
(** Induction two characters at a time. *)
Fixpoint string_ind2 (P : string → Prop) (H0 : P "") (H1 : ∀ a, P (String a ""))
    (H2 : ∀ a b s, P s → P (String a (String b s))) (s : string) : P s :=
  match s with
  | "" => H0
  | String a "" => H1 a
  | String a (String b s') => H2 a b s' (string_ind2 P H0 H1 H2 s')
  end.
Lemma hex_encode_decode s r : hex_decode s = Some r → hex_encode r = to_lower s.
Proof.
  revert r. induction s as [|a|a b s IH] using string_ind2; intros r; simpl; [by intros [= <-]|done|].
  destruct (hex_val a) as [h|] eqn:Ha; [|done].
  destruct (hex_val b) as [l|] eqn:Hb; [|done]. simpl.
  destruct (hex_decode s) as [t|]; [|done]. intros [= <-].
  apply hex_val_inv in Ha as [Hh <-]. apply hex_val_inv in Hb as [Hl <-].
  cbn [hex_encode]. rewrite N_ascii_embedding by lia.
  rewrite (IH t eq_refl). do 2 f_equal.
  - f_equal. rewrite N.mul_comm, N.div_add_l, N.div_small by lia. lia.
  - f_equal. rewrite N.add_comm, N.mul_comm, N.Div0.mod_add. by apply N.mod_small.
Qed.

Lemma hex_encode_length s : String.length (hex_encode s) = 2 * String.length s.
Proof. induction s as [|a s IH]; [done|]. cbn [hex_encode String.length]. lia. Qed.
Lemma hex_decode_length s r : hex_decode s = Some r → String.length s = 2 * String.length r.
Proof.
  intros H. apply hex_encode_decode in H. rewrite <- hex_encode_length, H.
  induction s as [|a s IH] in |- *; [done|]. simpl. auto.
Qed.

Lemma Z_of_dec_of_Z z : Z_of_dec (dec_of_Z z) = Some z.
Proof.
  unfold Z_of_dec, dec_of_Z. rewrite NilZero.isi.
  - simpl. by rewrite DecimalZ.of_to.
  - destruct z as [|p|p]; simpl; [done| |done].
    pose proof (DecimalPos.Unsigned.to_uint_nonnil p). congruence.
  - destruct z as [|p|p]; simpl; [done..|].
    pose proof (DecimalPos.Unsigned.to_uint_nonnil p). congruence.
Qed.

(** Replacing a single character removes it. *)
Lemma replace_char_gone c new s :
  contains_char c new = false → contains_char c (replace_all s (String c "") new) = false.
Proof.
  intros Hn. unfold replace_all. induction s as [|a s IH]; [done|]. simpl.
  destruct (Ascii.eqb_spec a c) as [->|Hne]; simpl.
  - by rewrite contains_char_app, Hn, IH.
  - rewrite IH. destruct (Ascii.eqb_spec a c); [done|]. by rewrite ?orb_false_r.
Qed.
Lemma contains_any2 s a b :
  contains_any s (String a (String b "")) = contains_char a s || contains_char b s.
Proof.
  induction s as [|c s IH]; [done|]. simpl. rewrite IH, orb_false_r.
  rewrite (Ascii.eqb_sym a c), (Ascii.eqb_sym b c).
  destruct (Ascii.eqb c a), (Ascii.eqb c b), (contains_char a s), (contains_char b s); done.
Qed.

(** Text without blanks survives trimming, a final newline does not. *)
Fixpoint no_space (s : string) : bool :=
  match s with "" => true | String a s' => negb (is_space a) && no_space s' end.
Lemma trim_right_snoc f s a :
  f a = true → trim_right_fn f (s +:+ String a "") = trim_right_fn f s.
Proof.
  intros Ha. induction s as [|b s IH]; [simpl; by rewrite Ha|]. rewrite sapp_cons. simpl. by rewrite IH.
Qed.
Lemma trim_right_id s : no_space s = true → trim_right_fn is_space s = s.
Proof.
  induction s as [|a s IH]; [done|]. simpl. intros [Ha%negb_true_iff Hs]%andb_true_iff.
  rewrite IH, Ha by done. by destruct s.
Qed.
Lemma trim_space_line s : no_space s = true → s ≠ "" → trim_space (s +:+ nl) = s.
Proof.
  intros Hs Hne. unfold trim_space. destruct s as [|a s]; [done|].
  assert (is_space a = false) as Ha.
  { simpl in Hs. apply andb_true_iff in Hs as [Ha%negb_true_iff _]. done. }
  rewrite sapp_cons. simpl (trim_left_fn _ _). rewrite Ha. rewrite <- sapp_cons. unfold nl.
  rewrite trim_right_snoc by done. by apply trim_right_id.
Qed.
Lemma trim_left_idem f s : trim_left_fn f (trim_left_fn f s) = trim_left_fn f s.
Proof. induction s as [|a s IH]; [done|]. cbn [trim_left_fn]. destruct (f a) eqn:E; [done|]. cbn [trim_left_fn]. by rewrite E. Qed.
Lemma trim_right_idem f s : trim_right_fn f (trim_right_fn f s) = trim_right_fn f s.
Proof.
  induction s as [|a s IH]; [done|]. cbn [trim_right_fn]. destruct (trim_right_fn f s) as [|b t] eqn:E.
  - destruct (f a) eqn:Ea; [done|]. cbn [trim_right_fn]. by rewrite Ea.
  - change (trim_right_fn f (String a (String b t))) with
      (match trim_right_fn f (String b t) with "" => if f a then "" else String a "" | r => String a r end).
    by rewrite IH.
Qed.
Lemma trim_right_head f a s : f a = false → ∃ t, trim_right_fn f (String a s) = String a t.
Proof. intros H. cbn [trim_right_fn]. destruct (trim_right_fn f s); [rewrite H|]; eauto. Qed.
Lemma trim_space_idem s : trim_space (trim_space s) = trim_space s.
Proof.
  unfold trim_space. pose proof (trim_left_idem is_space s) as Hl. destruct (trim_left_fn is_space s) as [|a t]; [done|].
  assert (is_space a = false) as Ha.
  { cbn [trim_left_fn] in Hl. destruct (is_space a) eqn:E; [|done]. exfalso.
    assert (String.length (trim_left_fn is_space t) ≤ String.length t) as H.
    { clear. induction t as [|b t IH]; [done|]. cbn [trim_left_fn]. destruct (is_space b); simpl in *; lia. }
    rewrite Hl in H. simpl in H. lia. }
  destruct (trim_right_head is_space a t Ha) as [u Hu]. rewrite Hu. cbn [trim_left_fn]. rewrite Ha, <- Hu. by rewrite trim_right_idem.
Qed.
Lemma hex_no_space s r : hex_decode s = Some r → no_space s = true.
Proof.
  revert r. induction s as [|a|a b s IH] using string_ind2; intros r; [done|done|]. simpl.
  assert (∀ c n, hex_val c = Some n → is_space c = false) as Hv.
  { intros [[] [] [] [] [] [] [] []] n; vm_compute; done. }
  destruct (hex_val a) as [h|] eqn:Ha; [|done].
  destruct (hex_val b) as [l|] eqn:Hb; [|done]. simpl.
  destruct (hex_decode s) as [t|]; [|done]. intros _.
  by rewrite (Hv a h), (Hv b l), (IH t).
Qed.

(** ** Replacing one separator by two dashes and back *)
(** Every dash is followed by something other than a dash or a slash. *)
Fixpoint dash_ok (s : string) : bool :=
  match s with
  | "" => true
  | String a s' =>
      (negb (Ascii.eqb a ch_dash)
       || match s' with "" => true | String b _ => negb (Ascii.eqb b ch_dash) && negb (Ascii.eqb b ch_slash) end)
      && dash_ok s'
  end.
Lemma replace_dashes s : dash_ok s = true → replace_all (replace_all s "/" "--") "--" "/" = s.
Proof.
  unfold replace_all. induction s as [|a s IH]; [done|].
  cbn [dash_ok]. intros [Hd Hs]%andb_true_iff. specialize (IH Hs).
  cbn [replace_all_from has_prefix]. destruct (Ascii.eqb_spec a "/"%char) as [->|Ha].
  - change (if true && true then ?x else _) with x. change (String.length "/" - 1) with 0.
    change ("--" +:+ ?t) with (String ch_dash (String ch_dash t)).
    cbn [replace_all_from has_prefix]. simpl. by rewrite IH.
  - cbn [andb].
    cbn [replace_all_from has_prefix].
    match goal with |- (if ?c then _ else _) = _ => assert (c = false) as -> end; [|by rewrite IH].
    destruct (Ascii.eqb_spec a "-"%char) as [->|]; [|done].
    destruct s as [|b s]; [done|]. simpl in Hd. apply andb_true_iff in Hd as [Hb1 Hb2].
    cbn [replace_all_from has_prefix]. unfold ch_slash, ch_dash in *.
    destruct (Ascii.eqb_spec b "/"%char) as [->|]; [done|].
    simpl. destruct (Ascii.eqb_spec b "/"%char); [done|]. simpl. by destruct (Ascii.eqb_spec b "-"%char).
Qed.
