(* ===== verification/Json.v ===== *)
(** * Go's [encoding/json] as the program uses it.

    A document is a [json] value; [print] is the compact form of
    [json.Marshal], [print_indent] that of [json.MarshalIndent(v, "", " ")],
    [parse] is the reader behind [json.Unmarshal].  Strings are byte strings;
    bytes from 0x80 up are carried through unchanged, which is what
    [encoding/json] does with valid UTF-8 (it differs on invalid UTF-8, which
    it replaces, and on U+2028 and U+2029, which it escapes when writing). *)
From S2P Require Import Prelude GoStrings.
From Stdlib Require Import DecimalString DecimalN DecimalFacts.

Inductive json :=
  | JNull
  | JBool (b : bool)
  | JInt (z : Z)
  | JNum (lit : string)       (* a number that is not an integer literal *)
  | JStr (s : string)
  | JArr (l : list json)
  | JObj (l : list (string * json)).

Section json_ind.
Variable P : json → Prop.
Hypothesis Pnull : P JNull.
Hypothesis Pbool : ∀ b, P (JBool b).
Hypothesis Pint : ∀ z, P (JInt z).
Hypothesis Pnum : ∀ s, P (JNum s).
Hypothesis Pstr : ∀ s, P (JStr s).
Hypothesis Parr : ∀ l, Forall P l → P (JArr l).
Hypothesis Pobj : ∀ l, Forall (λ kv, P kv.2) l → P (JObj l).
Fixpoint json_nested_ind (j : json) : P j :=
  match j with
  | JNull => Pnull | JBool b => Pbool b | JInt z => Pint z | JNum s => Pnum s
  | JStr s => Pstr s
  | JArr l => Parr l ((fix go l : Forall P l :=
      match l with
      | [] => Forall_nil_2 _
      | x :: l' => Forall_cons_2 _ _ _ (json_nested_ind x) (go l')
      end) l)
  | JObj l => Pobj l ((fix go l : Forall (λ kv, P kv.2) l :=
      match l with
      | [] => Forall_nil_2 _
      | kv :: l' => Forall_cons_2 _ _ _ (json_nested_ind kv.2) (go l')
      end) l)
  end.
End json_ind.

(** ** Writing *)
Definition u00 (a : ascii) : string := "\u00" +:+ hex_encode (String a "").
(** HTML-safe escaping, the default of [json.Marshal]. *)
Definition escape_char (a : ascii) : string :=
  if Ascii.eqb a ch_quote then String ch_backslash (String ch_quote "")
  else if Ascii.eqb a ch_backslash then String ch_backslash (String ch_backslash "")
  else if Ascii.eqb a "008"%char then "\b"
  else if Ascii.eqb a "012"%char then "\f"
  else if Ascii.eqb a "010"%char then "\n"
  else if Ascii.eqb a "013"%char then "\r"
  else if Ascii.eqb a "009"%char then "\t"
  else if ascii_in 0 31 a || Ascii.eqb a "<"%char || Ascii.eqb a ">"%char || Ascii.eqb a "&"%char
  then u00 a
  else String a "".
Fixpoint escape (s : string) : string :=
  match s with "" => "" | String a s' => escape_char a +:+ escape s' end.
Definition quote (s : string) : string := String ch_quote (escape s +:+ String ch_quote "").

(** The layout of a document: compact, or one entry per line indented by one
    space per level. *)
Fixpoint spaces (n : nat) : string :=
  match n with O => "" | S n' => String " "%char (spaces n') end.
Definition pad (indent : bool) (depth : nat) : string :=
  if indent then nl +:+ spaces depth else "".
Fixpoint printw (indent : bool) (depth : nat) (j : json) : string :=
  match j with
  | JNull => "null"
  | JBool true => "true"
  | JBool false => "false"
  | JInt z => dec_of_Z z
  | JNum lit => lit
  | JStr s => quote s
  | JArr [] => "[]"
  | JArr ((_ :: _) as l) =>
      "[" +:+ pad indent (S depth)
          +:+ join ("," +:+ pad indent (S depth)) (map (printw indent (S depth)) l)
          +:+ pad indent depth +:+ "]"
  | JObj [] => "{}"
  | JObj ((_ :: _) as l) =>
      "{" +:+ pad indent (S depth)
          +:+ join ("," +:+ pad indent (S depth))
                (map (λ kv, quote kv.1 +:+ (if indent then ": " else ":")
                              +:+ printw indent (S depth) kv.2) l)
          +:+ pad indent depth +:+ "}"
  end.
(** [json.Marshal] and [json.MarshalIndent(v, "", " ")]. *)
Definition print (j : json) : string := printw false 0 j.
Definition print_indent (j : json) : string := printw true 0 j.

(** ** Reading *)
Definition is_ws (a : ascii) : bool :=
  Ascii.eqb a " "%char || Ascii.eqb a "009"%char || Ascii.eqb a "010"%char || Ascii.eqb a "013"%char.
Definition skip_ws (s : string) : string := trim_left_fn is_ws s.

(** UTF-8 encoding of a code point. *)
Definition utf8 (n : N) : string :=
  let b k := ascii_of_N k in
  (if n <? 128 then String (b n) ""
   else if n <? 2048 then String (b (192 + n / 64)) (String (b (128 + n mod 64)) "")
   else if n <? 65536 then
     String (b (224 + n / 4096)) (String (b (128 + n / 64 mod 64)) (String (b (128 + n mod 64)) ""))
   else
     String (b (240 + n / 262144)) (String (b (128 + n / 4096 mod 64))
       (String (b (128 + n / 64 mod 64)) (String (b (128 + n mod 64)) ""))))%N.
Definition replacement : string := utf8 65533.

Definition hex4 (a b c d : ascii) : option N :=
  x ← hex_val a; y ← hex_val b; z ← hex_val c; w ← hex_val d;
  Some (4096 * x + 256 * y + 16 * z + w)%N.
Definition is_high (n : N) : bool := (55296 <=? n)%N && (n <? 56320)%N.
Definition is_low (n : N) : bool := (56320 <=? n)%N && (n <? 57344)%N.

Definition simple_escape (e : ascii) : option ascii :=
  if Ascii.eqb e ch_quote then Some ch_quote
  else if Ascii.eqb e ch_backslash then Some ch_backslash
  else if Ascii.eqb e ch_slash then Some ch_slash
  else if Ascii.eqb e "b"%char then Some "008"%char
  else if Ascii.eqb e "f"%char then Some "012"%char
  else if Ascii.eqb e "n"%char then Some "010"%char
  else if Ascii.eqb e "r"%char then Some "013"%char
  else if Ascii.eqb e "t"%char then Some "009"%char
  else None.

(** The body of a string literal, after its opening quote: contents and rest.
    [high] is a pending high surrogate: it pairs with a low surrogate escaped
    right after it, and becomes U+FFFD otherwise. *)
Definition flush (high : option N) : string := match high with Some _ => replacement | None => "" end.
Fixpoint unescape (high : option N) (s : string) : option (string * string) :=
  match s with
  | "" => None
  | String a s1 =>
      if Ascii.eqb a ch_quote then Some (flush high, s1)
      else if Ascii.eqb a ch_backslash then
        match s1 with
        | String e s2 =>
            if Ascii.eqb e "u"%char then
              match s2 with
              | String h1 (String h2 (String h3 (String h4 s3))) =>
                  n ← hex4 h1 h2 h3 h4;
                  match high with
                  | Some h =>
                      if is_low n then
                        '(t, r) ← unescape None s3;
                        Some (utf8 (65536 + (h - 55296) * 1024 + (n - 56320)) +:+ t, r)
                      else if is_high n then
                        '(t, r) ← unescape (Some n) s3; Some (replacement +:+ t, r)
                      else '(t, r) ← unescape None s3; Some (replacement +:+ utf8 n +:+ t, r)
                  | None =>
                      if is_high n then unescape (Some n) s3
                      else
                        '(t, r) ← unescape None s3;
                        Some ((if is_low n then replacement else utf8 n) +:+ t, r)
                  end
              | _ => None
              end
            else
              c ← simple_escape e; '(t, r) ← unescape None s2;
              Some (flush high +:+ String c t, r)
        | "" => None
        end
      else if ascii_in 0 31 a then None
      else '(t, r) ← unescape None s1; Some (flush high +:+ String a t, r)
  end.

Definition is_digit (a : ascii) : bool := ascii_in 48 57 a.
Definition is_num_char (a : ascii) : bool :=
  is_digit a || Ascii.eqb a "-"%char || Ascii.eqb a "+"%char || Ascii.eqb a "."%char
  || Ascii.eqb a "e"%char || Ascii.eqb a "E"%char.
(** The longest prefix of characters that can stand in a number. *)
Fixpoint span_num (s : string) : string * string :=
  match s with
  | "" => ("", "")
  | String a s' =>
      if is_num_char a then let '(n, r) := span_num s' in (String a n, r) else ("", s)
  end.
Fixpoint span_digits (s : string) : string * string :=
  match s with
  | "" => ("", "")
  | String a s' =>
      if is_digit a then let '(n, r) := span_digits s' in (String a n, r) else ("", s)
  end.
(** JSON's number grammar: [-]int[frac][exp]; [Some true] for an integer. *)
Definition number_kind (lit : string) : option bool :=
  let s := trim_prefix lit "-" in
  let '(int, r) := span_digits s in
  if decide (int = "" ∨ (has_prefix int "0" = true ∧ int ≠ "0")) then None
  else if decide (r = "") then Some true
  else
    let '(frac_ok, r1) :=
      if has_prefix r "." then
        let '(f, r') := span_digits (drop_bytes 1 r) in (bool_decide (f ≠ ""), r')
      else (true, r) in
    let '(exp_ok, r2) :=
      match r1 with
      | String a r' =>
          if Ascii.eqb a "e"%char || Ascii.eqb a "E"%char then
            let r'' := if has_prefix r' "+" || has_prefix r' "-" then drop_bytes 1 r' else r' in
            let '(x, r3) := span_digits r'' in (bool_decide (x ≠ ""), r3)
          else (false, r1)
      | "" => (true, "")
      end in
    if frac_ok && exp_ok && bool_decide (r2 = "") then Some false else None.
Definition parse_number (lit : string) : option json :=
  k ← number_kind lit;
  if k : bool then z ← Z_of_dec lit; Some (JInt z) else Some (JNum lit).

(** A keyword, or else a number. *)
Definition parse_scalar (s : string) : option (json * string) :=
  if has_prefix s "null" then Some (JNull, drop_bytes 4 s)
  else if has_prefix s "true" then Some (JBool true, drop_bytes 4 s)
  else if has_prefix s "false" then Some (JBool false, drop_bytes 5 s)
  else let '(lit, r) := span_num s in j ← parse_number lit; Some (j, r).

(** Recursive descent; each call spends one unit of fuel. *)
Fixpoint parse_value (fuel : nat) (s : string) : option (json * string) :=
  match fuel with
  | O => None
  | S f =>
      match skip_ws s with
      | String a r =>
          if Ascii.eqb a ch_quote then '(t, r') ← unescape None r; Some (JStr t, r')
          else if Ascii.eqb a "["%char then
            if has_prefix (skip_ws r) "]" then Some (JArr [], drop_bytes 1 (skip_ws r))
            else '(l, r') ← parse_elems f r; Some (JArr l, r')
          else if Ascii.eqb a "{"%char then
            if has_prefix (skip_ws r) "}" then Some (JObj [], drop_bytes 1 (skip_ws r))
            else '(l, r') ← parse_members f r; Some (JObj l, r')
          else parse_scalar (String a r)
      | "" => None
      end
  end
with parse_elems (fuel : nat) (s : string) : option (list json * string) :=
  match fuel with
  | O => None
  | S f =>
      '(v, r) ← parse_value f s;
      match skip_ws r with
      | String a r' =>
          if Ascii.eqb a ","%char then '(l, r'') ← parse_elems f r'; Some (v :: l, r'')
          else if Ascii.eqb a "]"%char then Some ([v], r')
          else None
      | "" => None
      end
  end
with parse_members (fuel : nat) (s : string) : option (list (string * json) * string) :=
  match fuel with
  | O => None
  | S f =>
      match skip_ws s with
      | String a r =>
          if Ascii.eqb a ch_quote then
            '(k, r1) ← unescape None r;
            match skip_ws r1 with
            | String c r2 =>
                if Ascii.eqb c ":"%char then
                  '(v, r3) ← parse_value f r2;
                  match skip_ws r3 with
                  | String b r' =>
                      if Ascii.eqb b ","%char
                      then '(l, r'') ← parse_members f r'; Some ((k, v) :: l, r'')
                      else if Ascii.eqb b "}"%char then Some ([(k, v)], r')
                      else None
                  | "" => None
                  end
                else None
            | "" => None
            end
          else None
      | "" => None
      end
  end.

(** One value and nothing but blanks after it. *)
Definition parse (s : string) : option json :=
  match parse_value (S (2 * String.length s)) s with
  | Some (j, r) => if decide (skip_ws r = "") then Some j else None
  | None => None
  end.

(** ** Reading back what was written *)
Lemma trim_left_id f a s : f a = false → trim_left_fn f (String a s) = String a s.
Proof. intros H. simpl. by rewrite H. Qed.

Lemma unescape_char a t :
  unescape None (escape_char a +:+ t) = '(x, r) ← unescape None t; Some (String a x, r).
Proof.
  destruct a as [[] [] [] [] [] [] [] []];
    match goal with |- context [escape_char ?a] =>
      let e := eval vm_compute in (escape_char a) in change (escape_char a) with e
    end;
    rewrite ?sapp_cons, sapp_nil_l; simpl;
    by destruct (unescape None t) as [[]|].
Qed.
Lemma unescape_quote s rest :
  unescape None (escape s +:+ String ch_quote rest) = Some (s, rest).
Proof.
  induction s as [|a s IH]; [done|]. cbn [escape]. rewrite sapp_assoc.
  rewrite unescape_char, IH. done.
Qed.

(** Decimal literals. *)
Fixpoint all_digits (s : string) : bool :=
  match s with "" => true | String a s' => is_digit a && all_digits s' end.

Lemma uint_digits (d : Decimal.uint) : all_digits (DecimalString.NilEmpty.string_of_uint d) = true.
Proof. by induction d. Qed.

Lemma dec_of_nonneg n :
  ∃ s, dec_of_Z (Z.of_N n) = s ∧ all_digits s = true ∧ s ≠ "" ∧
       (has_prefix s "0" = true → s = "0").
Proof.
  eexists. split; [done|].
  assert (dec_of_Z (Z.of_N n) = DecimalString.NilZero.string_of_uint (N.to_uint n)) as ->.
  { by destruct n. }
  pose proof (DecimalN.Unsigned.to_of (N.to_uint n)) as Hn.
  rewrite DecimalN.Unsigned.of_to in Hn.
  destruct (N.to_uint n) as [|d|d|d|d|d|d|d|d|d|d] eqn:E.
  { done. }
  { split_and!; [exact (uint_digits (Decimal.D0 d))|done|]. intros _.
    unfold Decimal.unorm in Hn. destruct (Decimal.nzhead (Decimal.D0 d)) eqn:Ez; try done.
    - by injection Hn as ->.
    - by apply DecimalFacts.nzhead_nonzero in Ez. }
  all: split_and!; [|done|done].
  - exact (uint_digits (Decimal.D1 d)).
  - exact (uint_digits (Decimal.D2 d)).
  - exact (uint_digits (Decimal.D3 d)).
  - exact (uint_digits (Decimal.D4 d)).
  - exact (uint_digits (Decimal.D5 d)).
  - exact (uint_digits (Decimal.D6 d)).
  - exact (uint_digits (Decimal.D7 d)).
  - exact (uint_digits (Decimal.D8 d)).
  - exact (uint_digits (Decimal.D9 d)).
Qed.

Lemma dec_of_Z_shape z :
  ∃ s, dec_of_Z z = (if decide (z < 0)%Z then "-" else "") +:+ s ∧
       all_digits s = true ∧ s ≠ "" ∧ (has_prefix s "0" = true → s = "0").
Proof.
  destruct (dec_of_nonneg (Z.abs_N z)) as (s & Hs & Hd & Hne & H0).
  exists s. split_and!; [|done..]. rewrite <- Hs.
  destruct z as [|p|p]; [done..|]. by rewrite decide_True by lia.
Qed.

Lemma span_digits_all s : all_digits s = true → span_digits s = (s, "").
Proof.
  induction s as [|a s IH]; [done|]. simpl. intros [-> H]%andb_true_iff. by rewrite IH.
Qed.
Lemma digit_num_char a : is_digit a = true → is_num_char a = true.
Proof. unfold is_num_char. by intros ->. Qed.

Definition stops (s : string) : Prop :=
  match s with "" => True | String a _ => is_num_char a = false end.

Lemma span_num_all s rest :
  all_digits s = true → stops rest → span_num (s +:+ rest) = (s, rest).
Proof.
  intros Hd Hr. induction s as [|a s IH].
  - rewrite sapp_nil_l. destruct rest as [|b rest]; [done|]. simpl in *. by rewrite Hr.
  - rewrite sapp_cons. simpl in *. apply andb_true_iff in Hd as [Ha Hd].
    by rewrite digit_num_char, IH.
Qed.
Lemma span_num_dec z rest : stops rest → span_num (dec_of_Z z +:+ rest) = (dec_of_Z z, rest).
Proof.
  destruct (dec_of_Z_shape z) as (s & -> & Hd & _). intros Hr.
  case_decide; rewrite sapp_assoc.
  - rewrite sapp_cons, sapp_nil_l. simpl. by rewrite span_num_all.
  - rewrite !sapp_nil_l. by apply span_num_all.
Qed.

Lemma number_kind_dec z : number_kind (dec_of_Z z) = Some true.
Proof.
  destruct (dec_of_Z_shape z) as (s & -> & Hd & Hne & H0). unfold number_kind.
  assert (trim_prefix ((if decide (z < 0)%Z then "-" else "") +:+ s) "-" = s) as ->.
  { case_decide; [apply trim_prefix_app|]. rewrite sapp_nil_l. unfold trim_prefix.
    destruct s as [|a s]; [done|]. simpl in *.
    apply andb_true_iff in Hd as [Ha _]. destruct (Ascii.eqb_spec a "-"%char) as [->|]; done. }
  rewrite span_digits_all by done. simpl. rewrite decide_False; [done|]. naive_solver.
Qed.
Lemma parse_number_dec z : parse_number (dec_of_Z z) = Some (JInt z).
Proof. unfold parse_number. rewrite number_kind_dec. simpl. by rewrite Z_of_dec_of_Z. Qed.

(** The first character of a written number. *)
Lemma dec_head z : ∃ a t, dec_of_Z z = String a t ∧ (is_digit a = true ∨ a = "-"%char).
Proof.
  destruct (dec_of_Z_shape z) as (s & -> & Hd & Hne & _).
  case_decide; [by exists "-"%char, s; auto|]. destruct s as [|a s]; [done|].
  simpl in Hd. apply andb_true_iff in Hd as [Ha _]. exists a, s. by split; [|left].
Qed.
Lemma num_head_plain a :
  is_digit a = true ∨ a = "-"%char →
  is_ws a = false ∧ Ascii.eqb a ch_quote = false ∧ Ascii.eqb a "["%char = false ∧
  Ascii.eqb a "{"%char = false ∧ Ascii.eqb a "]"%char = false ∧
  Ascii.eqb a "n"%char = false ∧ Ascii.eqb a "t"%char = false ∧ Ascii.eqb a "f"%char = false.
Proof.
  destruct a as [[] [] [] [] [] [] [] []]; vm_compute; intros [?|?]; done.
Qed.

(** Values with no irregular number literal; all the program writes. *)
Fixpoint plain (j : json) : Prop :=
  match j with
  | JNum _ => False
  | JArr l => foldr (λ v P, plain v ∧ P) True l
  | JObj l => foldr (λ kv P, plain kv.2 ∧ P) True l
  | _ => True
  end.

Fixpoint jfuel (j : json) : nat :=
  match j with
  | JArr l => S (foldr (λ v n, S (jfuel v + n)) 0 l)
  | JObj l => S (foldr (λ kv n, S (jfuel kv.2 + n)) 0 l)
  | _ => 1
  end.

Lemma print_head i d j :
  plain j → ∃ a t, printw i d j = String a t ∧ is_ws a = false ∧ Ascii.eqb a "]"%char = false.
Proof.
  destruct j as [|[]|z|lit|s|[|? ?]|[|? ?]]; cbn [printw plain]; intros Hp;
    try done; try (eexists _, _; split; done).
  destruct (dec_head z) as (a & t & -> & Ha%num_head_plain). exists a, t. tauto.
Qed.

Lemma join_single sep w : join sep [w] = w.
Proof. done. Qed.
#[local] Arguments join : simpl never.

Lemma skip_ws_id a s : is_ws a = false → skip_ws (String a s) = String a s.
Proof. apply trim_left_id. Qed.
Lemma skip_ws_pad i d s : skip_ws (pad i d +:+ s) = skip_ws s.
Proof.
  unfold pad. destruct i; [|done]. rewrite sapp_assoc.
  change (nl +:+ ?t) with (String ch_nl t). unfold skip_ws. simpl.
  induction d as [|d IH]; [done|]. simpl spaces. rewrite sapp_cons. simpl. apply IH.
Qed.
Lemma parse_value_pad f i d s : parse_value f (pad i d +:+ s) = parse_value f s.
Proof. destruct f; [done|]. cbn [parse_value]. by rewrite skip_ws_pad. Qed.
Lemma parse_members_pad f i d s : parse_members f (pad i d +:+ s) = parse_members f s.
Proof. destruct f; [done|]. cbn [parse_members]. by rewrite skip_ws_pad. Qed.
Lemma parse_elems_pad f i d s : parse_elems f (pad i d +:+ s) = parse_elems f s.
Proof. destruct f; [done|]. cbn [parse_elems]. by rewrite parse_value_pad. Qed.
Lemma stops_pad i d s : stops s → stops (pad i d +:+ s).
Proof. by destruct i. Qed.

Lemma parse_scalar_dec z rest :
  stops rest → parse_scalar (dec_of_Z z +:+ rest) = Some (JInt z, rest).
Proof.
  intros Hr. unfold parse_scalar. destruct (dec_head z) as (a & t & E & Ha%num_head_plain).
  rewrite span_num_dec by done. rewrite parse_number_dec.
  rewrite E, sapp_cons. simpl. destruct Ha as (_&_&_&_&_&->&->&->). done.
Qed.

(** Reading the text of [j], in either layout and at any depth. *)
Definition parses (j : json) : Prop :=
  ∀ i d, plain j → ∀ fuel rest, jfuel j ≤ fuel → stops rest →
  parse_value fuel (printw i d j +:+ rest) = Some (j, rest).

Lemma parse_elems_print i d e l rest :
  Forall parses l → foldr (λ v P, plain v ∧ P) True l → l ≠ [] →
  ∀ f, foldr (λ v n, S (jfuel v + n)) 0 l ≤ f →
  parse_elems f (join ("," +:+ pad i d) (map (printw i d) l) +:+ pad i e +:+ "]" +:+ rest)
  = Some (l, rest).
Proof.
  induction 1 as [|v l Hv _ IH]; [done|]. intros [Hp Hps] _ [|f] Hf; [simpl in Hf; lia|].
  simpl in Hf. cbn [parse_elems]. destruct l as [|w l]; simpl map.
  - rewrite join_single, Hv by (done || lia || by apply stops_pad).
    cbn [mbind option_bind]. by rewrite skip_ws_pad.
  - rewrite join_cons by done. rewrite !sapp_assoc.
    rewrite Hv by (done || lia). cbn [mbind option_bind].
    change ("," +:+ ?s) with (String ","%char s). rewrite skip_ws_id by done. cbv beta iota.
    rewrite Ascii.eqb_refl, parse_elems_pad.
    specialize (IH Hps ltac:(done) f). simpl map in IH. rewrite IH by (simpl in *; lia). done.
Qed.

Lemma quote_app k t : quote k +:+ t = String ch_quote (escape k +:+ String ch_quote t).
Proof. unfold quote. by rewrite sapp_cons, sapp_assoc. Qed.

Lemma parse_member_head f i k s :
  parse_members (S f) (quote k +:+ (if i : bool then ": " else ":") +:+ s) =
  '(v, r3) ← parse_value f s;
  match skip_ws r3 with
  | String b r' =>
      if Ascii.eqb b ","%char
      then '(l, r'') ← parse_members f r'; Some ((k, v) :: l, r'')
      else if Ascii.eqb b "}"%char then Some ([(k, v)], r')
      else None
  | "" => None
  end.
Proof.
  cbn [parse_members]. rewrite quote_app, skip_ws_id by done.
  rewrite Ascii.eqb_refl, unescape_quote. cbn [mbind option_bind].
  assert ((if i then ": " else ":") +:+ s = String ":"%char ((if i then " " else "") +:+ s)) as ->.
  { by destruct i. }
  rewrite skip_ws_id by done. cbv beta iota. rewrite Ascii.eqb_refl.
  assert (parse_value f ((if i then " " else "") +:+ s) = parse_value f s) as ->; [|done].
  destruct i; [|done]. by destruct f.
Qed.

Lemma parse_members_print i d e l rest :
  Forall (λ kv, parses kv.2) l → foldr (λ kv P, plain kv.2 ∧ P) True l → l ≠ [] →
  ∀ f, foldr (λ kv n, S (jfuel kv.2 + n)) 0 l ≤ f →
  parse_members f
    (join ("," +:+ pad i d)
       (map (λ kv, quote kv.1 +:+ (if i then ": " else ":") +:+ printw i d kv.2) l)
       +:+ pad i e +:+ "}" +:+ rest) = Some (l, rest).
Proof.
  induction 1 as [|[k v] l Hv _ IH]; [done|]. intros [Hp Hps] _ [|f] Hf; [simpl in Hf; lia|].
  simpl in Hf, Hv, Hp. destruct l as [|w l]; simpl map.
  - rewrite join_single, !sapp_assoc, parse_member_head.
    cbn [snd]. rewrite Hv by (done || lia || by apply stops_pad).
    cbn [mbind option_bind]. by rewrite skip_ws_pad.
  - rewrite join_cons by done. rewrite !sapp_assoc, parse_member_head. cbn [snd].
    rewrite Hv by (done || lia). cbn [mbind option_bind].
    change ("," +:+ ?s) with (String ","%char s). rewrite skip_ws_id by done. cbv beta iota.
    rewrite Ascii.eqb_refl, parse_members_pad.
    specialize (IH Hps ltac:(done) f). simpl map in IH. rewrite IH by (simpl in *; lia). done.
Qed.

Lemma skip_printed i d j t :
  plain j → has_prefix (skip_ws (printw i d j +:+ t)) "]" = false.
Proof.
  intros Hp. destruct (print_head i d j Hp) as (a & s & -> & Hws & Hb).
  rewrite sapp_cons, skip_ws_id by done. simpl. by rewrite Hb.
Qed.
Lemma join_cons_app sep w ws t :
  ∃ t', join sep (w :: ws) +:+ t = w +:+ t'.
Proof.
  destruct ws as [|x ws]; [by exists t|]. rewrite join_cons by done.
  rewrite sapp_assoc. by eexists.
Qed.

Lemma parse_value_print j : parses j.
Proof.
  induction j as [|[]|z|lit|s|l IH|l IH] using json_nested_ind;
    intros i d Hp [|f] rest Hf Hr; try (simpl in Hf; lia); try done.
  - cbn [printw]. destruct (dec_head z) as (a & t & E & Ha%num_head_plain).
    cbn [parse_value]. rewrite E, sapp_cons. destruct Ha as (Hws&Hq&Hb&Hc&_).
    rewrite skip_ws_id by done. rewrite Hq, Hb, Hc, <- sapp_cons, <- E. by apply parse_scalar_dec.
  - cbn [printw parse_value]. rewrite quote_app, skip_ws_id by done.
    by rewrite Ascii.eqb_refl, unescape_quote.
  - destruct l as [|v l]; [done|]. cbn [printw parse_value]. rewrite !sapp_assoc.
    change ("[" +:+ ?s) with (String "["%char s). rewrite skip_ws_id by done.
    change (Ascii.eqb "["%char ch_quote) with false. rewrite Ascii.eqb_refl. cbv iota.
    set (vs := v :: l) in *. rewrite skip_ws_pad.
    match goal with |- context [has_prefix ?x "]"] => assert (has_prefix x "]" = false) as -> end.
    { unfold vs. simpl map. edestruct join_cons_app as [t' ->]. apply skip_printed, Hp. }
    rewrite parse_elems_pad, (parse_elems_print _ _ _ vs); [done..|].
    unfold vs in *. simpl in *. lia.
  - destruct l as [|[k v] l]; [done|]. cbn [printw parse_value]. rewrite !sapp_assoc.
    change ("{" +:+ ?s) with (String "{"%char s). rewrite skip_ws_id by done.
    change (Ascii.eqb "{"%char ch_quote) with false.
    change (Ascii.eqb "{"%char "["%char) with false. rewrite Ascii.eqb_refl. cbv iota.
    set (kvs := (k, v) :: l) in *. rewrite skip_ws_pad.
    match goal with |- context [has_prefix ?x "}"] => assert (has_prefix x "}" = false) as -> end.
    { unfold kvs. simpl map. edestruct join_cons_app as [t' ->].
      by rewrite !sapp_assoc, quote_app, skip_ws_id. }
    rewrite parse_members_pad, (parse_members_print _ _ _ kvs); [done..|].
    unfold kvs in *. simpl in *. lia.
Qed.

(** The fuel of [parse] is enough for any text of [j]. *)
Definition join_len (l : list string) : nat := foldr (λ w n, S (String.length w + n)) 0 l.
Lemma join_length sep l :
  1 ≤ String.length sep → join_len l ≤ S (String.length (join sep l)).
Proof.
  intros Hs. induction l as [|w [|x l] IH]; [simpl; lia|rewrite join_single; simpl; lia|].
  rewrite join_cons by done. rewrite !slength_app.
  change (join_len (w :: x :: l)) with (S (String.length w + join_len (x :: l))). lia.
Qed.
Lemma jfuel_elems {A} (f : A → json) (g : A → string) l :
  Forall (λ a, plain (f a) → jfuel (f a) ≤ 2 * String.length (g a)) l →
  foldr (λ a P, plain (f a) ∧ P) True l →
  foldr (λ a n, S (jfuel (f a) + n)) 0 l ≤ 2 * join_len (map g l).
Proof.
  induction 1 as [|a l Ha _ IH]; [done|]. intros [Hp Hps]. unfold join_len in *. simpl.
  specialize (Ha Hp). specialize (IH Hps). lia.
Qed.
Lemma jfuel_length i j : plain j → ∀ d, jfuel j ≤ 2 * String.length (printw i d j).
Proof.
  induction j as [|[]|z|lit|s|l IH|l IH] using json_nested_ind; intros Hp d; try (simpl; lia); try done.
  - cbn [printw jfuel]. destruct (dec_head z) as (a & t & -> & _). simpl. lia.
  - destruct l as [|v l]; [simpl; lia|]. cbn [printw].
    set (vs := v :: l) in *. rewrite !slength_app.
    pose proof (jfuel_elems id (printw i (S d)) vs) as He.
    pose proof (join_length ("," +:+ pad i (S d)) (map (printw i (S d)) vs)) as Hj.
    rewrite slength_app in Hj. simpl (String.length ",") in Hj. simpl (String.length "[").
    ospecialize* Hj; [lia|]. ospecialize* He; [|done|].
    { eapply Forall_impl; [exact IH|]. auto. }
    change (jfuel (JArr vs)) with (S (foldr (λ v n, S (jfuel v + n)) 0 vs)). unfold id in *. simpl (String.length "]"). lia.
  - destruct l as [|v l]; [simpl; lia|]. cbn [printw].
    set (vs := v :: l) in *. rewrite !slength_app.
    set (g := λ kv : string * json, quote kv.1 +:+ (if i then ": " else ":") +:+ printw i (S d) kv.2).
    pose proof (jfuel_elems snd g vs) as He.
    pose proof (join_length ("," +:+ pad i (S d)) (map g vs)) as Hj.
    rewrite slength_app in Hj. simpl (String.length ",") in Hj. simpl (String.length "{").
    ospecialize* Hj; [lia|]. ospecialize* He; [|done|].
    { eapply Forall_impl; [exact IH|]. intros kv Hkv Hpl. specialize (Hkv Hpl (S d)).
      unfold g. rewrite !slength_app. lia. }
    change (jfuel (JObj vs)) with (S (foldr (λ kv n, S (jfuel (snd kv) + n)) 0 vs)). simpl (String.length "}"). lia.
Qed.

Lemma parse_printw i j : plain j → parse (printw i 0 j) = Some j.
Proof.
  intros Hp. unfold parse. pose proof (jfuel_length i j Hp 0).
  rewrite <- (sapp_nil_r (printw i 0 j)) at 2.
  by rewrite parse_value_print by (done || lia).
Qed.
Lemma parse_print j : plain j → parse (print j) = Some j.
Proof. apply parse_printw. Qed.
Lemma parse_print_indent j : plain j → parse (print_indent j) = Some j.
Proof. apply parse_printw. Qed.

(** ** Struct decoding

    [json.Unmarshal] into a struct walks the members in order; a member sets
    the field whose tag equals its key, or else the first one that equals it
    up to the case of ASCII letters, and is skipped when there is none.  [null]
    leaves a scalar as it was and empties a slice.  A value of the wrong type,
    or a number outside the field's range, is an error. *)
Definition type_error {A} : result A := Err (errorf "json: cannot unmarshal").

Definition dec_string (j : json) (old : string) : result string :=
  match j with JStr s => Ok s | JNull => Ok old | _ => type_error end.
Definition dec_bool (j : json) (old : bool) : result bool :=
  match j with JBool b => Ok b | JNull => Ok old | _ => type_error end.
Definition dec_int (lo hi : Z) (j : json) (old : Z) : result Z :=
  match j with
  | JInt z => if decide (lo ≤ z ≤ hi)%Z then Ok z else type_error
  | JNull => Ok old
  | _ => type_error
  end.
Definition dec_int64 := dec_int int64_min int64_max.
Definition dec_uint32 := dec_int 0 4294967295.
Fixpoint mapR {A B} (f : A → result B) (l : list A) : result (list B) :=
  match l with
  | [] => Ok []
  | x :: l' => y ← f x; ys ← mapR f l'; Ok (y :: ys)
  end.
Definition dec_list {A} (dec : json → A → result A) (zero : A) (j : json) (old : list A) : result (list A) :=
  match j with
  | JArr l => mapR (λ x, dec x zero) l
  | JNull => Ok []
  | _ => type_error
  end.

(** A struct field: its tag and how a value is stored into it. *)
Definition field (T : Type) : Type := string * (json → T → result T).
Definition mk_field {T A} (tag : string) (dec : json → A → result A) (get : T → A) (set : A → T → T) : field T :=
  (tag, λ j t, a ← dec j (get t); Ok (set a t)).

Definition find_field {T} (fs : list (field T)) (k : string) : option (field T) :=
  match find (λ f, String.eqb (f.1) k) fs with
  | Some f => Some f
  | None => find (λ f, String.eqb (to_lower f.1) (to_lower k)) fs
  end.
Fixpoint dec_members {T} (fs : list (field T)) (l : list (string * json)) (t : T) : result T :=
  match l with
  | [] => Ok t
  | (k, j) :: l' =>
      match find_field fs k with
      | Some f => t' ← f.2 j t; dec_members fs l' t'
      | None => dec_members fs l' t
      end
  end.
Definition dec_struct {T} (fs : list (field T)) (j : json) (t : T) : result T :=
  match j with
  | JObj l => dec_members fs l t
  | JNull => Ok t
  | _ => type_error
  end.
(** [json.Unmarshal(data, &v)] with [v] holding [t]. *)
Definition unmarshal {T} (dec : json → T → result T) (data : string) (t : T) : result T :=
  match parse data with
  | Some j => dec j t
  | None => Err (errorf "invalid character")
  end.

(** Members of an encoded struct: [omit b] leaves the member out when [b],
    the encoding of [omitempty]. *)
Definition omit (b : bool) (tag : string) (j : json) : list (string * json) :=
  if b then [] else [(tag, j)].
Definition omit_str (tag s : string) := omit (bool_decide (s = "")) tag (JStr s).
Definition omit_int (tag : string) (z : Z) := omit (bool_decide (z = 0%Z)) tag (JInt z).
Definition omit_bool (tag : string) (b : bool) := omit (negb b) tag (JBool b).
Definition omit_list {A} (tag : string) (enc : A → json) (l : list A) :=
  omit (match l with [] => true | _ => false end) tag (JArr (map enc l)).

Lemma unmarshal_print {T} (dec : json → T → result T) j t :
  plain j → unmarshal dec (print j) t = dec j t.
Proof. intros Hp. unfold unmarshal. by rewrite parse_print. Qed.

Lemma dec_members_omit {T} (fs : list (field T)) b tag j l t t' R :
  (b = true → t = t') → (b = false → dec_members fs [(tag, j)] t = Ok t') →
  dec_members fs l t' = R → dec_members fs (omit b tag j ++ l) t = R.
Proof.
  intros Ht Hf <-. destruct b; simpl.
  - by rewrite Ht.
  - specialize (Hf eq_refl). simpl in Hf. destruct (find_field fs tag) as [f|]; [|by injection Hf as ->].
    destruct (f.2 j t); [|done]. injection Hf as ->. done.
Qed.
Lemma dec_int_ok lo hi z old : (lo ≤ z ≤ hi)%Z → dec_int lo hi (JInt z) old = Ok z.
Proof. intros. simpl. by rewrite decide_True. Qed.
Lemma dec_list_ok {A} (enc : A → json) dec zero l old :
  Forall (λ a, dec (enc a) zero = Ok a) l → dec_list dec zero (JArr (map enc l)) old = Ok l.
Proof.
  induction 1 as [|a l Ha _ IH]; [done|]. cbn [dec_list] in *. simpl. by rewrite Ha; simpl; rewrite IH.
Qed.
Lemma plain_arr {A} (enc : A → json) l : (∀ a, plain (enc a)) → plain (JArr (map enc l)).
Proof. intros H. simpl. induction l; simpl; auto. Qed.
Lemma plain_obj_app l1 l2 : plain (JObj l1) → plain (JObj l2) → plain (JObj (l1 ++ l2)).
Proof. simpl. induction l1; [done|]. simpl. naive_solver. Qed.
Lemma plain_omit b tag j : plain j → plain (JObj (omit b tag j)).
Proof. by destruct b. Qed.
Lemma unmarshal_print_indent {T} (dec : json → T → result T) j t :
  plain j → unmarshal dec (print_indent j) t = dec j t.
Proof. intros Hp. unfold unmarshal. by rewrite parse_print_indent. Qed.

(** What every setter keeps, decoding keeps. *)
Lemma dec_members_inv {T} (P : T → Prop) (fs : list (field T)) l t t' :
  (∀ f j t t', f ∈ fs → P t → f.2 j t = Ok t' → P t') →
  P t → dec_members fs l t = Ok t' → P t'.
Proof.
  intros Hf. revert t. induction l as [|[k j] l IH]; intros t Ht; simpl; [by intros [= <-]|].
  destruct (find_field fs k) as [f|] eqn:Ef; [|by apply IH].
  assert (f ∈ fs) as Hin.
  { unfold find_field in Ef. apply list_elem_of_In.
    case_match eqn:E1; [injection Ef as ->; by apply find_some in E1 as [? _]|].
    by apply find_some in Ef as [? _]. }
  destruct (f.2 j t) as [t1|] eqn:E; [|done]. simpl. apply IH. by eapply Hf.
Qed.
Lemma dec_int_range lo hi j old z :
  (lo ≤ old ≤ hi)%Z → dec_int lo hi j old = Ok z → (lo ≤ z ≤ hi)%Z.
Proof. destruct j; simpl; try done; [by intros ? [= <-]|]. case_decide; [by intros ? [= <-]|done]. Qed.
