(* ===== verification/GoPath.v ===== *)
(** * Go's [path/filepath] on a slash-separated system.

    [clean] is [filepath.Clean] by its documented rules (drop empty and [.]
    segments, let [..] cancel the segment before it, drop [..] at the root);
    [fjoin], [fdir], [fbase], [is_abs] and [frel] are [Join], [Dir], [Base],
    [IsAbs] and [Rel].  [abs_segs] is what the operating system makes of an
    absolute path: the list of names from the root. *)
From S2P Require Import Prelude GoStrings.

(** One step of [Clean]: [stack] holds the segments kept so far, last first. *)
Definition clean_step (rooted : bool) (stack : list string) (w : string) : list string :=
  if decide (w = "") then stack
  else if decide (w = ".") then stack
  else if decide (w = "..") then
    match stack with
    | [] => if rooted then [] else [".."]
    | top :: rest => if decide (top = "..") then ".." :: stack else rest
    end
  else w :: stack.

Definition clean_segs (rooted : bool) (p : string) : list string :=
  reverse (foldl (clean_step rooted) [] (split_on ch_slash p)).

Definition is_abs (p : string) : bool := has_prefix p "/".
Definition abs_segs (p : string) : list string := clean_segs true p.
Definition render_abs (segs : list string) : string := "/" +:+ join "/" segs.

Definition clean (p : string) : string :=
  if is_abs p then render_abs (clean_segs true p)
  else match clean_segs false p with
       | [] => "."
       | segs => join "/" segs
       end.

(** [Join] drops the leading empty elements, not the others. *)
Fixpoint fjoin (elems : list string) : string :=
  match elems with
  | [] => ""
  | e :: rest => if decide (e = "") then fjoin rest else clean (join "/" elems)
  end.

(** Everything up to the last separator, cleaned. *)
Definition fdir (p : string) : string :=
  match reverse (split_on ch_slash p) with
  | [] | [_] => "."
  | _ :: init => clean (join "/" (reverse init) +:+ "/")
  end.

Definition fbase (p : string) : string :=
  match reverse (filter (λ w, w ≠ "") (split_on ch_slash p)) with
  | [] => if decide (p = "") then "." else "/"
  | w :: _ => w
  end.

Fixpoint strip_common (b t : list string) : list string * list string :=
  match b, t with
  | x :: b', y :: t' => if decide (x = y) then strip_common b' t' else (b, t)
  | _, _ => (b, t)
  end.

(** [Rel(base, targ)]: an error when one is absolute and the other is not, or
    when it would have to climb out of a leading [..]. *)
Definition frel (base targ : string) : result string :=
  let b := clean base in
  let t := clean targ in
  if decide (t = b) then Ok "."
  else if negb (Bool.eqb (is_abs b) (is_abs t)) then Err (errorf "Rel: can't make relative")
  else
    match strip_common (clean_segs (is_abs b) b) (clean_segs (is_abs t) t) with
    | (".." :: _, _) => Err (errorf "Rel: can't make relative")
    | (b', t') => Ok (join "/" (map (λ _, "..") b' ++ t'))
    end.

(** A name that means itself: one non-empty segment, not [.] nor [..]. *)
Definition seg_ok (w : string) : Prop :=
  w ≠ "" ∧ w ≠ "." ∧ w ≠ ".." ∧ contains_char ch_slash w = false.
#[export] Instance seg_ok_dec w : Decision (seg_ok w).
Proof. unfold seg_ok. apply _. Defined.

(** ** Lemmas *)
Lemma clean_step_ok rooted stack w : seg_ok w → clean_step rooted stack w = w :: stack.
Proof.
  intros (?&?&?&_). unfold clean_step. by rewrite !decide_False.
Qed.

Lemma foldl_clean_ok rooted stack ws :
  Forall seg_ok ws → foldl (clean_step rooted) stack ws = reverse ws ++ stack.
Proof.
  intros H. revert stack. induction H as [|w ws Hw _ IH]; intros stack; [done|].
  simpl. rewrite clean_step_ok, IH by done. by rewrite reverse_cons, <- app_assoc.
Qed.

Lemma foldl_clean_all_ok stack ws :
  Forall seg_ok stack → Forall (λ w, contains_char ch_slash w = false) ws →
  Forall seg_ok (foldl (clean_step true) stack ws).
Proof.
  intros Hs Hw. revert stack Hs. induction Hw as [|w ws Hw _ IH]; intros stack Hs; [done|].
  simpl. apply IH. unfold clean_step. repeat case_decide; try done.
  - destruct stack as [|top rest]; [done|]. inversion Hs as [|?? (?&?&?&?)]; subst.
    by rewrite decide_False.
  - by constructor.
Qed.

Lemma abs_segs_ok p : Forall seg_ok (abs_segs p).
Proof.
  unfold abs_segs, clean_segs. apply Forall_reverse.
  apply foldl_clean_all_ok; [constructor|apply split_on_pieces].
Qed.

Lemma abs_segs_rev p : foldl (clean_step true) [] (split_on ch_slash p) = reverse (abs_segs p).
Proof. unfold abs_segs, clean_segs. by rewrite reverse_involutive. Qed.

Lemma seg_ok_no_slash ws : Forall seg_ok ws → Forall (λ w, contains_char ch_slash w = false) ws.
Proof. intros H. eapply Forall_impl; [done|]. by intros w (_&_&_&?). Qed.

(** A rendered absolute path denotes the segments it was rendered from. *)
Lemma abs_segs_render segs : Forall seg_ok segs → abs_segs (render_abs segs) = segs.
Proof.
  intros H. unfold abs_segs, clean_segs, render_abs.
  change ("/" +:+ join "/" segs) with (String ch_slash (join "/" segs)).
  cbn [split_on]. rewrite Ascii.eqb_refl. simpl foldl.
  destruct segs as [|w segs]; [done|].
  rewrite split_join; [|done|by apply seg_ok_no_slash].
  rewrite foldl_clean_ok by done. by rewrite app_nil_r, reverse_involutive.
Qed.

Lemma is_abs_render segs : is_abs (render_abs segs) = true.
Proof. done. Qed.
Lemma is_abs_app p q : is_abs p = true → is_abs (p +:+ q) = true.
Proof. by destruct p as [|[[] [] [] [] [] [] [] []] p]. Qed.
Lemma clean_abs p : is_abs p = true → clean p = render_abs (abs_segs p).
Proof. intros H. unfold clean. by rewrite H. Qed.
Lemma is_abs_clean p : is_abs p = true → is_abs (clean p) = true.
Proof. intros H. by rewrite clean_abs. Qed.
Lemma is_abs_nonempty p : is_abs p = true → p ≠ "".
Proof. by intros H ->. Qed.

Lemma abs_segs_clean p : is_abs p = true → abs_segs (clean p) = abs_segs p.
Proof. intros H. rewrite clean_abs by done. apply abs_segs_render, abs_segs_ok. Qed.
Lemma clean_idemp p : is_abs p = true → clean (clean p) = clean p.
Proof.
  intros H. rewrite (clean_abs (clean p)) by by apply is_abs_clean.
  by rewrite abs_segs_clean, clean_abs by done.
Qed.

Lemma abs_segs_slash d x :
  abs_segs (d +:+ "/" +:+ x) =
  reverse (foldl (clean_step true) (reverse (abs_segs d)) (split_on ch_slash x)).
Proof.
  unfold abs_segs at 1. unfold clean_segs.
  change (d +:+ "/" +:+ x) with (d +:+ String ch_slash x).
  by rewrite split_on_app, foldl_app, abs_segs_rev.
Qed.

Lemma fjoin2 d x : is_abs d = true → fjoin [d; x] = clean (d +:+ "/" +:+ x).
Proof. intros H. simpl. by rewrite decide_False by by apply is_abs_nonempty. Qed.
Lemma is_abs_fjoin2 d x : is_abs d = true → is_abs (fjoin [d; x]) = true.
Proof. intros H. rewrite fjoin2 by done. by apply is_abs_clean, is_abs_app. Qed.

Lemma abs_segs_fjoin2 d x :
  is_abs d = true →
  abs_segs (fjoin [d; x]) =
  reverse (foldl (clean_step true) (reverse (abs_segs d)) (split_on ch_slash x)).
Proof.
  intros H. rewrite fjoin2 by done.
  by rewrite abs_segs_clean, abs_segs_slash by by apply is_abs_app.
Qed.

(** Joining a list of well-behaved names extends the path by exactly them. *)
Lemma abs_segs_fjoin_ok d x :
  is_abs d = true → Forall seg_ok (split_on ch_slash x) →
  abs_segs (fjoin [d; x]) = abs_segs d ++ split_on ch_slash x.
Proof.
  intros H Hx. rewrite abs_segs_fjoin2, foldl_clean_ok by done.
  by rewrite reverse_app, !reverse_involutive.
Qed.
Lemma split_seg_ok w : seg_ok w → split_on ch_slash w = [w].
Proof. intros (_&_&_&H). by apply split_on_none. Qed.
Lemma abs_segs_fjoin_seg d w :
  is_abs d = true → seg_ok w → abs_segs (fjoin [d; w]) = abs_segs d ++ [w].
Proof.
  intros H Hw. rewrite abs_segs_fjoin_ok; rewrite ?split_seg_ok by done; [done..|].
  by apply Forall_singleton.
Qed.

Lemma split_render segs :
  segs ≠ [] → Forall seg_ok segs → split_on ch_slash (render_abs segs) = "" :: segs.
Proof.
  intros Hne H. unfold render_abs.
  change ("/" +:+ join "/" segs) with (String ch_slash (join "/" segs)).
  cbn [split_on]. rewrite Ascii.eqb_refl.
  rewrite split_join; [done..|by apply seg_ok_no_slash].
Qed.

Lemma abs_segs_trailing p : abs_segs (p +:+ "/") = abs_segs p.
Proof.
  change (p +:+ "/") with (p +:+ "/" +:+ "").
  rewrite abs_segs_slash. apply reverse_involutive.
Qed.

(** The parent of a rendered path. *)
Lemma fdir_render segs w :
  Forall seg_ok (segs ++ [w]) → fdir (render_abs (segs ++ [w])) = render_abs segs.
Proof.
  intros H. unfold fdir. rewrite split_render; [|by destruct segs|done].
  change ("" :: segs ++ [w]) with (("" :: segs) ++ [w]). rewrite reverse_snoc.
  assert (join "/" ("" :: segs) +:+ "/" = render_abs segs +:+ "/" ∨ segs = []) as Hj.
  { destruct segs as [|x segs]; [by right|]. by left. }
  destruct (reverse ("" :: segs)) as [|y ys] eqn:E.
  { apply (f_equal length) in E. by rewrite length_reverse in E. }
  rewrite <- E, reverse_involutive.
  destruct Hj as [->| ->]; [|done].
  rewrite clean_abs by done. rewrite abs_segs_trailing, abs_segs_render; [done|].
  by apply Forall_app in H as [H _].
Qed.

(** ** [Rel] really is relative *)
Lemma strip_common_spec b t b' t' :
  strip_common b t = (b', t') → ∃ c, b = c ++ b' ∧ t = c ++ t'.
Proof.
  revert t. induction b as [|x b IH]; intros t; simpl; [intros [= <- <-]; by exists []|].
  destruct t as [|y t]; [intros [= <- <-]; by exists []|].
  case_decide as Hxy; [|intros [= <- <-]; by exists []]. subst y.
  intros [c [-> ->]]%IH. by exists (x :: c).
Qed.

Lemma foldl_clean_ups rooted (b : list string) stack :
  Forall seg_ok b →
  foldl (clean_step rooted) (reverse b ++ stack) (map (λ _, "..") b) = stack.
Proof.
  intros Hb. remember (length b) as n eqn:E. revert b Hb E.
  induction n as [|n IH]; intros b Hb E; [by destruct b|].
  destruct b as [|x b _] using rev_ind; [done|].
  apply Forall_app in Hb as [Hb [Hx _]%Forall_cons].
  rewrite length_app in E. simpl in E.
  rewrite reverse_snoc. simpl.
  assert (map (λ _ : string, "..") (b ++ [x]) = ".." :: map (λ _, "..") b) as ->.
  { clear. induction b as [|y b IH]; [done|]. simpl. by rewrite IH. }
  simpl. unfold clean_step at 2. simpl. destruct Hx as (?&?&?&?).
  rewrite decide_False by done. apply IH; [done|lia].
Qed.

Lemma no_slash_ups (b : list string) :
  Forall (λ w, contains_char ch_slash w = false) (map (λ _, "..") b).
Proof. induction b; by constructor. Qed.

(** Following [Rel(base, targ)] from [base] leads to [targ]. *)
Lemma frel_resolves b t r :
  is_abs b = true → is_abs t = true → frel b t = Ok r →
  abs_segs (b +:+ "/" +:+ r) = abs_segs t.
Proof.
  intros Hb Ht. unfold frel. rewrite !is_abs_clean by done. simpl.
  change (clean_segs true (clean b)) with (abs_segs (clean b)).
  change (clean_segs true (clean t)) with (abs_segs (clean t)).
  rewrite !abs_segs_clean by done. case_decide as Heq.
  { intros [= <-]. rewrite abs_segs_slash. etrans; [apply reverse_involutive|].
    rewrite <- (abs_segs_clean b), <- (abs_segs_clean t) by done. by rewrite Heq. }
  pose proof (abs_segs_ok b) as Hob. pose proof (abs_segs_ok t) as Hot.
  destruct (strip_common (abs_segs b) (abs_segs t)) as [b' t'] eqn:E.
  apply strip_common_spec in E as [c [Eb Et]].
  rewrite Eb in Hob. apply Forall_app in Hob as [Hc Hb'].
  rewrite Et in Hot. apply Forall_app in Hot as [_ Ht'].
  assert (map (λ _, "..") b' ++ t' ≠ []) as Hne.
  { intros [E1 ->]%app_eq_nil. apply map_eq_nil in E1 as ->. apply Heq.
    rewrite !clean_abs by done. by rewrite Eb, Et. }
  assert (∀ r', join "/" (map (λ _, "..") b' ++ t') = r' →
    abs_segs (b +:+ "/" +:+ r') = abs_segs t) as Hmain.
  { intros r' <-. rewrite abs_segs_slash, split_join; [|done|].
    - rewrite foldl_app, Eb, reverse_app, foldl_clean_ups by done.
      rewrite foldl_clean_ok by done.
      by rewrite Et, reverse_app, !reverse_involutive.
    - apply Forall_app. split; [apply no_slash_ups|by apply seg_ok_no_slash]. }
  destruct b' as [|x b'']; [intros [= <-]; by apply Hmain|].
  repeat case_match; try done; intros [= <-]; by apply Hmain.
Qed.

(** [Rel] between absolute paths never fails. *)
Lemma frel_abs_ok b t : is_abs b = true → is_abs t = true → ∃ r, frel b t = Ok r.
Proof.
  intros Hb Ht. unfold frel. rewrite !is_abs_clean by done. simpl.
  case_decide; [by eexists|].
  change (clean_segs true (clean b)) with (abs_segs (clean b)).
  rewrite abs_segs_clean by done. pose proof (abs_segs_ok b) as Hob.
  destruct (strip_common _ _) as [b' t'] eqn:E.
  apply strip_common_spec in E as [c [Eb _]]. rewrite Eb in Hob.
  apply Forall_app in Hob as [_ Hob].
  destruct b' as [|x b'']; [by eexists|].
  apply Forall_cons in Hob as [(_&_&Hx&_) _].
  repeat case_match; try done; by eexists.
Qed.

(** ** Rendered paths *)
Lemma fjoin2_render d x :
  is_abs d = true → Forall seg_ok (split_on ch_slash x) →
  fjoin [d; x] = render_abs (abs_segs d ++ split_on ch_slash x).
Proof.
  intros Hd Hx. rewrite <- abs_segs_fjoin_ok by done. rewrite fjoin2 by done.
  rewrite clean_abs at 1 by by apply is_abs_app.
  by rewrite abs_segs_clean by by apply is_abs_app.
Qed.
Lemma fjoin2_render_seg d w :
  is_abs d = true → seg_ok w → fjoin [d; w] = render_abs (abs_segs d ++ [w]).
Proof.
  intros Hd Hw. rewrite fjoin2_render; rewrite ?split_seg_ok by done; [done..|].
  by apply Forall_singleton.
Qed.
Lemma fbase_render segs w : Forall seg_ok (segs ++ [w]) → fbase (render_abs (segs ++ [w])) = w.
Proof.
  intros H. unfold fbase. rewrite split_render; [|by destruct segs|done].
  rewrite filter_cons_False by (intros E; by apply E).
  assert (filter (λ w, w ≠ "") (segs ++ [w]) = segs ++ [w]) as ->; [|by rewrite reverse_snoc].
  induction H as [|x l (Hx & _) _ IH]; [done|]. by rewrite filter_cons_True, IH.
Qed.
Lemma abs_segs_render_slash segs w :
  Forall seg_ok segs → seg_ok w → abs_segs (render_abs segs +:+ "/" +:+ w) = segs ++ [w].
Proof.
  intros Hs Hw. rewrite abs_segs_slash, abs_segs_render, split_seg_ok by done.
  rewrite foldl_clean_ok by by apply Forall_singleton.
  by rewrite reverse_app, !reverse_involutive.
Qed.
Lemma seg_ok_app w x :
  seg_ok w → contains_char ch_slash x = false → seg_ok (w +:+ x).
Proof.
  intros (H1 & H2 & H3 & H4) Hx. split_and!; [| | |by rewrite contains_char_app, H4, Hx];
    intros E; destruct w as [|a w]; try done; rewrite sapp_cons in E; injection E as -> E;
    destruct w as [|b w]; try done; rewrite sapp_cons in E; try done;
    injection E as -> E; by destruct w.
Qed.

(** [Rel] between absolute paths is never absolute. *)
Lemma is_abs_join ws :
  Forall (λ w, w ≠ "" ∧ contains_char ch_slash w = false) ws → is_abs (join "/" ws) = false.
Proof.
  destruct ws as [|w ws]; [done|]. intros [[Hne Hw] _]%Forall_cons_1. destruct w as [|a w]; [done|].
  simpl in Hw. apply orb_false_iff in Hw as [Ha _].
  destruct ws; simpl; rewrite ?sapp_cons; simpl; unfold is_abs; simpl; unfold ch_slash in Ha; by rewrite Ha.
Qed.
Lemma frel_not_abs b t r : is_abs b = true → is_abs t = true → frel b t = Ok r → is_abs r = false.
Proof.
  intros Hb Ht. unfold frel. rewrite !is_abs_clean by done. simpl.
  change (clean_segs true (clean b)) with (abs_segs (clean b)).
  change (clean_segs true (clean t)) with (abs_segs (clean t)).
  rewrite !abs_segs_clean by done. case_decide; [by intros [= <-]|].
  pose proof (abs_segs_ok b) as Hob. pose proof (abs_segs_ok t) as Hot.
  destruct (strip_common (abs_segs b) (abs_segs t)) as [b' t'] eqn:E.
  apply strip_common_spec in E as [c [Eb Et]].
  rewrite Et in Hot. apply Forall_app in Hot as [_ Ht'].
  assert (is_abs (join "/" (map (λ _, "..") b' ++ t')) = false) as Hj.
  { apply is_abs_join, Forall_app. split.
    - clear. induction b'; simpl; constructor; [by split|done].
    - eapply Forall_impl; [exact Ht'|]. intros w (?&?&?&?). by split. }
  destruct b' as [|x b'']; [by intros [= <-]|].
  repeat case_match; try done; by intros [= <-].
Qed.

(** [Rel] to a descendant is the path below. *)
Lemma strip_common_app c t : strip_common c (c ++ t) = ([], t).
Proof. induction c as [|x c IH]; [done|]. simpl. by rewrite decide_True. Qed.
Lemma frel_below base targ ws :
  is_abs base = true → is_abs targ = true → ws ≠ [] →
  abs_segs targ = abs_segs base ++ ws → frel base targ = Ok (join "/" ws).
Proof.
  intros Hb Ht Hws E. unfold frel. rewrite !is_abs_clean by done. simpl.
  change (clean_segs true (clean base)) with (abs_segs (clean base)).
  change (clean_segs true (clean targ)) with (abs_segs (clean targ)).
  rewrite decide_False.
  - by rewrite !abs_segs_clean, E, strip_common_app by done.
  - intros Hc. apply (f_equal abs_segs) in Hc. rewrite !abs_segs_clean, E in Hc by done.
    apply (f_equal length) in Hc. rewrite length_app in Hc. destruct ws; [done|]. simpl in Hc. lia.
Qed.

(** A suffix on the text of a path is a suffix on its last name. *)
Lemma render_abs_suffix d w x : render_abs (d ++ [w]) +:+ x = render_abs (d ++ [w +:+ x]).
Proof.
  unfold render_abs. rewrite sapp_assoc. f_equal. induction d as [|y l IH]; [done|].
  cbn [app]. rewrite !join_cons by (by destruct l). by rewrite !sapp_assoc, IH.
Qed.

(** A hash in hex is the name of a file. *)
Lemma hex_seg_ok s r : hex_decode s = Some r → s ≠ "" → seg_ok s.
Proof.
  intros Hd Hne. pose proof (hex_encode_decode _ _ Hd) as He.
  split_and!; [done|by intros ->..|].
  assert (contains_char ch_slash s = contains_char ch_slash (to_lower s)) as ->.
  { clear. induction s as [|a s IH]; [done|]. cbn [to_lower contains_char].
    rewrite <- IH. destruct a as [[] [] [] [] [] [] [] []]; reflexivity. }
  rewrite <- He. clear. induction r as [|a r IH]; [done|].
  cbn [hex_encode contains_char]. rewrite IH. destruct a as [[] [] [] [] [] [] [] []]; reflexivity.
Qed.
