(* ===== verification/GoFS.v ===== *)
(** * Go's [os] package over a model of the file system.

    The file system is a finite map from absolute paths (lists of names) to
    regular files, directories and symbolic links.  A symbolic link is followed
    when it is the last name of a path; the HF cache has links nowhere else.
    The umask is 0.

    Every system call can fail: [os_faults] is the schedule of failures, one
    bit per call, and a call whose bit is set returns an I/O error and changes
    nothing.  A theorem about every schedule is a theorem about every failure,
    and a schedule that is [true] from some point on is a crash at that point:
    no later call, the clean-up included, has any effect.  An exhausted
    schedule means no further failure.  [os_rand] is the supply of random
    suffixes behind [os.CreateTemp] and [crypto/rand]; [os_clock] is the time
    stamped on new files. *)
From S2P Require Import Prelude GoStrings GoPath.

Abbreviation fpath := (list string) (only parsing).

Record regular := mk_regular { reg_data : string; reg_perm : Z; reg_mtime : Z }.

Inductive fnode :=
  | FFile (f : regular)
  | FDir (perm : Z)
  | FLink (target : string).

#[export] Instance regular_eq_dec : EqDecision regular.
Proof. solve_decision. Defined.
#[export] Instance fnode_eq_dec : EqDecision fnode.
Proof. solve_decision. Defined.

Record osst := mk_osst {
  os_fs : gmap fpath fnode;
  os_faults : list bool;
  os_rand : list string;
  os_clock : Z
}.

Definition set_fs (f : gmap fpath fnode → gmap fpath fnode) (s : osst) : osst :=
  mk_osst (f (os_fs s)) (os_faults s) (os_rand s) (os_clock s).

(** The root always exists. *)
Definition fs_get (fs : gmap fpath fnode) (p : fpath) : option fnode :=
  if decide (p = []) then Some (FDir 493) else fs !! p.

Fixpoint parent (p : fpath) : fpath :=
  match p with
  | [] | [_] => []
  | x :: p' => x :: parent p'
  end.

(** Where a link stored at [p] leads. *)
Definition link_target (p : fpath) (t : string) : fpath :=
  if is_abs t then abs_segs t else abs_segs (render_abs (parent p) +:+ "/" +:+ t).

(** The kernel gives up after 40 links. *)
Definition max_links : nat := 40.
Fixpoint fs_follow (fuel : nat) (fs : gmap fpath fnode) (p : fpath) : result fpath :=
  match fs_get fs p with
  | Some (FLink t) =>
      match fuel with
      | O => Err (ErrRoot SLoop "too many levels of symbolic links")
      | S fuel' => fs_follow fuel' fs (link_target p t)
      end
  | _ => Ok p
  end.

Definition is_dir_node (n : option fnode) : bool :=
  match n with Some (FDir _) => true | _ => false end.

Fixpoint prefixes (p : fpath) : list fpath :=
  match p with
  | [] => []
  | x :: p' => [x] :: map (cons x) (prefixes p')
  end.

(** ENOTDIR when a file stands where a directory is needed, else ENOENT. *)
Definition fs_missing (fs : gmap fpath fnode) (p : fpath) : error :=
  if existsb (λ q, match fs_get fs q with Some (FDir _) | None => false | _ => true end)
       (prefixes (parent p))
  then ErrRoot SNotDir "not a directory"
  else ErrRoot SNotExist "no such file or directory".

(** ** System calls *)
Record finfo := mk_finfo {
  fi_name : string; fi_is_dir : bool; fi_regular : bool;
  fi_size : Z; fi_perm : Z; fi_mtime : Z
}.

Definition node_info (name : string) (n : fnode) : finfo :=
  match n with
  | FFile f => mk_finfo name false true (Z.of_nat (String.length (reg_data f))) (reg_perm f) (reg_mtime f)
  | FDir perm => mk_finfo name true false 0 perm 0
  | FLink t => mk_finfo name false false (Z.of_nat (String.length t)) 511 0
  end.

Definition os_tick : M osst unit := λ s,
  match os_faults s with
  | [] => (Ok tt, s)
  | b :: l =>
      let s' := mk_osst (os_fs s) l (os_rand s) (os_clock s) in
      if b then (Err (ErrRoot SIO "input/output error"), s') else (Ok tt, s')
  end.

(** A call that only looks. *)
Definition os_query {A} (f : gmap fpath fnode → result A) : M osst A :=
  os_tick ;; fs ← m_gets os_fs; m_lift (f fs).

(** A call that changes the tree or fails. *)
Definition os_update (f : osst → result (gmap fpath fnode)) : M osst unit :=
  os_tick ;; s ← m_get;
  match f s with
  | Ok fs' => m_modify (set_fs (λ _, fs'))
  | Err e => m_fail e
  end.

Definition fs_lookup (fs : gmap fpath fnode) (p : fpath) : result fnode :=
  match fs_get fs p with Some n => Ok n | None => Err (fs_missing fs p) end.

Definition fs_stat (fs : gmap fpath fnode) (p : string) : result finfo :=
  q ← fs_follow max_links fs (abs_segs p);
  n ← fs_lookup fs q;
  Ok (node_info (fbase p) n).
Definition os_stat (p : string) : M osst finfo := os_query (λ fs, fs_stat fs p).

Definition os_lstat (p : string) : M osst finfo :=
  os_query (λ fs, n ← fs_lookup fs (abs_segs p); Ok (node_info (fbase p) n)).

Definition fs_read_file (fs : gmap fpath fnode) (p : string) : result string :=
  q ← fs_follow max_links fs (abs_segs p);
  n ← fs_lookup fs q;
  match n with
  | FFile f => Ok (reg_data f)
  | _ => Err (ErrRoot SIsDir "is a directory")
  end.
Definition os_read_file (p : string) : M osst string := os_query (λ fs, fs_read_file fs p).

Definition os_readlink (p : string) : M osst string :=
  os_query (λ fs,
    n ← fs_lookup fs (abs_segs p);
    match n with FLink t => Ok t | _ => Err (ErrRoot SInval "invalid argument") end).

(** The entries of a directory, sorted by name; the node is not followed. *)
Definition child_name (d : fpath) (kn : fpath * fnode) : option (string * fnode) :=
  match reverse (kn.1) with
  | w :: _ => if decide (kn.1 = d ++ [w]) then Some (w, kn.2) else None
  | [] => None
  end.
Definition entry_le (a b : string * fnode) : Prop := String.le (a.1) (b.1).
#[export] Instance entry_le_dec : RelDecision entry_le.
Proof. intros a b. unfold entry_le. apply _. Defined.
Definition fs_children (fs : gmap fpath fnode) (d : fpath) : list (string * fnode) :=
  merge_sort entry_le (omap (child_name d) (map_to_list fs)).
Definition fs_read_dir (fs : gmap fpath fnode) (p : string) : result (list (string * fnode)) :=
  q ← fs_follow max_links fs (abs_segs p);
  n ← fs_lookup fs q;
  match n with
  | FDir _ => Ok (fs_children fs q)
  | _ => Err (ErrRoot SNotDir "not a directory")
  end.
Definition os_read_dir (p : string) : M osst (list (string * fnode)) :=
  os_query (λ fs, fs_read_dir fs p).

(** One [mkdir] of [os.MkdirAll]: an existing directory is fine, a dangling
    link is not. *)
Definition os_mkdir_one (perm : Z) (q : fpath) : M osst unit :=
  os_update (λ s,
    let fs := os_fs s in
    r ← fs_follow max_links fs q;
    match fs_get fs r with
    | Some (FDir _) => Ok fs
    | Some _ => Err (ErrRoot SNotDir "not a directory")
    | None => if decide (r = q) then Ok (<[q := FDir perm]> fs)
              else Err (ErrRoot SExist "file exists")
    end).
Definition os_mkdir_all (p : string) (perm : Z) : M osst unit :=
  m_foreach (os_mkdir_one perm) (prefixes (abs_segs p)).

Definition fs_remove (fs : gmap fpath fnode) (q : fpath) : result (gmap fpath fnode) :=
  n ← fs_lookup fs q;
  match n with
  | FDir _ =>
      if decide (q = []) then Err (ErrRoot SIO "device or resource busy")
      else match fs_children fs q with
           | [] => Ok (delete q fs)
           | _ => Err (ErrRoot SNotEmpty "directory not empty")
           end
  | _ => Ok (delete q fs)
  end.
Definition os_remove (p : string) : M osst unit :=
  os_update (λ s, fs_remove (os_fs s) (abs_segs p)).

Definition fs_remove_all (fs : gmap fpath fnode) (q : fpath) : gmap fpath fnode :=
  filter (λ kn, ¬ q `prefix_of` kn.1) fs.
Definition os_remove_all (p : string) : M osst unit :=
  os_update (λ s, Ok (fs_remove_all (os_fs s) (abs_segs p))).

(** [rename] of anything but a directory: the program renames only files. *)
Definition fs_rename (fs : gmap fpath fnode) (a b : fpath) : result (gmap fpath fnode) :=
  n ← fs_lookup fs a;
  match n with
  | FDir _ => Err (ErrRoot SIsDir "is a directory")
  | _ =>
      if is_dir_node (fs_get fs b) then Err (ErrRoot SExist "file exists")
      else if negb (is_dir_node (fs_get fs (parent b))) then Err (fs_missing fs b)
      else Ok (<[b := n]> (delete a fs))
  end.
Definition os_rename (a b : string) : M osst unit :=
  os_update (λ s, fs_rename (os_fs s) (abs_segs a) (abs_segs b)).

(** A new directory entry at [q], which must be free. *)
Definition fs_create (fs : gmap fpath fnode) (q : fpath) (n : fnode) : result (gmap fpath fnode) :=
  match fs_get fs q with
  | Some _ => Err (ErrRoot SExist "file exists")
  | None =>
      if is_dir_node (fs_get fs (parent q)) then Ok (<[q := n]> fs)
      else Err (fs_missing fs q)
  end.
Definition os_symlink (target p : string) : M osst unit :=
  os_update (λ s, fs_create (os_fs s) (abs_segs p) (FLink target)).

(** [OpenFile(p, O_CREATE|O_TRUNC|O_WRONLY, perm)]: goes through links. *)
Definition os_create_trunc (p : string) (perm : Z) : M osst unit :=
  os_update (λ s,
    q ← fs_follow max_links (os_fs s) (abs_segs p);
    match fs_get (os_fs s) q with
    | Some (FDir _) => Err (ErrRoot SIsDir "is a directory")
    | Some (FFile f) => Ok (<[q := FFile (mk_regular "" (reg_perm f) (os_clock s))]> (os_fs s))
    | _ => fs_create (os_fs s) q (FFile (mk_regular "" perm (os_clock s)))
    end).

(** [fh.Write(data)] on the file opened at [p]. *)
Definition os_append (p data : string) : M osst unit :=
  os_update (λ s,
    q ← fs_follow max_links (os_fs s) (abs_segs p);
    n ← fs_lookup (os_fs s) q;
    match n with
    | FFile f =>
        Ok (<[q := FFile (mk_regular (reg_data f +:+ data) (reg_perm f) (os_clock s))]> (os_fs s))
    | _ => Err (ErrRoot SInval "bad file")
    end).
(** [fh.Close()]. *)
Definition os_close : M osst unit := os_tick.

Definition os_chmod (p : string) (perm : Z) : M osst unit :=
  os_update (λ s,
    q ← fs_follow max_links (os_fs s) (abs_segs p);
    n ← fs_lookup (os_fs s) q;
    Ok (match n with
        | FFile f => <[q := FFile (mk_regular (reg_data f) perm (reg_mtime f))]> (os_fs s)
        | FDir _ => <[q := FDir perm]> (os_fs s)
        | FLink _ => os_fs s
        end)).

(** [os.WriteFile]: the first error of the write and the close is reported. *)
Definition os_write_file (p data : string) (perm : Z) : M osst unit :=
  os_create_trunc p perm ;;
  w ← m_try (os_append p data);
  c ← m_try os_close;
  match w with
  | Err e => m_fail e
  | Ok _ => m_lift c
  end.

(** A random suffix; the supply never runs dry for a single draw. *)
Definition os_random : M osst string := λ s,
  match os_rand s with
  | [] => (Ok "0", s)
  | r :: l => (Ok r, mk_osst (os_fs s) (os_faults s) l (os_clock s))
  end.

(** [os.CreateTemp(dir, prefix ++ "*")]: draw until a free name comes up; the
    file is created with mode 0600.  Returns the name. *)
Fixpoint temp_loop (supply : list string) (base : string) : M osst string :=
  match supply with
  | [] => m_fail (ErrRoot SExist "file exists")
  | r :: rest =>
      fs ← m_gets os_fs;
      match fs_get fs (abs_segs (base +:+ r)) with
      | Some _ => temp_loop rest base
      | None =>
          os_update (λ s, fs_create (os_fs s) (abs_segs (base +:+ r))
                            (FFile (mk_regular "" 384 (os_clock s)))) ;;
          mret (base +:+ r)
      end
  end.
Definition os_create_temp (dir prefix : string) : M osst string :=
  supply ← m_gets os_rand;
  temp_loop (match supply with [] => ["0"] | _ => supply end) (dir +:+ "/" +:+ prefix).

(** ** What a system call does

    The state a call runs in once its fault bit is spent. *)
Definition ticked (s : osst) : osst := mk_osst (os_fs s) (tail (os_faults s)) (os_rand s) (os_clock s).

Lemma os_tick_cases s :
  (os_tick s).1 = Ok tt ∧ (os_tick s).2 = ticked s ∨
  (os_tick s).1 = Err (ErrRoot SIO "input/output error") ∧ (os_tick s).2 = ticked s.
Proof. unfold os_tick, ticked. destruct s as [fs [|[] l] r c]; simpl; auto. Qed.

Lemma os_query_cases {A} (f : gmap fpath fnode → result A) s r s' :
  os_query f s = (r, s') →
  s' = ticked s ∧ (r = f (os_fs s) ∨ r = Err (ErrRoot SIO "input/output error")).
Proof.
  unfold os_query, mbind, M_bind. destruct (os_tick_cases s) as [[H1 H2]|[H1 H2]];
    destruct (os_tick s) as [r0 s0]; simpl in *; subst; intros [= <- <-]; auto.
Qed.
Lemma os_query_ok {A} (f : gmap fpath fnode → result A) s a s' :
  os_query f s = (Ok a, s') → f (os_fs s) = Ok a ∧ s' = ticked s.
Proof. intros [-> [->|]]%os_query_cases; done. Qed.

Lemma os_update_cases f s r s' :
  os_update f s = (r, s') →
  (r = Ok tt ∧ f (ticked s) = Ok (os_fs s') ∧
     s' = mk_osst (os_fs s') (tail (os_faults s)) (os_rand s) (os_clock s)) ∨
  (∃ e, r = Err e ∧ s' = ticked s).
Proof.
  unfold os_update, mbind, M_bind. destruct (os_tick_cases s) as [[H1 H2]|[H1 H2]];
    destruct (os_tick s) as [r0 s0]; simpl in *; subst; [|intros [= <- <-]; eauto].
  unfold m_get. simpl. destruct (f (ticked s)) as [fs'|e] eqn:E; intros [= <- <-]; [left|eauto].
  done.
Qed.

Lemma os_update_err f s e s' :
  os_update f s = (Err e, s') → e = ErrRoot SIO "input/output error" ∨ f (ticked s) = Err e.
Proof.
  unfold os_update, mbind, M_bind. destruct (os_tick_cases s) as [[H1 H2]|[H1 H2]];
    destruct (os_tick s) as [r0 s0]; simpl in *; subst; [|intros [= <- <-]; by left].
  unfold m_get. simpl. destruct (f (ticked s)) as [fs'|e'] eqn:E; intros [= <- <-]; auto.
Qed.

(** Without pending faults a call is its function. *)
Lemma os_query_nofault {A} (f : gmap fpath fnode → result A) s :
  os_faults s = [] → os_query f s = (f (os_fs s), s).
Proof. destruct s as [fs l r c]. simpl. by intros ->. Qed.

Lemma ticked_fs s : os_fs (ticked s) = os_fs s.
Proof. done. Qed.

(** ** Frames

    [fs_frame P a b]: outside [P] the tree [b] is [a], but for directories that
    are new.  It is a preorder, so it composes along any run of calls. *)
Definition fs_frame (P : fpath → Prop) (a b : gmap fpath fnode) : Prop :=
  ∀ q, ¬ P q → b !! q = a !! q ∨ (a !! q = None ∧ is_dir_node (b !! q) = true).
(** No call invents random suffixes; only those supplied are drawn. *)
Definition os_frame (P : fpath → Prop) (s s' : osst) : Prop :=
  fs_frame P (os_fs s) (os_fs s') ∧ os_rand s' `suffix_of` os_rand s.

#[export] Instance fs_frame_preorder P : PreOrder (fs_frame P).
Proof.
  split; [by left|]. intros a b c Hab Hbc q Hq.
  destruct (Hab q Hq) as [E1|[E1 D1]], (Hbc q Hq) as [E2|[E2 D2]].
  - left. congruence.
  - right. split; [congruence|done].
  - right. split; [done|congruence].
  - rewrite E2 in D1. done.
Qed.
#[export] Instance os_frame_preorder P : PreOrder (os_frame P).
Proof.
  split; [intros s; split; reflexivity|]. intros a b c [Hab Sab] [Hbc Sbc].
  split; [by etrans|by etrans].
Qed.
Lemma fs_frame_mono (P Q : fpath → Prop) a b :
  (∀ q, P q → Q q) → fs_frame P a b → fs_frame Q a b.
Proof. intros H Hf q Hq. apply Hf. auto. Qed.
Lemma pres_frame_mono {A} (P Q : fpath → Prop) (m : M osst A) :
  (∀ q, P q → Q q) → pres (os_frame P) m → pres (os_frame Q) m.
Proof. intros H Hm s. destruct (Hm s). split; [by eapply fs_frame_mono|done]. Qed.

Lemma pres_os_query (P : fpath → Prop) {A} (f : gmap fpath fnode → result A) : pres (os_frame P) (os_query f).
Proof.
  intros s. destruct (os_query f s) as [r s'] eqn:E. apply os_query_cases in E as [-> _].
  simpl. split; reflexivity.
Qed.
Lemma pres_os_update (P : fpath → Prop) f :
  (∀ s fs', f s = Ok fs' → fs_frame P (os_fs s) fs') → pres (os_frame P) (os_update f).
Proof.
  intros H s. destruct (os_update f s) as [r s'] eqn:E.
  apply os_update_cases in E as [(_ & E & ->)|(e & _ & ->)]; simpl; [|split; reflexivity].
  split; [by apply (H (ticked s))|reflexivity].
Qed.
Lemma fs_frame_insert (P : fpath → Prop) fs q n : P q → fs_frame P fs (<[q := n]> fs).
Proof. intros H q' Hq'. left. rewrite lookup_insert_ne; [done|]. by intros ->. Qed.
Lemma fs_frame_delete (P : fpath → Prop) fs q : P q → fs_frame P fs (delete q fs).
Proof. intros H q' Hq'. left. rewrite lookup_delete_ne; [done|]. by intros ->. Qed.
Lemma fs_frame_mkdir (P : fpath → Prop) fs q perm : fs !! q = None → fs_frame P fs (<[q := FDir perm]> fs).
Proof.
  intros H q' Hq'. destruct (decide (q = q')) as [<-|Hne].
  - right. by rewrite lookup_insert_eq.
  - left. by rewrite lookup_insert_ne.
Qed.

Lemma fs_get_none fs q : fs_get fs q = None → fs !! q = None ∧ q ≠ [].
Proof. unfold fs_get. case_decide; [done|]. auto. Qed.
Lemma fs_get_some_nonroot fs q n : q ≠ [] → fs_get fs q = Some n → fs !! q = Some n.
Proof. unfold fs_get. intros H. by rewrite decide_False. Qed.
Lemma fs_get_lookup fs q : q ≠ [] → fs_get fs q = fs !! q.
Proof. unfold fs_get. intros H. by rewrite decide_False. Qed.
Lemma fs_create_ok fs q n fs' :
  fs_create fs q n = Ok fs' →
  fs' = <[q := n]> fs ∧ fs !! q = None ∧ q ≠ [] ∧ is_dir_node (fs_get fs (parent q)) = true.
Proof.
  unfold fs_create. destruct (fs_get fs q) eqn:E; [done|].
  apply fs_get_none in E as [E Hq]. destruct (is_dir_node _); [|done]. by intros [= <-].
Qed.
Lemma fs_remove_ok fs q fs' : fs_remove fs q = Ok fs' → fs' = delete q fs.
Proof.
  unfold fs_remove, mbind, result_bind. destruct (fs_lookup fs q) as [[]|]; try done; try by intros [= <-].
  case_decide; [done|]. destruct (fs_children fs q); [by intros [= <-]|done].
Qed.
Lemma fs_rename_ok fs a b fs' :
  fs_rename fs a b = Ok fs' →
  ∃ n, fs_get fs a = Some n ∧ is_dir_node (Some n) = false ∧ is_dir_node (fs_get fs b) = false ∧
       fs' = <[b := n]> (delete a fs).
Proof.
  unfold fs_rename, fs_lookup, mbind, result_bind. destruct (fs_get fs a) as [n|] eqn:Ea; [|done].
  intros H. exists n. split; [done|]. destruct n; try done; simpl in *;
    destruct (is_dir_node (fs_get fs b)); try done;
    destruct (is_dir_node (fs_get fs (parent b))); try done; by injection H as <-.
Qed.

Lemma pres_mkdir_one (P : fpath → Prop) perm q : pres (os_frame P) (os_mkdir_one perm q).
Proof.
  apply pres_os_update. intros s fs'. unfold mbind, result_bind.
  destruct (fs_follow max_links (os_fs s) q) as [r|]; [|done].
  destruct (fs_get (os_fs s) r) as [[]|] eqn:E; try done.
  - intros [= <-]. reflexivity.
  - case_decide as Hd; [|done]. intros [= <-]. subst r. apply fs_get_none in E as [E _].
    by apply fs_frame_mkdir.
Qed.
Lemma pres_mkdir_all (P : fpath → Prop) p perm : pres (os_frame P) (os_mkdir_all p perm).
Proof. apply pres_foreach; [apply _|]. intros q. apply pres_mkdir_one. Qed.
Lemma pres_remove (P : fpath → Prop) p : P (abs_segs p) → pres (os_frame P) (os_remove p).
Proof.
  intros H. apply pres_os_update. intros s fs' ->%fs_remove_ok. by apply fs_frame_delete.
Qed.
Lemma pres_symlink (P : fpath → Prop) t p : P (abs_segs p) → pres (os_frame P) (os_symlink t p).
Proof.
  intros H. apply pres_os_update. intros s fs' (-> & _)%fs_create_ok. by apply fs_frame_insert.
Qed.
Lemma pres_rename (P : fpath → Prop) a b :
  P (abs_segs a) → P (abs_segs b) → pres (os_frame P) (os_rename a b).
Proof.
  intros Ha Hb. apply pres_os_update. intros s fs' (n & _ & _ & _ & ->)%fs_rename_ok.
  transitivity (delete (abs_segs a) (os_fs s)); [by apply fs_frame_delete|by apply fs_frame_insert].
Qed.
Lemma pres_os_close (P : fpath → Prop) : pres (os_frame P) os_close.
Proof.
  intros s. unfold os_close. destruct (os_tick_cases s) as [[_ ->]|[_ ->]]; split; reflexivity.
Qed.
#[export] Hint Resolve pres_os_query pres_mkdir_all pres_os_close : pres.
#[export] Hint Extern 1 (pres (os_frame _) (os_stat _)) => apply pres_os_query : pres.
#[export] Hint Extern 1 (pres (os_frame _) (os_lstat _)) => apply pres_os_query : pres.
#[export] Hint Extern 1 (pres (os_frame _) (os_read_file _)) => apply pres_os_query : pres.
#[export] Hint Extern 1 (pres (os_frame _) (os_readlink _)) => apply pres_os_query : pres.
#[export] Hint Extern 1 (pres (os_frame _) (os_read_dir _)) => apply pres_os_query : pres.

(** ** Calls on a path that is no link *)
Lemma fs_follow_id fuel fs q :
  (∀ t, fs_get fs q ≠ Some (FLink t)) → fs_follow fuel fs q = Ok q.
Proof.
  intros H. destruct fuel; simpl; destruct (fs_get fs q) as [[]|] eqn:E; try done; by destruct (H target).
Qed.
Lemma fs_follow_file fuel fs q f : fs_get fs q = Some (FFile f) → fs_follow fuel fs q = Ok q.
Proof. intros E. apply fs_follow_id. by rewrite E. Qed.
Lemma fs_read_file_at fs p f :
  fs_get fs (abs_segs p) = Some (FFile f) → fs_read_file fs p = Ok (reg_data f).
Proof.
  intros E. unfold fs_read_file. rewrite (fs_follow_file _ _ _ f) by done.
  simpl. unfold fs_lookup. by rewrite E.
Qed.
Lemma os_append_at p d s f r s' :
  fs_get (os_fs s) (abs_segs p) = Some (FFile f) → os_append p d s = (r, s') →
  os_fs s' = match r with
    | Ok _ => <[abs_segs p := FFile (mk_regular (reg_data f +:+ d) (reg_perm f) (os_clock s))]> (os_fs s)
    | Err _ => os_fs s end ∧ os_clock s' = os_clock s ∧ os_rand s' = os_rand s.
Proof.
  intros E H. apply os_update_cases in H as [(-> & H & ->)|(e & -> & ->)]; [|done].
  cbv beta in H. rewrite ticked_fs, (fs_follow_file _ _ _ f) in H by done.
  cbn [mbind result_bind] in H. unfold fs_lookup in H. rewrite E in H.
  injection H as H. split_and!; [symmetry; exact H|done..].
Qed.
Lemma os_chmod_at p m s f r s' :
  fs_get (os_fs s) (abs_segs p) = Some (FFile f) → os_chmod p m s = (r, s') →
  os_fs s' = match r with
    | Ok _ => <[abs_segs p := FFile (mk_regular (reg_data f) m (reg_mtime f))]> (os_fs s)
    | Err _ => os_fs s end ∧ os_clock s' = os_clock s ∧ os_rand s' = os_rand s.
Proof.
  intros E H. apply os_update_cases in H as [(-> & H & ->)|(e & -> & ->)]; [|done].
  cbv beta in H. rewrite ticked_fs, (fs_follow_file _ _ _ f) in H by done.
  cbn [mbind result_bind] in H. unfold fs_lookup in H. rewrite E in H.
  injection H as H. split_and!; [symmetry; exact H|done..].
Qed.
Lemma os_remove_cases p s r s' :
  os_remove p s = (r, s') →
  os_fs s' = os_fs s ∨ os_fs s' = delete (abs_segs p) (os_fs s).
Proof.
  intros [(_ & H & _)|(e & _ & ->)]%os_update_cases; [|by left]. right.
  by apply fs_remove_ok in H.
Qed.

(** No symbolic link stands at [q]. *)
Definition no_link (fs : gmap fpath fnode) (q : fpath) : Prop := ∀ t, fs_get fs q ≠ Some (FLink t).
Lemma create_trunc_at p perm s r s' :
  no_link (os_fs s) (abs_segs p) → os_create_trunc p perm s = (r, s') →
  os_clock s' = os_clock s ∧ os_rand s' = os_rand s ∧
  match r with
  | Ok _ => abs_segs p ≠ [] ∧
      ∃ m, os_fs s' = <[abs_segs p := FFile (mk_regular "" m (os_clock s))]> (os_fs s)
  | Err _ => os_fs s' = os_fs s
  end.
Proof.
  intros Hn [(-> & H & ->)|(e & -> & ->)]%os_update_cases; [|done]. cbv beta in H.
  rewrite ticked_fs, fs_follow_id in H by exact Hn. cbn [mbind result_bind os_clock os_rand os_fs] in *.
  split; [done|]. split; [done|]. destruct (decide (abs_segs p = [])) as [E|E].
  { rewrite E in H. done. }
  split; [done|]. rewrite fs_get_lookup in H by done. specialize (Hn).
  destruct (os_fs s !! abs_segs p) as [[f|d|t]|] eqn:El; try done.
  - exists (reg_perm f). by injection H as <-.
  - exfalso. apply (Hn t). by rewrite fs_get_lookup.
  - apply fs_create_ok in H as (-> & _). by exists perm.
Qed.
Lemma write_file_at p data perm s r s' :
  no_link (os_fs s) (abs_segs p) → os_write_file p data perm s = (r, s') →
  os_clock s' = os_clock s ∧ os_rand s' = os_rand s ∧
  match r with
  | Ok _ => ∃ m, os_fs s' = <[abs_segs p := FFile (mk_regular data m (os_clock s))]> (os_fs s)
  | Err _ => os_fs s' = os_fs s ∨ ∃ f, os_fs s' = <[abs_segs p := FFile f]> (os_fs s)
  end.
Proof.
  intros Hn H. unfold os_write_file in H.
  destruct (os_create_trunc p perm s) as [r1 s1] eqn:E1.
  destruct (create_trunc_at _ _ _ _ _ Hn E1) as (C1 & R1 & H1). destruct r1 as [[]|e].
  2:{ rewrite (bind_run_err _ _ _ _ _ E1) in H. injection H as <- <-. auto. }
  rewrite (bind_run_ok _ _ _ _ _ E1) in H. destruct H1 as (Hne & m & H1).
  destruct (os_append p data s1) as [r2 s2] eqn:E2. rewrite (bind_try_run _ _ _ _ _ E2) in H.
  eapply os_append_at in E2 as (H2 & C2 & R2); [|rewrite fs_get_lookup by done; by rewrite H1, lookup_insert_eq].
  rewrite H1, insert_insert_eq in H2. cbn [reg_data reg_perm] in H2. change ("" +:+ data) with data in H2.
  rewrite (bind_try_run _ _ _ _ _ (surjective_pairing _)) in H.
  assert (os_fs (os_close s2).2 = os_fs s2 ∧ os_clock (os_close s2).2 = os_clock s2 ∧
    os_rand (os_close s2).2 = os_rand s2) as (F3 & C3 & R3).
  { unfold os_close. by destruct (os_tick_cases s2) as [[_ ->]|[_ ->]]. }
  destruct r2 as [[]|e].
  - injection H as <- <-. rewrite F3, C3, R3, H2, C1.
    split_and!; [congruence|congruence|]. destruct (os_close s2).1 as [[]|]; eauto.
  - injection H as <- <-. rewrite F3, C3, R3, H2. split_and!; [congruence|congruence|]. right. eauto.
Qed.
Lemma rename_at a b s r s' :
  os_rename a b s = (r, s') →
  match r with
  | Ok _ => ∃ n, fs_get (os_fs s) (abs_segs a) = Some n ∧ is_dir_node (Some n) = false ∧
                 os_fs s' = <[abs_segs b := n]> (delete (abs_segs a) (os_fs s))
  | Err _ => os_fs s' = os_fs s
  end.
Proof.
  intros [(-> & H & _)|(e & -> & ->)]%os_update_cases; [|done].
  apply fs_rename_ok in H as (n & Hn & Hd & _ & E). eauto.
Qed.

(** Every call at least keeps to the supply of random suffixes. *)
Abbreviation os_any := (os_frame (λ _, True)).
Lemma pres_any_update f : pres os_any (os_update f).
Proof. apply pres_os_update. intros s fs' _ q Hq. by destruct Hq. Qed.
Lemma pres_any_temp supply base : pres os_any (temp_loop supply base).
Proof.
  induction supply as [|x supply IH]; [apply pres_fail, _|]. cbn [temp_loop].
  apply pres_bind; [apply _|apply pres_gets, _|]. intros fs.
  destruct (fs_get _ _); [done|]. apply pres_bind; [apply _|apply pres_any_update|].
  intros []. apply pres_ret, _.
Qed.
Lemma pres_any_create_temp d p : pres os_any (os_create_temp d p).
Proof. apply pres_bind; [apply _|apply pres_gets, _|]. intros. apply pres_any_temp. Qed.
#[export] Hint Resolve pres_any_update pres_any_create_temp : pres.
#[export] Hint Extern 1 (pres os_any (os_append _ _)) => apply pres_any_update : pres.
#[export] Hint Extern 1 (pres os_any (os_chmod _ _)) => apply pres_any_update : pres.
#[export] Hint Extern 1 (pres os_any (os_remove _)) => apply pres_any_update : pres.
#[export] Hint Extern 1 (pres os_any (os_rename _ _)) => apply pres_any_update : pres.
#[export] Hint Extern 1 (pres os_any (os_symlink _ _)) => apply pres_any_update : pres.
#[export] Hint Extern 1 (pres os_any (os_remove_all _)) => apply pres_any_update : pres.
#[export] Hint Extern 1 (pres os_any (os_create_trunc _ _)) => apply pres_any_update : pres.

(** A temporary file is new, empty and private. *)
Lemma temp_loop_spec supply base s r s' :
  temp_loop supply base s = (r, s') →
  match r with
  | Ok name => ∃ x, x ∈ supply ∧ name = base +:+ x ∧ fs_get (os_fs s) (abs_segs name) = None ∧
      is_dir_node (fs_get (os_fs s) (parent (abs_segs name))) = true ∧
      os_fs s' = <[abs_segs name := FFile (mk_regular "" 384 (os_clock s))]> (os_fs s)
  | Err _ => os_fs s' = os_fs s
  end ∧ os_clock s' = os_clock s.
Proof.
  revert s. induction supply as [|x supply IH]; intros s; [by intros [= <- <-]|].
  cbn [temp_loop]. unfold mbind at 1, M_bind at 1, m_gets at 1.
  destruct (fs_get (os_fs s) (abs_segs (base +:+ x))) eqn:E.
  - intros H. destruct (IH s H) as [Hr Hc]. split; [|done]. destruct r as [name|]; [|done].
    destruct Hr as (y & Hy & Hr). exists y. split; [set_solver|done].
  - unfold mbind, M_bind.
    destruct (os_update _ s) as [[[]|e] s1] eqn:Eu; intros [= <- <-];
      apply os_update_cases in Eu as [(? & Eu & ->)|(? & ? & ->)]; try done.
    apply fs_create_ok in Eu as (-> & _ & _ & Hp). simpl. split; [|done].
    exists x. split_and!; [set_solver|done..].
Qed.

(** ** One path at a time *)
Definition fs_at (q : fpath) (s s' : osst) : Prop := os_fs s' !! q = os_fs s !! q.
#[export] Instance fs_at_preorder q : PreOrder (fs_at q).
Proof. unfold fs_at. split; [done|]. intros a b c E1 E2. congruence. Qed.

Lemma prefixes_prefix p q : q ∈ prefixes p → q `prefix_of` p.
Proof.
  revert q. induction p as [|x p IH]; intros q; simpl; [by intros ?%not_elem_of_nil|].
  intros [->|Hq]%elem_of_cons; [by exists p|].
  apply list_elem_of_In, in_map_iff in Hq as (q' & <- & Hq'%list_elem_of_In).
  by apply prefix_cons, IH.
Qed.
Lemma prefixes_nonnil p q : q ∈ prefixes p → q ≠ [].
Proof. intros H ->. destruct p as [|x p]; simpl in H; [set_solver|].
  apply elem_of_cons in H as [|H]; [done|].
  apply list_elem_of_In, in_map_iff in H as (q' & ? & _). done.
Qed.

Lemma mkdir_all_at p perm q : q ∉ prefixes (abs_segs p) → pres (fs_at q) (os_mkdir_all p perm).
Proof.
  intros Hq. apply pres_foreach_in; [apply _|]. intros x Hx s.
  destruct (os_mkdir_one perm x s) as [r s'] eqn:E.
  apply os_update_cases in E as [(_ & E & ->)|(e & _ & ->)]; [|done].
  unfold fs_at. simpl. revert E. unfold mbind, result_bind.
  destruct (fs_follow max_links (os_fs (ticked s)) x) as [y|]; [|done].
  destruct (fs_get (os_fs (ticked s)) y) as [[]|]; try done; [by intros [= <-]|].
  case_decide; [|done]. intros [= <-]. apply lookup_insert_ne. by intros ->.
Qed.
(** What exists is never replaced by making directories. *)
Lemma mkdir_all_keeps p perm s q n :
  os_fs s !! q = Some n → os_fs (os_mkdir_all p perm s).2 !! q = Some n.
Proof.
  intros H. destruct (pres_mkdir_all (λ _, False) p perm s) as [Hf _].
  destruct (Hf q) as [->|[E _]]; [auto|done|congruence].
Qed.

(** The state with no failure to come. *)
Definition nofault (s : osst) : osst := mk_osst (os_fs s) [] (os_rand s) (os_clock s).

(** Faults do not come from nowhere. *)
Definition calm (s s' : osst) : Prop := os_faults s = [] → os_faults s' = [].
#[export] Instance calm_preorder : PreOrder calm.
Proof. split; [intros s Hs; exact Hs|]. intros a b c Hab Hbc Ha. auto. Qed.
Lemma pres_calm_query {A} (f : gmap fpath fnode → result A) : pres calm (os_query f).
Proof.
  intros s Hs. destruct (os_query f s) as [r s'] eqn:E. apply os_query_cases in E as [-> _].
  simpl. by rewrite Hs.
Qed.
Lemma pres_calm_update f : pres calm (os_update f).
Proof.
  intros s Hs. destruct (os_update f s) as [r s'] eqn:E.
  apply os_update_cases in E as [(_ & _ & ->)|(e & _ & ->)]; simpl; by rewrite Hs.
Qed.
Lemma pres_calm_mkdir p perm : pres calm (os_mkdir_all p perm).
Proof. apply pres_foreach; [apply _|]. intros q. apply pres_calm_update. Qed.

Lemma parent_snoc l w : parent (l ++ [w]) = l.
Proof.
  induction l as [|x l IH]; [done|]. simpl. rewrite IH. by destruct l.
Qed.
(** A relative link made with [Rel] leads where it should. *)
Lemma link_target_rel q p r :
  q ≠ [] → Forall seg_ok q → is_abs p = true →
  frel (fdir (render_abs q)) p = Ok r → link_target q r = abs_segs p.
Proof.
  intros Hq Hok Hp. destruct (exists_last Hq) as (l & w & ->). rewrite fdir_render by done.
  intros H. unfold link_target. rewrite parent_snoc.
  rewrite (frel_not_abs _ _ _ (is_abs_render l) Hp H).
  by apply frel_resolves; [apply is_abs_render|..].
Qed.
Lemma fs_follow_link fuel fs q t :
  fs_get fs q = Some (FLink t) → fs_follow (S fuel) fs q = fs_follow fuel fs (link_target q t).
Proof. intros E. simpl. by rewrite E. Qed.

(** ** Calls that only look *)
Definition same_fs (s s' : osst) : Prop := os_fs s' = os_fs s.
#[export] Instance same_fs_preorder : PreOrder same_fs.
Proof. unfold same_fs. split; [done|]. intros a b c E1 E2. congruence. Qed.
Lemma same_fs_query {A} (f : gmap fpath fnode → result A) : pres same_fs (os_query f).
Proof. intros s. destruct (os_query f s) as [r s'] eqn:E. by apply os_query_cases in E as [-> _]. Qed.
#[export] Hint Resolve same_fs_query : pres.
#[export] Hint Extern 1 (pres same_fs (os_stat _)) => apply same_fs_query : pres.
#[export] Hint Extern 1 (pres same_fs (os_lstat _)) => apply same_fs_query : pres.
#[export] Hint Extern 1 (pres same_fs (os_read_file _)) => apply same_fs_query : pres.
#[export] Hint Extern 1 (pres same_fs (os_readlink _)) => apply same_fs_query : pres.
#[export] Hint Extern 1 (pres same_fs (os_read_dir _)) => apply same_fs_query : pres.

(** The elements a successful loop collects come from its iterations. *)
Lemma flat_map_run {A B} (f : A → M osst (list B)) l s zs s' :
  (∀ x, pres same_fs (f x)) → m_flat_map f l s = (Ok zs, s') →
  (∀ z, z ∈ zs → ∃ x ys s1 s2, x ∈ l ∧ os_fs s1 = os_fs s ∧ f x s1 = (Ok ys, s2) ∧ z ∈ ys) ∧
  (∀ x, x ∈ l → ∃ ys s1 s2, os_fs s1 = os_fs s ∧ f x s1 = (Ok ys, s2) ∧ ∀ z, z ∈ ys → z ∈ zs).
Proof.
  intros Hf. revert s zs. induction l as [|x l IH]; intros s zs H.
  { injection H as <- <-. split; intros ? Hin; by apply not_elem_of_nil in Hin. }
  apply bind_ok_inv in H as (ys & s1 & Hx & H). apply bind_ok_inv in H as (zs' & s2 & Hl & H).
  injection H as <- <-. pose proof (Hf x s) as Hs. rewrite Hx in Hs. unfold same_fs in Hs. simpl in Hs.
  destruct (IH s1 zs' Hl) as [H1 H2]. rewrite Hs in *. split.
  - intros z [Hz|Hz]%elem_of_app.
    + exists x, ys, s, s1. split_and!; [apply list_elem_of_here|done..].
    + destruct (H1 z Hz) as (y & ys' & t1 & t2 & Hy & ?). exists y, ys', t1, t2.
      split; [by apply list_elem_of_further|done].
  - intros y [->|Hy]%elem_of_cons.
    + exists ys, s, s1. split_and!; [done..|]. intros z Hz. apply elem_of_app. by left.
    + destruct (H2 y Hy) as (ys' & t1 & t2 & E1 & E2 & E3). exists ys', t1, t2.
      split_and!; [done..|]. intros z Hz. apply elem_of_app. right. by apply E3.
Qed.

(** Listing a directory. *)
Lemma fs_children_spec fs d n node :
  (n, node) ∈ fs_children fs d ↔ fs !! (d ++ [n]) = Some node.
Proof.
  unfold fs_children. rewrite merge_sort_Permutation, list_elem_of_omap. split.
  - intros ([k v] & Hin%elem_of_map_to_list & Hc). unfold child_name in Hc. simpl in Hc.
    destruct (reverse k) as [|w r]; [done|]. case_decide; [|done]. by injection Hc as -> ->; subst.
  - intros H. exists (d ++ [n], node). split; [by apply elem_of_map_to_list|].
    unfold child_name. simpl. rewrite reverse_snoc. by rewrite decide_True.
Qed.

(** More links allowed, same destination. *)
Lemma fs_follow_mono fs k k' q r : k ≤ k' → fs_follow k fs q = Ok r → fs_follow k' fs q = Ok r.
Proof.
  revert k' q. induction k as [|k IH]; intros k' q Hk; destruct k' as [|k']; try lia; try done.
  - simpl. destruct (fs_get fs q) as [[]|]; done.
  - simpl. destruct (fs_get fs q) as [[]|]; try done. apply IH. lia.
Qed.
(** A path exists only up to the depth of the tree. *)
