(* ===== verification/Protoio.v ===== *)
(** * internal/protoio: the length-prefixed framing.

    A frame is a 4-byte big-endian length followed by that many bytes.  The
    writer keeps the bytes it has accepted and a schedule of write failures;
    the reader keeps the bytes still to come and the error the stream reports
    after them (end of file, a reset, a deadline). *)
From S2P Require Import Prelude GoStrings Json.

(** ** [io.Writer] and [io.Reader] *)
(** Each failing [Write] is announced by the head of the schedule being a
    failure; [None] lets the call through. *)
Record wstate := mk_wstate { ws_out : string; ws_faults : list (option error) }.
Record rstate := mk_rstate { rs_in : string; rs_end : error }.

Definition io_write (data : string) : M wstate unit := λ s,
  match ws_faults s with
  | [] => (Ok tt, mk_wstate (ws_out s +:+ data) [])
  | Some e :: l => (Err e, mk_wstate (ws_out s) l)
  | None :: l => (Ok tt, mk_wstate (ws_out s +:+ data) l)
  end.

(** [io.ReadFull] into a buffer of [n] bytes. *)
Definition io_read_full (n : nat) : M rstate string := λ s,
  if decide (n ≤ String.length (rs_in s))
  then (Ok (take_bytes n (rs_in s)), mk_rstate (drop_bytes n (rs_in s)) (rs_end s))
  else (Err (if decide (rs_in s ≠ "" ∧ errors_is (rs_end s) SEOF)
             then ErrRoot SUnexpectedEOF "unexpected EOF" else rs_end s),
        mk_rstate "" (rs_end s)).

(** ** [encoding/binary] big-endian 32-bit integers *)
Definition byte_of_Z (z : Z) : ascii := ascii_of_N (Z.to_N (z mod 256)).
Definition Z_of_byte (a : ascii) : Z := Z.of_N (N_of_ascii a).
Definition be_put_uint32 (z : Z) : string :=
  String (byte_of_Z (Z.shiftr z 24)) (String (byte_of_Z (Z.shiftr z 16))
    (String (byte_of_Z (Z.shiftr z 8)) (String (byte_of_Z z) ""))).
Fixpoint be_uint (acc : Z) (s : string) : Z :=
  match s with
  | "" => acc
  | String a s' => be_uint (Z.lor (Z.shiftl acc 8) (Z_of_byte a)) s'
  end.

(** ** The program's framing *)
Definition MaxFrame : Z := Z.shiftl 8 20.
Definition ErrFrameTooLarge : error := ErrRoot SFrameTooLarge "frame exceeds 8388608 bytes".
Definition slen (s : string) : Z := Z.of_nat (String.length s).

Definition WriteFrame (data : string) : M wstate unit :=
  if decide (slen data > MaxFrame)%Z then m_fail ErrFrameTooLarge
  else
    io_write (be_put_uint32 (wrap32u (slen data))) ;;
    if decide (slen data = 0)%Z then mret tt
    else io_write data.

Definition ReadFrame : M rstate string :=
  hdr ← io_read_full 4;
  let n := be_uint 0 hdr in
  if decide (n > MaxFrame)%Z then m_fail ErrFrameTooLarge
  else io_read_full (Z.to_nat n).

(** Values travel as one frame of compact JSON. *)
Definition WriteJSON (v : json) : M wstate unit := WriteFrame (print v).
Definition ReadJSON {T} (dec : json → T → result T) (v : T) : M rstate T :=
  data ← ReadFrame;
  m_wrap "unmarshal frame payload" (m_lift (unmarshal dec data v)).

(** ** Lemmas *)
Lemma Z_of_byte_range a : (0 ≤ Z_of_byte a < 256)%Z.
Proof. unfold Z_of_byte. pose proof (N_ascii_bounded a). lia. Qed.
Lemma Z_of_byte_of_Z z : Z_of_byte (byte_of_Z z) = (z mod 256)%Z.
Proof.
  unfold Z_of_byte, byte_of_Z. pose proof (Z.mod_pos_bound z 256).
  rewrite N_ascii_embedding; lia.
Qed.

Lemma lor_shift8 acc b : (0 ≤ b < 256)%Z → Z.lor (Z.shiftl acc 8) b = (acc * 256 + b)%Z.
Proof.
  intros Hb. rewrite <- Z.add_nocarry_lor; [by rewrite Z.shiftl_mul_pow2 by lia|].
  apply Z.bits_inj'. intros n Hn. rewrite Z.land_spec, Z.bits_0.
  destruct (decide (n < 8)%Z); [by rewrite Z.shiftl_spec_low by lia|].
  replace b with (b mod 2 ^ 8)%Z by (rewrite Z.mod_small; lia).
  rewrite Z.mod_pow2_bits_high by lia. apply andb_false_r.
Qed.

Lemma be_uint_bound s acc :
  (0 ≤ acc)%Z → (0 ≤ be_uint acc s)%Z.
Proof.
  revert acc. induction s as [|a s IH]; intros acc H; [done|].
  simpl. apply IH. rewrite lor_shift8 by apply Z_of_byte_range.
  pose proof (Z_of_byte_range a). lia.
Qed.

Lemma be_uint_put n : (0 ≤ n < 2 ^ 32)%Z → be_uint 0 (be_put_uint32 n) = n.
Proof.
  intros Hn. unfold be_put_uint32. cbn [be_uint].
  rewrite !lor_shift8 by apply Z_of_byte_range.
  rewrite !Z_of_byte_of_Z, !Z.shiftr_div_pow2 by lia.
  pose proof (Z.div_lt_upper_bound n (2 ^ 24) 256).
  Z.div_mod_to_equations. lia.
Qed.

Lemma io_read_full_app n s rest e :
  String.length s = n →
  io_read_full n (mk_rstate (s +:+ rest) e) = (Ok s, mk_rstate rest e).
Proof.
  intros <-. unfold io_read_full. simpl.
  rewrite decide_True by (rewrite slength_app; lia).
  by rewrite take_bytes_app, drop_bytes_app.
Qed.

Lemma io_write_ok data out : io_write data (mk_wstate out []) = (Ok tt, mk_wstate (out +:+ data) []).
Proof. done. Qed.

Lemma slen_frame_range d : (slen d ≤ MaxFrame)%Z → (0 ≤ slen d < 2 ^ 32)%Z.
Proof.
  change MaxFrame with 8388608%Z. change (2 ^ 32)%Z with 4294967296%Z. unfold slen. lia.
Qed.

(** The bytes of one frame. *)
Definition frame (data : string) : string := be_put_uint32 (slen data) +:+ data.

Lemma WriteFrame_run data out :
  (slen data ≤ MaxFrame)%Z →
  WriteFrame data (mk_wstate out []) = (Ok tt, mk_wstate (out +:+ frame data) []).
Proof.
  intros Hl. unfold WriteFrame. rewrite decide_False by lia.
  erewrite bind_run_ok by apply io_write_ok.
  assert (wrap32u (slen data) = slen data) as ->.
  { by apply Z.mod_small, slen_frame_range. }
  case_decide as H0.
  - assert (data = "") as ->; [|done].
    destruct data; [done|]. unfold slen in H0. simpl in H0. lia.
  - rewrite io_write_ok, sapp_assoc. done.
Qed.

Lemma ReadFrame_run data rest e :
  (slen data ≤ MaxFrame)%Z →
  ReadFrame (mk_rstate (frame data +:+ rest) e) = (Ok data, mk_rstate rest e).
Proof.
  intros Hl. unfold ReadFrame, frame. rewrite sapp_assoc.
  erewrite bind_run_ok by by apply io_read_full_app.
  rewrite be_uint_put by by apply slen_frame_range.
  rewrite decide_False by lia. apply io_read_full_app. unfold slen. lia.
Qed.

(** Writing then reading a pipeline of frames. *)
Lemma ReadJSON_frame {T} (dec : json → T → result T) j (t : T) rest e :
  plain j → (slen (print j) ≤ MaxFrame)%Z →
  ReadJSON dec t (mk_rstate (frame (print j) +:+ rest) e) =
  (wrap_result "unmarshal frame payload" (dec j t), mk_rstate rest e).
Proof.
  intros Hp Hl. unfold ReadJSON. erewrite bind_run_ok by by apply ReadFrame_run.
  unfold m_wrap, m_lift. by rewrite unmarshal_print.
Qed.

Fixpoint read_frames (n : nat) : M rstate (list string) :=
  match n with
  | O => mret []
  | S n' => d ← ReadFrame; l ← read_frames n'; mret (d :: l)
  end.

Lemma write_frames_run l out :
  Forall (λ d, slen d ≤ MaxFrame)%Z l →
  m_foreach WriteFrame l (mk_wstate out []) =
    (Ok tt, mk_wstate (out +:+ join "" (map frame l)) []).
Proof.
  intros H. revert out. induction H as [|d l Hd _ IH]; intros out.
  { simpl. by rewrite sapp_nil_r. }
  cbn [m_foreach]. erewrite bind_run_ok by by apply WriteFrame_run.
  rewrite IH, sapp_assoc. simpl map.
  destruct l as [|d' l]; [simpl; by rewrite sapp_nil_r|]. done.
Qed.

Lemma byte_of_Z_of_byte a : byte_of_Z (Z_of_byte a) = a.
Proof.
  unfold byte_of_Z, Z_of_byte. pose proof (N_ascii_bounded a).
  rewrite Z.mod_small by lia. rewrite N2Z.id. apply ascii_N_embedding.
Qed.
Lemma byte_of_Z_mod z : byte_of_Z (z mod 256) = byte_of_Z z.
Proof. unfold byte_of_Z. by rewrite Z.mod_mod. Qed.
Lemma byte_of_Z_eq z a : (z mod 256 = Z_of_byte a)%Z → byte_of_Z z = a.
Proof. intros H. by rewrite <- byte_of_Z_mod, H, byte_of_Z_of_byte. Qed.

Lemma be_put_uint hdr : String.length hdr = 4 → be_put_uint32 (be_uint 0 hdr) = hdr.
Proof.
  intros H. destruct hdr as [|a [|b [|c [|d [|]]]]]; try done. clear H.
  pose proof (Z_of_byte_range a). pose proof (Z_of_byte_range b).
  pose proof (Z_of_byte_range c). pose proof (Z_of_byte_range d).
  unfold be_put_uint32. cbn [be_uint].
  rewrite !lor_shift8, !Z.shiftr_div_pow2 by (try apply Z_of_byte_range; lia).
  f_equal; [|f_equal; [|f_equal; [|f_equal]]]; apply byte_of_Z_eq;
    Z.div_mod_to_equations; lia.
Qed.
Lemma be_uint_range4 hdr : String.length hdr = 4 → (0 ≤ be_uint 0 hdr < 2 ^ 32)%Z.
Proof.
  intros H. destruct hdr as [|a [|b [|c [|d [|]]]]]; try done. clear H.
  pose proof (Z_of_byte_range a). pose proof (Z_of_byte_range b).
  pose proof (Z_of_byte_range c). pose proof (Z_of_byte_range d).
  cbn [be_uint]. rewrite !lor_shift8 by (apply Z_of_byte_range). lia.
Qed.

Lemma io_read_full_ok n r d r' :
  io_read_full n r = (Ok d, r') →
  String.length d = n ∧ rs_in r = d +:+ rs_in r' ∧ rs_end r' = rs_end r.
Proof.
  unfold io_read_full. case_decide as Hn; [|done]. intros [= <- <-]. simpl.
  rewrite length_take_bytes, take_drop_bytes. split_and!; [lia|done..].
Qed.
Lemma io_read_full_err n r e r' :
  io_read_full n r = (Err e, r') → String.length (rs_in r) < n.
Proof. unfold io_read_full. case_decide; [done|]. intros _. lia. Qed.

(** ** Properties *)

(** C21. A pipeline of frames survives the wire: whatever payloads of at most
    [MaxFrame] bytes are written one after the other, reading as many frames
    gives the same payloads in the same order and leaves exactly the bytes
    that follow. *)
Theorem frames_roundtrip (l : list string) (rest : string) (e : error) :
  Forall (λ d, slen d ≤ MaxFrame)%Z l →
  ∃ bytes,
    m_foreach WriteFrame l (mk_wstate "" []) = (Ok tt, mk_wstate bytes []) ∧
    read_frames (length l) (mk_rstate (bytes +:+ rest) e) = (Ok l, mk_rstate rest e).
Proof.
  intros H. exists (join "" (map frame l)). split; [by rewrite write_frames_run|].
  induction H as [|d l Hd _ IH]; [done|]. cbn [length read_frames].
  assert (join "" (map frame (d :: l)) +:+ rest = frame d +:+ join "" (map frame l) +:+ rest) as ->.
  { destruct l; [done|]. simpl map. rewrite join_cons by done. by rewrite sapp_nil_l, sapp_assoc. }
  erewrite bind_run_ok by by apply ReadFrame_run. by erewrite bind_run_ok by apply IH.
Qed.

Lemma frames_roundtrip_witness :
  ∃ bytes,
    m_foreach WriteFrame ["abc"; ""; "{}"] (mk_wstate "" []) = (Ok tt, mk_wstate bytes []) ∧
    read_frames 3 (mk_rstate (bytes +:+ "tail") (ErrRoot SEOF "EOF")) =
      (Ok ["abc"; ""; "{}"], mk_rstate "tail" (ErrRoot SEOF "EOF")).
Proof.
  apply (frames_roundtrip ["abc"; ""; "{}"]). by repeat constructor.
Defined.

(** Reading never trusts the peer: for any bytes and any stream end,
    [ReadFrame] either returns a payload of at most [MaxFrame] bytes that was
    framed exactly so on the wire, or fails; and a header that announces more
    than [MaxFrame] fails with [ErrFrameTooLarge] after the four header bytes,
    before any payload is read. *)
Theorem ReadFrame_sound (r : rstate) :
  match ReadFrame r with
  | (Ok d, r') => (slen d ≤ MaxFrame)%Z ∧ rs_in r = frame d +:+ rs_in r'
  | (Err e, r') =>
      (∃ hdr, String.length hdr = 4 ∧ rs_in r = hdr +:+ rs_in r' ∧
              (be_uint 0 hdr > MaxFrame)%Z ∧ e = ErrFrameTooLarge)
      ∨ String.length (rs_in r) < 4
      ∨ (∃ hdr body, rs_in r = hdr +:+ body ∧ String.length hdr = 4 ∧
              (be_uint 0 hdr ≤ MaxFrame)%Z ∧ (slen body < be_uint 0 hdr)%Z)
  end.
Proof.
  unfold ReadFrame. destruct (io_read_full 4 r) as [[hdr|e] r1] eqn:E1.
  2:{ erewrite bind_run_err by done. right. left. by eapply io_read_full_err. }
  erewrite bind_run_ok by done. apply io_read_full_ok in E1 as (Hl & Hin & Hend).
  pose proof (be_uint_range4 hdr Hl). case_decide as Hmax.
  { simpl. left. by exists hdr. }
  destruct (io_read_full _ r1) as [[d|e] r2] eqn:E2.
  - apply io_read_full_ok in E2 as (Hd & Hin2 & _). unfold slen, frame.
    rewrite Hin, Hin2, sapp_assoc. unfold slen. rewrite Hd, Z2Nat.id by lia.
    rewrite be_put_uint by done. split; [lia|done].
  - right. right. apply io_read_full_err in E2. exists hdr, (rs_in r1).
    unfold slen. split_and!; [done..|lia|lia].
Qed.

(** Writing is all or nothing as far as the reader can tell: an oversized
    payload is refused with nothing written; otherwise the stream is extended
    by a prefix of the frame (nothing, or the bare header) exactly when a write
    failed, and by the whole frame exactly when [WriteFrame] reports success. *)
Theorem WriteFrame_outcome (data : string) (w : wstate) :
  match WriteFrame data w with
  | (Ok _, w') => (slen data ≤ MaxFrame)%Z ∧ ws_out w' = ws_out w +:+ frame data
  | (Err e, w') =>
      ((slen data > MaxFrame)%Z ∧ e = ErrFrameTooLarge ∧ w' = w)
      ∨ (Some e ∈ ws_faults w ∧
         (ws_out w' = ws_out w ∨ ws_out w' = ws_out w +:+ be_put_uint32 (slen data)))
  end.
Proof.
  unfold WriteFrame. case_decide as Hmax; [by left|].
  assert (wrap32u (slen data) = slen data) as ->.
  { apply Z.mod_small, slen_frame_range. lia. }
  destruct w as [out fl]. unfold frame.
  assert (slen data = 0%Z → data = "") as Hempty.
  { destruct data; [done|]. unfold slen. simpl. lia. }
  destruct fl as [|[e|] fl]; unfold mbind, M_bind, io_write; cbn [ws_faults ws_out].
  - case_decide as H0; simpl; split; try lia.
    + rewrite (Hempty H0). by rewrite sapp_nil_r.
    + by rewrite sapp_assoc.
  - right. split; [set_solver|by left].
  - case_decide as H0; simpl.
    + split; [lia|]. rewrite (Hempty H0). by rewrite sapp_nil_r.
    + destruct fl as [|[e|] fl]; simpl.
      * split; [lia|by rewrite sapp_assoc].
      * right. split; [set_solver|by right].
      * split; [lia|by rewrite sapp_assoc].
Qed.

(** ** Lemmas for the protocols *)
Definition frames (l : list string) : string := foldr (λ d s, frame d +:+ s) "" l.
Lemma frames_app l1 l2 : frames (l1 ++ l2) = frames l1 +:+ frames l2.
Proof. induction l1 as [|d l1 IH]; [done|]. cbn [app frames foldr]. unfold frames in IH. by rewrite IH, sapp_assoc. Qed.

(** What a successful read takes off the stream. *)
Lemma ReadFrame_consumes r d r' :
  ReadFrame r = (Ok d, r') → String.length (rs_in r') + 4 ≤ String.length (rs_in r) ∧ rs_end r' = rs_end r.
Proof.
  unfold ReadFrame. intros (hdr & r1 & H1 & H2)%bind_ok_inv.
  apply io_read_full_ok in H1 as (Hl & Hin & He). case_decide; [done|].
  apply io_read_full_ok in H2 as (_ & Hin2 & He2).
  rewrite Hin, slength_app, Hl, Hin2, slength_app. split; [lia|congruence].
Qed.
(** A stream that ends inside a frame. *)
Lemma take_bytes_split n a b :
  take_bytes n (a +:+ b) = if n <? String.length a then take_bytes n a else a +:+ take_bytes (n - String.length a) b.
Proof.
  revert n. induction a as [|x a IH]; intros n; [by rewrite Nat.sub_0_r|]. destruct n as [|n]; [done|].
  change (take_bytes (S n) (String x a +:+ b)) with (String x (take_bytes n (a +:+ b))).
  rewrite IH. change (S n <? String.length (String x a)) with (n <? String.length a). by destruct (n <? String.length a).
Qed.
Lemma ReadFrame_cut n d e :
  (slen d ≤ MaxFrame)%Z → n < String.length (frame d) → is_ok (ReadFrame (mk_rstate (take_bytes n (frame d)) e)).1 = false.
Proof.
  intros Hd Hn. unfold frame in *. rewrite slength_app in Hn. rewrite take_bytes_split.
  assert (String.length (be_put_uint32 (slen d)) = 4) as H4 by done. rewrite H4 in *.
  unfold ReadFrame. destruct (Nat.ltb_spec n 4) as [Hlt|Hge].
  - erewrite bind_run_err; [done|]. unfold io_read_full. rewrite decide_False; [done|].
    cbn [rs_in]. rewrite length_take_bytes. lia.
  - erewrite bind_run_ok by by apply io_read_full_app. rewrite be_uint_put by by apply slen_frame_range.
    rewrite decide_False by lia. unfold io_read_full. rewrite decide_False; [done|].
    cbn [rs_in]. rewrite length_take_bytes. unfold slen. lia.
Qed.
Lemma ReadJSON_consumes {T} (dec : json → T → result T) v r t r' :
  ReadJSON dec v r = (Ok t, r') → String.length (rs_in r') + 4 ≤ String.length (rs_in r).
Proof.
  unfold ReadJSON. intros (d & r1 & H1 & H2)%bind_ok_inv. apply ReadFrame_consumes in H1 as [H1 _].
  unfold m_wrap, m_lift in H2. by injection H2 as _ <-.
Qed.
Lemma ReadJSON_empty {T} (dec : json → T → result T) v e :
  ∃ e' r', ReadJSON dec v (mk_rstate "" e) = (Err e', r').
Proof. unfold ReadJSON, ReadFrame, io_read_full, mbind, M_bind. simpl. eauto. Qed.
