(* ===== verification/Lib.v ===== *)
(** * The third-party libraries the program builds on, as interfaces.

    go-cid, go-multihash, boxo and their relatives are not part of the
    repository.  What the program calls is a class of operations; what it
    relies on is a class of laws, each the documented behaviour of one call.
    [Toy] instantiates all of them with concrete functions, in which the laws
    hold, for use in examples. *)
From S2P Require Import Prelude GoStrings GoPath GoFS Protoio.

(** ** go-multihash and go-cid *)
(** Multicodec constants: [mh.IDENTITY], [cid.DagProtobuf], [cid.Raw]. *)
Definition IDENTITY : Z := 0.
Definition DagProtobuf : Z := 112.
Definition Raw : Z := 85.

Class Multiformats := {
  multihash : Type;
  multihash_eq_dec :: EqDecision multihash;
  multihash_countable :: Countable multihash;
  cid : Type;
  cid_eq_dec :: EqDecision cid;
  cid_countable :: Countable cid;
  mh_sum : string → Z → Z → result multihash;        (* mh.Sum(data, code, length) *)
  mh_decode : multihash → result (Z * string);       (* mh.Decode: code and digest *)
  new_cid_v1 : Z → multihash → cid;                  (* cid.NewCidV1 *)
  cid_undef : cid;                                   (* cid.Undef *)
  cid_hash : cid → multihash;                        (* c.Hash() *)
  cid_type : cid → Z;                                (* c.Type() *)
  cid_decode : string → result cid;                  (* cid.Decode *)
  cid_string : cid → string;                         (* c.String() *)
}.

Class MultiformatsLaws `{!Multiformats} : Prop := {
  (* An identity multihash of at most 127 bytes exists and carries its input. *)
  mh_identity raw :
    String.length raw ≤ 127 →
    ∃ m, mh_sum raw IDENTITY (-1) = Ok m ∧ mh_decode m = Ok (IDENTITY, raw);
  cid_hash_new z m : cid_hash (new_cid_v1 z m) = m;
  cid_type_new_dagpb m : cid_type (new_cid_v1 DagProtobuf m) = DagProtobuf;
  cid_decode_string c : cid_decode (cid_string c) = Ok c;
}.

(** ** go-block-format, merkledag and unixfs: decoding blocks *)
Record link `{Multiformats} := mk_link { link_name : string; link_cid : option cid }.

Class Ipld `{!Multiformats} := {
  (* blocks.NewBlockWithCid(data, c): does it accept these bytes for c? *)
  new_block_with_cid : string → cid → result unit;
  (* merkledag.DecodeProtobuf, then Links(). *)
  decode_protobuf : string → result (list link);
  (* The node decoder behind DAGService.Get, then Links(). *)
  decode_node : cid → string → result (list link);
  (* unixfs NewDirectoryFromNode on the node with these bytes, then Find(name). *)
  dir_find : string → string → result cid;
}.

(** ** boxo blockstore and filestore

    Both are keyed by the multihash of the CID.  [bs_healthy] holds of a store
    whose backing database answers; reads of a healthy store agree with its
    contents. *)
Class Blockstore `{!Multiformats} := {
  bstore : Type;
  bs_has : bstore → cid → result bool;
  bs_get : bstore → cid → result string;
  bs_put : bstore → cid → string → result unit * bstore;
  bs_delete : bstore → cid → result unit * bstore;
}.

Class BlockstoreLaws `{!Multiformats, !Blockstore} := {
  bs_healthy : bstore → Prop;
  bs_view : bstore → gmap multihash string;
  bs_has_spec s c : bs_healthy s → bs_has s c = Ok (bool_decide (is_Some (bs_view s !! cid_hash c)));
  bs_get_spec s c d : bs_healthy s → bs_view s !! cid_hash c = Some d → bs_get s c = Ok d;
  bs_put_spec s c d r s' :
    bs_healthy s → bs_put s c d = (r, s') →
    r = Ok tt ∧ bs_healthy s' ∧ bs_view s' = <[cid_hash c := d]> (bs_view s);
  bs_delete_spec s c r s' :
    bs_healthy s → bs_delete s c = (r, s') →
    r = Ok tt ∧ bs_healthy s' ∧ bs_view s' = delete (cid_hash c) (bs_view s);
}.

(** A nocopy reference: the block's bytes are [fr_len] bytes of the file
    [fr_path] from [fr_offset].  The file manager stores the path relative to
    its root when it can, so [fr_path] is resolved with [fref_file]. *)
Record fref := mk_fref { fr_path : string; fr_offset : Z; fr_len : Z }.
#[export] Instance fref_eq_dec : EqDecision fref.
Proof. solve_decision. Defined.

Definition resolve_path (root p : string) : string :=
  if is_abs p then p else fjoin [root; p].

Class FileManager `{!Multiformats} := {
  fman : Type;
  (* The path stored for a reference to the file [full]. *)
  fm_rel : string → string → string;
  fm_has : fman → cid → result bool;
  fm_delete : fman → cid → result unit * fman;
  (* The FilePath fields of the stored DataObjs, as the bucket is queried. *)
  fm_paths : fman → result (list string);
}.

Class FileManagerLaws `{!Multiformats, !FileManager} := {
  fm_healthy : fman → Prop;
  fm_view : fman → gmap multihash fref;
  fm_has_spec s c : fm_healthy s → fm_has s c = Ok (bool_decide (is_Some (fm_view s !! cid_hash c)));
  fm_delete_spec s c r s' :
    fm_healthy s → fm_delete s c = (r, s') →
    r = Ok tt ∧ fm_healthy s' ∧ fm_view s' = delete (cid_hash c) (fm_view s);
  fm_paths_spec s :
    fm_healthy s → ∃ l, fm_paths s = Ok l ∧
      ∀ p, p ∈ l ↔ ∃ h f, fm_view s !! h = Some f ∧ fr_path f = p;
  fm_rel_spec root full :
    is_abs root = true → is_abs full = true → abs_segs root `prefix_of` abs_segs full →
    abs_segs (resolve_path root (fm_rel root full)) = abs_segs full;
}.

(** filestore.Filestore: the block store and the file manager seen as one
    block store.  [fst_put_ref] is [Put] of a [FilestoreNode]. *)
Class Filestore `{!Multiformats, !Blockstore, !FileManager} := {
  fst_get : gmap fpath fnode → bstore → fman → cid → result string;
  fst_put_block : bstore → fman → cid → string → result unit * (bstore * fman);
  fst_put_ref : string → bstore → fman → cid → string → string → Z → result unit * (bstore * fman);
  fst_delete : bstore → fman → cid → result unit * (bstore * fman);
}.

Class FilestoreLaws `{!Multiformats, !Blockstore, !FileManager, !Filestore,
    !BlockstoreLaws, !FileManagerLaws} : Prop := {
  (* A registered reference is the new one, or the one already there is kept. *)
  fst_put_ref_spec root b f c data full off r b' f' :
    bs_healthy b → fm_healthy f → fst_put_ref root b f c data full off = (r, (b', f')) →
    r = Ok tt ∧ b' = b ∧ fm_healthy f' ∧
    (fm_view f' = <[cid_hash c := mk_fref (fm_rel root full) off (slen data)]> (fm_view f) ∨
     (f' = f ∧ (is_Some (fm_view f !! cid_hash c) ∨ is_Some (bs_view b !! cid_hash c))));
  (* An ordinary block is stored unless it is there already. *)
  fst_put_block_spec b f c d r b' f' :
    bs_healthy b → fm_healthy f → fst_put_block b f c d = (r, (b', f')) →
    bs_healthy b' ∧ f' = f ∧
    (bs_view b' = <[cid_hash c := d]> (bs_view b) ∨ bs_view b' = bs_view b);
  fst_delete_spec b f c r b' f' :
    bs_healthy b → fm_healthy f → fst_delete b f c = (r, (b', f')) →
    bs_healthy b' ∧ fm_healthy f' ∧
    bs_view b' = delete (cid_hash c) (bs_view b) ∧ fm_view f' = delete (cid_hash c) (fm_view f);
}.

(** ** A concrete instance *)
Module Toy.
(* An identity multihash: code, length, digest; other codes are not built. *)
Definition sum (raw : string) (code len : Z) : result string :=
  if decide (code = IDENTITY ∧ String.length raw ≤ 127)
  then Ok (String (byte_of_Z code) (String (byte_of_Z (slen raw)) raw))
  else Err (errorf "unsupported multihash").
Definition decode (m : string) : result (Z * string) :=
  match m with
  | String c (String n d) =>
      if decide (Z_of_byte n = slen d) then Ok (Z_of_byte c, d)
      else Err (errorf "multihash length inconsistent")
  | _ => Err (errorf "multihash too short")
  end.
(* Base-16 multibase text of a CIDv1. *)
Definition to_string (c : ascii * string) : string := "f01" +:+ hex_encode (String (c.1) (c.2)).
Definition of_string (s : string) : result (ascii * string) :=
  match hex_decode (trim_prefix s "f01") with
  | Some (String a m) => if has_prefix s "f01" then Ok (a, m) else Err (errorf "invalid cid")
  | _ => Err (errorf "invalid cid")
  end.

#[export] Instance multiformats : Multiformats := {|
  multihash := string; cid := ascii * string;
  mh_sum := sum; mh_decode := decode;
  new_cid_v1 z m := (byte_of_Z z, m); cid_undef := (ascii_of_N 0, "");
  cid_hash := snd; cid_type c := Z_of_byte (c.1);
  cid_decode := of_string; cid_string := to_string
|}.

#[export] Instance multiformats_laws : MultiformatsLaws.
Proof.
  split; [|done|done|].
  - intros raw H. eexists. cbn [mh_sum multiformats]. unfold sum.
    rewrite decide_True by done. split; [done|].
    cbn [mh_decode multiformats]. unfold decode.
    rewrite !Z_of_byte_of_Z, Z.mod_small by (unfold slen; lia).
    by rewrite decide_True.
  - intros [a m]. cbn [cid_decode cid_string multiformats]. unfold of_string, to_string.
    by rewrite trim_prefix_app, hex_decode_encode, has_prefix_app.
Qed.

(* A directory block is "@" and then "name=cid" items, each closed by ",". *)
Definition parse_link (w : string) : option link :=
  match split_on "="%char w with
  | [n; c] => Some (mk_link _ n (match of_string c with Ok c => Some c | Err _ => None end))
  | _ => None
  end.
Definition links (data : string) : result (list link) :=
  if has_prefix data "@" then Ok (omap parse_link (split_on ","%char (drop_bytes 1 data)))
  else Err (errorf "not a dag-pb block").
Definition find (data name : string) : result cid :=
  ls ← links data;
  match filter (λ l, link_name l = name) ls with
  | l :: _ => ok_or (ErrRoot SNotExist "file does not exist") (link_cid l)
  | [] => Err (ErrRoot SNotExist "file does not exist")
  end.
(* Blocks are trusted, as blocks.NewBlockWithCid documents. *)
#[export] Instance ipld : Ipld := {|
  new_block_with_cid _ _ := Ok tt;
  decode_protobuf := links;
  decode_node c data := if decide (cid_type c = Raw) then Ok [] else links data;
  dir_find := find
|}.

#[export] Instance blockstore : Blockstore := {|
  bstore := gmap string string;
  bs_has s c := Ok (bool_decide (is_Some (s !! c.2)));
  bs_get s c := ok_or (ErrRoot SIpldNotFound "not found") (s !! c.2);
  bs_put s c d := (Ok tt, <[c.2 := d]> s);
  bs_delete s c := (Ok tt, delete c.2 s)
|}.
#[export] Program Instance blockstore_laws : BlockstoreLaws := {|
  bs_healthy _ := True; bs_view s := s
|}.
Next Obligation. done. Qed.
Next Obligation. intros s c d _ H. cbn in *. by rewrite H. Qed.
Next Obligation. intros s c d r s' _ [= <- <-]. done. Qed.
Next Obligation. intros s c r s' _ [= <- <-]. done. Qed.

(* Paths are stored as given. *)
#[export] Instance filemanager : FileManager := {|
  fman := gmap string fref;
  fm_rel _ full := full;
  fm_has s c := Ok (bool_decide (is_Some (s !! c.2)));
  fm_delete s c := (Ok tt, delete c.2 s);
  fm_paths s := Ok (map (λ kv, fr_path kv.2) (map_to_list s))
|}.
#[export] Program Instance filemanager_laws : FileManagerLaws := {|
  fm_healthy _ := True; fm_view s := s
|}.
Next Obligation. done. Qed.
Next Obligation. intros s c r s' _ [= <- <-]. done. Qed.
Next Obligation.
  intros s _. eexists. split; [done|]. intros p. rewrite list_elem_of_In, in_map_iff.
  setoid_rewrite <- list_elem_of_In. split.
  - intros ([h f] & <- & H%elem_of_map_to_list). eauto.
  - intros (h & f & H & <-). exists (h, f). by rewrite elem_of_map_to_list.
Qed.
Next Obligation. intros root full _ Hf _. cbn. unfold resolve_path. by rewrite Hf. Qed.

Definition ref_bytes (fs : gmap fpath fnode) (r : fref) : result string :=
  d ← fs_read_file fs (fr_path r);
  Ok (take_bytes (Z.to_nat (fr_len r)) (drop_bytes (Z.to_nat (fr_offset r)) d)).
#[export] Instance filestore : Filestore := {|
  fst_get fs b f c :=
    match (b : gmap string string) !! c.2, (f : gmap string fref) !! c.2 with
    | Some d, _ => Ok d
    | None, Some r => ref_bytes fs r
    | None, None => Err (ErrRoot SIpldNotFound "not found")
    end;
  fst_put_block b f c d := (Ok tt, (<[c.2 := d]> b, f));
  (* a block already present is left alone *)
  fst_put_ref root b f c d full off :=
    if decide (is_Some ((b : gmap string string) !! c.2) ∨ is_Some ((f : gmap string fref) !! c.2))
    then (Ok tt, (b, f))
    else (Ok tt, (b, <[c.2 := mk_fref full off (slen d)]> f));
  fst_delete b f c := (Ok tt, (delete c.2 b, delete c.2 f))
|}.
#[export] Instance filestore_laws : FilestoreLaws.
Proof.
  split.
  - intros root b f c data full off r b' f' _ _. cbn.
    case_decide as Hd; intros [= <- <- <-]; split_and!; try done; [right|left]; [|done].
    split; [done|]. tauto.
  - intros b f c d r b' f' _ _ [= <- <- <-]. split_and!; [done|done|by left].
  - intros b f c r b' f' _ _ [= <- <- <-]. done.
Qed.
End Toy.
