(* ===== verification/Store.v ===== *)
(** * internal/store: bbolt as a [go-datastore], and the repository lock.

    bbolt, go-datastore and [flock] are not part of the repository: [Bolt] and
    [Datastore] are the calls the package makes to the first two, [BoltLaws]
    and [DatastoreLaws] what their documentation says of them.  [BoltDS] is the
    adapter, [Batch] its batches; [Batching] is the interface the rest of the
    program sees, and [BatchingLaws] what the adapter promises through it. *)
From S2P Require Import Prelude GoStrings GoPath GoFS.

(** ** bbolt *)
Class Bolt := {
  boltdb : Type;
  tx : Type;
  bolt_open : string → result boltdb;                     (* bolt.Open *)
  bolt_close : boltdb → result unit * boltdb;             (* db.Close *)
  db_view {A} : (tx → result A) → boltdb → result A;      (* db.View *)
  db_update : (tx → result unit * tx) → boltdb → result unit * boltdb;
  tx_bucket : tx → string → bool;                         (* tx.Bucket(b) != nil *)
  tx_create_bucket : string → tx → result unit * tx;      (* CreateBucketIfNotExists *)
  b_get : tx → string → string → option string;           (* b.Get; nil is None *)
  b_put : string → string → string → tx → result unit * tx;
  b_delete : string → string → tx → result unit * tx;
  b_entries : tx → string → list (string * string);       (* what ForEach visits *)
}.

Abbreviation buckets := (gmap string (gmap string string)).
Definition bucket_of (b : string) (m : buckets) : gmap string string := default ∅ (m !! b).

(** A read sees the committed state; an update commits everything its function
    did or nothing; a bucket is a map from non-empty keys, visited in key
    order. *)
Class BoltLaws {B : Bolt} := {
  db_is_open : boltdb → Prop;
  db_buckets : boltdb → buckets;
  tx_buckets : tx → buckets;
  db_view_spec db :
    db_is_open db → ∃ t, tx_buckets t = db_buckets db ∧
      ∀ A (f : tx → result A), db_view f db = f t;
  db_update_spec f db r db' :
    db_is_open db → db_update f db = (r, db') →
    db_is_open db' ∧ ∃ t, tx_buckets t = db_buckets db ∧
      match r with
      | Ok _ => (f t).1 = Ok tt ∧ db_buckets db' = tx_buckets (f t).2
      | Err _ => db_buckets db' = db_buckets db
      end;
  tx_bucket_spec t b : tx_bucket t b = bool_decide (is_Some (tx_buckets t !! b));
  tx_create_bucket_spec b t r t' :
    tx_create_bucket b t = (r, t') →
    tx_buckets t' = match r with Ok _ => <[b := bucket_of b (tx_buckets t)]> (tx_buckets t)
                               | Err _ => tx_buckets t end;
  b_get_spec t b k : b_get t b k = bucket_of b (tx_buckets t) !! k;
  b_put_spec b k v t r t' :
    is_Some (tx_buckets t !! b) → b_put b k v t = (r, t') →
    tx_buckets t' = match r with Ok _ => <[b := <[k := v]> (bucket_of b (tx_buckets t))]> (tx_buckets t)
                               | Err _ => tx_buckets t end;
  b_put_empty b v t : b_put b "" v t = (Err (ErrRoot SKeyRequired "key required"), t);
  b_delete_spec b k t r t' :
    is_Some (tx_buckets t !! b) → b_delete b k t = (r, t') →
    tx_buckets t' = match r with Ok _ => <[b := delete k (bucket_of b (tx_buckets t))]> (tx_buckets t)
                               | Err _ => tx_buckets t end;
  b_entries_spec t b :
    b_entries t b ≡ₚ map_to_list (bucket_of b (tx_buckets t)) ∧
    Sorted String.le (b_entries t b).*1;
}.

(** ** go-datastore *)
Record entry := mk_entry { e_key : string; e_size : Z; e_value : option string }.

Class Datastore := {
  ds_key : Type;
  ds_new_key : string → ds_key;              (* ds.NewKey *)
  ds_key_string : ds_key → string;           (* k.String() *)
  ds_query : Type;                           (* dsq.Query *)
  ds_query_all : ds_query;                   (* dsq.Query{} *)
  ds_keys_only : ds_query → bool;            (* q.KeysOnly *)
  ds_naive_apply : ds_query → list entry → list entry;  (* dsq.NaiveQueryApply *)
}.

Class DatastoreLaws {DS : Datastore} : Prop := {
  ds_key_slash k : has_prefix (ds_key_string k) "/" = true;
  ds_new_key_clean w : seg_ok w → ds_key_string (ds_new_key ("/" +:+ w)) = "/" +:+ w;
  ds_keys_only_all : ds_keys_only ds_query_all = false;
  ds_naive_apply_all l : ds_naive_apply ds_query_all l = l;
}.

Definition ErrNotFound : error := ErrRoot SDsNotFound "datastore: key not found".

Definition BucketBlocks : string := "blocks".
Definition BucketFilestore : string := "filestore".
Definition BucketMap : string := "map".

Section store.
Context {B : Bolt}.

(** A sequence of steps on a transaction; the first error stops it. *)
Abbreviation txm := (M tx unit).

(** The database handle of this process, [None] before [bolt.Open]. *)
Record Store := mk_Store { st_path : string }.

Definition Open (path : string) : M (option boltdb) Store := λ s,
  match bolt_open path with
  | Err e => (Err (ErrWrap "open bolt db" e), s)
  | Ok db =>
      match db_update (m_foreach (tx_create_bucket : string → txm)
               [BucketBlocks; BucketFilestore; BucketMap]) db with
      | (Err e, db') => (Err (ErrWrap "initialise bolt buckets" e), Some (bolt_close db').2)
      | (Ok _, db') => (Ok (mk_Store path), Some db')
      end
  end.
Definition Path (s : Store) : string := st_path s.
Definition Close (s : Store) : M (option boltdb) unit := λ h,
  match h with
  | Some db => let '(r, db') := bolt_close db in (r, Some db')
  | None => (Ok tt, h)
  end.
End store.

(** ** The adapter *)
Module BoltDS.
Section adapter.
Context {B : Bolt} {DS : Datastore}.
Variable bucket : string.

Definition raw (k : ds_key) : string := trim_prefix (ds_key_string k) "/".

Definition Get (k : ds_key) : M boltdb string := λ db,
  (db_view (λ t,
     if negb (tx_bucket t bucket) then Err ErrNotFound
     else ok_or ErrNotFound (b_get t bucket (raw k))) db, db).

Definition Has (k : ds_key) : M boltdb bool := λ db,
  (db_view (λ t,
     if negb (tx_bucket t bucket) then Ok false
     else Ok (bool_decide (is_Some (b_get t bucket (raw k))))) db, db).

Definition GetSize (k : ds_key) : M boltdb Z := λ db,
  (db_view (λ t,
     if negb (tx_bucket t bucket) then Err ErrNotFound
     else match b_get t bucket (raw k) with
          | None => Err ErrNotFound
          | Some v => Ok (Z.of_nat (String.length v))
          end) db, db).

Definition Put (k : ds_key) (v : string) : M boltdb unit :=
  db_update ((tx_create_bucket bucket : M tx unit) ;; b_put bucket (raw k) v).

Definition Delete (k : ds_key) : M boltdb unit :=
  db_update (λ t, if negb (tx_bucket t bucket) then (Ok tt, t) else b_delete bucket (raw k) t).

Definition Query (q : ds_query) : M boltdb (list entry) := λ db,
  (entries ← db_view (λ t,
     if negb (tx_bucket t bucket) then Ok []
     else Ok (map (λ kv, mk_entry ("/" +:+ kv.1) (Z.of_nat (String.length kv.2))
                           (if ds_keys_only q then None else Some kv.2))
                  (b_entries t bucket))) db;
   Ok (ds_naive_apply q entries), db).

Definition Sync (prefix : ds_key) : M boltdb unit := mret tt.
Definition Close : M boltdb unit := mret tt.
End adapter.
End BoltDS.

(** ** Batches *)
Module Batch.
Section batch.
Context {B : Bolt} {DS : Datastore}.

Record kv := mk_kv { key : ds_key; value : string }.
Record boltBatch := mk_batch { bucket : string; puts : list kv; deletes : list ds_key }.

Definition Batch (b : string) : boltBatch := mk_batch b [] [].
Definition Put (k : ds_key) (v : string) (b : boltBatch) : boltBatch :=
  mk_batch (bucket b) (puts b ++ [mk_kv k v]) (deletes b).
Definition Delete (k : ds_key) (b : boltBatch) : boltBatch :=
  mk_batch (bucket b) (puts b) (deletes b ++ [k]).
Definition Commit (b : boltBatch) : M boltdb unit :=
  db_update
    ((tx_create_bucket (bucket b) : M tx unit) ;;
     m_foreach (λ p, b_put (bucket b) (BoltDS.raw (key p)) (value p)) (puts b) ;;
     m_foreach (λ k, b_delete (bucket b) (BoltDS.raw k)) (deletes b)).

(** A caller's view of a batch: the calls made on it, in order. *)
Inductive op := OpPut (k : ds_key) (v : string) | OpDelete (k : ds_key).
Definition record (b : boltBatch) (o : op) : boltBatch :=
  match o with OpPut k v => Put k v b | OpDelete k => Delete k b end.
End batch.
End Batch.

(** ** The lock

    [lk_held] is the kernel's table of exclusive [flock]s, by file; the
    package's [LOCK_NB] request fails when another open file has it. *)
Record lockst := mk_lockst { lk_os : osst; lk_held : gset fpath }.
Definition lift_os {A} : M osst A → M lockst A :=
  m_zoom lk_os (λ o s, mk_lockst o (lk_held s)).
Definition flock_ex (p : fpath) : M lockst unit := λ s,
  if decide (p ∈ lk_held s) then (Err (ErrRoot SIO "resource temporarily unavailable"), s)
  else (Ok tt, mk_lockst (lk_os s) ({[p]} ∪ lk_held s)).
Definition flock_un (p : fpath) : M lockst unit := λ s,
  (Ok tt, mk_lockst (lk_os s) (lk_held s ∖ {[p]})).
(** [OpenFile(path, O_CREATE|O_RDWR, 0644)]: made when missing, kept otherwise. *)
Definition open_rw (path : string) (perm : Z) : M osst unit :=
  os_update (λ s,
    q ← fs_follow max_links (os_fs s) (abs_segs path);
    match fs_get (os_fs s) q with
    | Some (FDir _) => Err (ErrRoot SIsDir "is a directory")
    | Some _ => Ok (os_fs s)
    | None => fs_create (os_fs s) q (FFile (mk_regular "" perm (os_clock s)))
    end).

(** [Lock.file]: the open lock file, [None] once closed. *)
Definition Lock : Type := option fpath.
Definition AcquireLock (path : string) : M lockst Lock :=
  m_wrap "open lock file" (lift_os (open_rw path 420)) ;;
  m_wrap "another swarmface process holds" (flock_ex (abs_segs path)) ;;
  mret (Some (abs_segs path)).
Definition CloseLock (l : Lock) : M lockst Lock :=
  match l with
  | None => mret None
  | Some p => flock_un p ;; mret None
  end.

(** ** What the program sees of a datastore *)
Class Batching {DS : Datastore} := {
  bstate : Type;
  bds_get : ds_key → M bstate string;
  bds_has : ds_key → M bstate bool;
  bds_put : ds_key → string → M bstate unit;
  bds_delete : ds_key → M bstate unit;
  bds_query : ds_query → M bstate (list entry);
}.

Definition key_raw {DS : Datastore} (k : ds_key) : string := trim_prefix (ds_key_string k) "/".

(** A batching datastore is a map from key texts; a call that fails changes
    nothing. *)
Class BatchingLaws {DS : Datastore} {BA : Batching} := {
  bds_open : bstate → Prop;
  bds_view : bstate → gmap string string;
  bds_get_spec k s :
    bds_open s → bds_get k s = (ok_or ErrNotFound (bds_view s !! key_raw k), s);
  bds_has_spec k s :
    bds_open s → bds_has k s = (Ok (bool_decide (is_Some (bds_view s !! key_raw k))), s);
  bds_put_spec k v s r s' :
    bds_open s → bds_put k v s = (r, s') → bds_open s' ∧
    match r with
    | Ok _ => key_raw k ≠ "" ∧ bds_view s' = <[key_raw k := v]> (bds_view s)
    | Err _ => bds_view s' = bds_view s
    end;
  bds_delete_spec k s r s' :
    bds_open s → bds_delete k s = (r, s') → bds_open s' ∧
    bds_view s' = match r with Ok _ => delete (key_raw k) (bds_view s) | Err _ => bds_view s end;
  bds_query_spec s :
    bds_open s → ∃ l, bds_query ds_query_all s = (Ok l, s) ∧
      Sorted String.le (map (λ e, trim_prefix (e_key e) "/") l) ∧
      ∃ kvs, kvs ≡ₚ map_to_list (bds_view s) ∧
        l = map (λ kv, mk_entry ("/" +:+ kv.1) (Z.of_nat (String.length kv.2)) (Some kv.2)) kvs;
}.

(** ** Transactions on one bucket

    [in_bucket b f t t']: [t'] is [t] with [f] applied to the bucket [b]. *)
Definition in_bucket {B : Bolt} {BL : BoltLaws} (b : string) (f : gmap string string → gmap string string)
    (t t' : tx) : Prop :=
  tx_buckets t' = <[b := f (bucket_of b (tx_buckets t))]> (tx_buckets t).

Section transactions.
Context {B : Bolt} {BL : BoltLaws}.
Implicit Types (b : string) (t : tx).

Lemma bucket_of_insert b m (bs : buckets) : bucket_of b (<[b := m]> bs) = m.
Proof. unfold bucket_of. by rewrite lookup_insert_eq. Qed.
Lemma bucket_of_ne b b' m (bs : buckets) : b ≠ b' → bucket_of b' (<[b := m]> bs) = bucket_of b' bs.
Proof. intros Hb. unfold bucket_of. by rewrite lookup_insert_ne. Qed.
Lemma bucket_of_some b (bs : buckets) : is_Some (bs !! b) → bs !! b = Some (bucket_of b bs).
Proof. intros [m H]. unfold bucket_of. by rewrite H. Qed.
Lemma in_bucket_some b f t t' : in_bucket b f t t' → is_Some (tx_buckets t' !! b).
Proof. intros ->. rewrite lookup_insert_eq. eauto. Qed.
Lemma in_bucket_comp b f g t t' t'' :
  in_bucket b f t t' → in_bucket b g t' t'' → in_bucket b (λ m, g (f m)) t t''.
Proof. unfold in_bucket. intros -> ->. by rewrite bucket_of_insert, insert_insert_eq. Qed.

(** [m], when it succeeds on a transaction that has bucket [b], does [f]. *)
Definition does (b : string) (f : gmap string string → gmap string string) (m : M tx unit) : Prop :=
  ∀ t t', is_Some (tx_buckets t !! b) → m t = (Ok tt, t') → in_bucket b f t t'.

Lemma does_ret b : does b id (mret tt).
Proof. intros t t' Hb [= <-]. unfold in_bucket. symmetry. by apply insert_id, bucket_of_some. Qed.
Lemma does_bind b f g m k :
  does b f m → does b g k → does b (λ x, g (f x)) (m ;; k).
Proof.
  intros Hm Hk t t'' Hb H%bind_ok_inv. destruct H as ([] & t' & H1 & H2).
  specialize (Hm _ _ Hb H1). specialize (Hk _ _ (in_bucket_some _ _ _ _ Hm) H2).
  by eapply in_bucket_comp.
Qed.
Lemma does_put b k v : does b <[k := v]> (b_put b k v).
Proof. intros t t' Hb H. apply b_put_spec in H; [|done]. done. Qed.
Lemma does_delete b k : does b (delete k) (b_delete b k).
Proof. intros t t' Hb H. apply b_delete_spec in H; [|done]. done. Qed.
Lemma does_foreach {A} b (f : A → gmap string string → gmap string string) m l :
  (∀ x, does b (f x) (m x)) → does b (λ s, foldl (λ s x, f x s) s l) (m_foreach m l).
Proof.
  intros Hm. induction l as [|x l IH]; [apply does_ret|]. simpl.
  apply (does_bind b (f x) (λ s, foldl (λ s x, f x s) s l)); auto.
Qed.
Lemma create_then b f m t t' :
  does b f m → (tx_create_bucket b ;; m) t = (Ok tt, t') → in_bucket b f t t'.
Proof.
  intros Hm H%bind_ok_inv. destruct H as ([] & t1 & H1 & H2).
  apply tx_create_bucket_spec in H1. simpl in H1. eapply (in_bucket_comp b id); [exact H1|].
  apply Hm, H2. rewrite H1, lookup_insert_eq. eauto.
Qed.

(** An update that opens its bucket and then works in it. *)
Lemma update_in_bucket b f m db r db' :
  db_is_open db → does b f m →
  db_update ((tx_create_bucket b : M tx unit) ;; m) db = (r, db') →
  db_is_open db' ∧
  db_buckets db' = match r with
                   | Ok _ => <[b := f (bucket_of b (db_buckets db))]> (db_buckets db)
                   | Err _ => db_buckets db
                   end.
Proof.
  intros Ho Hm H. destruct (db_update_spec _ _ _ _ Ho H) as (Ho' & t & Ht & Hr).
  split; [done|]. destruct r as [[]|e]; [|done]. destruct Hr as [Hf ->].
  destruct (((tx_create_bucket b : M tx unit) ;; m) t) as [r t'] eqn:E. simpl in *. subst r.
  apply (create_then _ f) in E; [|done]. unfold in_bucket in E. by rewrite E, Ht.
Qed.
End transactions.

(** The map [Commit] leaves: every put, then every delete. *)
Definition batch_effect {B : Bolt} {DS : Datastore} (b : Batch.boltBatch) (m : gmap string string) :
    gmap string string :=
  foldl (λ m k, delete (BoltDS.raw k) m)
    (foldl (λ m p, <[BoltDS.raw (Batch.key p) := Batch.value p]> m) m (Batch.puts b))
    (Batch.deletes b).
(** The calls of a batch carried out one after the other. *)
Definition run_op {B : Bolt} {DS : Datastore} (m : gmap string string) (o : Batch.op) : gmap string string :=
  match o with
  | Batch.OpPut k v => <[BoltDS.raw k := v]> m
  | Batch.OpDelete k => delete (BoltDS.raw k) m
  end.
(** No key is put after it was deleted. *)
Fixpoint no_put_after_delete {B : Bolt} {DS : Datastore} (deleted : list string) (ops : list Batch.op) : Prop :=
  match ops with
  | [] => True
  | Batch.OpPut k _ :: ops' => (BoltDS.raw k ∉ deleted) ∧ no_put_after_delete deleted ops'
  | Batch.OpDelete k :: ops' => no_put_after_delete (BoltDS.raw k :: deleted) ops'
  end.

Section batches.
Context {B : Bolt} {BL : BoltLaws} {DS : Datastore}.

Lemma commit_effect (b : Batch.boltBatch) db r db' :
  db_is_open db → Batch.Commit b db = (r, db') →
  db_is_open db' ∧
  db_buckets db' = match r with
    | Ok _ => <[Batch.bucket b := batch_effect b (bucket_of (Batch.bucket b) (db_buckets db))]>
                (db_buckets db)
    | Err _ => db_buckets db
    end.
Proof.
  intros Ho H. apply (update_in_bucket _ (batch_effect b)) in H; [done|done|].
  apply (does_bind _
    (λ m, foldl (λ m p, <[BoltDS.raw (Batch.key p) := Batch.value p]> m) m (Batch.puts b))
    (λ m, foldl (λ m k, delete (BoltDS.raw k) m) m (Batch.deletes b))).
  - apply (does_foreach _ (λ p, <[BoltDS.raw (Batch.key p) := Batch.value p]>)).
    intros p. apply does_put.
  - apply (does_foreach _ (λ k, delete (BoltDS.raw k))). intros k. apply does_delete.
Qed.

Lemma no_put_weaken d d' ops :
  d' ⊆ d → no_put_after_delete d ops → no_put_after_delete d' ops.
Proof.
  revert d d'. induction ops as [|[k v|k] ops IH]; intros d d' Hd; [done| |]; simpl.
  - intros [Hk H]. split; [set_solver|by eapply IH].
  - apply IH. set_solver.
Qed.
Lemma batch_effect_delete k b m :
  batch_effect (Batch.Delete k b) m = delete (BoltDS.raw k) (batch_effect b m).
Proof. unfold batch_effect. simpl. by rewrite foldl_app. Qed.
Lemma foldl_delete_insert k v (l : list ds_key) (m : gmap string string) :
  k ∉ map BoltDS.raw l →
  foldl (λ m k, delete (BoltDS.raw k) m) (<[k := v]> m) l =
  <[k := v]> (foldl (λ m k, delete (BoltDS.raw k) m) m l).
Proof.
  revert m. induction l as [|x l IH]; intros m Hk; [done|]. simpl in *.
  rewrite not_elem_of_cons in Hk. destruct Hk as [Hx Hk].
  by rewrite delete_insert_ne, IH.
Qed.
Lemma batch_effect_put k v b m :
  BoltDS.raw k ∉ map BoltDS.raw (Batch.deletes b) →
  batch_effect (Batch.Put k v b) m = <[BoltDS.raw k := v]> (batch_effect b m).
Proof.
  intros Hk. unfold batch_effect. simpl. rewrite foldl_app. simpl. by apply foldl_delete_insert.
Qed.
Lemma batch_effect_run b ops m :
  no_put_after_delete (map BoltDS.raw (Batch.deletes b)) ops →
  batch_effect (foldl Batch.record b ops) m = foldl run_op (batch_effect b m) ops.
Proof.
  revert b. induction ops as [|[k v|k] ops IH]; intros b H; [done| |]; simpl in *.
  - destruct H as [Hk H]. rewrite IH by done. by rewrite batch_effect_put.
  - rewrite IH; [by rewrite batch_effect_delete|].
    simpl. rewrite map_app. simpl. revert H. apply no_put_weaken. set_solver.
Qed.
Lemma batch_delete_absent b ops m k :
  Batch.OpDelete k ∈ ops → batch_effect (foldl Batch.record b ops) m !! BoltDS.raw k = None.
Proof.
  assert (∀ ops b, BoltDS.raw k ∈ map BoltDS.raw (Batch.deletes b) →
    BoltDS.raw k ∈ map BoltDS.raw (Batch.deletes (foldl Batch.record b ops))) as Hkeep.
  { clear. induction ops as [|[]]; intros b Hk; [done|by apply IHops|]. simpl.
    apply IHops. simpl. rewrite map_app. set_solver. }
  intros Hin. unfold batch_effect.
  assert (BoltDS.raw k ∈ map BoltDS.raw (Batch.deletes (foldl Batch.record b ops))) as Hd.
  { apply list_elem_of_split in Hin as (l1 & l2 & ->). rewrite foldl_app. simpl.
    apply Hkeep. simpl. rewrite map_app. set_solver. }
  generalize (foldl (λ m p, <[BoltDS.raw (Batch.key p) := Batch.value p]> m) m
                (Batch.puts (foldl Batch.record b ops))).
  induction (Batch.deletes (foldl Batch.record b ops)) as [|x l IH]; intros m'; [set_solver|].
  simpl in *. destruct (decide (BoltDS.raw k ∈ map BoltDS.raw l)) as [Hl|Hl]; [by apply IH|].
  assert (BoltDS.raw x = BoltDS.raw k) as -> by set_solver. clear -Hl.
  assert (∀ m'' : gmap string string, m'' !! BoltDS.raw k = None →
    foldl (λ m k, delete (BoltDS.raw k) m) m'' l !! BoltDS.raw k = None) as Hn; [|apply Hn].
  - clear Hl. induction l as [|y l IH]; intros m'' Hm; [done|]. simpl. apply IH.
    by rewrite lookup_delete_None; right.
  - by rewrite lookup_delete_eq.
Qed.

(** C19. [Commit] is atomic and touches only its bucket: when it succeeds the
    bucket holds the batch's puts followed by its deletes and every other
    bucket is as before; when it fails the database is unchanged. *)
Theorem Commit_atomic (b : Batch.boltBatch) db r db' :
  db_is_open db → Batch.Commit b db = (r, db') →
  db_is_open db' ∧
  (∀ b', b' ≠ Batch.bucket b → bucket_of b' (db_buckets db') = bucket_of b' (db_buckets db)) ∧
  bucket_of (Batch.bucket b) (db_buckets db') =
    match r with
    | Ok _ => batch_effect b (bucket_of (Batch.bucket b) (db_buckets db))
    | Err _ => bucket_of (Batch.bucket b) (db_buckets db)
    end.
Proof.
  intros Ho [Ho' ->]%commit_effect; [|done]. split; [done|]. destruct r; [|done].
  split; [intros b' Hb; by apply bucket_of_ne|]. by rewrite bucket_of_insert.
Qed.

(** A committed batch in which no key is put after it was deleted has the
    effect of its calls made one after the other. *)
Theorem Commit_sequential b ops db db' :
  db_is_open db → no_put_after_delete [] ops →
  Batch.Commit (foldl Batch.record (Batch.Batch b) ops) db = (Ok tt, db') →
  bucket_of b (db_buckets db') = foldl run_op (bucket_of b (db_buckets db)) ops.
Proof.
  intros Ho Hops [_ ->]%commit_effect; [|done].
  assert (∀ ops b', Batch.bucket (foldl Batch.record b' ops) = Batch.bucket b') as ->.
  { clear. induction ops as [|[]]; intros b'; simpl; by rewrite ?IHops. }
  simpl. by rewrite bucket_of_insert, batch_effect_run.
Qed.

(** A key deleted anywhere in a batch is absent after the commit, even when
    the batch puts it again afterwards: the puts are all applied first. *)
Theorem Commit_delete_wins b ops k db db' :
  db_is_open db → Batch.OpDelete k ∈ ops →
  Batch.Commit (foldl Batch.record (Batch.Batch b) ops) db = (Ok tt, db') →
  bucket_of b (db_buckets db') !! BoltDS.raw k = None.
Proof.
  intros Ho Hops [_ ->]%commit_effect; [|done].
  assert (∀ ops b', Batch.bucket (foldl Batch.record b' ops) = Batch.bucket b') as ->.
  { clear. induction ops as [|[]]; intros b'; simpl; by rewrite ?IHops. }
  simpl. rewrite bucket_of_insert. by apply batch_delete_absent.
Qed.
End batches.

(** ** The adapter implements the interface *)
Section adapter.
Context {B : Bolt} {DS : Datastore} (bucket : string).

Definition bolt_batching : Batching := {|
  bstate := boltdb;
  bds_get := BoltDS.Get bucket;
  bds_has := BoltDS.Has bucket;
  bds_put := BoltDS.Put bucket;
  bds_delete := BoltDS.Delete bucket;
  bds_query := BoltDS.Query bucket
|}.

Context {BL : BoltLaws} {DL : DatastoreLaws}.

Lemma no_bucket (t : tx) : tx_bucket t bucket = false → bucket_of bucket (tx_buckets t) = ∅.
Proof.
  rewrite tx_bucket_spec, bool_decide_eq_false, <- eq_None_not_Some.
  unfold bucket_of. by intros ->.
Qed.

Lemma BoltDS_Get_spec k db :
  db_is_open db →
  BoltDS.Get bucket k db = (ok_or ErrNotFound (bucket_of bucket (db_buckets db) !! key_raw k), db).
Proof.
  intros Ho. destruct (db_view_spec _ Ho) as (t & <- & Hv). unfold BoltDS.Get. rewrite Hv.
  destruct (tx_bucket t bucket) eqn:Hb; simpl; [by rewrite b_get_spec|].
  by rewrite no_bucket, lookup_empty.
Qed.
Lemma BoltDS_Has_spec k db :
  db_is_open db →
  BoltDS.Has bucket k db =
  (Ok (bool_decide (is_Some (bucket_of bucket (db_buckets db) !! key_raw k))), db).
Proof.
  intros Ho. destruct (db_view_spec _ Ho) as (t & <- & Hv). unfold BoltDS.Has. rewrite Hv.
  destruct (tx_bucket t bucket) eqn:Hb; simpl; [by rewrite b_get_spec|].
  rewrite no_bucket, lookup_empty by done. done.
Qed.
Lemma BoltDS_Put_spec k v db r db' :
  db_is_open db → BoltDS.Put bucket k v db = (r, db') → db_is_open db' ∧
  match r with
  | Ok _ => key_raw k ≠ "" ∧
      db_buckets db' = <[bucket := <[key_raw k := v]> (bucket_of bucket (db_buckets db))]> (db_buckets db)
  | Err _ => db_buckets db' = db_buckets db
  end.
Proof.
  intros Ho H. destruct (update_in_bucket _ _ _ _ _ _ Ho (does_put bucket (key_raw k) v) H) as [Ho' Hb].
  split; [done|]. destruct r as [[]|e]; [|done]. split; [|done].
  intros E. destruct (db_update_spec _ _ _ _ Ho H) as (_ & t & _ & Hf & _).
  unfold BoltDS.raw in Hf. unfold key_raw in E. rewrite E in Hf.
  unfold mbind, M_bind in Hf. destruct (tx_create_bucket bucket t) as [[] t']; [|done].
  by rewrite b_put_empty in Hf.
Qed.
Lemma BoltDS_Delete_spec k db r db' :
  db_is_open db → BoltDS.Delete bucket k db = (r, db') → db_is_open db' ∧
  (∀ b, bucket_of b (db_buckets db') =
     match r with
     | Ok _ => if decide (b = bucket) then delete (key_raw k) (bucket_of b (db_buckets db))
               else bucket_of b (db_buckets db)
     | Err _ => bucket_of b (db_buckets db)
     end).
Proof.
  intros Ho H. destruct (db_update_spec _ _ _ _ Ho H) as (Ho' & t & Ht & Hr).
  split; [done|]. destruct r as [[]|e]; [|by rewrite Hr]. destruct Hr as [Hf ->].
  destruct (tx_bucket t bucket) eqn:Hb; simpl in *.
  - destruct (b_delete bucket (BoltDS.raw k) t) as [r t'] eqn:E. simpl in *. subst r.
    apply b_delete_spec in E; [|rewrite tx_bucket_spec in Hb; by apply bool_decide_eq_true in Hb].
    intros b. rewrite E, Ht. case_decide as Hd; [subst; by rewrite bucket_of_insert|by rewrite bucket_of_ne].
  - intros b. rewrite Ht. case_decide as Hd; [subst b|done].
    apply no_bucket in Hb. rewrite Ht in Hb. by rewrite Hb, delete_empty.
Qed.
Lemma BoltDS_Query_spec db :
  db_is_open db → ∃ l, BoltDS.Query bucket ds_query_all db = (Ok l, db) ∧
    Sorted String.le (map (λ e, trim_prefix (e_key e) "/") l) ∧
    ∃ kvs, kvs ≡ₚ map_to_list (bucket_of bucket (db_buckets db)) ∧
      l = map (λ kv, mk_entry ("/" +:+ kv.1) (Z.of_nat (String.length kv.2)) (Some kv.2)) kvs.
Proof.
  intros Ho. destruct (db_view_spec _ Ho) as (t & <- & Hv). unfold BoltDS.Query. rewrite Hv.
  rewrite ds_keys_only_all. destruct (tx_bucket t bucket) eqn:Hb; simpl; rewrite ds_naive_apply_all.
  - destruct (b_entries_spec t bucket) as [Hp Hs]. eexists. split_and!; [done| |eauto].
    rewrite map_map. eapply (eq_ind _ (Sorted String.le)); [exact Hs|].
    apply map_ext. intros [k v]. simpl. by rewrite trim_prefix_app.
  - eexists. split_and!; [done|constructor|]. exists []. split; [|done].
    by rewrite no_bucket, map_to_list_empty.
Qed.
End adapter.

#[export] Program Instance bolt_batching_laws {B : Bolt} {DS : Datastore} {BL : BoltLaws} {DL : DatastoreLaws}
    (bucket : string) : BatchingLaws (BA := bolt_batching bucket) := {|
  bds_open := db_is_open;
  bds_view db := bucket_of bucket (db_buckets db)
|}.
Next Obligation. intros. by apply BoltDS_Get_spec. Qed.
Next Obligation. intros. by apply BoltDS_Has_spec. Qed.
Next Obligation.
  intros ????? k v s r s' Ho H. destruct (BoltDS_Put_spec bucket k v s r s' Ho H) as [Ho' Hr]. clear H.
  split; [done|]. destruct r; [|by rewrite Hr]. destruct Hr as [Hk ->]. by rewrite bucket_of_insert.
Qed.
Next Obligation.
  intros ????? k s r s' Ho H. destruct (BoltDS_Delete_spec bucket k s r s' Ho H) as [Ho' Hr].
  split; [done|]. rewrite Hr. destruct r; [|done]. by rewrite decide_True.
Qed.
Next Obligation. intros. by apply BoltDS_Query_spec. Qed.

(** ** A concrete database and its keys *)
Module ToyStore.
Definition kv_le (a b : string * string) : Prop := String.le (a.1) (b.1).
#[export] Instance kv_le_dec : RelDecision kv_le.
Proof. intros a b. unfold kv_le. apply _. Defined.
Definition put (b k v : string) (t : buckets) : result unit * buckets :=
  if decide (k = "") then (Err (ErrRoot SKeyRequired "key required"), t)
  else match t !! b with
       | Some m => (Ok tt, <[b := <[k := v]> m]> t)
       | None => (Err (errorf "bucket not found"), t)
       end.
#[export] Instance bolt : Bolt := {|
  boltdb := buckets; tx := buckets;
  bolt_open _ := Ok ∅; bolt_close db := (Ok tt, db);
  db_view A f db := f db;
  db_update f db := match f db with (Ok _, t) => (Ok tt, t) | (Err e, _) => (Err e, db) end;
  tx_bucket t b := bool_decide (is_Some (t !! b));
  tx_create_bucket b t := (Ok tt, <[b := bucket_of b t]> t);
  b_get t b k := bucket_of b t !! k;
  b_put := put;
  b_delete b k t := match t !! b with
                    | Some m => (Ok tt, <[b := delete k m]> t)
                    | None => (Err (errorf "bucket not found"), t)
                    end;
  b_entries t b := merge_sort kv_le (map_to_list (bucket_of b t))
|}.
#[export] Program Instance bolt_laws : BoltLaws := {|
  db_is_open _ := True; db_buckets db := db; tx_buckets t := t
|}.
Next Obligation. intros db _. by exists db. Qed.
Next Obligation.
  intros f db r db' _. cbn. intros H. split; [done|]. exists db. split; [done|].
  destruct (f db) as [[[]|e] t]; by injection H as <- <-.
Qed.
Next Obligation. done. Qed.
Next Obligation. by intros b t r t' [= <- <-]. Qed.
Next Obligation. done. Qed.
Next Obligation.
  intros b k v t r t' [m Hm]. cbn. unfold put, bucket_of. rewrite Hm.
  case_decide; by intros [= <- <-].
Qed.
Next Obligation. done. Qed.
Next Obligation. intros b k t r t' [m Hm]. cbn. unfold bucket_of. rewrite Hm. by intros [= <- <-]. Qed.
Next Obligation.
  intros t b. cbn. split; [apply merge_sort_Permutation|].
  assert (Sorted kv_le (merge_sort kv_le (map_to_list (bucket_of b t)))) as H.
  { apply Sorted_merge_sort. intros x y. unfold kv_le. apply (total String.le). }
  revert H. generalize (merge_sort kv_le (map_to_list (bucket_of b t))).
  induction 1 as [|x l Hl IH Hd]; [constructor|]. rewrite fmap_cons.
  constructor; [exact IH|]. destruct Hd; constructor. assumption.
Qed.

#[export] Instance datastore : Datastore := {|
  ds_key := string;
  ds_new_key k := if has_prefix k "/" then clean k else clean ("/" +:+ k);
  ds_key_string k := if has_prefix k "/" then k else "/" +:+ k;
  ds_query := bool; ds_query_all := false; ds_keys_only q := q;
  ds_naive_apply _ l := l
|}.
#[export] Instance datastore_laws : DatastoreLaws.
Proof.
  split; [|intros w Hw|done|done].
  - intros k. cbn [ds_key_string datastore]. destruct (has_prefix k "/") eqn:E; [exact E|]. apply has_prefix_app.
  - cbn [ds_key_string ds_new_key datastore].
    assert (clean ("/" +:+ w) = "/" +:+ w) as ->.
    { change ("/" +:+ w) with (render_abs [w]).
      by rewrite clean_abs, abs_segs_render by (done || by apply Forall_singleton). }
    by rewrite !has_prefix_app.
Qed.

Definition db0 : buckets := {[ BucketMap := {[ "c1" := "one" ]}; BucketBlocks := {[ "b" := "data" ]} ]}.
End ToyStore.

Section witnesses.
#[local] Existing Instances ToyStore.bolt ToyStore.bolt_laws ToyStore.datastore.

Let puts_then_delete : list Batch.op := [Batch.OpPut "/c1" "uno"; Batch.OpPut "/c2" "dos"; Batch.OpDelete "/c1"].
Let delete_then_put : list Batch.op := [Batch.OpDelete "/c1"; Batch.OpPut "/c1" "uno"].

Lemma Commit_atomic_witness :
  ∃ db', Batch.Commit (foldl Batch.record (Batch.Batch BucketMap) puts_then_delete) ToyStore.db0 = (Ok tt, db') ∧
    bucket_of BucketBlocks db' = {[ "b" := "data" ]} ∧ bucket_of BucketMap db' = {[ "c2" := "dos" ]}.
Proof.
  eexists. split; [vm_compute; reflexivity|].
  destruct (Commit_atomic (B := ToyStore.bolt) (BL := ToyStore.bolt_laws) (foldl Batch.record (Batch.Batch BucketMap) puts_then_delete)
              ToyStore.db0 (Ok tt) _ I eq_refl) as (_ & Hother & Hb).
  split; [etrans; [apply (Hother BucketBlocks); done|]|etrans; [apply Hb|]];
    apply (bool_decide_unpack _); vm_compute; exact I.
Defined.

Lemma Commit_delete_wins_witness :
  ∃ db', Batch.Commit (foldl Batch.record (Batch.Batch BucketMap) delete_then_put) ToyStore.db0 = (Ok tt, db') ∧
    bucket_of BucketMap db' !! "c1" = None ∧
    foldl run_op (bucket_of BucketMap ToyStore.db0) delete_then_put !! "c1" = Some "uno".
Proof.
  eexists. split; [vm_compute; reflexivity|]. split; [|vm_compute; reflexivity].
  apply (Commit_delete_wins (B := ToyStore.bolt) (BL := ToyStore.bolt_laws) BucketMap delete_then_put "/c1" ToyStore.db0);
    [exact I|apply list_elem_of_here|vm_compute; reflexivity].
Defined.
End witnesses.
