(* ===== verification/Dummy.v ===== *)
(** * internal/dummy: commit hashes as content identifiers.

    [FromCommit] wraps the 20 bytes of a 40-digit commit hash in an identity
    multihash; [Commit] reads them back.  The libraries are the [Multiformats]
    interface of [Lib]. *)
From S2P Require Import Prelude GoStrings Lib.

Definition CommitLen : nat := 40.

Section dummy.
Context `{!Multiformats}.

Definition FromCommit (commit : string) : result cid :=
  if negb (String.length commit =? CommitLen)%nat
  then Err (errorf "invalid HF commit hash: expected 40 hex characters")
  else
    match hex_decode commit with
    | None => Err (ErrWrap "invalid HF commit hash" (errorf "encoding/hex: invalid byte"))
    | Some raw =>
        match mh_sum raw IDENTITY (-1) with
        | Err e => Err (ErrWrap "build identity multihash" e)
        | Ok digest => Ok (new_cid_v1 DagProtobuf digest)
        end
    end.

Definition Commit (c : cid) : result string :=
  match mh_decode (cid_hash c) with
  | Err e => Err (ErrWrap "decode dummy multihash" e)
  | Ok (code, digest) =>
      if negb (code =? IDENTITY)%Z then Err (errorf "cid is not a dummy HF cid (multihash code)")
      else if negb (String.length digest =? 20)%nat
      then Err (errorf "cid is not a dummy HF cid (digest length)")
      else Ok (hex_encode digest)
  end.

Definition Is (c : cid) : bool := is_ok (Commit c).

(** A well-formed commit hash: 40 hexadecimal digits of either case. *)
Definition commit_ok (s : string) : Prop :=
  String.length s = CommitLen ∧ is_Some (hex_decode s).

Context `{!MultiformatsLaws}.

Lemma FromCommit_ok_inv s c :
  FromCommit s = Ok c →
  commit_ok s ∧ ∃ raw m, hex_decode s = Some raw ∧ String.length raw = 20 ∧
    c = new_cid_v1 DagProtobuf m ∧ mh_decode m = Ok (IDENTITY, raw) ∧
    mh_sum raw IDENTITY (-1) = Ok m.
Proof.
  unfold FromCommit. destruct (Nat.eqb_spec (String.length s) CommitLen) as [Hl|]; [|done].
  simpl. destruct (hex_decode s) as [raw|] eqn:Hd; [|done].
  assert (String.length raw = 20) as Hr.
  { apply hex_decode_length in Hd. unfold CommitLen in Hl. lia. }
  destruct (mh_identity raw) as (m & Hs & Hm); [lia|]. rewrite Hs. intros [= <-].
  split; [by split|]. by exists raw, m.
Qed.

Lemma FromCommit_commit_ok s : commit_ok s → ∃ c, FromCommit s = Ok c.
Proof.
  intros [Hl [raw Hd]]. unfold FromCommit. rewrite Hl, Hd. simpl.
  apply hex_decode_length in Hd. unfold CommitLen in Hl.
  destruct (mh_identity raw) as (m & -> & _); [lia|]. eauto.
Qed.

(** Two hashes share a CID exactly when they differ only in case. *)
Lemma FromCommit_collide s t c d :
  FromCommit s = Ok c → FromCommit t = Ok d → (c = d ↔ to_lower s = to_lower t).
Proof.
  intros (_&raw&m&Hs&_&->&Hm&Hsum)%FromCommit_ok_inv
         (_&raw'&m'&Ht&_&->&Hm'&Hsum')%FromCommit_ok_inv.
  rewrite <- (hex_encode_decode _ _ Hs), <- (hex_encode_decode _ _ Ht). split.
  - intros E%(f_equal cid_hash). rewrite !cid_hash_new in E. congruence.
  - intros E%(f_equal hex_decode). rewrite !hex_decode_encode in E. congruence.
Qed.
End dummy.

(** ** Properties *)

(** The commit-to-CID mapping loses nothing but letter case: [FromCommit]
    succeeds exactly on 40 hexadecimal digits, the CID it builds is a dummy CID
    from which [Commit] recovers the hash in lower case, and two hashes share a
    CID exactly when they are equal up to case. *)
Theorem dummy_roundtrip `{!Multiformats, !MultiformatsLaws} (s : string) :
  (is_ok (FromCommit s) = true ↔ commit_ok s) ∧
  ∀ c, FromCommit s = Ok c →
    Commit c = Ok (to_lower s) ∧ Is c = true ∧ cid_type c = DagProtobuf ∧
    ∀ t d, FromCommit t = Ok d → (c = d ↔ to_lower s = to_lower t).
Proof.
  split.
  { split.
    - destruct (FromCommit s) as [c|] eqn:E; [|done]. intros _.
      by apply FromCommit_ok_inv in E as [? _].
    - intros Hs. by destruct (FromCommit_commit_ok s Hs) as [c ->]. }
  intros c Hc. pose proof Hc as (_&raw&m&Hd&Hr&->&Hm&_)%FromCommit_ok_inv.
  assert (Commit (new_cid_v1 DagProtobuf m) = Ok (to_lower s)) as HC.
  { unfold Commit. rewrite cid_hash_new, Hm. simpl. rewrite Hr. simpl.
    by rewrite (hex_encode_decode s raw). }
  split_and!; [done|by unfold Is; rewrite HC|apply cid_type_new_dagpb|].
  intros t d Ht. by apply FromCommit_collide.
Qed.

(** The mapping is not the bijection the package comment announces: for
    every implementation of the multiformats libraries, the upper- and
    lower-case spellings of one hash are distinct well-formed commits with the
    same CID, so [Commit] cannot return the first of them. *)
Theorem dummy_not_injective `{!Multiformats, !MultiformatsLaws} :
  ∃ s t c, s ≠ t ∧ FromCommit s = Ok c ∧ FromCommit t = Ok c ∧ Commit c ≠ Ok s.
Proof.
  set (s := "ABCDEFABCDEFABCDEFABCDEFABCDEFABCDEFABCD").
  set (t := "abcdefabcdefabcdefabcdefabcdefabcdefabcd").
  destruct (FromCommit_commit_ok s) as [c Hc]; [by split; [|eexists]|].
  destruct (FromCommit_commit_ok t) as [d Hd]; [by split; [|eexists]|].
  assert (c = d) as <- by by apply (FromCommit_collide s t).
  exists s, t, c. split_and!; [done..|].
  pose proof Hc as (_&raw&m&Hr&Hl&->&Hm&_)%FromCommit_ok_inv.
  unfold Commit. rewrite cid_hash_new, Hm. simpl. rewrite Hl. simpl.
  rewrite (hex_encode_decode s raw) by done. done.
Qed.

#[local] Existing Instances Toy.multiformats Toy.multiformats_laws.

Lemma dummy_roundtrip_witness :
  Commit (new_cid_v1 DagProtobuf
    (String (ascii_of_N 0) (String (ascii_of_N 20) "abcdefghijklmnopqrst")))
  = Ok "6162636465666768696a6b6c6d6e6f7071727374".
Proof.
  apply (dummy_roundtrip "6162636465666768696A6B6C6D6E6F7071727374").
  vm_compute. reflexivity.
Defined.

Lemma dummy_not_injective_witness :
  ∃ s t c, s ≠ t ∧ FromCommit s = Ok c ∧ FromCommit t = Ok c ∧ Commit c ≠ Ok s.
Proof. exact dummy_not_injective. Defined.
