(* ===== verification/Mapping.v ===== *)
(** * internal/mapping: the table of shared revisions.

    [DB] maps a commit hash to the [Entry] published for it, stored as JSON in
    a datastore bucket.  The operations are written over the [Batching]
    interface; the theorems say that they implement a finite map from commits
    to entries.  [AddedAt] is kept as its RFC 3339 text, and a nil slice of
    files is not told apart from an empty one. *)
From S2P Require Import Prelude GoStrings GoPath Json Store.

(** ** RFC 3339 *)
Definition digit_at (s : string) (i : nat) : option Z :=
  c ← String.get i s; if is_digit c then Some (Z.of_N (N_of_ascii c) - 48)%Z else None.
Fixpoint num_at (s : string) (i n : nat) (acc : Z) : option Z :=
  match n with
  | O => Some acc
  | S n' => d ← digit_at s i; num_at s (S i) n' (acc * 10 + d)%Z
  end.
Definition char_at (s : string) (i : nat) (c : ascii) : bool := bool_decide (String.get i s = Some c).
Definition leap (y : Z) : bool :=
  ((y mod 4 =? 0) && (negb (y mod 100 =? 0) || (y mod 400 =? 0)))%Z.
Definition days_in (m y : Z) : Z :=
  (if m =? 2 then if leap y then 29 else 28
   else if (m =? 4) || (m =? 6) || (m =? 9) || (m =? 11) then 30 else 31)%Z.
Definition zone_ok (z : string) : bool :=
  if decide (z = "Z") then true
  else match num_at z 1 2 0, num_at z 4 2 0 with
       | Some h, Some m =>
           (char_at z 0 "+"%char || char_at z 0 "-"%char) && char_at z 3 ":"%char
           && (String.length z =? 6)%nat && (h <? 24)%Z && (m <? 60)%Z
       | _, _ => false
       end.
Definition rfc3339 (s : string) : bool :=
  match num_at s 0 4 0, num_at s 5 2 0, num_at s 8 2 0, num_at s 11 2 0, num_at s 14 2 0, num_at s 17 2 0 with
  | Some y, Some mo, Some d, Some h, Some mi, Some sec =>
      char_at s 4 "-"%char && char_at s 7 "-"%char && char_at s 10 "T"%char
      && char_at s 13 ":"%char && char_at s 16 ":"%char
      && (1 <=? mo)%Z && (mo <=? 12)%Z && (1 <=? d)%Z && (d <=? days_in mo y)%Z
      && (h <? 24)%Z && (mi <? 60)%Z && (sec <? 60)%Z
      && (let r := drop_bytes 19 s in
          if has_prefix r "." then
            let '(f, z) := span_digits (drop_bytes 1 r) in bool_decide (f ≠ "") && zone_ok z
          else zone_ok r)
  | _, _, _, _, _, _ => false
  end.
Definition dec_time (j : json) (old : string) : result string :=
  match j with
  | JNull => Ok old
  | JStr s => if rfc3339 s then Ok s else Err (errorf "parsing time")
  | _ => Err (errorf "Time.UnmarshalJSON: input is not a JSON string")
  end.

(** ** Records *)
Record FileManifest := mk_FileManifest {
  mf_Path : string; mf_BlobName : string; mf_Size : Z; mf_SHA256 : string;
  mf_Mode : Z; mf_Mtime : Z; mf_LFS : bool; mf_XetHash : string; mf_SrcPath : string
}.
Record Entry := mk_Entry {
  en_RepoID : string; en_RepoType : string; en_CommitHash : string;
  en_ActualCID : string; en_DummyCID : string; en_Files : list FileManifest;
  en_TotalSize : Z; en_AddedAt : string; en_Origin : string
}.
#[export] Instance FileManifest_eq_dec : EqDecision FileManifest.
Proof. solve_decision. Defined.
#[export] Instance Entry_eq_dec : EqDecision Entry.
Proof. solve_decision. Defined.

Definition zero_manifest : FileManifest := mk_FileManifest "" "" 0 "" 0 0 false "" "".
Definition zero_entry : Entry := mk_Entry "" "" "" "" "" [] 0 "0001-01-01T00:00:00Z" "".

(** ** JSON: the struct tags *)
Definition manifest_json (m : FileManifest) : json :=
  JObj ([("path", JStr (mf_Path m)); ("blob_name", JStr (mf_BlobName m));
         ("size", JInt (mf_Size m)); ("sha256", JStr (mf_SHA256 m))]
        ++ omit_int "mode" (mf_Mode m) ++ omit_int "mtime" (mf_Mtime m)
        ++ omit_bool "lfs" (mf_LFS m) ++ omit_str "xet_hash" (mf_XetHash m)).

Definition manifest_fields : list (field FileManifest) := [
  mk_field "path" dec_string mf_Path (λ v '(mk_FileManifest _ b c d e f g h i), mk_FileManifest v b c d e f g h i);
  mk_field "blob_name" dec_string mf_BlobName (λ v '(mk_FileManifest a _ c d e f g h i), mk_FileManifest a v c d e f g h i);
  mk_field "size" dec_int64 mf_Size (λ v '(mk_FileManifest a b _ d e f g h i), mk_FileManifest a b v d e f g h i);
  mk_field "sha256" dec_string mf_SHA256 (λ v '(mk_FileManifest a b c _ e f g h i), mk_FileManifest a b c v e f g h i);
  mk_field "mode" dec_uint32 mf_Mode (λ v '(mk_FileManifest a b c d _ f g h i), mk_FileManifest a b c d v f g h i);
  mk_field "mtime" dec_int64 mf_Mtime (λ v '(mk_FileManifest a b c d e _ g h i), mk_FileManifest a b c d e v g h i);
  mk_field "lfs" dec_bool mf_LFS (λ v '(mk_FileManifest a b c d e f _ h i), mk_FileManifest a b c d e f v h i);
  mk_field "xet_hash" dec_string mf_XetHash (λ v '(mk_FileManifest a b c d e f g _ i), mk_FileManifest a b c d e f g v i)
].
Definition dec_manifest : json → FileManifest → result FileManifest := dec_struct manifest_fields.

Definition entry_json (e : Entry) : json :=
  JObj [("repo_id", JStr (en_RepoID e)); ("repo_type", JStr (en_RepoType e));
        ("commit_hash", JStr (en_CommitHash e)); ("actual_cid", JStr (en_ActualCID e));
        ("dummy_cid", JStr (en_DummyCID e)); ("files", JArr (map manifest_json (en_Files e)));
        ("total_size", JInt (en_TotalSize e)); ("added_at", JStr (en_AddedAt e));
        ("origin", JStr (en_Origin e))].
Definition entry_fields : list (field Entry) := [
  mk_field "repo_id" dec_string en_RepoID (λ v '(mk_Entry _ b c d e f g h i), mk_Entry v b c d e f g h i);
  mk_field "repo_type" dec_string en_RepoType (λ v '(mk_Entry a _ c d e f g h i), mk_Entry a v c d e f g h i);
  mk_field "commit_hash" dec_string en_CommitHash (λ v '(mk_Entry a b _ d e f g h i), mk_Entry a b v d e f g h i);
  mk_field "actual_cid" dec_string en_ActualCID (λ v '(mk_Entry a b c _ e f g h i), mk_Entry a b c v e f g h i);
  mk_field "dummy_cid" dec_string en_DummyCID (λ v '(mk_Entry a b c d _ f g h i), mk_Entry a b c d v f g h i);
  mk_field "files" (dec_list dec_manifest zero_manifest) en_Files
    (λ v '(mk_Entry a b c d e _ g h i), mk_Entry a b c d e v g h i);
  mk_field "total_size" dec_int64 en_TotalSize (λ v '(mk_Entry a b c d e f _ h i), mk_Entry a b c d e f v h i);
  mk_field "added_at" dec_time en_AddedAt (λ v '(mk_Entry a b c d e f g _ i), mk_Entry a b c d e f g v i);
  mk_field "origin" dec_string en_Origin (λ v '(mk_Entry a b c d e f g h _), mk_Entry a b c d e f g h v)
].
Definition dec_entry : json → Entry → result Entry := dec_struct entry_fields.

(** ** Operations *)
Definition entry_before (a b : Entry) : Prop :=
  if decide (en_RepoID a = en_RepoID b)
  then String.le (en_CommitHash a) (en_CommitHash b)
  else String.le (en_RepoID a) (en_RepoID b).
#[export] Instance entry_before_dec : RelDecision entry_before.
Proof. intros a b. unfold entry_before. case_decide; apply _. Defined.

Module DB.
Section db.
Context {DS : Datastore} {BA : Batching}.

Definition mapKey (commit : string) : ds_key := ds_new_key ("/" +:+ commit).

Definition Put (e : Entry) : M bstate unit :=
  if decide (en_CommitHash e = "") then m_fail (errorf "mapping entry requires a commit hash")
  else bds_put (mapKey (en_CommitHash e)) (print (entry_json e)).

Definition Get (commit : string) : M bstate (option Entry) :=
  r ← m_try (bds_get (mapKey commit));
  match r with
  | Err e => if decide (e = ErrNotFound) then mret None else m_fail e
  | Ok data =>
      match unmarshal dec_entry data zero_entry with
      | Err e => m_fail (ErrWrap "unmarshal mapping entry" e)
      | Ok e => mret (Some e)
      end
  end.

Definition Has (commit : string) : M bstate bool := bds_has (mapKey commit).
Definition Delete (commit : string) : M bstate unit := bds_delete (mapKey commit).

(** The loop over the query's results. *)
Fixpoint collect (results : list entry) : result (list Entry) :=
  match results with
  | [] => Ok []
  | r :: rest =>
      let value := default "" (e_value r) in
      if decide (value = "") then collect rest
      else
        match unmarshal dec_entry value zero_entry with
        | Err e => Err (ErrWrap "unmarshal mapping entry" e)
        | Ok e => out ← collect rest; Ok (e :: out)
        end
  end.
Definition List : M bstate (list Entry) :=
  results ← bds_query ds_query_all;
  out ← m_lift (collect results);
  mret (merge_sort entry_before out).
End db.
End DB.

(** ** The codec is a round trip

    [published m] is what survives transmission: everything but [SrcPath]. *)
Definition published (m : FileManifest) : FileManifest :=
  mk_FileManifest (mf_Path m) (mf_BlobName m) (mf_Size m) (mf_SHA256 m)
    (mf_Mode m) (mf_Mtime m) (mf_LFS m) (mf_XetHash m) "".
Definition published_entry (e : Entry) : Entry :=
  mk_Entry (en_RepoID e) (en_RepoType e) (en_CommitHash e) (en_ActualCID e) (en_DummyCID e)
    (map published (en_Files e)) (en_TotalSize e) (en_AddedAt e) (en_Origin e).

(** Values of the fields' Go types. *)
Definition manifest_ok (m : FileManifest) : Prop :=
  in_int64 (mf_Size m) ∧ (0 ≤ mf_Mode m ≤ 4294967295)%Z ∧ in_int64 (mf_Mtime m).
Definition entry_ok (e : Entry) : Prop :=
  Forall manifest_ok (en_Files e) ∧ in_int64 (en_TotalSize e) ∧ rfc3339 (en_AddedAt e) = true.

Lemma plain_manifest m : plain (manifest_json m).
Proof.
  apply plain_obj_app; [done|]. unfold omit_int, omit_bool, omit_str.
  repeat (apply plain_obj_app; [by apply plain_omit|]). by apply plain_omit.
Qed.
Lemma plain_entry e : plain (entry_json e).
Proof. repeat split. apply (plain_arr manifest_json), plain_manifest. Qed.

(** One optional member read back: the value, or the zero value kept. *)
Ltac dec_opt t' :=
  apply (dec_members_omit _ _ _ _ _ _ t');
  [rewrite ?bool_decide_eq_true, ?negb_true_iff; by intros ->
  |intros _; simpl; rewrite ?decide_True by done; reflexivity|].

Lemma dec_manifest_json m : manifest_ok m → dec_manifest (manifest_json m) zero_manifest = Ok (published m).
Proof.
  destruct m as [a b c d e f g h i]. intros (Hs & Hmode & Hmt). unfold manifest_json.
  rewrite <- (app_nil_r (omit_str _ _)). simpl in *.
  unfold dec_int64. rewrite decide_True by done. simpl. unfold omit_int, omit_bool, omit_str.
  dec_opt (mk_FileManifest a b c d e 0 false "" "").
  dec_opt (mk_FileManifest a b c d e f false "" "").
  dec_opt (mk_FileManifest a b c d e f g "" "").
  dec_opt (mk_FileManifest a b c d e f g h ""). done.
Qed.
Lemma dec_manifests_json l old :
  Forall manifest_ok l →
  dec_list dec_manifest zero_manifest (JArr (map manifest_json l)) old = Ok (map published l).
Proof.
  intros H. assert (map manifest_json l = map manifest_json (map published l)) as ->.
  { rewrite map_map. done. }
  apply (dec_list_ok manifest_json). induction H as [|m l Hm _ IH]; simpl; constructor; [|done].
  by apply (dec_manifest_json (published m)).
Qed.
Lemma dec_entry_json e : entry_ok e → dec_entry (entry_json e) zero_entry = Ok (published_entry e).
Proof.
  destruct e as [a b c d e f g h i]. intros (Hf & Hs & Ht). unfold dec_entry, entry_json. simpl in *.
  change (mapR _ (map manifest_json f)) with
    (dec_list dec_manifest zero_manifest (JArr (map manifest_json f)) []).
  rewrite dec_manifests_json by done. simpl. unfold dec_int64. rewrite decide_True by done. simpl.
  by rewrite Ht.
Qed.
Lemma unmarshal_entry e :
  entry_ok e → unmarshal dec_entry (print (entry_json e)) zero_entry = Ok (published_entry e).
Proof. intros H. rewrite unmarshal_print by apply plain_entry. by apply dec_entry_json. Qed.
Lemma print_entry_nonempty e : print (entry_json e) ≠ "".
Proof. done. Qed.

(** ** Ordering of the listing *)
Lemma string_le_total (a b : string) : String.le a b ∨ String.le b a.
Proof. apply (total String.le). Qed.
#[export] Instance entry_before_total : Total entry_before.
Proof.
  intros a b. unfold entry_before.
  destruct (decide (en_RepoID a = en_RepoID b)) as [E|E];
    [rewrite decide_True by done|rewrite decide_False by done]; apply string_le_total.
Qed.

(** ** Refinement of a finite map

    [represents s m]: the datastore holds exactly the entries of [m], each
    under its own commit hash. *)
Definition represents {DS : Datastore} {BA : Batching} {DL : DatastoreLaws} {BL : BatchingLaws}
    (s : bstate) (m : gmap string Entry) : Prop :=
  bds_open s ∧
  bds_view s = (λ e, print (entry_json e)) <$> m ∧
  ∀ c e, m !! c = Some e → en_CommitHash e = c ∧ entry_ok e ∧ published_entry e = e.

Section db_refines.
Context {DS : Datastore} {BA : Batching} {DL : DatastoreLaws} {BL : BatchingLaws}.
Implicit Types (s : bstate) (m : gmap string Entry) (c : string).

Lemma mapKey_raw c : seg_ok c → key_raw (DB.mapKey c) = c.
Proof.
  intros H. unfold key_raw, DB.mapKey. by rewrite ds_new_key_clean, trim_prefix_app.
Qed.
Lemma published_idemp e : published_entry (published_entry e) = published_entry e.
Proof. unfold published_entry. simpl. by rewrite map_map. Qed.
Lemma published_print e : print (entry_json (published_entry e)) = print (entry_json e).
Proof. unfold published_entry, entry_json. simpl. by rewrite map_map. Qed.
Lemma published_ok e : entry_ok e → entry_ok (published_entry e).
Proof.
  intros (Hf & H). split; [|done]. simpl. induction Hf; simpl; constructor; done.
Qed.

Lemma Get_run s m c :
  represents s m → seg_ok c → DB.Get c s = (Ok (m !! c), s).
Proof.
  intros (Ho & Hv & Hm) Hc. unfold DB.Get, m_try.
  unfold mbind, M_bind at 1. rewrite bds_get_spec, mapKey_raw, Hv, lookup_fmap by done.
  destruct (m !! c) as [e|] eqn:E; simpl.
  - destruct (Hm _ _ E) as (_ & Hok & Hp). by rewrite unmarshal_entry, Hp.
  - done.
Qed.
Lemma Has_run s m c :
  represents s m → seg_ok c → DB.Has c s = (Ok (bool_decide (is_Some (m !! c))), s).
Proof.
  intros (Ho & Hv & Hm) Hc. unfold DB.Has. rewrite bds_has_spec, mapKey_raw, Hv, lookup_fmap by done.
  by destruct (m !! c).
Qed.
Lemma Put_run s m e r s' :
  represents s m → entry_ok e → seg_ok (en_CommitHash e) → DB.Put e s = (r, s') →
  represents s' (match r with Ok _ => <[en_CommitHash e := published_entry e]> m | Err _ => m end).
Proof.
  intros (Ho & Hv & Hm) He Hc. unfold DB.Put. rewrite decide_False by (destruct Hc; done).
  intros H. destruct (bds_put_spec _ _ _ _ _ Ho H) as [Ho' Hr]. destruct r as [[]|err].
  - destruct Hr as [_ Hr]. rewrite mapKey_raw in Hr by done. split; [done|]. split.
    + rewrite Hr, Hv, fmap_insert. by rewrite published_print.
    + intros c e' [[<- <-]|[Hne Hl]]%lookup_insert_Some; [|by apply Hm].
      split; [done|]. split; [by apply published_ok|apply published_idemp].
  - split; [done|]. split; [by rewrite Hr|done].
Qed.
Lemma Delete_run s m c r s' :
  represents s m → seg_ok c → DB.Delete c s = (r, s') →
  represents s' (match r with Ok _ => delete c m | Err _ => m end).
Proof.
  intros (Ho & Hv & Hm) Hc H. destruct (bds_delete_spec _ _ _ _ Ho H) as [Ho' Hr].
  rewrite mapKey_raw in Hr by done. split; [done|]. rewrite Hr. destruct r; [|done]. split.
  - by rewrite Hv, fmap_delete.
  - intros c' e [_ Hl]%lookup_delete_Some. by apply Hm.
Qed.

Lemma collect_entries (es : list Entry) :
  Forall (λ e, entry_ok e ∧ published_entry e = e) es →
  DB.collect (map (λ e, mk_entry ("/" +:+ en_CommitHash e)
                          (Z.of_nat (String.length (print (entry_json e))))
                          (Some (print (entry_json e)))) es) = Ok es.
Proof.
  induction 1 as [|e es [He Hp] _ IH]; [done|]. cbn [map DB.collect e_value from_option id].
  rewrite decide_False by done. rewrite unmarshal_entry, IH, Hp by done. done.
Qed.

Lemma List_run s m :
  represents s m → ∃ l, DB.List s = (Ok l, s) ∧ l ≡ₚ (map_to_list m).*2 ∧ Sorted entry_before l.
Proof.
  intros (Ho & Hv & Hm). destruct (bds_query_spec s Ho) as (l & Hq & _ & kvs & Hp & ->).
  rewrite Hv, map_to_list_fmap in Hp.
  apply Permutation_map_inv in Hp as (ces & -> & Hces).
  assert (Forall (λ ce : string * Entry, ce.1 = en_CommitHash ce.2 ∧ entry_ok ce.2 ∧ published_entry ce.2 = ce.2) ces) as Hall.
  { rewrite Forall_forall. intros [c e] Hin. rewrite <- Hces in Hin.
    apply elem_of_map_to_list, Hm in Hin. simpl. naive_solver. }
  exists (merge_sort entry_before ces.*2). split_and!.
  - unfold DB.List, mbind, M_bind. rewrite Hq. unfold m_lift.
    rewrite map_map. simpl.
    replace (map _ ces) with (map (λ e, mk_entry ("/" +:+ en_CommitHash e)
        (Z.of_nat (String.length (print (entry_json e)))) (Some (print (entry_json e)))) ces.*2).
    + rewrite collect_entries; [done|]. apply Forall_fmap. eapply Forall_impl; [exact Hall|].
      intros [c e] H. apply H.
    + rewrite map_map. apply map_ext_in. intros [c e] Hin. rewrite Forall_forall in Hall.
      apply list_elem_of_In, Hall in Hin as [-> _]. done.
  - rewrite merge_sort_Permutation. by rewrite Hces.
  - apply Sorted_merge_sort, _.
Qed.


(** [List] returns every entry of the table exactly once, in order of
    repository and then commit. *)
Theorem DB_List_sorted s m :
  represents s m →
  ∃ l, DB.List s = (Ok l, s) ∧ l ≡ₚ (map_to_list m).*2 ∧ Sorted entry_before l.
Proof. apply List_run. Qed.
End db_refines.

(** ** A concrete table *)
Module ToyDB.
#[export] Existing Instances ToyStore.bolt ToyStore.bolt_laws ToyStore.datastore ToyStore.datastore_laws.
#[export] Instance batching : Batching := bolt_batching BucketMap.
#[export] Instance batching_laws : BatchingLaws := bolt_batching_laws BucketMap.

Definition file1 : FileManifest :=
  mk_FileManifest "config.json" "b1" 12 "ab" 420 1700000000 false "" "/home/me/config.json".
Definition entry1 : Entry :=
  mk_Entry "org/model" "model" "c1" "bafy1" "f01" [published file1] 12 "2024-02-29T12:00:00Z" "ingest".
Definition entry2 : Entry :=
  mk_Entry "org/data" "dataset" "c2" "bafy2" "f02" [file1] 12 "2024-03-01T12:00:00.5+01:00" "pull".
Definition table1 : gmap string Entry := {[ "c1" := entry1 ]}.
Definition state1 : bstate := ({[ BucketMap := {[ "c1" := print (entry_json entry1) ]} ]} : buckets).

Lemma represents1 : represents state1 table1.
Proof.
  split; [exact I|]. split.
  - unfold table1. rewrite map_fmap_singleton. reflexivity.
  - unfold table1. intros c e [<- <-]%lookup_singleton_Some. split; [done|]. split; [|done].
    split; [|done]. constructor; done.
Defined.
End ToyDB.

Section witnesses.
Import ToyDB.


Lemma DB_List_sorted_witness :
  ∃ l, DB.List state1 = (Ok l, state1) ∧ l ≡ₚ [entry1] ∧ Sorted entry_before l.
Proof. exact (DB_List_sorted state1 table1 represents1). Defined.
End witnesses.
