(* ===== verification/Wire.v ===== *)
(** * internal/wire: the messages of the peer protocol and the control socket.

    One record per message, with its JSON codec following the struct tags.  An
    empty slice and a nil one are identified. *)
From S2P Require Import Prelude GoStrings Json Protoio Mapping.

(** Status bytes prefixing every /hf-ipfs/block/1.0.0 response frame. *)
Definition BlockOK : ascii := "000"%char.
Definition BlockNotFound : ascii := "001"%char.

Definition CmdPull : string := "pull".
Definition CmdIngest : string := "ingest".
Definition CmdStatus : string := "status".
Definition CmdList : string := "list".
Definition CmdEvict : string := "evict".
Definition CmdShutdown : string := "shutdown".

(** ** /hf-ipfs/map/1.0.0 *)
Record MapRequest := mk_MapRequest {
  rq_CommitHash : string;
  rq_RepoID : string
}.
#[export] Instance MapRequest_eq_dec : EqDecision MapRequest.
Proof. solve_decision. Defined.
Definition zero_MapRequest : MapRequest := mk_MapRequest "" "".
Definition MapRequest_json (x : MapRequest) : json :=
  JObj ([("commit_hash", JStr (rq_CommitHash x))]
        ++ omit_str "repo_id" (rq_RepoID x)).
Definition MapRequest_fields : list (field MapRequest) := [
  mk_field "commit_hash" dec_string rq_CommitHash
    (λ v '(mk_MapRequest _ b), mk_MapRequest v b);
  mk_field "repo_id" dec_string rq_RepoID
    (λ v '(mk_MapRequest a _), mk_MapRequest a v)
].
Definition dec_MapRequest : json → MapRequest → result MapRequest := dec_struct MapRequest_fields.

Record MapResponse := mk_MapResponse {
  rs_OK : bool;
  rs_Error : string;
  rs_CommitHash : string;
  rs_RepoID : string;
  rs_RepoType : string;
  rs_ActualCID : string;
  rs_DummyCID : string;
  rs_TotalSize : Z;
  rs_Files : list FileManifest
}.
#[export] Instance MapResponse_eq_dec : EqDecision MapResponse.
Proof. solve_decision. Defined.
Definition zero_MapResponse : MapResponse := mk_MapResponse false "" "" "" "" "" "" 0 [].
Definition MapResponse_json (x : MapResponse) : json :=
  JObj ([("ok", JBool (rs_OK x))]
        ++ omit_str "error" (rs_Error x)
        ++ omit_str "commit_hash" (rs_CommitHash x)
        ++ omit_str "repo_id" (rs_RepoID x)
        ++ omit_str "repo_type" (rs_RepoType x)
        ++ omit_str "actual_cid" (rs_ActualCID x)
        ++ omit_str "dummy_cid" (rs_DummyCID x)
        ++ omit_int "total_size" (rs_TotalSize x)
        ++ omit_list "files" manifest_json (rs_Files x)).
Definition MapResponse_fields : list (field MapResponse) := [
  mk_field "ok" dec_bool rs_OK
    (λ v '(mk_MapResponse _ b c d e f g h i), mk_MapResponse v b c d e f g h i);
  mk_field "error" dec_string rs_Error
    (λ v '(mk_MapResponse a _ c d e f g h i), mk_MapResponse a v c d e f g h i);
  mk_field "commit_hash" dec_string rs_CommitHash
    (λ v '(mk_MapResponse a b _ d e f g h i), mk_MapResponse a b v d e f g h i);
  mk_field "repo_id" dec_string rs_RepoID
    (λ v '(mk_MapResponse a b c _ e f g h i), mk_MapResponse a b c v e f g h i);
  mk_field "repo_type" dec_string rs_RepoType
    (λ v '(mk_MapResponse a b c d _ f g h i), mk_MapResponse a b c d v f g h i);
  mk_field "actual_cid" dec_string rs_ActualCID
    (λ v '(mk_MapResponse a b c d e _ g h i), mk_MapResponse a b c d e v g h i);
  mk_field "dummy_cid" dec_string rs_DummyCID
    (λ v '(mk_MapResponse a b c d e f _ h i), mk_MapResponse a b c d e f v h i);
  mk_field "total_size" dec_int64 rs_TotalSize
    (λ v '(mk_MapResponse a b c d e f g _ i), mk_MapResponse a b c d e f g v i);
  mk_field "files" (dec_list dec_manifest zero_manifest) rs_Files
    (λ v '(mk_MapResponse a b c d e f g h _), mk_MapResponse a b c d e f g h v)
].
Definition dec_MapResponse : json → MapResponse → result MapResponse := dec_struct MapResponse_fields.

(** ** The control socket *)
Record ControlRequest := mk_ControlRequest {
  cr_Cmd : string;
  cr_RepoID : string;
  cr_RepoType : string;
  cr_Commit : string;
  cr_Ref : string;
  cr_Peers : list string;
  cr_Connect : list string;
  cr_Force : bool;
  cr_From : string;
  cr_Token : string
}.
#[export] Instance ControlRequest_eq_dec : EqDecision ControlRequest.
Proof. solve_decision. Defined.
Definition zero_ControlRequest : ControlRequest := mk_ControlRequest "" "" "" "" "" [] [] false "" "".
Definition ControlRequest_json (x : ControlRequest) : json :=
  JObj ([("cmd", JStr (cr_Cmd x))]
        ++ omit_str "repo_id" (cr_RepoID x)
        ++ omit_str "repo_type" (cr_RepoType x)
        ++ omit_str "commit" (cr_Commit x)
        ++ omit_str "ref" (cr_Ref x)
        ++ omit_list "peers" JStr (cr_Peers x)
        ++ omit_list "connect" JStr (cr_Connect x)
        ++ omit_bool "force" (cr_Force x)
        ++ omit_str "from" (cr_From x)
        ++ omit_str "token" (cr_Token x)).
Definition ControlRequest_fields : list (field ControlRequest) := [
  mk_field "cmd" dec_string cr_Cmd
    (λ v '(mk_ControlRequest _ b c d e f g h i j), mk_ControlRequest v b c d e f g h i j);
  mk_field "repo_id" dec_string cr_RepoID
    (λ v '(mk_ControlRequest a _ c d e f g h i j), mk_ControlRequest a v c d e f g h i j);
  mk_field "repo_type" dec_string cr_RepoType
    (λ v '(mk_ControlRequest a b _ d e f g h i j), mk_ControlRequest a b v d e f g h i j);
  mk_field "commit" dec_string cr_Commit
    (λ v '(mk_ControlRequest a b c _ e f g h i j), mk_ControlRequest a b c v e f g h i j);
  mk_field "ref" dec_string cr_Ref
    (λ v '(mk_ControlRequest a b c d _ f g h i j), mk_ControlRequest a b c d v f g h i j);
  mk_field "peers" (dec_list dec_string "") cr_Peers
    (λ v '(mk_ControlRequest a b c d e _ g h i j), mk_ControlRequest a b c d e v g h i j);
  mk_field "connect" (dec_list dec_string "") cr_Connect
    (λ v '(mk_ControlRequest a b c d e f _ h i j), mk_ControlRequest a b c d e f v h i j);
  mk_field "force" dec_bool cr_Force
    (λ v '(mk_ControlRequest a b c d e f g _ i j), mk_ControlRequest a b c d e f g v i j);
  mk_field "from" dec_string cr_From
    (λ v '(mk_ControlRequest a b c d e f g h _ j), mk_ControlRequest a b c d e f g h v j);
  mk_field "token" dec_string cr_Token
    (λ v '(mk_ControlRequest a b c d e f g h i _), mk_ControlRequest a b c d e f g h i v)
].
Definition dec_ControlRequest : json → ControlRequest → result ControlRequest := dec_struct ControlRequest_fields.

Record ControlEvent := mk_ControlEvent {
  ce_Type : string;
  ce_Message : string;
  ce_Bytes : Z;
  ce_Total : Z
}.
#[export] Instance ControlEvent_eq_dec : EqDecision ControlEvent.
Proof. solve_decision. Defined.
Definition zero_ControlEvent : ControlEvent := mk_ControlEvent "" "" 0 0.
Definition ControlEvent_json (x : ControlEvent) : json :=
  JObj ([("type", JStr (ce_Type x))]
        ++ omit_str "message" (ce_Message x)
        ++ omit_int "bytes" (ce_Bytes x)
        ++ omit_int "total" (ce_Total x)).
Definition ControlEvent_fields : list (field ControlEvent) := [
  mk_field "type" dec_string ce_Type
    (λ v '(mk_ControlEvent _ b c d), mk_ControlEvent v b c d);
  mk_field "message" dec_string ce_Message
    (λ v '(mk_ControlEvent a _ c d), mk_ControlEvent a v c d);
  mk_field "bytes" dec_int64 ce_Bytes
    (λ v '(mk_ControlEvent a b _ d), mk_ControlEvent a b v d);
  mk_field "total" dec_int64 ce_Total
    (λ v '(mk_ControlEvent a b c _), mk_ControlEvent a b c v)
].
Definition dec_ControlEvent : json → ControlEvent → result ControlEvent := dec_struct ControlEvent_fields.

(** ** Round trips *)
Ltac plain_members :=
  unfold omit_str, omit_int, omit_bool, omit_list;
  repeat (apply plain_obj_app; [by (apply plain_omit || split)|]);
  try apply plain_omit; try apply plain_arr; try done.

Lemma plain_MapResponse x : plain (MapResponse_json x).
Proof. unfold MapResponse_json. plain_members. apply plain_manifest. Qed.
Lemma plain_MapRequest x : plain (MapRequest_json x).
Proof. unfold MapRequest_json. plain_members. Qed.
Lemma plain_ControlEvent x : plain (ControlEvent_json x).
Proof. unfold ControlEvent_json. plain_members. Qed.

Lemma plain_ControlRequest x : plain (ControlRequest_json x).
Proof.
  unfold ControlRequest_json, omit_str, omit_bool, omit_list.
  repeat (apply plain_obj_app; [first [by apply plain_omit|by apply plain_omit, (plain_arr JStr)|by split]|]).
  by apply plain_omit.
Qed.

Definition MapResponse_ok (x : MapResponse) : Prop :=
  in_int64 (rs_TotalSize x) ∧ Forall manifest_ok (rs_Files x).
(** What a receiver decodes: everything but the files' [SrcPath]. *)
Definition published_response (x : MapResponse) : MapResponse :=
  mk_MapResponse (rs_OK x) (rs_Error x) (rs_CommitHash x) (rs_RepoID x) (rs_RepoType x)
    (rs_ActualCID x) (rs_DummyCID x) (rs_TotalSize x) (map published (rs_Files x)).

Lemma dec_MapRequest_json x : dec_MapRequest (MapRequest_json x) zero_MapRequest = Ok x.
Proof.
  destruct x as [a b]. unfold MapRequest_json. rewrite <- (app_nil_r (omit_str _ _)).
  simpl. unfold omit_str. dec_opt (mk_MapRequest a b). done.
Qed.
Lemma dec_MapResponse_json x :
  MapResponse_ok x → dec_MapResponse (MapResponse_json x) zero_MapResponse = Ok (published_response x).
Proof.
  destruct x as [a b c d e f g h i]. intros [Ht Hf]. unfold MapResponse_json.
  rewrite <- (app_nil_r (omit_list _ _ _)).
  simpl in *. unfold omit_str, omit_int, omit_list.
  dec_opt (mk_MapResponse a b "" "" "" "" "" 0 []).
  dec_opt (mk_MapResponse a b c "" "" "" "" 0 []).
  dec_opt (mk_MapResponse a b c d "" "" "" 0 []).
  dec_opt (mk_MapResponse a b c d e "" "" 0 []).
  dec_opt (mk_MapResponse a b c d e f "" 0 []).
  dec_opt (mk_MapResponse a b c d e f g 0 []).
  dec_opt (mk_MapResponse a b c d e f g h []).
  apply (dec_members_omit _ _ _ _ _ _ (mk_MapResponse a b c d e f g h (map published i))).
  - by destruct i.
  - intros _. cbn [dec_members find_field find MapResponse_fields fst snd mk_field].
    change (find_field MapResponse_fields "files") with
      (Some (mk_field "files" (dec_list dec_manifest zero_manifest) rs_Files
        (λ v '(mk_MapResponse a b c d e f g h _), mk_MapResponse a b c d e f g h v))).
    cbn [mk_field snd]. rewrite dec_manifests_json by done. done.
  - done.
Qed.
Lemma dec_ControlEvent_json x :
  in_int64 (ce_Bytes x) → in_int64 (ce_Total x) →
  dec_ControlEvent (ControlEvent_json x) zero_ControlEvent = Ok x.
Proof.
  destruct x as [a b c d]. intros Hc Hd. unfold ControlEvent_json.
  rewrite <- (app_nil_r (omit_int "total" _)). simpl in *. unfold omit_str, omit_int.
  dec_opt (mk_ControlEvent a b 0 0). dec_opt (mk_ControlEvent a b c 0).
  dec_opt (mk_ControlEvent a b c d). done.
Qed.

Lemma dec_strings l old : dec_list dec_string "" (JArr (map JStr l)) old = Ok l.
Proof. apply (dec_list_ok JStr). by apply Forall_forall. Qed.
Lemma dec_ControlRequest_json x : dec_ControlRequest (ControlRequest_json x) zero_ControlRequest = Ok x.
Proof.
  destruct x as [a b c d e f g h i j]. unfold ControlRequest_json.
  rewrite <- (app_nil_r (omit_str "token" _)). simpl. unfold omit_str, omit_bool, omit_list.
  dec_opt (mk_ControlRequest a b "" "" "" [] [] false "" "").
  dec_opt (mk_ControlRequest a b c "" "" [] [] false "" "").
  dec_opt (mk_ControlRequest a b c d "" [] [] false "" "").
  dec_opt (mk_ControlRequest a b c d e [] [] false "" "").
  apply (dec_members_omit _ _ _ _ _ _ (mk_ControlRequest a b c d e f [] false "" "")); [by destruct f| |].
  { intros _. cbn [dec_members].
    change (find_field ControlRequest_fields "peers") with (Some (mk_field "peers" (dec_list dec_string "") cr_Peers
      (λ v '(mk_ControlRequest a b c d e _ g h i j), mk_ControlRequest a b c d e v g h i j))).
    cbn [mk_field snd]. by rewrite dec_strings. }
  apply (dec_members_omit _ _ _ _ _ _ (mk_ControlRequest a b c d e f g false "" "")); [by destruct g| |].
  { intros _. cbn [dec_members].
    change (find_field ControlRequest_fields "connect") with (Some (mk_field "connect" (dec_list dec_string "") cr_Connect
      (λ v '(mk_ControlRequest a b c d e f _ h i j), mk_ControlRequest a b c d e f v h i j))).
    cbn [mk_field snd]. by rewrite dec_strings. }
  dec_opt (mk_ControlRequest a b c d e f g h "" "").
  dec_opt (mk_ControlRequest a b c d e f g h i "").
  dec_opt (mk_ControlRequest a b c d e f g h i j). done.
Qed.

(** A map response crosses a stream intact but for the host paths: what
    [WriteJSON] sends [ReadJSON] returns with every [SrcPath] empty, or nothing
    is sent because the message exceeds the frame bound. *)
Theorem MapResponse_over_wire (x : MapResponse) (rest : string) (e : error) :
  MapResponse_ok x →
  match WriteJSON (MapResponse_json x) (mk_wstate "" []) with
  | (Ok _, w) => ReadJSON dec_MapResponse zero_MapResponse (mk_rstate (ws_out w +:+ rest) e)
                 = (Ok (published_response x), mk_rstate rest e)
  | (Err err, w) => err = ErrFrameTooLarge ∧ ws_out w = ""
  end.
Proof.
  intros Hx. unfold WriteJSON.
  destruct (decide (slen (print (MapResponse_json x)) ≤ MaxFrame)%Z) as [Hl|Hl].
  - rewrite WriteFrame_run by done. simpl ws_out. rewrite sapp_nil_l.
    rewrite ReadJSON_frame by (done || apply plain_MapResponse).
    by rewrite dec_MapResponse_json.
  - unfold WriteFrame. rewrite decide_True by lia. done.
Qed.

Lemma MapResponse_over_wire_witness :
  let x := mk_MapResponse true "" "c1" "org/m" "model" "bafy" "f01" 12
             [mk_FileManifest "a" "b" 12 "ab" 420 0 true "" "/secret/a"] in
  let w := (WriteJSON (MapResponse_json x) (mk_wstate "" [])).2 in
  ReadJSON dec_MapResponse zero_MapResponse (mk_rstate (ws_out w +:+ "") (ErrRoot SEOF "EOF"))
  = (Ok (published_response x), mk_rstate "" (ErrRoot SEOF "EOF")).
Proof.
  intros x. pose proof (MapResponse_over_wire x "" (ErrRoot SEOF "EOF")) as H.
  assert (MapResponse_ok x) as Hx.
  { split; [done|]. constructor; [done|constructor]. }
  specialize (H Hx). revert H.
  destruct (WriteJSON (MapResponse_json x) (mk_wstate "" [])) as [[[]|err] w] eqn:E; [done|].
  exfalso. vm_compute in E. discriminate.
Defined.
