(* ===== verification/Hfcache.v ===== *)
(** * internal/hfcache: the on-disk layout of the [hf] cache.

    Definitions follow cache.go; the file system is that of [GoFS], whose calls
    may fail at any point.  SHA-256 is any function: nothing here depends on
    which one. *)
From S2P Require Import Prelude GoStrings GoPath GoFS Mapping.

(** [sha256.Sum256] and [sha1.Sum], as raw digests. *)
Class Hashes := { sha256_sum : string → string; sha1_sum : string → string }.

(** ** Repositories and their directories *)
Abbreviation RepoType := string (only parsing).
Definition Model : RepoType := "model".
Definition Dataset : RepoType := "dataset".
Definition Space : RepoType := "space".

Definition DirPrefix (t : RepoType) : string :=
  if decide (t = Model) then "models--"
  else if decide (t = Dataset) then "datasets--"
  else if decide (t = Space) then "spaces--"
  else "models--".
Definition APIPath (t : RepoType) : string :=
  if decide (t = Model) then "models"
  else if decide (t = Dataset) then "datasets"
  else if decide (t = Space) then "spaces"
  else "models".

Definition ParseRepoType (s : string) : result RepoType :=
  let w := to_lower (trim_space s) in
  if decide (w ∈ [""; "model"; "models"]) then Ok Model
  else if decide (w ∈ ["dataset"; "datasets"]) then Ok Dataset
  else if decide (w ∈ ["space"; "spaces"]) then Ok Space
  else Err (errorf "unknown repo type (want model, dataset or space)").

Record Paths := mk_Paths {
  Hub : string; RepoID : string; Type_ : RepoType; RepoDir : string;
  Blobs : string; Snapshots : string; Refs : string; Trees : string
}.

Definition RepoFromDirName (name : string) : string * RepoType * bool :=
  let try_type t := has_prefix name (DirPrefix t) in
  match filter try_type [Model; Dataset; Space] with
  | t :: _ => (replace_all (trim_prefix name (DirPrefix t)) "--" "/", t, true)
  | [] => ("", "", false)
  end.

Definition RepoDirName (repoID : string) (t : RepoType) : string :=
  DirPrefix t +:+ replace_all repoID "/" "--".

Definition NewPaths (hubDir repoID : string) (t : RepoType) : Paths :=
  let repoDir := fjoin [hubDir; RepoDirName repoID t] in
  mk_Paths hubDir repoID t repoDir (fjoin [repoDir; "blobs"]) (fjoin [repoDir; "snapshots"])
    (fjoin [repoDir; "refs"]) (fjoin [repoDir; "trees"]).

Definition SnapshotDir (p : Paths) (commit : string) : string := fjoin [Snapshots p; commit].
Definition RefPath (p : Paths) (ref : string) : string := fjoin [Refs p; ref].
Definition BlobPath (p : Paths) (name : string) : string := fjoin [Blobs p; name].

Definition Exists (p : Paths) : M osst bool :=
  st ← m_try (os_stat (RepoDir p));
  mret (match st with Ok i => fi_is_dir i | Err _ => false end).

Definition CurrentCommit (p : Paths) (ref : string) : M osst string :=
  let ref := if decide (ref = "") then "main" else ref in
  data ← os_read_file (RefPath p ref);
  let commit := trim_space data in
  if negb (String.length commit =? 40)%nat
  then m_fail (errorf "refs contains a value that is not a 40 char commit hash")
  else match hex_decode commit with
       | None => m_fail (errorf "refs contains a value that is not a hex commit hash")
       | Some _ => mret commit
       end.

(** ** Insertion sort, as the loops swap in place *)
Definition str_lt (a b : string) : bool := bool_decide (¬ String.le b a).
Fixpoint sift {A} (lt : A → A → bool) (j : nat) (s : list A) : list A :=
  match j with
  | O => s
  | S j' =>
      match s !! j, s !! j' with
      | Some x, Some y => if lt x y then sift lt j' (<[j := y]> (<[j' := x]> s)) else s
      | _, _ => s
      end
  end.
Definition insertion_sort {A} (lt : A → A → bool) (s : list A) : list A :=
  foldl (λ s i, sift lt i s) s (seq 1 (length s - 1)).
Definition sortStrings (s : list string) : list string := insertion_sort str_lt s.
Definition sortManifests (f : list FileManifest) : list FileManifest :=
  insertion_sort (λ a b, str_lt (mf_Path a) (mf_Path b)) f.

Definition repo_of_dir (en : string * fnode) : list string :=
  let '(name, node) := en in
  if negb (is_dir_node (Some node)) then []
  else
    let strip prefix := [replace_all (trim_prefix name prefix) "--" "/"] in
    if has_prefix name "models--" then strip "models--"
    else if has_prefix name "datasets--" then strip "datasets--"
    else if has_prefix name "spaces--" then strip "spaces--"
    else [].
Definition ListRepos (hubDir : string) : M osst (list string) :=
  r ← m_try (os_read_dir hubDir);
  match r with
  | Err e => if errors_is e SNotExist then mret [] else m_fail e
  | Ok entries => mret (sortStrings (flat_map repo_of_dir entries))
  end.

(** ** Path safety *)
Definition under (root path : string) : bool :=
  match frel root path with
  | Err _ => false
  | Ok rel => bool_decide (rel ≠ "..") && negb (has_prefix rel "../")
  end.

Definition SafeBlobName (name : string) : bool :=
  if decide (name = "" ∨ name = "." ∨ name = "..") then false
  else negb (contains_any name (String ch_slash (String ch_backslash ""))).

Definition SafeRelPath (p : string) : bool :=
  if decide (p = "" ∨ has_prefix p "/" = true ∨ contains_char ch_backslash p = true) then false
  else forallb (λ s, negb (bool_decide (s = "" ∨ s = "." ∨ s = ".."))) (split_on ch_slash p).

Definition bookkeepingDirs : list string := [".git"; ".cache"].
Definition isInsideBookkeeping (rel : string) : bool :=
  existsb (λ d, String.eqb rel d || has_prefix rel (d +:+ "/")) bookkeepingDirs.

(** ** Reading a snapshot *)
(** No existing path is longer than this: enough fuel for any directory walk. *)
Definition fs_depth (fs : gmap fpath fnode) : nat := max_list (map (λ kn, length kn.1) (map_to_list fs)).

Section hfcache.
Context {HS : Hashes}.

Definition hashFile (path : string) : M osst string :=
  data ← os_read_file path; mret (hex_encode (sha256_sum data)).

(** The callback of [ReadSnapshot]'s walk, on an entry that is no directory. *)
Definition read_entry (p : Paths) (snapDir path : string) : M osst (list FileManifest) :=
  rel ← m_lift (frel snapDir path);
  if isInsideBookkeeping rel then mret []
  else
    info ← m_wrap "stat" (os_stat path);
    if negb (fi_regular info) then mret []
    else
      lnk ← m_try (os_readlink path);
      let '(srcPath, blobName) :=
        match lnk with
        | Ok lnk =>
            let resolved := if is_abs lnk then lnk else fjoin [fdir path; lnk] in
            (resolved, if under (Blobs p) resolved then fbase resolved else fi_name info)
        | Err _ => (path, fi_name info)
        end in
      digest ← m_wrap "hash" (hashFile srcPath);
      let blobName :=
        if String.eqb blobName (fi_name info) && negb (under (Blobs p) srcPath)
        then digest else blobName in
      mret [mk_FileManifest rel blobName (fi_size info) digest (fi_perm info) (fi_mtime info)
              false "" srcPath].

(** [filepath.WalkDir] with that callback, from an entry called [name]. *)
Fixpoint walk_snapshot (fuel : nat) (p : Paths) (snapDir path name : string) (isdir : bool) :
    M osst (list FileManifest) :=
  if negb isdir then read_entry p snapDir path
  else if decide (name = ".cache" ∨ name = ".git") then mret []
  else
    match fuel with
    | O => m_fail (errorf "directory tree too deep")
    | S f =>
        entries ← os_read_dir path;
        m_flat_map (λ en, walk_snapshot f p snapDir (fjoin [path; en.1]) en.1
                            (is_dir_node (Some en.2))) entries
    end.

Definition ReadSnapshot (p : Paths) (commit : string) : M osst (list FileManifest) :=
  let snapDir := SnapshotDir p commit in
  m_wrap "snapshot" (os_stat snapDir) ;;
  fs ← m_gets os_fs;
  root ← os_lstat snapDir;
  files ← walk_snapshot (S (fs_depth fs)) p snapDir snapDir (fi_name root) (fi_is_dir root);
  mret (sortManifests files).
End hfcache.

(** [SnapshotComplete]: every entry below the directory can be statted. *)
Fixpoint complete_walk (fuel : nat) (dir : string) : M osst bool :=
  match fuel with
  | O => mret false
  | S f =>
      r ← m_try (os_read_dir dir);
      match r with
      | Err _ => mret false
      | Ok es =>
          (fix loop (es : list (string * fnode)) : M osst bool :=
             match es with
             | [] => mret true
             | (n, node) :: es' =>
                 let path := fjoin [dir; n] in
                 if is_dir_node (Some node) then
                   b ← complete_walk f path;
                   if b : bool then loop es' else mret false
                 else
                   st ← m_try (os_stat path);
                   match st with Ok _ => loop es' | Err _ => mret false end
             end) es
      end
  end.
Definition SnapshotComplete (p : Paths) (commit : string) : M osst bool :=
  let snapDir := SnapshotDir p commit in
  r ← m_try (os_read_dir snapDir);
  match r with
  | Err _ => mret false
  | Ok [] => mret false
  | Ok _ => fs ← m_gets os_fs; complete_walk (S (fs_depth fs)) snapDir
  end.

(** ** Writing *)
Definition cleanup (name : string) : M osst unit := m_ignore os_close ;; m_ignore (os_remove name).

Definition writeAtomic (target data : string) (mode : Z) : M osst unit :=
  name ← os_create_temp (fdir target) (fbase target +:+ ".tmp-");
  w ← m_try (os_append name data);
  match w with
  | Err err => cleanup name ;; m_fail err
  | Ok _ =>
      c ← m_try (os_chmod name mode);
      match c with
      | Err err => cleanup name ;; m_fail err
      | Ok _ =>
          k ← m_try os_close;
          match k with
          | Err err => m_ignore (os_remove name) ;; m_fail err
          | Ok _ => os_rename name target
          end
      end
  end.

Definition WriteRef (p : Paths) (ref commit : string) : M osst unit :=
  os_mkdir_all (Refs p) 493 ;;
  writeAtomic (RefPath p ref) (commit +:+ nl) 420.

(** One file of [WriteSnapshot]'s loop. *)
Definition link_file (p : Paths) (snapDir : string) (f : FileManifest) : M osst unit :=
  if negb (SafeRelPath (mf_Path f)) || negb (SafeBlobName (mf_BlobName f))
  then m_fail (errorf "unsafe manifest path or blob name")
  else
    let linkPath := fjoin [snapDir; mf_Path f] in
    m_wrap "create" (os_mkdir_all (fdir linkPath) 493) ;;
    let blobPath := BlobPath p (mf_BlobName f) in
    m_wrap "blob missing" (os_stat blobPath) ;;
    rel ← m_lift (frel (fdir linkPath) blobPath);
    existing ← m_try (os_readlink linkPath);
    let symlink := m_wrap "symlink" (os_symlink rel linkPath) in
    match existing with
    | Ok existing =>
        if decide (existing = rel) then mret tt
        else m_wrap "replace stale link" (os_remove linkPath) ;; symlink
    | Err _ =>
        st ← m_try (os_lstat linkPath);
        match st with
        | Ok _ => m_wrap "replace stale" (os_remove linkPath) ;; symlink
        | Err _ => symlink
        end
    end.

(** ** Atomic writes *)
(** Random suffixes hold no separator (they are decimal digits). *)
Definition rand_ok (s : osst) : Prop := Forall (λ x, contains_char ch_slash x = false) (os_rand s).

(** The names [os.CreateTemp] may give the temporary file beside [d ++ [w]]. *)
Definition temp_of (d : fpath) (w : string) (q : fpath) : Prop :=
  ∃ x, q = d ++ [w +:+ ".tmp-" +:+ x].

Lemma temp_ne d w q : temp_of d w q → q ≠ d ++ [w].
Proof.
  intros [x ->] E. apply app_inv_head_iff in E. injection E as E.
  apply (f_equal String.length) in E. rewrite slength_app in E. simpl in E. lia.
Qed.

Lemma os_close_fs s : os_fs (os_close s).2 = os_fs s ∧ os_clock (os_close s).2 = os_clock s.
Proof. unfold os_close. by destruct (os_tick_cases s) as [[_ ->]|[_ ->]]. Qed.

Lemma cleanup_fail {A} name e s (r : result A) s' :
  (cleanup name ;; m_fail e) s = (r, s') →
  r = Err e ∧ (os_fs s' = os_fs s ∨ os_fs s' = delete (abs_segs name) (os_fs s)).
Proof.
  unfold cleanup. rewrite bind_assoc, bind_ignore_run.
  destruct (os_remove name (os_close s).2) as [r1 s1] eqn:E.
  intros H. assert (r = Err e ∧ s' = s1) as [-> ->].
  { unfold mbind, M_bind, m_ignore, m_fail in H. rewrite E in H. by injection H as <- <-. }
  split; [done|]. apply os_remove_cases in E. by rewrite (proj1 (os_close_fs s)) in E.
Qed.

Lemma create_temp_spec d w s r s' :
  Forall seg_ok (d ++ [w]) → rand_ok s →
  os_create_temp (fdir (render_abs (d ++ [w]))) (fbase (render_abs (d ++ [w])) +:+ ".tmp-") s = (r, s') →
  os_clock s' = os_clock s ∧
  match r with
  | Ok name => temp_of d w (abs_segs name) ∧ os_fs s !! abs_segs name = None ∧
      os_fs s' = <[abs_segs name := FFile (mk_regular "" 384 (os_clock s))]> (os_fs s)
  | Err _ => os_fs s' = os_fs s
  end.
Proof.
  intros Hok Hr. rewrite fdir_render, fbase_render by done. unfold os_create_temp.
  unfold mbind at 1, M_bind at 1, m_gets at 1. intros [H ->]%temp_loop_spec. split; [done|].
  destruct r as [name|]; [|done]. destruct H as (x & Hx & -> & Hn & _ & ->).
  assert (contains_char ch_slash x = false) as Hxs.
  { unfold rand_ok in Hr. destruct (os_rand s); [|by rewrite Forall_forall in Hr; apply Hr].
    by apply list_elem_of_singleton in Hx as ->. }
  split; [|split; [|done]].
  - exists x. rewrite !sapp_assoc. apply Forall_app in Hok as [Hd [Hw _]%Forall_cons_1].
    rewrite abs_segs_render_slash; [done..|]. apply seg_ok_app; [done|].
    by rewrite contains_char_app, Hxs.
  - by apply fs_get_none in Hn as [Hn _].
Qed.

(** How a tree may differ after a failed atomic write: a leftover temporary. *)
Definition leftover (d : fpath) (w : string) (fs fs' : gmap fpath fnode) : Prop :=
  fs' = fs ∨ ∃ tmp n, temp_of d w tmp ∧ fs !! tmp = None ∧ fs' = <[tmp := n]> fs.

Lemma leftover_clean d w fs tmp n fs' :
  temp_of d w tmp → fs !! tmp = None →
  fs' = <[tmp := n]> fs ∨ fs' = delete tmp (<[tmp := n]> fs) → leftover d w fs fs'.
Proof.
  intros Ht Hn [->| ->]; [right; eauto|left]. by apply delete_insert_id.
Qed.

(** Whatever fails and whenever, [writeAtomic] either leaves the target holding
    exactly the new bytes, or does not touch it and leaves at most its
    temporary file behind. *)
Lemma writeAtomic_cases d w data mode s r s' :
  Forall seg_ok (d ++ [w]) → rand_ok s →
  writeAtomic (render_abs (d ++ [w])) data mode s = (r, s') →
  match r with
  | Ok _ => os_fs s' = <[d ++ [w] := FFile (mk_regular data mode (os_clock s))]> (os_fs s)
  | Err _ => leftover d w (os_fs s) (os_fs s')
  end.
Proof.
  intros Hok Hr. unfold writeAtomic. unfold mbind at 1, M_bind at 1.
  destruct (os_create_temp _ _ s) as [[name|e] s1] eqn:E1;
    destruct (create_temp_spec _ _ _ _ _ Hok Hr E1) as [Hc1 E1']; clear E1; rename E1' into E1; cycle 1.
  { intros [= <- <-]. by left. }
  destruct E1 as (Ht & Hn & E1). set (tmp := abs_segs name) in *.
  assert (tmp ≠ []) as Htne by (destruct Ht as [x ->]; by destruct d).
  assert (∀ n (fs : gmap fpath fnode), fs = <[tmp := n]> (os_fs s) → fs_get fs tmp = Some n) as Hget.
  { intros n fs ->. by rewrite fs_get_lookup, lookup_insert_eq. }
  destruct (os_append name data s1) as [r2 s2] eqn:E2.
  rewrite (bind_try_run _ _ _ _ _ E2).
  eapply os_append_at in E2; [|by apply Hget]. destruct E2 as (E2 & Hc2 & _).
  rewrite E1 in E2. destruct r2 as [[]|e]; cycle 1.
  { intros H. destruct (cleanup_fail _ _ _ _ _ H) as [-> E3]. rewrite E2 in E3.
    by eapply leftover_clean. }
  rewrite insert_insert_eq in E2.
  destruct (os_chmod name mode s2) as [r3 s3] eqn:E3.
  rewrite (bind_try_run _ _ _ _ _ E3).
  eapply os_chmod_at in E3; [|by apply Hget]. destruct E3 as (E3 & Hc3 & _).
  rewrite E2 in E3. destruct r3 as [[]|e]; cycle 1.
  { intros H. destruct (cleanup_fail _ _ _ _ _ H) as [-> E4]. rewrite E3 in E4.
    by eapply leftover_clean. }
  rewrite insert_insert_eq in E3. simpl in E3.
  pose proof (os_close_fs s3) as [Hcl Hc4]. destruct (os_close s3) as [r4 s4] eqn:E4.
  rewrite (bind_try_run _ _ _ _ _ E4). simpl in Hcl, Hc4. rewrite E3 in Hcl.
  destruct r4 as [[]|e]; cycle 1.
  { rewrite bind_ignore_run. destruct (os_remove name s4) as [r5 s5] eqn:E5.
    apply os_remove_cases in E5. rewrite Hcl in E5. intros [= <- <-]. by eapply leftover_clean. }
  intros [(-> & H & _)|(e & -> & ->)]%os_update_cases; cycle 1.
  { rewrite ticked_fs, Hcl. by eapply leftover_clean; [..|by left]. }
  rewrite ticked_fs, Hcl in H. apply fs_rename_ok in H as (n & Hg & _ & _ & ->).
  fold tmp in Hg. rewrite (Hget _ _ eq_refl) in Hg. injection Hg as <-.
  rewrite abs_segs_render by done. fold tmp.
  rewrite delete_insert_id by done. by rewrite Hc1.
Qed.

Lemma leftover_lookup d w fs fs' q n :
  leftover d w fs fs' → fs !! q = Some n → fs' !! q = Some n.
Proof.
  intros [->|(tmp & m & Ht & Hn & ->)] Hq; [done|]. rewrite lookup_insert_ne; [done|congruence].
Qed.
Lemma leftover_target d w fs fs' : leftover d w fs fs' → fs' !! (d ++ [w]) = fs !! (d ++ [w]).
Proof.
  intros [->|(tmp & m & Ht & Hn & ->)]; [done|]. apply lookup_insert_ne. by eapply temp_ne.
Qed.
Lemma leftover_frame d w (P : fpath → Prop) fs fs' :
  (∀ q, temp_of d w q → P q) → leftover d w fs fs' → fs_frame P fs fs'.
Proof.
  intros HP [->|(tmp & m & Ht & Hn & ->)]; [reflexivity|]. apply fs_frame_insert. auto.
Qed.


(** Composing atomic writes with other calls: the frame holds from any state
    whose random suffixes are well formed, and leaves such a state. *)
Definition safe_frame (P : fpath → Prop) (s s' : osst) : Prop := rand_ok s → os_frame P s s'.
Lemma rand_ok_suffix s s' : os_rand s' `suffix_of` os_rand s → rand_ok s → rand_ok s'.
Proof. intros [l Hl]. unfold rand_ok. rewrite Hl, Forall_app. tauto. Qed.
#[export] Instance safe_frame_preorder P : PreOrder (safe_frame P).
Proof.
  split; [by intros s _|]. intros a b c Hab Hbc Ha. specialize (Hab Ha).
  etrans; [exact Hab|]. apply Hbc. destruct Hab as [_ Hs]. by eapply rand_ok_suffix.
Qed.
Lemma pres_safe (P : fpath → Prop) {A} (m : M osst A) : pres (os_frame P) m → pres (safe_frame P) m.
Proof. intros H s _. apply H. Qed.
Lemma pres_safe_mono {A} (P Q : fpath → Prop) (m : M osst A) :
  (∀ q, P q → Q q) → pres (safe_frame P) m → pres (safe_frame Q) m.
Proof. intros H Hm s Hs. destruct (Hm s Hs). split; [by eapply fs_frame_mono|done]. Qed.
#[export] Hint Extern 1 (pres (safe_frame _) (os_stat _)) => apply pres_safe, pres_os_query : pres.
#[export] Hint Extern 1 (pres (safe_frame _) (os_lstat _)) => apply pres_safe, pres_os_query : pres.
#[export] Hint Extern 1 (pres (safe_frame _) (os_read_file _)) => apply pres_safe, pres_os_query : pres.
#[export] Hint Extern 1 (pres (safe_frame _) (os_readlink _)) => apply pres_safe, pres_os_query : pres.
#[export] Hint Extern 1 (pres (safe_frame _) (os_read_dir _)) => apply pres_safe, pres_os_query : pres.
#[export] Hint Extern 1 (pres (safe_frame _) (os_mkdir_all _ _)) => apply pres_safe, pres_mkdir_all : pres.

Lemma pres_writeAtomic (P : fpath → Prop) d w data mode :
  Forall seg_ok (d ++ [w]) → P (d ++ [w]) → (∀ q, temp_of d w q → P q) →
  pres (safe_frame P) (writeAtomic (render_abs (d ++ [w])) data mode).
Proof.
  intros Hok HP Ht s Hr. split.
  - destruct (writeAtomic _ _ _ s) as [r s'] eqn:E. apply writeAtomic_cases in E; [|done..]. simpl.
    destruct r; [rewrite E; by apply fs_frame_insert|by eapply leftover_frame].
  - assert (pres os_any (writeAtomic (render_abs (d ++ [w])) data mode)) as Hp.
    { unfold writeAtomic, cleanup. pres_auto. }
    apply (Hp s).
Qed.

(** ** Where the parts of a repository's cache lie *)
Lemma DirPrefix_ok t : seg_ok (DirPrefix t).
Proof. unfold DirPrefix. by repeat case_decide. Qed.
Lemma RepoDirName_ok id t : seg_ok (RepoDirName id t).
Proof. apply seg_ok_app; [apply DirPrefix_ok|]. by apply (replace_char_gone ch_slash). Qed.

(** [cache_at p base]: the cache of [p] is the directory [base]. *)
Record cache_at (p : Paths) (base : fpath) : Prop := {
  ca_ok : Forall seg_ok base;
  ca_ne : base ≠ [];
  ca_repo : RepoDir p = render_abs base;
  ca_blobs : Blobs p = render_abs (base ++ ["blobs"]);
  ca_snapshots : Snapshots p = render_abs (base ++ ["snapshots"]);
  ca_refs : Refs p = render_abs (base ++ ["refs"]);
  ca_trees : Trees p = render_abs (base ++ ["trees"])
}.
Lemma NewPaths_at hub id t :
  is_abs hub = true → cache_at (NewPaths hub id t) (abs_segs hub ++ [RepoDirName id t]).
Proof.
  intros Hh. pose proof (RepoDirName_ok id t) as Hn.
  assert (Forall seg_ok (abs_segs hub ++ [RepoDirName id t])) as Hok.
  { apply Forall_app. split; [apply abs_segs_ok|constructor; [done|constructor]]. }
  split; [done|by destruct (abs_segs hub)| |..]; unfold NewPaths; cbn [RepoDir Blobs Snapshots Refs Trees];
    rewrite ?(fjoin2_render_seg hub) by done; [done|..];
    rewrite fjoin2_render_seg by (apply is_abs_render || done);
    by rewrite abs_segs_render.
Qed.

Lemma Forall_snoc_ok base w : Forall seg_ok base → seg_ok w → Forall seg_ok (base ++ [w]).
Proof. intros. apply Forall_app. split; [done|constructor; [done|constructor]]. Qed.

Lemma join_part base part w :
  Forall seg_ok base → seg_ok part → seg_ok w →
  fjoin [render_abs (base ++ [part]); w] = render_abs (base ++ [part; w]).
Proof.
  intros Hb Hp Hw. rewrite fjoin2_render_seg by (apply is_abs_render || done).
  rewrite abs_segs_render by by apply Forall_snoc_ok. by rewrite <- app_assoc.
Qed.

(** ** Safe names *)
Lemma SafeBlobName_spec name :
  SafeBlobName name = true ↔ seg_ok name ∧ contains_char ch_backslash name = false.
Proof.
  unfold SafeBlobName, seg_ok. case_decide as Hd; [split; [done|tauto]|].
  rewrite contains_any2. destruct (contains_char ch_slash name), (contains_char ch_backslash name);
    simpl; naive_solver.
Qed.
Lemma SafeRelPath_spec p :
  SafeRelPath p = true ↔
  Forall seg_ok (split_on ch_slash p) ∧ contains_char ch_backslash p = false.
Proof.
  unfold SafeRelPath. pose proof (split_on_pieces ch_slash p) as Hs. split.
  - case_decide as Hd; [done|]. rewrite forallb_forall. intros H.
    split; [|destruct (contains_char _ _); [tauto|done]]. rewrite Forall_forall in *. intros w Hw.
    specialize (H w). rewrite <- list_elem_of_In in H. apply H in Hw as Hw'.
    apply negb_true_iff, bool_decide_eq_false in Hw'.
    split_and!; [tauto..|by apply Hs].
  - intros [Hok Hb]. rewrite decide_False.
    + apply forallb_forall. intros w Hw%list_elem_of_In. rewrite Forall_forall in Hok.
      destruct (Hok w Hw) as (?&?&?&_). apply negb_true_iff, bool_decide_eq_false. tauto.
    + intros [->|[Hp|?]]; [|apply has_prefix_spec in Hp as [t ->]|congruence].
      * inversion Hok as [|?? (?&_)]; done.
      * inversion Hok as [|?? (?&_)]; done.
Qed.

(** ** The sort *)
Section sorting.
Context {A : Type} (lt : A → A → bool).

(** Inserting into a prefix kept in reverse. *)
Fixpoint rins (x : A) (rp : list A) : list A :=
  match rp with
  | [] => [x]
  | y :: rp' => if lt x y then y :: rins x rp' else x :: y :: rp'
  end.

Lemma sift_app pre x post :
  sift lt (length pre) (pre ++ x :: post) = reverse (rins x (reverse pre)) ++ post.
Proof.
  revert x post. induction pre as [|y pre IH] using rev_ind; intros x post; [done|].
  rewrite length_app, Nat.add_comm. cbn [length Nat.add sift].
  rewrite reverse_snoc. cbn [rins].
  assert ((pre ++ [y]) ++ x :: post = pre ++ y :: x :: post) as -> by by rewrite <- app_assoc.
  assert ((pre ++ y :: x :: post) !! S (length pre) = Some x) as ->.
  { rewrite lookup_app_r by lia. by replace (S (length pre) - length pre) with 1 by lia. }
  rewrite list_lookup_middle by done. destruct (lt x y).
  - assert (<[S (length pre):=y]> (<[length pre:=x]> (pre ++ y :: x :: post)) = pre ++ x :: y :: post) as ->.
    { rewrite insert_app_r_alt by lia. rewrite insert_app_r_alt by lia.
      rewrite Nat.sub_diag. by replace (S (length pre) - length pre) with 1 by lia. }
    rewrite IH, reverse_cons, <- app_assoc. done.
  - rewrite !reverse_cons, reverse_involutive, <- !app_assoc. done.
Qed.

Lemma insertion_sort_rins l : insertion_sort lt l = reverse (foldl (λ rp x, rins x rp) [] l).
Proof.
  unfold insertion_sort. destruct l as [|x l]; [done|]. simpl. rewrite Nat.sub_0_r.
  assert (∀ post pre, foldl (λ s i, sift lt i s) (pre ++ post) (seq (length pre) (length post))
    = reverse (foldl (λ rp x, rins x rp) (reverse pre) post)) as H.
  { induction post as [|y post IH]; intros pre; simpl.
    - by rewrite app_nil_r, reverse_involutive.
    - rewrite sift_app. specialize (IH (reverse (rins y (reverse pre)))).
      rewrite reverse_involutive in IH. rewrite <- IH. f_equal. f_equal.
      rewrite length_reverse. clear. generalize (reverse pre) as rp, (length_reverse pre).
      intros rp <-. induction rp as [|z rp IHr]; simpl; [done|]. destruct (lt y z); simpl; [|done].
      by rewrite <- IHr. }
  apply (H l [x]).
Qed.

Lemma rins_perm x rp : rins x rp ≡ₚ x :: rp.
Proof.
  induction rp as [|y rp IH]; [done|]. simpl. destruct (lt x y); [|done].
  rewrite IH. constructor.
Qed.
Lemma insertion_sort_perm l : insertion_sort lt l ≡ₚ l.
Proof.
  rewrite insertion_sort_rins, reverse_Permutation.
  assert (∀ l rp, foldl (λ rp x, rins x rp) rp l ≡ₚ l ++ rp) as H.
  { clear. induction l as [|x l IH]; intros rp; [done|]. simpl. rewrite IH, rins_perm.
    by rewrite <- Permutation_middle. }
  by rewrite H, app_nil_r.
Qed.

(** Elements in order: none is less than one before it. *)
Definition in_order (a b : A) : Prop := lt b a = false.
Context (lt_asym : ∀ x y, lt x y = true → lt y x = false).

Lemma rins_sorted x rp : Sorted (flip in_order) rp → Sorted (flip in_order) (rins x rp).
Proof.
  induction 1 as [|y rp Hs IH Hd]; [by repeat constructor|]. simpl.
  destruct (lt x y) eqn:E.
  - constructor; [done|]. destruct rp as [|z rp]; simpl.
    + constructor. unfold flip, in_order. by apply lt_asym.
    + destruct (lt x z); constructor; [by inversion Hd|]. unfold flip, in_order. by apply lt_asym.
  - constructor; [by constructor|]. constructor. done.
Qed.
Lemma Sorted_reverse {B} (R : B → B → Prop) l : Sorted (flip R) l → Sorted R (reverse l).
Proof.
  assert (∀ k (x : B), Sorted R k → (∀ y, last k = Some y → R y x) → Sorted R (k ++ [x])) as Hsnoc.
  { induction 1 as [|y k Hs IH Hd]; intros Hl; [by repeat constructor|]. simpl. constructor.
    - apply IH. intros z Hz. apply Hl. destruct k; [done|]. exact Hz.
    - destruct k; simpl; constructor; [by apply Hl|]. by inversion Hd. }
  induction 1 as [|x l Hs IH Hd]; [constructor|]. rewrite reverse_cons. apply Hsnoc; [done|].
  intros y Hy. destruct Hd as [|z l' Hz]; [done|]. rewrite reverse_cons, last_snoc in Hy. by injection Hy as <-.
Qed.
Lemma insertion_sort_sorted l : Sorted in_order (insertion_sort lt l).
Proof.
  rewrite insertion_sort_rins. apply Sorted_reverse.
  assert (∀ rp, Sorted (flip in_order) rp → Sorted (flip in_order) (foldl (λ rp x, rins x rp) rp l)) as H.
  { induction l as [|x l IH]; intros rp Hrp; [done|]. apply IH. by apply rins_sorted. }
  apply H. constructor.
Qed.
End sorting.

Lemma str_lt_asym a b : str_lt a b = true → str_lt b a = false.
Proof.
  unfold str_lt. rewrite bool_decide_eq_true, bool_decide_eq_false.
  destruct (string_le_total a b); tauto.
Qed.
Lemma str_lt_le a b : str_lt b a = false → String.le a b.
Proof. unfold str_lt. rewrite bool_decide_eq_false. apply dec_stable. Qed.

Lemma Sorted_mono {A} (R Q : A → A → Prop) l : (∀ a b, R a b → Q a b) → Sorted R l → Sorted Q l.
Proof.
  intros H. induction 1 as [|x l Hs IH Hd]; constructor; [done|]. destruct Hd; constructor. auto.
Qed.
Lemma sortManifests_sorted l :
  Sorted (λ a b, String.le (mf_Path a) (mf_Path b)) (sortManifests l).
Proof.
  eapply Sorted_mono; [|apply insertion_sort_sorted; intros; by apply str_lt_asym].
  intros a b. apply str_lt_le.
Qed.
Lemma sortStrings_sorted l : Sorted String.le (sortStrings l).
Proof.
  eapply Sorted_mono; [|apply insertion_sort_sorted; intros; by apply str_lt_asym].
  intros a b. apply str_lt_le.
Qed.

(** [sortManifests] and [sortStrings] return the same elements in order of
    path, respectively in order. *)
Theorem sort_spec :
  (∀ l, sortManifests l ≡ₚ l ∧ Sorted (λ a b, String.le (mf_Path a) (mf_Path b)) (sortManifests l)) ∧
  (∀ l, sortStrings l ≡ₚ l ∧ Sorted String.le (sortStrings l)).
Proof.
  split; intros l; (split; [apply insertion_sort_perm|]);
    [apply sortManifests_sorted|apply sortStrings_sorted].
Qed.

(** ** Theorems on names *)
(** A repository id in which every dash is followed by neither a dash nor a
    slash is recovered, with its type, from the cache directory named after it. *)
Theorem repo_dir_roundtrip id t :
  t ∈ [Model; Dataset; Space] → dash_ok id = true →
  RepoFromDirName (RepoDirName id t) = (id, t, true).
Proof.
  intros Ht Hid. unfold RepoFromDirName, RepoDirName. set (body := replace_all id "/" "--").
  assert (filter (λ t', has_prefix (DirPrefix t +:+ body) (DirPrefix t')) [Model; Dataset; Space] = [t]) as ->.
  { repeat (apply elem_of_cons in Ht as [->|Ht]; [reflexivity|]). by apply not_elem_of_nil in Ht. }
  subst body. by rewrite trim_prefix_app, (replace_dashes id Hid).
Qed.

Lemma repo_dir_roundtrip_witness :
  RepoFromDirName (RepoDirName "openai-community/gpt2" Dataset) = ("openai-community/gpt2", Dataset, true).
Proof. apply repo_dir_roundtrip; [apply list_elem_of_further, list_elem_of_here|reflexivity]. Defined.

(** C20. The safety checks are exact: a blob name free of backslashes passes if
    and only if joining it to the blob directory gives a direct child of that
    name, and a path that passes names a file below its snapshot directory,
    one directory per segment. *)
Theorem safe_names_confine hub id t commit :
  is_abs hub = true → seg_ok commit →
  let p := NewPaths hub id t in
  let base := abs_segs hub ++ [RepoDirName id t] in
  (∀ b, contains_char ch_backslash b = false →
     SafeBlobName b = true ↔ abs_segs (BlobPath p b) = base ++ ["blobs"; b]) ∧
  (∀ f, SafeRelPath f = true →
     Forall seg_ok (split_on ch_slash f) ∧
     abs_segs (fjoin [SnapshotDir p commit; f]) = base ++ ["snapshots"; commit] ++ split_on ch_slash f).
Proof.
  intros Hh Hc. pose proof (NewPaths_at hub id t Hh) as Hp.
  set (p := NewPaths hub id t) in *. set (base := abs_segs hub ++ [RepoDirName id t]) in *.
  cbv zeta. pose proof (ca_ok _ _ Hp) as Hb. split.
  - intros b Hbs. rewrite SafeBlobName_spec. unfold BlobPath. rewrite (ca_blobs _ _ Hp). split.
    + intros [Hok _]. rewrite join_part by done.
      apply abs_segs_render. by apply Forall_app; split; [|repeat (constructor; [done|])].
    + intros E. split; [|done]. pose proof (abs_segs_ok (fjoin [render_abs (base ++ ["blobs"]); b])) as H.
      rewrite E in H. apply Forall_app in H as [_ H]. by apply Forall_cons_1 in H as [_ [H' _]%Forall_cons_1].
  - intros f [Hok _]%SafeRelPath_spec. split; [done|]. unfold SnapshotDir.
    rewrite (ca_snapshots _ _ Hp), join_part by done.
    rewrite abs_segs_fjoin_ok by (apply is_abs_render || done).
    rewrite abs_segs_render by (apply Forall_app; split; [done|repeat (constructor; [done|]); constructor]).
    by rewrite <- app_assoc.
Qed.

Lemma safe_names_confine_witness :
  abs_segs (BlobPath (NewPaths "/hub" "org/m" Model) "abc") = ["hub"; "models--org--m"; "blobs"; "abc"] ∧
  abs_segs (fjoin [SnapshotDir (NewPaths "/hub" "org/m" Model) "c1"; "sub/f.bin"])
  = ["hub"; "models--org--m"; "snapshots"; "c1"; "sub"; "f.bin"].
Proof.
  destruct (safe_names_confine "/hub" "org/m" Model "c1") as [Hb Hf];
    [reflexivity|by split_and!|]. split.
  - by apply (proj1 (Hb "abc" eq_refl)).
  - by apply (Hf "sub/f.bin").
Defined.

(** ** References *)
Lemma ref_path_at p base ref :
  cache_at p base → seg_ok ref → RefPath p ref = render_abs (base ++ ["refs"; ref]).
Proof.
  intros Hp Hr. unfold RefPath. rewrite (ca_refs _ _ Hp). apply join_part; [apply Hp|done..].
Qed.
Lemma part_ok p base part w :
  cache_at p base → seg_ok part → seg_ok w → Forall seg_ok ((base ++ [part]) ++ [w]).
Proof. intros Hp ? ?. apply Forall_snoc_ok; [apply Forall_snoc_ok; [apply Hp|done]|done]. Qed.

Lemma CurrentCommit_read p ref s commit :
  ref ≠ "" → is_Some (hex_decode commit) → String.length commit = 40 →
  fs_read_file (os_fs s) (RefPath p ref) = Ok (commit +:+ nl) →
  CurrentCommit p ref (nofault s) = (Ok commit, nofault s).
Proof.
  intros Hr [raw Hhex] Hl Hread. unfold CurrentCommit. rewrite decide_False by done.
  unfold os_read_file. unfold mbind, M_bind. rewrite os_query_nofault by done.
  simpl os_fs. rewrite Hread. rewrite trim_space_line; [|by eapply hex_no_space|by intros ->].
  rewrite Hl. simpl. by rewrite Hhex.
Qed.

Lemma WriteRef_run p base ref commit s r s' :
  cache_at p base → seg_ok ref → rand_ok s →
  is_Some (hex_decode commit) → String.length commit = 40 →
  WriteRef p ref commit s = (r, s') →
  match r with
  | Ok _ => CurrentCommit p ref (nofault s') = (Ok commit, nofault s')
  | Err _ => os_fs s' !! abs_segs (RefPath p ref) = os_fs s !! abs_segs (RefPath p ref)
  end ∧
  (∀ q n, q ≠ abs_segs (RefPath p ref) → os_fs s !! q = Some n → os_fs s' !! q = Some n).
Proof.
  intros Hp Href Hrand Hhex Hl.
  pose proof (part_ok p base "refs" ref Hp ltac:(by split_and!) Href) as Hok.
  rewrite (ref_path_at p base ref Hp Href).
  replace (base ++ ["refs"; ref]) with ((base ++ ["refs"]) ++ [ref]) in * by by rewrite <- app_assoc.
  rewrite abs_segs_render by done. unfold WriteRef. rewrite (ref_path_at p base ref Hp Href).
  replace (base ++ ["refs"; ref]) with ((base ++ ["refs"]) ++ [ref]) by by rewrite <- app_assoc.
  pose proof (mkdir_all_at (Refs p) 493 ((base ++ ["refs"]) ++ [ref])) as Hat.
  rewrite (ca_refs _ _ Hp) in Hat. rewrite abs_segs_render in Hat by (by apply Forall_app in Hok as [Hok _]).
  assert ((base ++ ["refs"]) ++ [ref] ∉ prefixes (base ++ ["refs"])) as Hnot.
  { intros Hin%prefixes_prefix%prefix_length. rewrite !length_app in Hin. simpl in Hin. lia. }
  specialize (Hat Hnot s). rewrite <- (ca_refs _ _ Hp) in Hat.
  pose proof (λ q n, mkdir_all_keeps (Refs p) 493 s q n) as Hkeep.
  pose proof (pres_mkdir_all (λ _, True) (Refs p) 493 s) as [_ Hsuf].
  unfold mbind, M_bind. destruct (os_mkdir_all (Refs p) 493 s) as [[[]|e] s1]; simpl in *;
    [|intros [= <- <-]; split; auto].
  intros H. apply writeAtomic_cases in H; [|done|by eapply rand_ok_suffix].
  destruct r as [[]|e]; split.
  - apply CurrentCommit_read; [by destruct Href|done|done|].
    rewrite (ref_path_at p base ref Hp Href).
    replace (base ++ ["refs"; ref]) with ((base ++ ["refs"]) ++ [ref]) by by rewrite <- app_assoc.
    rewrite (fs_read_file_at _ _ (mk_regular (commit +:+ nl) 420 (os_clock s1))); [done|].
    rewrite abs_segs_render by done. rewrite fs_get_lookup by by destruct base.
    by rewrite H, lookup_insert_eq.
  - intros q n Hq Hn. rewrite H, lookup_insert_ne by done. by apply Hkeep.
  - by rewrite (leftover_target _ _ _ _ H).
  - intros q n Hq Hn. eapply leftover_lookup; [done|]. by apply Hkeep.
Qed.

(** Publishing a commit under a reference is atomic: for any schedule of
    failures (a crash at any point included), a successful [WriteRef] makes
    [CurrentCommit] return the commit, a failed one leaves the reference file
    exactly as it was, and no other file that existed changes. *)
Theorem WriteRef_atomic hub id t ref commit s r s' :
  is_abs hub = true → seg_ok ref → rand_ok s →
  is_Some (hex_decode commit) → String.length commit = 40 →
  let p := NewPaths hub id t in
  WriteRef p ref commit s = (r, s') →
  match r with
  | Ok _ => CurrentCommit p ref (nofault s') = (Ok commit, nofault s')
  | Err _ => os_fs s' !! abs_segs (RefPath p ref) = os_fs s !! abs_segs (RefPath p ref)
  end ∧
  (∀ q n, q ≠ abs_segs (RefPath p ref) → os_fs s !! q = Some n → os_fs s' !! q = Some n).
Proof. intros. eapply WriteRef_run; [by apply NewPaths_at|done..]. Qed.

Lemma WriteRef_atomic_witness :
  let p := NewPaths "/hub" "org/m" Model in
  let s := mk_osst {[ ["hub"] := FDir 493 ]} [] ["17"] 0 in
  let c := "0123456789abcdef0123456789abcdef01234567" in
  ∃ s', WriteRef p "main" c s = (Ok tt, s') ∧ CurrentCommit p "main" (nofault s') = (Ok c, nofault s').
Proof.
  intros p s c. destruct (WriteRef p "main" c s) as [r s'] eqn:E. exists s'.
  assert (r = Ok tt) as ->.
  { transitivity (fst (WriteRef p "main" c s)); [by rewrite E|vm_compute; reflexivity]. }
  split; [done|]. apply (WriteRef_atomic "/hub" "org/m" Model "main" c s (Ok tt) s');
    [reflexivity|by split_and!|by repeat constructor|by eexists|reflexivity|exact E].
Defined.
