(* ===== verification/Tree.v ===== *)
(** * internal/hfcache/tree.go, and [WriteSnapshot] of cache.go.

    [trees/<commit>.json] records per-file metadata in the shape the [hf] CLI
    writes.  A Go map is a [gmap]; its JSON has the keys in order. *)
From S2P Require Import Prelude GoStrings GoPath GoFS Json Mapping Hfcache.

Definition TreeFormatVersion : Z := 1.

Record TreeFile := mk_TreeFile {
  tf_Size : Z; tf_BlobID : string; tf_LFSSHA256 : string; tf_LFSSize : Z; tf_XetHash : string
}.
Record Tree := mk_Tree { tr_FormatVersion : Z; tr_Files : gmap string TreeFile }.
#[export] Instance TreeFile_eq_dec : EqDecision TreeFile.
Proof. solve_decision. Defined.
#[export] Instance Tree_eq_dec : EqDecision Tree.
Proof. solve_decision. Defined.

Definition zero_TreeFile : TreeFile := mk_TreeFile 0 "" "" 0 "".
Definition TreeFile_json (x : TreeFile) : json :=
  JObj ([("size", JInt (tf_Size x)); ("blob_id", JStr (tf_BlobID x))]
        ++ omit_str "lfs_sha256" (tf_LFSSHA256 x) ++ omit_int "lfs_size" (tf_LFSSize x)
        ++ omit_str "xet_hash" (tf_XetHash x)).
Definition TreeFile_fields : list (field TreeFile) := [
  mk_field "size" dec_int64 tf_Size (λ v '(mk_TreeFile _ b c d e), mk_TreeFile v b c d e);
  mk_field "blob_id" dec_string tf_BlobID (λ v '(mk_TreeFile a _ c d e), mk_TreeFile a v c d e);
  mk_field "lfs_sha256" dec_string tf_LFSSHA256 (λ v '(mk_TreeFile a b _ d e), mk_TreeFile a b v d e);
  mk_field "lfs_size" dec_int64 tf_LFSSize (λ v '(mk_TreeFile a b c _ e), mk_TreeFile a b c v e);
  mk_field "xet_hash" dec_string tf_XetHash (λ v '(mk_TreeFile a b c d _), mk_TreeFile a b c d v)
].
Definition dec_TreeFile : json → TreeFile → result TreeFile := dec_struct TreeFile_fields.

(** A JSON object read into a Go map: each value from scratch, last key wins;
    [null] makes the map nil. *)
Fixpoint dec_entries {A} (dec : json → A → result A) (zero : A) (l : list (string * json))
    (m : gmap string A) : result (gmap string A) :=
  match l with
  | [] => Ok m
  | (k, j) :: l' => a ← dec j zero; dec_entries dec zero l' (<[k := a]> m)
  end.
Definition dec_map {A} (dec : json → A → result A) (zero : A) (j : json) (m : gmap string A) :
    result (gmap string A) :=
  match j with
  | JObj l => dec_entries dec zero l m
  | JNull => Ok ∅
  | _ => type_error
  end.

Definition key_le {A} (a b : string * A) : Prop := String.le (a.1) (b.1).
#[export] Instance key_le_dec {A} : RelDecision (@key_le A).
Proof. intros a b. unfold key_le. apply _. Defined.
Definition map_json {A} (enc : A → json) (m : gmap string A) : json :=
  JObj (map (λ kv, (kv.1, enc kv.2)) (merge_sort key_le (map_to_list m))).

Definition Tree_json (x : Tree) : json :=
  JObj [("format_version", JInt (tr_FormatVersion x)); ("files", map_json TreeFile_json (tr_Files x))].
Definition Tree_fields : list (field Tree) := [
  mk_field "format_version" dec_int64 tr_FormatVersion (λ v '(mk_Tree _ b), mk_Tree v b);
  mk_field "files" (dec_map dec_TreeFile zero_TreeFile) tr_Files (λ v '(mk_Tree a _), mk_Tree a v)
].
Definition dec_Tree : json → Tree → result Tree := dec_struct Tree_fields.

Definition TreePath (p : Paths) (commit : string) : string := fjoin [Trees p; commit +:+ ".json"].

Definition ReadTree (p : Paths) (commit : string) : M osst (option Tree) :=
  r ← m_try (os_read_file (TreePath p commit));
  match r with
  | Err e => if errors_is e SNotExist then mret None else m_fail (ErrWrap "read" e)
  | Ok data => t ← m_wrap "parse" (m_lift (unmarshal dec_Tree data (mk_Tree 0 ∅))); mret (Some t)
  end.

(** The record of one manifest file over what the tree already says of it. *)
Definition tree_file (prev : option TreeFile) (f : FileManifest) : TreeFile :=
  let nt := mk_TreeFile (mf_Size f) (mf_BlobName f) "" 0 "" in
  let nt := match prev with
            | Some prev => mk_TreeFile (tf_Size nt) (tf_BlobID nt) (tf_LFSSHA256 prev) (tf_LFSSize prev) (tf_XetHash prev)
            | None => nt
            end in
  let nt := if mf_LFS f
            then mk_TreeFile (tf_Size nt) (tf_BlobID nt) (mf_SHA256 f) (mf_Size f) (tf_XetHash nt)
            else nt in
  if decide (mf_XetHash f ≠ "")
  then mk_TreeFile (tf_Size nt) (tf_BlobID nt) (tf_LFSSHA256 nt) (tf_LFSSize nt) (mf_XetHash f)
  else nt.
Definition merge_tree (m : gmap string TreeFile) (files : list FileManifest) : gmap string TreeFile :=
  foldl (λ m f, <[mf_Path f := tree_file (m !! mf_Path f) f]> m) m files.

Definition WriteTree (p : Paths) (commit : string) (files : list FileManifest) : M osst unit :=
  m_wrap "create trees dir" (os_mkdir_all (Trees p) 493) ;;
  existing ← m_try (ReadTree p commit);
  let start := match existing with Ok (Some t) => tr_Files t | _ => ∅ end in
  let doc := mk_Tree TreeFormatVersion (merge_tree start files) in
  m_wrap "write" (writeAtomic (TreePath p commit) (print_indent (Tree_json doc)) 384).

Definition enrich (tree : Tree) (f : FileManifest) : FileManifest :=
  match tr_Files tree !! mf_Path f with
  | None => f
  | Some tf =>
      mk_FileManifest (mf_Path f) (mf_BlobName f) (mf_Size f) (mf_SHA256 f) (mf_Mode f) (mf_Mtime f)
        (if decide (tf_LFSSHA256 tf ≠ "" ∨ tf_XetHash tf ≠ "") then true else mf_LFS f)
        (if decide (tf_XetHash tf ≠ "") then tf_XetHash tf else mf_XetHash f)
        (mf_SrcPath f)
  end.
Definition EnrichFromTree (p : Paths) (commit : string) (files : list FileManifest) :
    M osst (list FileManifest) :=
  r ← m_try (ReadTree p commit);
  match r with
  | Ok (Some tree) => mret (map (enrich tree) files)
  | _ => mret files
  end.

Definition WriteSnapshot (p : Paths) (commit : string) (files : list FileManifest) (ref : string) :
    M osst unit :=
  let ref := if decide (ref = "") then "main" else ref in
  let snapDir := SnapshotDir p commit in
  m_wrap "create snapshot dir" (os_mkdir_all snapDir 493) ;;
  m_foreach (link_file p snapDir) files ;;
  WriteTree p commit files ;;
  WriteRef p ref commit.

(** ** The document is a round trip *)
Definition TreeFile_ok (x : TreeFile) : Prop := in_int64 (tf_Size x) ∧ in_int64 (tf_LFSSize x).

Lemma plain_TreeFile x : plain (TreeFile_json x).
Proof.
  apply plain_obj_app; [done|]. unfold omit_int, omit_str.
  repeat (apply plain_obj_app; [by apply plain_omit|]). by apply plain_omit.
Qed.
Lemma dec_TreeFile_json x : TreeFile_ok x → dec_TreeFile (TreeFile_json x) zero_TreeFile = Ok x.
Proof.
  destruct x as [a b c d e]. intros [Ha Hd]. unfold TreeFile_json.
  rewrite <- (app_nil_r (omit_str "xet_hash" _)). simpl in *.
  unfold dec_int64. rewrite decide_True by done. simpl. unfold omit_int, omit_str.
  dec_opt (mk_TreeFile a b c 0 ""). dec_opt (mk_TreeFile a b c d ""). dec_opt (mk_TreeFile a b c d e). done.
Qed.
Lemma dec_entries_json {A} (enc : A → json) dec zero (kvs : list (string * A)) m :
  Forall (λ kv, dec (enc kv.2) zero = Ok kv.2) kvs → NoDup kvs.*1 →
  dec_entries dec zero (map (λ kv, (kv.1, enc kv.2)) kvs) m = Ok (list_to_map kvs ∪ m).
Proof.
  intros H. revert m. induction H as [|[k v] kvs Hv _ IH]; intros m Hnd; simpl.
  - by rewrite (left_id_L ∅ (∪)).
  - simpl in Hv. rewrite Hv. simpl. apply NoDup_cons in Hnd as [Hk Hnd].
    rewrite IH by done. f_equal. rewrite <- insert_union_l, insert_union_r; [done|].
    by apply not_elem_of_list_to_map_1.
Qed.
Lemma sorted_entries {A} (m : gmap string A) : merge_sort key_le (map_to_list m) ≡ₚ map_to_list m.
Proof. apply merge_sort_Permutation. Qed.
Lemma dec_map_json {A} (enc : A → json) dec zero (m : gmap string A) :
  map_Forall (λ _ v, dec (enc v) zero = Ok v) m →
  dec_map dec zero (map_json enc m) ∅ = Ok m.
Proof.
  intros H. unfold map_json, dec_map. rewrite dec_entries_json.
  - rewrite (right_id_L ∅ (∪)). f_equal.
    rewrite (list_to_map_proper _ (map_to_list m)); [apply list_to_map_to_list| |apply sorted_entries].
    rewrite sorted_entries. apply NoDup_fst_map_to_list.
  - rewrite sorted_entries, Forall_forall. intros [k v] Hin%elem_of_map_to_list. by apply (H k).
  - rewrite sorted_entries. apply NoDup_fst_map_to_list.
Qed.
Definition Tree_ok (x : Tree) : Prop :=
  in_int64 (tr_FormatVersion x) ∧ map_Forall (λ _ f, TreeFile_ok f) (tr_Files x).
Lemma plain_Tree x : plain (Tree_json x).
Proof.
  split; [done|]. split; [|done]. simpl. induction (merge_sort _ _); simpl; [done|].
  split; [apply plain_TreeFile|done].
Qed.
Lemma dec_Tree_json x : Tree_ok x → dec_Tree (Tree_json x) (mk_Tree 0 ∅) = Ok x.
Proof.
  destruct x as [v m]. intros [Hv Hm]. unfold dec_Tree, Tree_json. simpl in *. unfold dec_int64.
  rewrite decide_True by done. simpl.
  change (dec_entries dec_TreeFile zero_TreeFile _ ∅) with
    (dec_map dec_TreeFile zero_TreeFile (map_json TreeFile_json m) ∅).
  rewrite dec_map_json; [done|]. intros k f Hf. by apply dec_TreeFile_json, (Hm k).
Qed.

(** A tree that was read has sizes within range. *)
Lemma dec_TreeFile_ok j x : dec_TreeFile j zero_TreeFile = Ok x → TreeFile_ok x.
Proof.
  unfold dec_TreeFile, dec_struct. destruct j; try done; [by intros [= <-]|].
  apply (dec_members_inv TreeFile_ok); [|done]. intros f j t t' Hf [H1 H2].
  unfold TreeFile_ok. destruct t as [a b c d e]. simpl in *.
  repeat (apply elem_of_cons in Hf as [->|Hf]); [..|by apply not_elem_of_nil in Hf]; simpl;
    match goal with |- (?d j ?o ≫= _) = _ → _ => destruct (d j o) as [v|] eqn:E; [|done] end;
    intros [= <-]; simpl; try done; apply dec_int_range in E; done.
Qed.
Lemma dec_entries_ok l m m' :
  map_Forall (λ _ f, TreeFile_ok f) m →
  dec_entries dec_TreeFile zero_TreeFile l m = Ok m' → map_Forall (λ _ f, TreeFile_ok f) m'.
Proof.
  revert m. induction l as [|[k j] l IH]; intros m Hm; simpl; [by intros [= <-]|].
  destruct (dec_TreeFile j zero_TreeFile) as [x|] eqn:E; [|done]. simpl. apply IH.
  apply map_Forall_insert_2; [by eapply dec_TreeFile_ok|done].
Qed.
Lemma unmarshal_Tree_ok data t :
  unmarshal dec_Tree data (mk_Tree 0 ∅) = Ok t → map_Forall (λ _ f, TreeFile_ok f) (tr_Files t).
Proof.
  unfold unmarshal. destruct (parse data) as [j|]; [|done]. unfold dec_Tree, dec_struct.
  assert (map_Forall (λ _ f, TreeFile_ok f) (∅ : gmap string TreeFile)) as H0 by apply map_Forall_empty.
  destruct j; try done; [by intros [= <-]|].
  apply (dec_members_inv (λ t, map_Forall (λ _ f, TreeFile_ok f) (tr_Files t))); [|done].
  intros f j t0 t' Hf Ht. destruct t0 as [v m]. simpl in *.
  repeat (apply elem_of_cons in Hf as [->|Hf]); [..|by apply not_elem_of_nil in Hf]; simpl.
  - destruct (dec_int64 j v); [|done]. by intros [= <-].
  - destruct (dec_map dec_TreeFile zero_TreeFile j m) as [m'|] eqn:E; [|done]. intros [= <-]. simpl.
    destruct j; try done; [by injection E as <-|]. by eapply dec_entries_ok.
Qed.

(** ** Merging *)
Lemma merge_tree_lookup q m files :
  merge_tree m files !! q =
  foldl (λ o f, if decide (mf_Path f = q) then Some (tree_file o f) else o) (m !! q) files.
Proof.
  unfold merge_tree. revert m. induction files as [|f files IH]; intros m; [done|]. simpl.
  rewrite IH. f_equal. case_decide as H; [subst; by rewrite lookup_insert_eq|by rewrite lookup_insert_ne].
Qed.
Lemma merge_tree_other q m files :
  q ∉ map mf_Path files → merge_tree m files !! q = m !! q.
Proof.
  intros Hq. rewrite merge_tree_lookup. revert Hq. generalize (m !! q).
  induction files as [|f files IH]; intros o Hq; [done|]. simpl in *.
  rewrite decide_False by set_solver. apply IH. set_solver.
Qed.
Lemma merge_tree_file f m files :
  NoDup (map mf_Path files) → f ∈ files →
  merge_tree m files !! mf_Path f = Some (tree_file (m !! mf_Path f) f).
Proof.
  revert m. induction files as [|g files IH]; intros m Hnd Hf; [set_solver|].
  simpl in Hnd. apply NoDup_cons in Hnd as [Hg Hnd]. unfold merge_tree. simpl.
  change (foldl _ ?m0 files) with (merge_tree m0 files).
  apply elem_of_cons in Hf as [->|Hf].
  - rewrite merge_tree_other by done. by rewrite lookup_insert_eq.
  - rewrite IH by done. rewrite lookup_insert_ne; [done|]. intros E. apply Hg. rewrite E.
    apply list_elem_of_In, in_map, list_elem_of_In, Hf.
Qed.
Lemma merge_tree_keeps q m files tf :
  (∀ f, f ∈ files → mf_LFS f = false ∧ mf_XetHash f = "") → m !! q = Some tf →
  ∃ tf', merge_tree m files !! q = Some tf' ∧
    tf_LFSSHA256 tf' = tf_LFSSHA256 tf ∧ tf_LFSSize tf' = tf_LFSSize tf ∧ tf_XetHash tf' = tf_XetHash tf.
Proof.
  intros Hf Hq. rewrite merge_tree_lookup, Hq. clear Hq. revert tf.
  induction files as [|f files IH]; intros tf; [by exists tf|]. simpl.
  assert (∀ f, f ∈ files → mf_LFS f = false ∧ mf_XetHash f = "") as Hf' by set_solver.
  case_decide; [|by apply IH].
  destruct (IH Hf' (tree_file (Some tf) f)) as (tf' & E & H1 & H2 & H3).
  exists tf'. split; [done|]. destruct (Hf f) as [El Ex]; [set_solver|].
  unfold tree_file in *. rewrite El, Ex in *. by rewrite H1, H2, H3.
Qed.
Lemma merge_tree_ok m files :
  map_Forall (λ _ f, TreeFile_ok f) m → Forall manifest_ok files →
  map_Forall (λ _ f, TreeFile_ok f) (merge_tree m files).
Proof.
  intros Hm Hf. revert m Hm. induction Hf as [|f files Hf _ IH]; intros m Hm; [done|].
  apply IH. apply map_Forall_insert_2; [|done]. destruct Hf as (Hs & _).
  assert (match m !! mf_Path f with Some t => TreeFile_ok t | None => True end) as Hp.
  { destruct (m !! mf_Path f) eqn:E; [by apply (Hm _ _ E)|done]. }
  unfold tree_file. destruct (m !! mf_Path f) as [t|], (mf_LFS f); case_decide;
    split; simpl; try done; by destruct Hp.
Qed.

(** ** The tree on disk *)
Definition tree_of (p : Paths) (commit : string) (s : osst) : gmap string TreeFile :=
  match (ReadTree p commit (nofault s)).1 with Ok (Some t) => tr_Files t | _ => ∅ end.

Lemma nofault_id s : os_faults s = [] → nofault s = s.
Proof. destruct s. simpl. by intros ->. Qed.
Lemma ReadTree_nofault p commit s :
  os_faults s = [] →
  ReadTree p commit s =
  (match fs_read_file (os_fs s) (TreePath p commit) with
   | Err e => if errors_is e SNotExist then Ok None else Err (ErrWrap "read" e)
   | Ok data => match wrap_result "parse" (unmarshal dec_Tree data (mk_Tree 0 ∅)) with
                | Ok t => Ok (Some t) | Err e => Err e end
   end, s).
Proof.
  intros Hs. unfold ReadTree, os_read_file.
  rewrite (bind_try_run _ _ _ _ _ (os_query_nofault _ _ Hs)).
  destruct (fs_read_file _ _) as [data|e]; [|by destruct (errors_is e SNotExist)].
  unfold mbind, M_bind, m_wrap, m_lift. by destruct (wrap_result _ _).
Qed.
Lemma tree_of_at p commit s :
  (∀ t, fs_get (os_fs s) (abs_segs (TreePath p commit)) ≠ Some (FLink t)) →
  tree_of p commit s =
  match fs_get (os_fs s) (abs_segs (TreePath p commit)) with
  | Some (FFile f) => match unmarshal dec_Tree (reg_data f) (mk_Tree 0 ∅) with
                      | Ok t => tr_Files t | Err _ => ∅ end
  | _ => ∅
  end.
Proof.
  intros Hl. unfold tree_of. rewrite ReadTree_nofault by done. simpl os_fs.
  unfold fs_read_file. rewrite fs_follow_id by done. cbn [mbind result_bind]. unfold fs_lookup.
  destruct (fs_get _ _) as [[f|?|?]|] eqn:E; cbn [fst mbind result_bind].
  - by destruct (unmarshal _ _ _).
  - done.
  - done.
  - by destruct (errors_is _ _).
Qed.
Lemma tree_of_ok p commit s : map_Forall (λ _ f, TreeFile_ok f) (tree_of p commit s).
Proof.
  assert (map_Forall (λ _ f, TreeFile_ok f) (∅ : gmap string TreeFile)) as H0 by apply map_Forall_empty.
  unfold tree_of. rewrite ReadTree_nofault by done. simpl.
  destruct (fs_read_file _ _) as [data|e]; [|by destruct (errors_is e SNotExist)].
  destruct (unmarshal _ _ _) as [t|] eqn:E; [|done]. by apply unmarshal_Tree_ok in E.
Qed.

Lemma tree_path_at p base commit :
  cache_at p base → seg_ok commit → TreePath p commit = render_abs ((base ++ ["trees"]) ++ [commit +:+ ".json"]).
Proof.
  intros Hp Hc. unfold TreePath. rewrite (ca_trees _ _ Hp).
  rewrite join_part; [by rewrite <- app_assoc|apply Hp|by split_and!|by apply seg_ok_app].
Qed.
Lemma tree_segs_ok p base commit :
  cache_at p base → seg_ok commit → Forall seg_ok ((base ++ ["trees"]) ++ [commit +:+ ".json"]).
Proof. intros Hp Hc. eapply part_ok; [done|by split_and!|by apply seg_ok_app]. Qed.

(** Making a part's directory does not touch the files in it. *)
Lemma mkdir_part_at p base part w perm :
  cache_at p base → seg_ok part →
  pres (fs_at ((base ++ [part]) ++ [w])) (os_mkdir_all (render_abs (base ++ [part])) perm).
Proof.
  intros Hp Hpart. apply mkdir_all_at. rewrite abs_segs_render by (apply Forall_snoc_ok; [apply Hp|done]).
  intros Hin%prefixes_prefix%prefix_length. rewrite !length_app in Hin. simpl in Hin. lia.
Qed.

Lemma WriteTree_run p base commit files s s' :
  cache_at p base → seg_ok commit → rand_ok s → os_faults s = [] →
  (∀ t, os_fs s !! abs_segs (TreePath p commit) ≠ Some (FLink t)) →
  Forall manifest_ok files →
  WriteTree p commit files s = (Ok tt, s') →
  ReadTree p commit (nofault s') =
    (Ok (Some (mk_Tree TreeFormatVersion (merge_tree (tree_of p commit s) files))), nofault s').
Proof.
  intros Hp Hc Hrand Hcalm Hlink Hfiles.
  pose proof (tree_segs_ok p base commit Hp Hc) as Hok.
  pose proof (tree_path_at p base commit Hp Hc) as Hpath.
  assert (abs_segs (TreePath p commit) = (base ++ ["trees"]) ++ [commit +:+ ".json"]) as Hsegs
    by by rewrite Hpath, abs_segs_render.
  rewrite Hsegs in Hlink.
  assert ((base ++ ["trees"]) ++ [commit +:+ ".json"] ≠ []) as Hne by by destruct base.
  unfold WriteTree. intros H%bind_ok_inv. destruct H as ([] & s1 & H1 & H2).
  pose proof (mkdir_part_at p base "trees" (commit +:+ ".json") 493 Hp ltac:(by split_and!) s) as Hat.
  rewrite <- (ca_trees _ _ Hp) in Hat.
  pose proof (pres_mkdir_all (λ _, True) (Trees p) 493 s) as [_ Hsuf].
  pose proof (pres_calm_mkdir (Trees p) 493 s Hcalm) as Hcalm1.
  unfold m_wrap in H1. destruct (os_mkdir_all (Trees p) 493 s) as [r0 s0]; simpl in *.
  destruct r0 as [[]|]; simpl in H1; [|done]. injection H1 as ->.
  rewrite (bind_try_run _ _ _ _ _ (surjective_pairing (ReadTree p commit s1))) in H2.
  assert ((ReadTree p commit s1).2 = s1) as Hs1 by by rewrite ReadTree_nofault.
  rewrite Hs1 in H2. clear Hs1.
  assert (tree_of p commit s1 = tree_of p commit s) as Hsame.
  { assert (fs_get (os_fs s1) (abs_segs (TreePath p commit)) = fs_get (os_fs s) (abs_segs (TreePath p commit))) as Hg.
    { rewrite Hsegs, !fs_get_lookup by done. exact Hat. }
    rewrite !tree_of_at, Hg; [done|..]; intros t; rewrite ?Hg, Hsegs, fs_get_lookup by done; apply Hlink. }
  unfold tree_of in Hsame at 1. rewrite nofault_id in Hsame by done. rewrite Hsame in H2. clear Hsame.
  unfold m_wrap in H2. rewrite Hpath in H2.
  destruct (writeAtomic _ _ _ s1) as [r2 s2] eqn:E. destruct r2 as [[]|]; [|done].
  injection H2 as <-. apply writeAtomic_cases in E; [|done|by eapply rand_ok_suffix].
  rewrite ReadTree_nofault by done. simpl os_fs.
  erewrite fs_read_file_at; [|by rewrite Hsegs, E, fs_get_lookup, lookup_insert_eq]. simpl reg_data.
  rewrite unmarshal_print_indent by apply plain_Tree.
  rewrite dec_Tree_json; [done|]. split; [done|]. apply merge_tree_ok; [apply tree_of_ok|done].
Qed.

(** Writing a tree merges over the record on disk: after a successful
    [WriteTree], reading it back gives, for every path not in the manifest,
    what was recorded before; for a file of the manifest, its size and blob
    with the LFS and Xet fields it brings and otherwise the recorded ones; and
    a manifest without any such field strips none from the record. *)
Theorem WriteTree_merges hub id t commit files s s' :
  let p := NewPaths hub id t in
  is_abs hub = true → seg_ok commit → rand_ok s → os_faults s = [] →
  (∀ t, os_fs s !! abs_segs (TreePath p commit) ≠ Some (FLink t)) →
  Forall manifest_ok files → NoDup (map mf_Path files) →
  WriteTree p commit files s = (Ok tt, s') →
  ∃ m, ReadTree p commit (nofault s') = (Ok (Some (mk_Tree TreeFormatVersion m)), nofault s') ∧
    (∀ q, q ∉ map mf_Path files → m !! q = tree_of p commit s !! q) ∧
    (∀ f, f ∈ files → m !! mf_Path f = Some (tree_file (tree_of p commit s !! mf_Path f) f)) ∧
    ((∀ f, f ∈ files → mf_LFS f = false ∧ mf_XetHash f = "") →
     ∀ q tf, tree_of p commit s !! q = Some tf → ∃ tf', m !! q = Some tf' ∧
       tf_LFSSHA256 tf' = tf_LFSSHA256 tf ∧ tf_LFSSize tf' = tf_LFSSize tf ∧ tf_XetHash tf' = tf_XetHash tf).
Proof.
  intros p Hh Hc Hrand Hcalm Hlink Hfiles Hnd H.
  eapply WriteTree_run in H; [|by apply NewPaths_at|done..].
  eexists. split; [exact H|]. split_and!.
  - intros q. apply merge_tree_other.
  - intros f. by apply merge_tree_file.
  - intros Hpoor q tf. by apply merge_tree_keeps.
Qed.

Lemma WriteTree_merges_witness :
  let p := NewPaths "/hub" "org/m" Model in
  let rich := mk_FileManifest "model.bin" "blobA" 100 "shaA" 420 0 true "xetA" "" in
  let poor := mk_FileManifest "model.bin" "blobA" 100 "" 0 0 false "" "" in
  let s := (WriteTree p "c1" [rich] (mk_osst ∅ [] ["1"] 0)).2 in
  let s' := (WriteTree p "c1" [poor] s).2 in
  ∃ m, ReadTree p "c1" (nofault s') = (Ok (Some (mk_Tree 1 m)), nofault s') ∧
       m !! "model.bin" = Some (mk_TreeFile 100 "blobA" "shaA" 100 "xetA").
Proof.
  intros p rich poor s s'.
  destruct (WriteTree_merges "/hub" "org/m" Model "c1" [poor] s s') as (m & Hr & _ & Hf & _).
  - reflexivity.
  - by split_and!.
  - vm_compute. by repeat constructor.
  - vm_compute. reflexivity.
  - intros t. vm_compute. discriminate.
  - repeat (constructor; try done).
  - constructor; [apply not_elem_of_nil|constructor].
  - vm_compute. reflexivity.
  - exists m. split; [exact Hr|]. etrans; [apply (Hf poor), list_elem_of_here|]. vm_compute. reflexivity.
Defined.

(** ** Snapshots *)
Definition snap_segs (base : fpath) (commit : string) : fpath := base ++ ["snapshots"; commit].
Definition link_segs (base : fpath) (commit : string) (f : FileManifest) : fpath :=
  snap_segs base commit ++ split_on ch_slash (mf_Path f).
Definition blob_segs (base : fpath) (f : FileManifest) : fpath := base ++ ["blobs"; mf_BlobName f].

(** All that [WriteSnapshot] may touch: the snapshot's own directory, and the
    tree and reference files with their temporaries. *)
Definition snapshot_footprint (base : fpath) (commit ref : string) (q : fpath) : Prop :=
  snap_segs base commit `prefix_of` q ∨
  q = (base ++ ["trees"]) ++ [commit +:+ ".json"] ∨ temp_of (base ++ ["trees"]) (commit +:+ ".json") q ∨
  q = (base ++ ["refs"]) ++ [ref] ∨ temp_of (base ++ ["refs"]) ref q.

Lemma WriteTree_frame p base commit files :
  cache_at p base → seg_ok commit →
  pres (safe_frame (λ q, q = (base ++ ["trees"]) ++ [commit +:+ ".json"] ∨
                         temp_of (base ++ ["trees"]) (commit +:+ ".json") q)) (WriteTree p commit files).
Proof.
  intros Hp Hc. unfold WriteTree. apply pres_bind; [apply _|apply pres_wrap, pres_safe, pres_mkdir_all|].
  intros _. apply pres_bind; [apply _|apply pres_try; unfold ReadTree; pres_auto|].
  intros existing. apply pres_wrap. rewrite (tree_path_at p base commit Hp Hc).
  apply pres_writeAtomic; [by apply (tree_segs_ok p base commit)|by left|by right].
Qed.
Lemma WriteRef_frame p base ref commit :
  cache_at p base → seg_ok ref →
  pres (safe_frame (λ q, q = (base ++ ["refs"]) ++ [ref] ∨ temp_of (base ++ ["refs"]) ref q)) (WriteRef p ref commit).
Proof.
  intros Hp Hr. unfold WriteRef. apply pres_bind; [apply _|apply pres_safe, pres_mkdir_all|]. intros _.
  rewrite (ref_path_at p base ref Hp Hr).
  replace (base ++ ["refs"; ref]) with ((base ++ ["refs"]) ++ [ref]) by by rewrite <- app_assoc.
  apply pres_writeAtomic; [by eapply part_ok; [|split_and!|]|by left|by right].
Qed.

Section snapshot.
Context (p : Paths) (base : fpath) (Hp : cache_at p base).

Lemma snapshot_dir_at commit : seg_ok commit → SnapshotDir p commit = render_abs (snap_segs base commit).
Proof.
  intros Hc. unfold SnapshotDir. rewrite (ca_snapshots _ _ Hp). apply join_part; [apply Hp|by split_and!|done].
Qed.
Lemma snap_segs_ok commit : seg_ok commit → Forall seg_ok (snap_segs base commit).
Proof.
  intros Hc. apply Forall_app. split; [apply Hp|].
  constructor; [by split_and!|]. constructor; [done|constructor].
Qed.
Lemma link_path_at commit f :
  seg_ok commit → SafeRelPath (mf_Path f) = true →
  fjoin [SnapshotDir p commit; mf_Path f] = render_abs (link_segs base commit f) ∧
  Forall seg_ok (link_segs base commit f).
Proof.
  intros Hc [Hf _]%SafeRelPath_spec. pose proof (snap_segs_ok commit Hc) as Hs.
  split; [|by apply Forall_app]. rewrite snapshot_dir_at by done.
  rewrite fjoin2_render by (apply is_abs_render || done). by rewrite abs_segs_render.
Qed.
Lemma blob_path_at f :
  SafeBlobName (mf_BlobName f) = true →
  BlobPath p (mf_BlobName f) = render_abs (blob_segs base f) ∧ Forall seg_ok (blob_segs base f).
Proof.
  intros [Hb _]%SafeBlobName_spec. unfold BlobPath. rewrite (ca_blobs _ _ Hp). split.
  - apply join_part; [apply Hp|by split_and!|done].
  - apply Forall_app. split; [apply Hp|]. constructor; [by split_and!|]. constructor; [done|constructor].
Qed.
Lemma link_segs_nonnil commit f : link_segs base commit f ≠ [].
Proof. unfold link_segs, snap_segs. by destruct base. Qed.

Lemma link_file_frame commit f :
  seg_ok commit →
  pres (os_frame (λ q, SafeRelPath (mf_Path f) = true ∧ q = link_segs base commit f))
    (link_file p (SnapshotDir p commit) f).
Proof.
  intros Hc. unfold link_file. destruct (SafeRelPath (mf_Path f)) eqn:Hs; [|apply pres_fail, _].
  destruct (SafeBlobName (mf_BlobName f)); [|apply pres_fail, _]. cbn [negb orb].
  destruct (link_path_at commit f Hc Hs) as [-> Hok].
  set (P := λ q : fpath, true = true ∧ q = link_segs base commit f).
  assert (P (abs_segs (render_abs (link_segs base commit f)))) as HP.
  { split; [done|]. by apply abs_segs_render. }
  pose proof (pres_remove P _ HP) as Hr. pose proof (λ t, pres_symlink P t _ HP) as Hl.
  pres_auto.
Qed.

Lemma link_file_ok commit f s s' :
  seg_ok commit → link_file p (SnapshotDir p commit) f s = (Ok tt, s') →
  SafeRelPath (mf_Path f) = true ∧ SafeBlobName (mf_BlobName f) = true ∧
  ∃ rel, os_fs s' !! link_segs base commit f = Some (FLink rel) ∧
         link_target (link_segs base commit f) rel = blob_segs base f.
Proof.
  intros Hc. unfold link_file. destruct (SafeRelPath (mf_Path f)) eqn:Hs; [|done].
  destruct (SafeBlobName (mf_BlobName f)) eqn:Hb; [|done]. cbn [negb orb].
  destruct (link_path_at commit f Hc Hs) as [-> Hok].
  destruct (blob_path_at f Hb) as [-> Hbok]. cbv zeta.
  pose proof (link_segs_nonnil commit f) as Hne. set (lp := link_segs base commit f) in *.
  intros ([] & s1 & _ & H)%bind_ok_inv. apply bind_ok_inv in H as (info & s2 & _ & H).
  apply bind_ok_inv in H as (rel & s3 & Hrel & H). unfold m_lift in Hrel. injection Hrel as Hrel <-.
  split; [done|]. split; [done|]. exists rel. split; cycle 1.
  { erewrite link_target_rel; [by apply abs_segs_render|done|done|apply is_abs_render|done]. }
  assert (∀ s4, m_wrap "symlink" (os_symlink rel (render_abs lp)) s4 = (Ok tt, s') →
    os_fs s' !! lp = Some (FLink rel)) as Hsym.
  { intros s4 Hl. unfold m_wrap in Hl. destruct (os_symlink _ _ s4) as [r5 s5] eqn:E.
    destruct r5 as [[]|]; [|done]. injection Hl as <-.
    apply os_update_cases in E as [(_ & E & _)|(? & ? & _)]; [|done].
    apply fs_create_ok in E as (-> & _). rewrite abs_segs_render by done. apply lookup_insert_eq. }
  rewrite (bind_try_run _ _ _ _ _ (surjective_pairing _)) in H.
  destruct (os_readlink (render_abs lp) s2) as [rl s4] eqn:Erl. cbn [fst snd] in H.
  destruct rl as [existing|e].
  - case_decide as Hex; [|by apply bind_ok_inv in H as ([] & s5 & _ & H); eapply Hsym].
    injection H as <-. subst existing. apply os_query_ok in Erl as [Hq ->].
    rewrite abs_segs_render in Hq by done. unfold fs_lookup, mbind, result_bind in Hq.
    rewrite fs_get_lookup in Hq by done.
    destruct (os_fs s2 !! lp) as [[| |tg]|] eqn:E; try done. injection Hq as ->. exact E.
  - rewrite (bind_try_run _ _ _ _ _ (surjective_pairing _)) in H.
    destruct (os_lstat (render_abs lp) s4) as [[st|e'] s5]; cbn [fst snd] in H; [|by eapply Hsym].
    apply bind_ok_inv in H as ([] & s6 & _ & H). by eapply Hsym.
Qed.

Lemma link_segs_inj commit f g :
  link_segs base commit f = link_segs base commit g → mf_Path f = mf_Path g.
Proof.
  intros E%app_inv_head_iff. rewrite <- (join_split ch_slash (mf_Path f)), <- (join_split ch_slash (mf_Path g)).
  by rewrite E.
Qed.

(** A node already at a path survives the links of the other files. *)
Lemma links_keep commit files q n :
  seg_ok commit → (∀ g, g ∈ files → link_segs base commit g ≠ q) →
  ∀ s, os_fs s !! q = Some n →
  os_fs (m_foreach (link_file p (SnapshotDir p commit)) files s).2 !! q = Some n.
Proof.
  intros Hc Hne s Hq.
  assert (pres (os_frame (λ x, x ≠ q)) (m_foreach (link_file p (SnapshotDir p commit)) files)) as Hf.
  { apply pres_foreach_in; [apply _|]. intros g Hg. eapply pres_frame_mono, (link_file_frame commit g Hc).
    intros x [_ ->]. by apply Hne. }
  destruct (Hf s) as [Hfr _]. destruct (Hfr q) as [->|[E _]]; [tauto|done|congruence].
Qed.

Lemma links_made commit files s s' :
  seg_ok commit → NoDup (map mf_Path files) →
  m_foreach (link_file p (SnapshotDir p commit)) files s = (Ok tt, s') →
  ∀ f, f ∈ files →
  SafeRelPath (mf_Path f) = true ∧ SafeBlobName (mf_BlobName f) = true ∧
  ∃ rel, os_fs s' !! link_segs base commit f = Some (FLink rel) ∧
         link_target (link_segs base commit f) rel = blob_segs base f.
Proof.
  intros Hc Hnd. revert s. induction files as [|g files IH]; intros s H f Hf; [set_solver|].
  apply NoDup_cons in Hnd as [Hg Hnd]. apply bind_ok_inv in H as ([] & s1 & H1 & H2).
  apply elem_of_cons in Hf as [->|Hf]; [|by eapply IH].
  destruct (link_file_ok commit g s s1 Hc H1) as (Hs & Hb & rel & Hl & Ht).
  split; [done|]. split; [done|]. exists rel. split; [|done].
  pose proof (links_keep commit files (link_segs base commit g) (FLink rel) Hc) as Hk. specialize (Hk ltac:(
    intros x Hx E%link_segs_inj; apply Hg; rewrite <- E; apply list_elem_of_In, in_map, list_elem_of_In, Hx) s1 Hl).
  change (m_foreach (link_file p (SnapshotDir p commit)) files s1 = (Ok tt, s')) in H2.
  by rewrite H2 in Hk.
Qed.

Lemma WriteSnapshot_frame commit files ref :
  seg_ok commit → (ref = "" ∨ seg_ok ref) →
  pres (safe_frame (snapshot_footprint base commit (if decide (ref = "") then "main" else ref)))
    (WriteSnapshot p commit files ref).
Proof.
  intros Hc Href. unfold WriteSnapshot. set (ref' := if decide (ref = "") then "main" else ref).
  assert (seg_ok ref') as Hr'.
  { unfold ref'. case_decide; [by split_and!|]. by destruct Href. }
  set (P := snapshot_footprint base commit ref').
  apply pres_bind; [apply _|apply pres_wrap, pres_safe, pres_mkdir_all|]. intros _.
  apply pres_bind; [apply _|apply pres_foreach; [apply _|]|].
  { intros f. apply pres_safe. eapply pres_frame_mono, (link_file_frame commit f Hc).
    intros q [_ ->]. left. by eexists. }
  intros _. apply pres_bind; [apply _| |intros _].
  - eapply pres_safe_mono, (WriteTree_frame p base commit files Hp Hc). unfold P, snapshot_footprint. tauto.
  - eapply pres_safe_mono, (WriteRef_frame p base ref' commit Hp Hr'). unfold P, snapshot_footprint. tauto.
Qed.
End snapshot.

(** No manifest can make [WriteSnapshot] write outside its place: whatever
    the files are called, whatever fails, the only paths that change are those
    below [snapshots/<commit>], [trees/<commit>.json], [refs/<ref>] and the
    temporaries of the last two; elsewhere at most new directories appear. *)
Theorem WriteSnapshot_confined hub id t commit files ref s :
  is_abs hub = true → seg_ok commit → (ref = "" ∨ seg_ok ref) → rand_ok s →
  let p := NewPaths hub id t in
  let base := abs_segs hub ++ [RepoDirName id t] in
  let s' := (WriteSnapshot p commit files ref s).2 in
  ∀ q, ¬ snapshot_footprint base commit (if decide (ref = "") then "main" else ref) q →
  os_fs s' !! q = os_fs s !! q ∨ (os_fs s !! q = None ∧ is_dir_node (os_fs s' !! q) = true).
Proof.
  intros Hh Hc Href Hrand p base s'. 
  pose proof (WriteSnapshot_frame p base (NewPaths_at hub id t Hh) commit files ref Hc Href s Hrand) as [Hf _].
  apply Hf.
Qed.

Lemma frame_keeps (P : fpath → Prop) s s' q n :
  os_frame P s s' → ¬ P q → os_fs s !! q = Some n → os_fs s' !! q = Some n.
Proof. intros [Hf _] Hq Hn. destruct (Hf q Hq) as [->|[E _]]; [done|congruence]. Qed.

(** Different parts of a cache do not overlap. *)
Lemma part_disjoint (base l l' : fpath) x y : x ≠ y → base ++ x :: l ≠ base ++ y :: l'.
Proof. intros Hxy E%app_inv_head_iff. injection E. done. Qed.
Lemma part_not_temp (base l : fpath) x part w : x ≠ part → ¬ temp_of (base ++ [part]) w (base ++ x :: l).
Proof. intros Hxy [y E]. rewrite <- app_assoc in E. by apply part_disjoint in E. Qed.

Lemma WriteSnapshot_run p base commit files ref s s' :
  cache_at p base → seg_ok commit → (ref = "" ∨ seg_ok ref) → rand_ok s →
  is_Some (hex_decode commit) → String.length commit = 40 → NoDup (map mf_Path files) →
  WriteSnapshot p commit files ref s = (Ok tt, s') →
  (∀ f, f ∈ files →
     SafeRelPath (mf_Path f) = true ∧ SafeBlobName (mf_BlobName f) = true ∧
     ∀ b, os_fs s !! blob_segs base f = Some (FFile b) →
       fs_read_file (os_fs s') (render_abs (link_segs base commit f)) = Ok (reg_data b)) ∧
  CurrentCommit p ref (nofault s') = (Ok commit, nofault s').
Proof.
  intros Hp Hc Href Hrand Hhex Hlen Hnd. unfold WriteSnapshot.
  set (ref' := if decide (ref = "") then "main" else ref).
  assert (seg_ok ref') as Hr'.
  { unfold ref'. case_decide; [by split_and!|]. by destruct Href. }
  intros ([] & s1 & H1 & H)%bind_ok_inv. apply bind_ok_inv in H as ([] & s2 & H2 & H).
  apply bind_ok_inv in H as ([] & s3 & H3 & H4).
  assert (s1 = (os_mkdir_all (SnapshotDir p commit) 493 s).2) as ->.
  { unfold m_wrap in H1. destruct (os_mkdir_all _ _ s) as [[]]; by injection H1. }
  clear H1. set (s1 := (os_mkdir_all (SnapshotDir p commit) 493 s).2) in *.
  assert (rand_ok s1) as Hrand1.
  { eapply rand_ok_suffix; [|done]. apply (pres_mkdir_all (λ _, True) (SnapshotDir p commit) 493 s). }
  assert (rand_ok s2) as Hrand2.
  { eapply rand_ok_suffix; [|exact Hrand1].
    assert (pres (os_frame (λ _, True)) (m_foreach (link_file p (SnapshotDir p commit)) files)) as Hf.
    { apply pres_foreach; [apply _|]. intros g. by eapply pres_frame_mono, (link_file_frame p base Hp commit g Hc). }
    specialize (Hf s1). rewrite H2 in Hf. apply Hf. }
  pose proof (WriteTree_frame p base commit files Hp Hc s2 Hrand2) as Hf3. rewrite H3 in Hf3. simpl in Hf3.
  assert (rand_ok s3) as Hrand3 by (eapply rand_ok_suffix; [apply Hf3|done]).
  pose proof (WriteRef_frame p base ref' commit Hp Hr' s3 Hrand3) as Hf4. rewrite H4 in Hf4. simpl in Hf4.
  assert (∀ x l n, x ≠ "trees" → x ≠ "refs" → os_fs s2 !! (base ++ x :: l) = Some n →
    os_fs s' !! (base ++ x :: l) = Some n) as Hkeep.
  { intros x l n Hx1 Hx2 Hn. eapply frame_keeps; [exact Hf4| |eapply frame_keeps; [exact Hf3| |exact Hn]];
      intros [E|E]; try (by apply part_not_temp in E); rewrite <- app_assoc in E; by apply part_disjoint in E. }
  split.
  - intros f Hf. destruct (links_made p base Hp commit files s1 s2 Hc Hnd H2 f Hf) as (Hs & Hb & rel & Hl & Ht).
    split; [done|]. split; [done|]. intros b Hblob.
    assert (os_fs s' !! blob_segs base f = Some (FFile b)) as Hblob'.
    { apply Hkeep; [done..|]. change s2 with (snd (Ok tt : result unit, s2)). rewrite <- H2.
      apply (links_keep p base Hp); [done| |by apply mkdir_all_keeps].
      intros g _ E. unfold link_segs, snap_segs in E. rewrite <- app_assoc in E. by apply part_disjoint in E. }
    assert (os_fs s' !! link_segs base commit f = Some (FLink rel)) as Hl'.
    { unfold link_segs, snap_segs in *. rewrite <- app_assoc in *. by apply Hkeep. }
    unfold fs_read_file. rewrite abs_segs_render by apply (proj2 (link_path_at p base Hp commit f Hc Hs)).
    change max_links with (S 39).
    rewrite (fs_follow_link _ _ _ rel) by (rewrite fs_get_lookup; [done|by apply (link_segs_nonnil p base Hp)]).
    rewrite Ht. assert (fs_get (os_fs s') (blob_segs base f) = Some (FFile b)) as Hg.
    { rewrite fs_get_lookup; [done|]. unfold blob_segs. by destruct base. }
    rewrite (fs_follow_file _ _ _ b) by done. cbn [mbind result_bind]. unfold fs_lookup. by rewrite Hg.
  - assert (CurrentCommit p ref' (nofault s') = (Ok commit, nofault s')) as Hcur.
    { by eapply (WriteRef_run p base ref' commit s3 (Ok tt) s'). }
    unfold CurrentCommit in *. fold ref'. revert Hcur. rewrite decide_False; [done|]. by destruct Hr'.
Qed.

(** C24. A snapshot that was written is usable: after a successful
    [WriteSnapshot] every file of the manifest had a safe path and blob name,
    its path in the snapshot reads as the bytes of its blob, and the reference
    resolves to the commit. *)
Theorem WriteSnapshot_usable hub id t commit files ref s s' :
  is_abs hub = true → seg_ok commit → (ref = "" ∨ seg_ok ref) → rand_ok s →
  is_Some (hex_decode commit) → String.length commit = 40 → NoDup (map mf_Path files) →
  let p := NewPaths hub id t in
  WriteSnapshot p commit files ref s = (Ok tt, s') →
  (∀ f, f ∈ files →
     SafeRelPath (mf_Path f) = true ∧ SafeBlobName (mf_BlobName f) = true ∧
     ∀ b, os_fs s !! abs_segs (BlobPath p (mf_BlobName f)) = Some (FFile b) →
       fs_read_file (os_fs s') (fjoin [SnapshotDir p commit; mf_Path f]) = Ok (reg_data b)) ∧
  CurrentCommit p ref (nofault s') = (Ok commit, nofault s').
Proof.
  intros Hh Hc Href Hrand Hhex Hlen Hnd p H. pose proof (NewPaths_at hub id t Hh) as Hp. fold p in Hp.
  destruct (WriteSnapshot_run p _ commit files ref s s' Hp Hc Href Hrand Hhex Hlen Hnd H) as [Hfiles Hcur].
  split; [|done]. intros f Hf. destruct (Hfiles f Hf) as (Hs & Hb & Hread). split; [done|]. split; [done|].
  intros b. destruct (blob_path_at p _ Hp f Hb) as [-> Hok]. rewrite abs_segs_render by done.
  destruct (link_path_at p _ Hp commit f Hc Hs) as [-> _]. apply Hread.
Qed.

Section witnesses.
Let p := NewPaths "/hub" "org/m" Model.
Let c := "0123456789abcdef0123456789abcdef01234567".
Let file := mk_FileManifest "sub/f.bin" "abc" 4 "" 420 0 false "" "".
Let evil := mk_FileManifest "../../../etc/passwd" "abc" 4 "" 420 0 false "" "".
Let blob := mk_regular "data" 420 7.
Let s0 := mk_osst {[ ["hub"; "models--org--m"; "blobs"; "abc"] := FFile blob;
                     ["hub"; "models--org--m"; "blobs"] := FDir 493;
                     ["hub"; "models--org--m"] := FDir 493; ["hub"] := FDir 493;
                     ["etc"] := FDir 493 ]} [] ["17"] 0.

Lemma WriteSnapshot_usable_witness :
  fs_read_file (os_fs (WriteSnapshot p c [file] "" s0).2) (fjoin [SnapshotDir p c; "sub/f.bin"]) = Ok "data".
Proof.
  destruct (WriteSnapshot p c [file] "" s0) as [r s'] eqn:E.
  assert (r = Ok tt) as ->.
  { transitivity (fst (WriteSnapshot p c [file] "" s0)); [by rewrite E|vm_compute; reflexivity]. }
  destruct (WriteSnapshot_usable "/hub" "org/m" Model c [file] "" s0 s') as [Hf _];
    [reflexivity|by split_and!|by left|by repeat constructor|by eexists|reflexivity
    |constructor; [apply not_elem_of_nil|constructor]|exact E|].
  destruct (Hf file (list_elem_of_here _ _)) as (_ & _ & Hr). apply (Hr blob). vm_compute. reflexivity.
Defined.

Lemma WriteSnapshot_confined_witness :
  (WriteSnapshot p c [file; evil] "main" s0).1 = Err (errorf "unsafe manifest path or blob name") ∧
  os_fs (WriteSnapshot p c [file; evil] "main" s0).2 !! ["etc"] = Some (FDir 493).
Proof.
  split; [vm_compute; reflexivity|].
  destruct (WriteSnapshot_confined "/hub" "org/m" Model c [file; evil] "main" s0) with (q := ["etc"]) as [E|[E _]];
    [reflexivity|by split_and!|by right; split_and!|by repeat constructor| |exact E|vm_compute in E; discriminate].
  intros [[l E]|[E|[[x E]|[E|[x E]]]]]; vm_compute in E; discriminate.
Defined.
End witnesses.
