(* ===== verification/Snapshot.v ===== *)
(** * Reading a snapshot: what [ReadSnapshot] and [SnapshotComplete] answer. *)
From S2P Require Import Prelude GoStrings GoPath GoFS Mapping Hfcache.

(** Every name in the tree is a single well-formed segment. *)
Definition fs_names_ok (fs : gmap fpath fnode) : Prop := ∀ q n, fs !! q = Some n → Forall seg_ok q.

(** [visited fs d name ws]: the walk from directory [d], called [name], reaches
    the entry at [d ++ ws], which is no directory. *)
Fixpoint visited (fs : gmap fpath fnode) (d : fpath) (name : string) (ws : list string) : Prop :=
  is_dir_node (fs_get fs d) = true ∧ name ≠ ".cache" ∧ name ≠ ".git" ∧
  match ws with
  | [] => False
  | [w] => ∃ n, fs !! (d ++ [w]) = Some n ∧ is_dir_node (Some n) = false
  | w :: ws' => visited fs (d ++ [w]) w ws'
  end.

Lemma bookkeeping_spec ws :
  Forall (λ w, contains_char ch_slash w = false) ws → ws ≠ [] →
  isInsideBookkeeping (join "/" ws) = bool_decide (head ws = Some ".git" ∨ head ws = Some ".cache").
Proof.
  intros Hws Hne. destruct ws as [|w ws]; [done|]. simpl head.
  assert (∀ d, contains_char ch_slash d = false →
    (String.eqb (join "/" (w :: ws)) d || has_prefix (join "/" (w :: ws)) (d +:+ "/")) = bool_decide (w = d)) as H.
  { intros d Hd. apply Forall_cons_1 in Hws as [Hw Hws]. case_bool_decide as Hwd.
    - subst d. apply orb_true_iff. destruct ws as [|x ws]; [left; apply String.eqb_refl|right].
      rewrite join_cons by done. rewrite <- sapp_assoc. apply has_prefix_app.
    - apply orb_false_iff. split.
      + apply String.eqb_neq. intros E. apply Hwd. apply (f_equal (split_on ch_slash)) in E.
        rewrite split_join, (split_on_none _ d) in E by (done || by constructor). by injection E.
      + destruct (has_prefix _ _) eqn:E; [|done]. apply has_prefix_spec in E as [t E]. exfalso. apply Hwd.
        apply (f_equal (split_on ch_slash)) in E. rewrite split_join in E by (done || by constructor).
        rewrite sapp_assoc in E. change ("/" +:+ t) with (String ch_slash t) in E.
        rewrite split_on_app_sep in E by done. by injection E. }
  unfold isInsideBookkeeping, bookkeepingDirs. cbn [existsb]. rewrite !H by done.
  rewrite orb_false_r. repeat case_bool_decide; naive_solver.
Qed.

Section reading.
Context {HS : Hashes} (p : Paths).

Lemma read_entry_looks snapDir path : pres same_fs (read_entry p snapDir path).
Proof. unfold read_entry, hashFile. pres_auto. Qed.
Lemma walk_looks fuel snapDir path name isdir : pres same_fs (walk_snapshot fuel p snapDir path name isdir).
Proof.
  revert path name isdir. induction fuel as [|f IH]; intros path name isdir; simpl;
    (destruct isdir; simpl; [|apply read_entry_looks]); case_decide; try (apply pres_ret; exact _); [apply pres_fail, _|].
  apply pres_bind; [exact _|apply same_fs_query|]. intros es. apply pres_flat_map; [exact _|]. intros x. apply IH.
Qed.

(** What a listed file says of the tree. *)
Definition entry_sound (fs : gmap fpath fnode) (base : fpath) (m : FileManifest) : Prop :=
  ∃ ws data, ws ≠ [] ∧ mf_Path m = join "/" ws ∧ isInsideBookkeeping (mf_Path m) = false ∧
    fs_read_file fs (render_abs (base ++ ws)) = Ok data ∧
    mf_SHA256 m = hex_encode (sha256_sum data) ∧ mf_Size m = Z.of_nat (String.length data).

(** Following the link by hand, as the code does, reads the same bytes. *)
Lemma read_resolved fs q lnk info data :
  Forall seg_ok q → q ≠ [] → fs_get fs q = Some (FLink lnk) →
  fs_stat fs (render_abs q) = Ok info → fi_regular info = true →
  fs_read_file fs (if is_abs lnk then lnk else fjoin [fdir (render_abs q); lnk]) = Ok data →
  fs_read_file fs (render_abs q) = Ok data.
Proof.
  intros Hok Hne Hl Hst Hreg. set (r := if is_abs lnk then lnk else _).
  assert (abs_segs r = link_target q lnk) as Hr.
  { unfold r, link_target. destruct (is_abs lnk); [done|].
    destruct (exists_last Hne) as (l & w & ->). rewrite fdir_render, parent_snoc by done.
    rewrite fjoin2 by apply is_abs_render. by rewrite abs_segs_clean by by apply is_abs_app, is_abs_render. }
  unfold fs_stat in Hst. rewrite abs_segs_render in Hst by done.
  destruct (fs_follow max_links fs q) as [z|] eqn:Ez; [|done].
  unfold fs_read_file. rewrite abs_segs_render, Ez, Hr by done.
  change max_links with (S 39) in Ez. rewrite (fs_follow_link _ _ _ _ Hl) in Ez.
  by rewrite (fs_follow_mono fs 39 max_links _ z ltac:(unfold max_links; lia) Ez).
Qed.
Lemma stat_regular fs q info :
  fs_stat fs q = Ok info → fi_regular info = true →
  ∃ data, fs_read_file fs q = Ok data ∧ fi_size info = Z.of_nat (String.length data).
Proof.
  unfold fs_stat, fs_read_file. destruct (fs_follow _ _ _) as [z|]; [|done]. cbn [mbind result_bind].
  destruct (fs_lookup fs z) as [[f| |]|]; cbn [mbind result_bind]; try done; intros [= <-]; [|done..].
  intros _. by exists (reg_data f).
Qed.

Lemma read_entry_sound snap ws snapDir s l s' :
  Forall seg_ok (snap ++ ws) → ws ≠ [] → snapDir = render_abs snap →
  read_entry p snapDir (render_abs (snap ++ ws)) s = (Ok l, s') →
  (∀ m, m ∈ l → mf_Path m = join "/" ws ∧ entry_sound (os_fs s) snap m) ∧
  (isInsideBookkeeping (join "/" ws) = false →
   ∀ info, fs_stat (os_fs s) (render_abs (snap ++ ws)) = Ok info → fi_regular info = true → l ≠ []).
Proof.
  intros Hok Hws ->. set (path := render_abs (snap ++ ws)).
  assert (snap ++ ws ≠ []) as Hne by by destruct snap.
  assert (Forall seg_ok snap) as Hsnap by by apply Forall_app in Hok as [? _].
  unfold read_entry. intros (rel & s1 & Hrel & H)%bind_ok_inv.
  unfold m_lift in Hrel. rewrite (frel_below _ _ ws) in Hrel
    by (unfold path; rewrite ?abs_segs_render by done; (apply is_abs_render || done)).
  injection Hrel as <- <-. destruct (isInsideBookkeeping (join "/" ws)) eqn:Hb.
  { injection H as <- <-. split; [|done]. intros m Hm. by apply not_elem_of_nil in Hm. }
  apply bind_ok_inv in H as (info & s2 & Hinfo & H).
  assert (fs_stat (os_fs s) path = Ok info ∧ os_fs s2 = os_fs s) as [Hst Hs2].
  { unfold m_wrap in Hinfo. destruct (os_stat path s) as [r s3] eqn:E. apply os_query_cases in E as [-> E].
    destruct r; [|done]. injection Hinfo as <- <-. split; [|done]. by destruct E as [<-|]. }
  clear Hinfo. destruct (fi_regular info) eqn:Hreg; cbn [negb] in H; cycle 1.
  { injection H as <- <-. split; [intros m Hm; by apply not_elem_of_nil in Hm|]. intros _ i Hi. congruence. }
  destruct (os_readlink path s2) as [rl s3] eqn:Erl. rewrite (bind_try_run _ _ _ _ _ Erl) in H.
  apply os_query_cases in Erl as [-> Hrl]. rewrite Hs2 in Hrl.
  destruct (stat_regular _ _ _ Hst Hreg) as (data & Hread & Hsize).
  assert (∀ src bn, (src = path ∨ ∃ lnk, fs_get (os_fs s) (snap ++ ws) = Some (FLink lnk) ∧
      src = if is_abs lnk then lnk else fjoin [fdir path; lnk]) → ∀ l',
    (digest ← m_wrap "hash" (hashFile src);
     let blobName := if String.eqb bn (fi_name info) && negb (under (Blobs p) src) then digest else bn in
     mret [mk_FileManifest (join "/" ws) blobName (fi_size info) digest (fi_perm info) (fi_mtime info) false "" src])
    (ticked s2) = (Ok l', s') →
    (∀ m, m ∈ l' → mf_Path m = join "/" ws ∧ entry_sound (os_fs s) snap m) ∧ l' ≠ []) as Hmain.
  { intros src bn Hsrc l' Hl'. apply bind_ok_inv in Hl' as (digest & s4 & Hd & Hl'). injection Hl' as <- <-.
    split; [|done]. intros m ->%list_elem_of_singleton. split; [done|].
    unfold m_wrap in Hd. destruct (hashFile src (ticked s2)) as [[d|] s5] eqn:Eh; [|done]. injection Hd as -> _.
    apply bind_ok_inv in Eh as (dat & s6 & Hrd & Hdg). apply os_query_ok in Hrd as [Hrd _]. injection Hdg as <- _.
    rewrite ticked_fs, Hs2 in Hrd. assert (dat = data) as ->.
    { destruct Hsrc as [->|(lnk & Hl & ->)]; [congruence|].
      pose proof (read_resolved _ _ _ _ _ Hok Hne Hl Hst Hreg Hrd) as E. unfold path in Hread. congruence. }
    exists ws, data. by split_and!. }
  destruct rl as [lnk|e]; [destruct Hrl as [Hrl|Hrl]; [|done]|].
  - symmetry in Hrl. unfold path in Hrl at 1. rewrite abs_segs_render in Hrl by done.
    unfold fs_lookup, mbind, result_bind in Hrl.
    destruct (fs_get (os_fs s) (snap ++ ws)) as [[| |t]|] eqn:El; try done. injection Hrl as ->.
    edestruct Hmain as [Hm Hl]; [right; by exists lnk|exact H|]. by split.
  - edestruct Hmain as [Hm Hl]; [left; reflexivity|exact H|]. by split.
Qed.

Lemma child_path d n :
  Forall seg_ok d → seg_ok n → fjoin [render_abs d; n] = render_abs (d ++ [n]).
Proof. intros Hd Hn. rewrite fjoin2_render_seg by (apply is_abs_render || done). by rewrite abs_segs_render. Qed.

Lemma read_dir_children s d es s' :
  Forall seg_ok d → is_dir_node (fs_get (os_fs s) d) = true →
  os_read_dir (render_abs d) s = (Ok es, s') → es = fs_children (os_fs s) d ∧ os_fs s' = os_fs s.
Proof.
  intros Hd Hdir [H ->]%os_query_ok. split; [|done]. revert H. unfold fs_read_dir.
  rewrite abs_segs_render by done. rewrite fs_follow_id by (intros t E; by rewrite E in Hdir).
  cbn [mbind result_bind]. unfold fs_lookup. destruct (fs_get (os_fs s) d) as [[]|]; try done. by intros [= <-].
Qed.

Lemma walk_spec fuel snap d name isdir s l s' ws0 :
  fs_names_ok (os_fs s) → Forall seg_ok d → d = snap ++ ws0 → (isdir = false → ws0 ≠ []) →
  isdir = is_dir_node (fs_get (os_fs s) d) →
  walk_snapshot fuel p (render_abs snap) (render_abs d) name isdir s = (Ok l, s') →
  (∀ m, m ∈ l → entry_sound (os_fs s) snap m) ∧
  (∀ ws info, visited (os_fs s) d name ws → isInsideBookkeeping (join "/" (ws0 ++ ws)) = false →
     fs_stat (os_fs s) (render_abs (d ++ ws)) = Ok info → fi_regular info = true →
     ∃ m, m ∈ l ∧ mf_Path m = join "/" (ws0 ++ ws)).
Proof.
  revert d name isdir s l s' ws0.
  induction fuel as [|f IH]; intros d name isdir s l s' ws0 Hnames Hok -> Hws0 Hdir H; cbn [walk_snapshot] in H;
    (destruct isdir; cbn [negb] in H;
     [|apply read_entry_sound in H as [H _]; [|done|by apply Hws0|done]; split;
       [intros m Hm; by apply H|intros [|w ws] info (Hd & _); congruence]]);
    (case_decide as Hname; [injection H as <- <-; split;
       [intros m Hm; by apply not_elem_of_nil in Hm|intros [|w ws] info (_ & H1 & H2 & _); tauto]|]);
    [done|].
  apply bind_ok_inv in H as (es & s1 & Hes & H).
  apply read_dir_children in Hes as [-> Hs1]; [|done..].
  apply flat_map_run in H as [Hsound Hcompl]; [|intros x; apply walk_looks].
  (* each child is visited with its own path *)
  assert (∀ n node ys t1 t2, (n, node) ∈ fs_children (os_fs s) (snap ++ ws0) → os_fs t1 = os_fs s1 →
    walk_snapshot f p (render_abs snap) (fjoin [render_abs (snap ++ ws0); n]) n (is_dir_node (Some node)) t1 = (Ok ys, t2) →
    (∀ m, m ∈ ys → entry_sound (os_fs s) snap m) ∧
    (∀ ws info, visited (os_fs s) ((snap ++ ws0) ++ [n]) n ws → isInsideBookkeeping (join "/" ((ws0 ++ [n]) ++ ws)) = false →
       fs_stat (os_fs s) (render_abs (((snap ++ ws0) ++ [n]) ++ ws)) = Ok info → fi_regular info = true →
       ∃ m, m ∈ ys ∧ mf_Path m = join "/" ((ws0 ++ [n]) ++ ws)) ∧
    seg_ok n ∧ fs_get (os_fs s) ((snap ++ ws0) ++ [n]) = Some node) as Hchild.
  { intros n node ys t1 t2 Hin Ht1 Hw. apply fs_children_spec in Hin.
    pose proof (Hnames _ _ Hin) as Hn. assert (seg_ok n) as Hsn by by apply Forall_app in Hn as [_ [? _]%Forall_cons_1].
    assert (fs_get (os_fs s) ((snap ++ ws0) ++ [n]) = Some node) as Hg.
    { rewrite fs_get_lookup; [done|]. by destruct (snap ++ ws0). }
    rewrite child_path in Hw by done. rewrite Hs1 in Ht1. rewrite <- Ht1 in *.
    apply (IH _ _ _ _ _ _ (ws0 ++ [n])) in Hw as [H1 H2]; [by split|done|done|by rewrite app_assoc| |by rewrite Hg].
    intros _. by destruct ws0. }
  split.
  - intros m Hm. destruct (Hsound m Hm) as ([n node] & ys & t1 & t2 & Hin & Ht1 & Hw & Hmy).
    cbn [fst snd] in Hw. destruct (Hchild _ _ _ _ _ Hin Ht1 Hw) as [H1 _]. by apply H1.
  - intros [|w ws] info Hv Hb Hst Hreg; [by destruct Hv as (_ & _ & _ & [])|].
    destruct Hv as (_ & _ & _ & Hv).
    assert (∃ node, fs_get (os_fs s) ((snap ++ ws0) ++ [w]) = Some node) as [node Hnode].
    { destruct ws as [|w' ws]; [destruct Hv as (n & Hn & _); exists n; rewrite fs_get_lookup; [done|by destruct (snap ++ ws0)]|].
      destruct Hv as (Hd & _). destruct (fs_get (os_fs s) ((snap ++ ws0) ++ [w])) as [n|]; [by exists n|]. done. }
    assert (os_fs s !! ((snap ++ ws0) ++ [w]) = Some node) as Hlook.
    { rewrite fs_get_lookup in Hnode; [done|by destruct (snap ++ ws0)]. }
    assert ((w, node) ∈ fs_children (os_fs s) (snap ++ ws0)) as Hin by by apply fs_children_spec.
    destruct (Hcompl _ Hin) as (ys & t1 & t2 & Ht1 & Hw & Hsub). cbn [fst snd] in Hw.
    destruct (Hchild _ _ _ _ _ Hin Ht1 Hw) as (_ & H2 & Hsw & _).
    destruct ws as [|w' ws].
    + (* the file itself *)
      destruct Hv as (n & Hn & Hnd). assert (n = node) as -> by congruence. rewrite Hnd in Hw.
      assert (walk_snapshot f p (render_abs snap) (fjoin [render_abs (snap ++ ws0); w]) w false t1 =
        read_entry p (render_abs snap) (render_abs (snap ++ (ws0 ++ [w]))) t1) as Er.
      { rewrite child_path, <- app_assoc by done. by destruct f. }
      rewrite Er in Hw. apply read_entry_sound in Hw as [Hp Hne]; [| |by destruct ws0|done].
      * rewrite Ht1, Hs1, app_assoc in Hne. specialize (Hne Hb info Hst Hreg).
        destruct ys as [|m ys]; [done|]. exists m. split; [apply Hsub, list_elem_of_here|].
        apply Hp, list_elem_of_here.
      * rewrite app_assoc. apply Forall_app. split; [done|]. constructor; [done|constructor].
    + destruct (H2 (w' :: ws) info Hv) as (m & Hm & Hpm).
      * by rewrite <- app_assoc.
      * by rewrite <- app_assoc.
      * done.
      * exists m. split; [by apply Hsub|]. by rewrite <- app_assoc in Hpm.
Qed.

(** Fuel: the depth of the tree is enough. *)
Lemma fs_depth_bound (fs : gmap fpath fnode) q n : fs !! q = Some n → length q ≤ fs_depth fs.
Proof.
  intros H%elem_of_map_to_list. unfold fs_depth. apply max_list_elem_of_le.
  apply list_elem_of_In, in_map_iff. exists (q, n). split; [done|]. by apply list_elem_of_In.
Qed.
Lemma flat_map_ext {A B} (f g : A → M osst (list B)) l s :
  (∀ x, pres same_fs (f x)) →
  (∀ x t, x ∈ l → os_fs t = os_fs s → f x t = g x t) → m_flat_map f l s = m_flat_map g l s.
Proof.
  intros Hf. revert s. induction l as [|x l IH]; intros s Hfg; [done|]. simpl. unfold mbind, M_bind.
  rewrite <- (Hfg x s) by (apply list_elem_of_here || done).
  pose proof (Hf x s) as Hs. unfold same_fs in Hs. destruct (f x s) as [[ys|e] s1]; [|done]. simpl in Hs.
  rewrite (IH s1); [done|]. intros y t Hy Ht. apply Hfg; [by apply list_elem_of_further|congruence].
Qed.
Lemma walk_fuel fuel snap d name isdir s :
  fs_names_ok (os_fs s) → Forall seg_ok d → isdir = is_dir_node (fs_get (os_fs s) d) →
  fs_depth (os_fs s) < fuel + length d →
  walk_snapshot fuel p snap (render_abs d) name isdir s = walk_snapshot (S fuel) p snap (render_abs d) name isdir s.
Proof.
  revert d name isdir s. induction fuel as [|f IH]; intros d name isdir s Hnames Hok Hdir Hlen.
  { assert (isdir = false ∨ d = []) as [-> | ->]; [|done|].
    - destruct (decide (d = [])) as [|Hne]; [by right|left]. rewrite Hdir, fs_get_lookup by done.
      destruct (os_fs s !! d) eqn:E; [|done]. apply fs_depth_bound in E. lia.
    - simpl in Hlen. lia. }
  assert (∀ k, walk_snapshot (S k) p snap (render_abs d) name isdir s =
    if negb isdir then read_entry p snap (render_abs d) s
    else if decide (name = ".cache" ∨ name = ".git") then (Ok [], s)
    else (entries ← os_read_dir (render_abs d);
          m_flat_map (λ en, walk_snapshot k p snap (fjoin [render_abs d; en.1]) en.1 (is_dir_node (Some en.2))) entries) s) as E.
  { intros k. simpl. destruct isdir; simpl; [|done]. by case_decide. }
  rewrite !E. destruct isdir; [|done]. simpl negb. cbv iota. case_decide; [done|].
  unfold mbind, M_bind. destruct (os_read_dir (render_abs d) s) as [[es|e] s1] eqn:Hes; [|done].
  apply read_dir_children in Hes as [-> Hs1]; [|done|done].
  apply flat_map_ext; [intros x; apply walk_looks|]. intros [n node] t Hin Ht. cbn [fst snd].
  apply fs_children_spec in Hin. pose proof (Hnames _ _ Hin) as Hn.
  rewrite child_path by (done || by apply Forall_app in Hn as [_ [? _]%Forall_cons_1]).
  assert (os_fs t = os_fs s) as Ht' by congruence. apply IH; rewrite ?Ht'; [done|done| |].
  - rewrite fs_get_lookup; [by rewrite Hin|by destruct d].
  - rewrite length_app. simpl. lia.
Qed.
End reading.

(** [ReadSnapshot] lists exactly the snapshot: the result is in order of
    path; each entry names a file outside the bookkeeping directories, with the
    size and the SHA-256 of the bytes that reading its path gives; and every
    regular file the walk may enter is listed ([.gitattributes] included).
    Nothing on disk changes. *)
Theorem ReadSnapshot_exact {HS : Hashes} hub id t commit s l s' :
  is_abs hub = true → seg_ok commit → fs_names_ok (os_fs s) →
  let p := NewPaths hub id t in
  let snap := (abs_segs hub ++ [RepoDirName id t]) ++ ["snapshots"; commit] in
  is_dir_node (fs_get (os_fs s) snap) = true →
  ReadSnapshot p commit s = (Ok l, s') →
  os_fs s' = os_fs s ∧
  Sorted (λ a b, String.le (mf_Path a) (mf_Path b)) l ∧
  (∀ m, m ∈ l → entry_sound (os_fs s) snap m) ∧
  (∀ ws info, visited (os_fs s) snap commit ws → isInsideBookkeeping (join "/" ws) = false →
     fs_stat (os_fs s) (render_abs (snap ++ ws)) = Ok info → fi_regular info = true →
     ∃ m, m ∈ l ∧ mf_Path m = join "/" ws).
Proof.
  intros Hh Hc Hnames p snap Hdir H. pose proof (NewPaths_at hub id t Hh) as Hp. fold p in Hp.
  assert (Forall seg_ok snap) as Hok.
  { apply Forall_app. split; [apply Hp|]. constructor; [by split_and!|]. constructor; [done|constructor]. }
  assert (SnapshotDir p commit = render_abs snap) as Hsd.
  { unfold SnapshotDir. rewrite (ca_snapshots _ _ Hp). apply join_part; [apply Hp|by split_and!|done]. }
  unfold ReadSnapshot in H. rewrite Hsd in H.
  apply bind_ok_inv in H as (i0 & s1 & H1 & H). 
  assert (os_fs s1 = os_fs s) as Hs1.
  { unfold m_wrap in H1. destruct (os_stat _ s) as [r s0] eqn:E. apply os_query_cases in E as [-> _].
    destruct r; [|done]. by injection H1 as _ <-. }
  rewrite bind_gets_run, Hs1 in H. apply bind_ok_inv in H as (root & s2 & H2 & H).
  apply os_query_ok in H2 as [Hroot ->]. rewrite Hs1 in Hroot.
  apply bind_ok_inv in H as (files & s3 & H3 & H). injection H as <- <-.
  assert (fi_is_dir root = is_dir_node (fs_get (os_fs s) snap) ∧ fi_name root = commit) as [Hr1 Hr2].
  { rewrite abs_segs_render in Hroot by done. unfold fs_lookup, mbind, result_bind in Hroot.
    destruct (fs_get (os_fs s) snap) as [[]|]; try done. injection Hroot as <-. split; [done|]. simpl.
    unfold snap in *. change ["snapshots"; commit] with (["snapshots"] ++ [commit]) in *.
    rewrite app_assoc in *. by apply fbase_render. }
  rewrite Hr1, Hr2 in H3. pose proof (walk_looks p (S (fs_depth (os_fs s))) (render_abs snap) (render_abs snap)
    commit (is_dir_node (fs_get (os_fs s) snap)) (ticked s1)) as Hs3. rewrite H3 in Hs3. unfold same_fs in Hs3.
  rewrite ticked_fs, Hs1 in Hs3. simpl in Hs3.
  apply (walk_spec p _ snap snap commit _ _ _ _ []) in H3; rewrite ?ticked_fs, ?Hs1 in *;
    [|done|done|by rewrite app_nil_r|congruence|done].
  destruct H3 as [H3 H4]. split_and!.
  - done.
  - apply sortManifests_sorted.
  - intros m Hm. apply H3. unfold sortManifests in Hm. by rewrite insertion_sort_perm in Hm.
  - intros ws info Hv Hb Hst Hreg. destruct (H4 ws info Hv Hb Hst Hreg) as (m & Hm & Hpm).
    exists m. split; [|done]. unfold sortManifests. by rewrite insertion_sort_perm.
Qed.

(** The walk of [ReadSnapshot] terminates by itself: the fuel it is given,
    the depth of the tree, is never what ends it, since any more gives the same
    outcome. *)
Theorem walk_terminates {HS : Hashes} p snap d name s k :
  fs_names_ok (os_fs s) → Forall seg_ok d →
  walk_snapshot (S (fs_depth (os_fs s)) + k) p snap (render_abs d) name (is_dir_node (fs_get (os_fs s) d)) s =
  walk_snapshot (S (fs_depth (os_fs s))) p snap (render_abs d) name (is_dir_node (fs_get (os_fs s) d)) s.
Proof.
  intros Hnames Hok. induction k as [|k IH]; [by rewrite Nat.add_0_r|].
  rewrite <- IH, Nat.add_succ_r. symmetry. apply walk_fuel; [done..|lia].
Qed.

Section witnesses.
#[local] Instance toy_hashes : Hashes := {| sha256_sum s := take_bytes 4 s; sha1_sum s := s |}.
Let p := NewPaths "/hub" "org/m" Model.
Let fs : gmap fpath fnode := {[
  ["hub"] := FDir 493; ["hub"; "models--org--m"] := FDir 493;
  ["hub"; "models--org--m"; "blobs"] := FDir 493;
  ["hub"; "models--org--m"; "blobs"; "abc"] := FFile (mk_regular "data" 420 7);
  ["hub"; "models--org--m"; "snapshots"] := FDir 493;
  ["hub"; "models--org--m"; "snapshots"; "c1"] := FDir 493;
  ["hub"; "models--org--m"; "snapshots"; "c1"; ".gitattributes"] := FLink "../../blobs/abc" ]}.
Let s0 := mk_osst fs [] [] 0.

Let l0 := [mk_FileManifest ".gitattributes" "abc" 4 (hex_encode "data") 420 7 false ""
             "/hub/models--org--m/blobs/abc"].

Lemma fs_wit_names : fs_names_ok fs.
Proof.
  assert (Forall (λ kn : fpath * fnode, Forall seg_ok kn.1) (map_to_list fs)) as H.
  { apply (bool_decide_unpack _). vm_compute. exact I. }
  intros q n Hq. rewrite Forall_forall in H. apply (H (q, n)). by apply elem_of_map_to_list.
Defined.

Lemma ReadSnapshot_exact_witness :
  ∃ l s' m, ReadSnapshot p "c1" s0 = (Ok l, s') ∧ m ∈ l ∧ mf_Path m = ".gitattributes" ∧
    mf_BlobName m = "abc".
Proof.
  destruct (ReadSnapshot p "c1" s0) as [r s'] eqn:E.
  assert (r = Ok l0) as ->.
  { transitivity (fst (ReadSnapshot p "c1" s0)); [by rewrite E|vm_compute; reflexivity]. }
  destruct (ReadSnapshot_exact "/hub" "org/m" Model "c1" s0 l0 s') as (_ & _ & _ & Hc);
    [reflexivity|by split_and!|exact fs_wit_names|reflexivity|exact E|].
  destruct (Hc [".gitattributes"] (mk_finfo ".gitattributes" false true 4 420 7)) as (m & Hm & Hp);
    [|reflexivity|vm_compute; reflexivity|reflexivity|].
  - split; [reflexivity|]. split; [done|]. split; [done|]. eexists. split; [vm_compute; reflexivity|reflexivity].
  - eexists _, _, m. split; [reflexivity|]. split; [exact Hm|]. split; [exact Hp|].
    by apply list_elem_of_singleton in Hm as ->.
Defined.

Lemma walk_terminates_witness :
  walk_snapshot (S (fs_depth fs) + 3) p "/" (render_abs []) "/" true s0
  = walk_snapshot (S (fs_depth fs)) p "/" (render_abs []) "/" true s0.
Proof. apply (walk_terminates p "/" [] "/" s0 3); [exact fs_wit_names|constructor]. Defined.
End witnesses.
