(* ===== verification/Sources.v ===== *)
(** * internal/pull/sources.go: where a pull may fetch from. *)
From S2P Require Import Prelude GoStrings.

Record Sources := mk_Sources { P2P : bool; HF : bool }.
#[export] Instance Sources_eq_dec : EqDecision Sources.
Proof. solve_decision. Defined.

Definition DefaultSources : Sources := mk_Sources true true.

(** The loop over the comma-separated tokens. *)
Definition p2p_names : list string := ["p2p"; "ipfs"; "swarm"; "peer"].
Definition hf_names : list string := ["hf"; "huggingface"; "hugging-face"; "hub"].
Fixpoint parse_tokens (toks : list string) (s : Sources) : result Sources :=
  match toks with
  | [] => Ok s
  | tok :: rest =>
      let w := to_lower (trim_space tok) in
      if decide (w ∈ p2p_names) then parse_tokens rest (mk_Sources true (HF s))
      else if decide (w ∈ hf_names) then parse_tokens rest (mk_Sources (P2P s) true)
      else if decide (w = "") then parse_tokens rest s
      else Err (errorf "unknown source: want p2p, hf, or p2p,hf")
  end.
Definition ParseSources (spec : string) : result Sources :=
  if decide (trim_space spec = "") then Ok DefaultSources
  else
    s ← parse_tokens (split_on ","%char spec) (mk_Sources false false);
    if negb (P2P s) && negb (HF s) then Err (errorf "at least one of p2p, hf must be selected")
    else Ok s.

Definition String_ (s : Sources) : string :=
  join "," ((if P2P s then ["p2p"] else []) ++ (if HF s then ["hf"] else [])).

Definition resolve (s : Sources) : Sources := if P2P s || HF s then s else DefaultSources.

(** ** What a spec means *)
Definition token (tok : string) : string := to_lower (trim_space tok).
Definition known (tok : string) : Prop :=
  token tok ∈ p2p_names ∨ token tok ∈ hf_names ∨ token tok = "".
Definition names (l : list string) (toks : list string) : bool :=
  existsb (λ t, bool_decide (token t ∈ l)) toks.

Lemma names_disjoint w : w ∈ p2p_names → w ∉ hf_names ∧ w ≠ "".
Proof.
  unfold p2p_names, hf_names. rewrite !elem_of_cons, !elem_of_nil.
  intros [->|[->|[->|[->|[]]]]]; (split; [|done]); intros H; repeat destruct H as [H|H]; done.
Qed.
Lemma parse_tokens_spec toks s r :
  parse_tokens toks s = Ok r ↔
  Forall known toks ∧ r = mk_Sources (P2P s || names p2p_names toks) (HF s || names hf_names toks).
Proof.
  revert s. induction toks as [|t toks IH]; intros s; cbn [parse_tokens names existsb].
  - rewrite !orb_false_r. destruct s. naive_solver.
  - rewrite Forall_cons. fold (token t). fold (names p2p_names toks) (names hf_names toks). unfold known at 1.
    destruct (decide (token t ∈ p2p_names)) as [Hp|Hp].
    { apply names_disjoint in Hp as Hn. rewrite IH. cbn [P2P HF].
      rewrite (bool_decide_eq_true_2 _ Hp), (bool_decide_eq_false_2 (token t ∈ hf_names)) by tauto.
      rewrite !orb_true_r. cbn. tauto. }
    rewrite (bool_decide_eq_false_2 _ Hp).
    destruct (decide (token t ∈ hf_names)) as [Hh|Hh].
    { rewrite IH, (bool_decide_eq_true_2 _ Hh). cbn [P2P HF]. rewrite !orb_true_r. cbn. tauto. }
    rewrite (bool_decide_eq_false_2 _ Hh). destruct (decide (token t = "")) as [He|He].
    { rewrite IH. cbn. tauto. }
    naive_solver.
Qed.

(** A spec is accepted exactly when it is blank, or every comma-separated
    token is blank or a known name and at least one names a source; the result
    holds the sources named, so order, case, repetition and padding do not
    matter.  A typo is never read as the default. *)
Theorem ParseSources_spec spec s :
  ParseSources spec = Ok s ↔
  (trim_space spec = "" ∧ s = DefaultSources) ∨
  (trim_space spec ≠ "" ∧ Forall known (split_on ","%char spec) ∧
   P2P s = names p2p_names (split_on ","%char spec) ∧
   HF s = names hf_names (split_on ","%char spec) ∧
   (P2P s = true ∨ HF s = true)).
Proof.
  unfold ParseSources. destruct (decide (trim_space spec = "")) as [Hb|Hb]; [naive_solver|].
  generalize (split_on ","%char spec). intros toks. unfold mbind, result_bind.
  destruct (parse_tokens toks (mk_Sources false false)) as [r|e] eqn:E.
  - apply parse_tokens_spec in E as [Hk ->]. cbn [P2P HF orb].
    destruct s as [sp sh]. cbn [P2P HF].
    destruct (names p2p_names toks), (names hf_names toks); simpl; naive_solver.
  - split; [done|]. intros [[? _]|(_ & Hk & _)]; [done|].
    assert (parse_tokens toks (mk_Sources false false) = Ok
      (mk_Sources (false || names p2p_names toks) (false || names hf_names toks))) as E'
      by by apply parse_tokens_spec.
    congruence.
Qed.

(** What one side sends, [String], the other reads back, [ParseSources], as
    the sources the pull would have used: the unset value is the default. *)
Lemma sources_roundtrip s : ParseSources (String_ s) = Ok (resolve s).
Proof. by destruct s as [[] []]. Qed.
