(* ===== verification/Evict.v ===== *)
(** * internal/evict: removing a shared revision.

    A [Target] is the storage evict works on: the mapping table, the main block
    store, the filestore references and the file system holding the HF cache.
    [progress] messages are kept in a log.

    A Go map has no iteration order: [map_order] stands for the order one run
    happens to use.  The recursion of [walk] is bounded by fuel; any amount that
    covers the links of the stored blocks gives the same set. *)
From stdpp Require Import gmap.
From S2P Require Import Prelude GoStrings GoPath GoFS Json Protoio Lib Store Mapping Hfcache Tree.

(** ** Searching a graph with a visited set *)
Section dfs.
Context {A : Type} `{Countable A} (succ : A → list A).
Implicit Types (x y : A) (out U : gset A).

Fixpoint dfs (fuel : nat) (x : A) (out : gset A) : gset A :=
  match fuel with
  | O => out
  | S fuel' =>
      if decide (x ∈ out) then out
      else foldl (λ out y, dfs fuel' y out) ({[x]} ∪ out) (succ x)
  end.

Definition edge x y : Prop := y ∈ succ x.
Definition closed out : Prop := ∀ x y, x ∈ out → y ∈ succ x → y ∈ out.

(** [x] is searched from [out] to [out']: [out'] grows by nodes reachable from
    it, whose own successors are all there. *)
Definition searched (out out' : gset A) (l : list A) : Prop :=
  out ⊆ out' ∧ (∀ x, x ∈ l → x ∈ out') ∧
  (∀ z, z ∈ out' → z ∈ out ∨ ∃ x, x ∈ l ∧ rtc edge x z) ∧
  (∀ z y, z ∈ out' → z ∉ out → y ∈ succ z → y ∈ out').

Lemma searched_cons out out' out'' x l :
  searched out out' [x] → searched out' out'' l → searched out out'' (x :: l).
Proof.
  intros (Ho & Hx & Hr & Hc) (Ho' & Hl & Hr' & Hc'). split_and!.
  - by etrans.
  - intros z [->|Hz]%elem_of_cons; [apply Ho', Hx, list_elem_of_here|by apply Hl].
  - intros z [Hz|(w & Hw & Hzw)]%Hr'; [|right; exists w; set_solver].
    apply Hr in Hz as [Hz|(w & ->%list_elem_of_singleton & Hzw)]; [by left|].
    right. exists x. split; [apply list_elem_of_here|done].
  - intros z y Hz Hn Hy. destruct (decide (z ∈ out')) as [Hz'|Hz']; [|by eapply Hc'].
    apply Ho'. by eapply Hc.
Qed.
Lemma searched_nil out : searched out out [].
Proof. split_and!; [done|set_solver|by left|done]. Qed.

Lemma dfs_searched U fuel x out :
  closed U → x ∈ U → out ⊆ U → size (U ∖ out) ≤ fuel →
  dfs fuel x out ⊆ U ∧ searched out (dfs fuel x out) [x].
Proof.
  intros HU. revert x out. induction fuel as [|fuel IH]; intros x out Hx Hout Hsize; cbn [dfs].
  - assert (U ∖ out ≡ ∅) as He by (apply size_empty_iff; lia).
    split; [done|]. split_and!; [done| |by left|done]. set_solver.
  - destruct (decide (x ∈ out)) as [Hin|Hnin].
    { split; [done|]. split_and!; [done|set_solver|by left|done]. }
    assert (size (U ∖ ({[x]} ∪ out)) ≤ fuel) as Hs1.
    { assert (U ∖ ({[x]} ∪ out) ⊂ U ∖ out) as Hlt%subset_size by set_solver. lia. }
    assert (∀ l out1, (∀ y, y ∈ l → y ∈ U) → {[x]} ∪ out ⊆ out1 → out1 ⊆ U →
      foldl (λ o y, dfs fuel y o) out1 l ⊆ U ∧
      searched out1 (foldl (λ o y, dfs fuel y o) out1 l) l) as Hfold.
    { induction l as [|y l IHl]; intros out1 Hl Ho1 Hu1; [split; [done|apply searched_nil]|].
      cbn [foldl]. destruct (IH y out1) as [Hu2 Hs2]; [set_solver|done| |].
      { etrans; [|exact Hs1]. apply subseteq_size. set_solver. }
      destruct (IHl (dfs fuel y out1)) as [Hu3 Hs3]; [set_solver| |done|].
      { destruct Hs2 as [? _]. by etrans. }
      split; [done|]. by eapply searched_cons. }
    destruct (Hfold (succ x) ({[x]} ∪ out)) as [Hu (Ho & Hl & Hr & Hc)]; [by intros y; apply HU|done|set_solver|].
    split; [done|]. split_and!.
    + set_solver.
    + intros z ->%list_elem_of_singleton. set_solver.
    + intros z [Hz|(y & Hy & Hyz)]%Hr.
      * apply elem_of_union in Hz as [->%elem_of_singleton|Hz]; [|by left].
        right. exists x. split; [apply list_elem_of_here|done].
      * right. exists x. split; [apply list_elem_of_here|]. by eapply rtc_l.
    + intros z y Hz Hn Hy. destruct (decide (z = x)) as [->|Hne]; [by apply Hl|].
      eapply Hc; [done|set_solver|done].
Qed.

Lemma closed_reach out x z : closed out → x ∈ out → rtc edge x z → z ∈ out.
Proof. intros Hc Hx Hr. induction Hr as [|x y z Hxy _ IH]; [done|]. apply IH. by eapply Hc. Qed.

(** From a closed set, the search adds exactly what is reachable. *)
Lemma dfs_reachable U fuel x out :
  closed U → x ∈ U → out ⊆ U → size (U ∖ out) ≤ fuel → closed out →
  closed (dfs fuel x out) ∧ ∀ z, z ∈ dfs fuel x out ↔ z ∈ out ∨ rtc edge x z.
Proof.
  intros HU Hx Ho Hs Hc. destruct (dfs_searched U fuel x out) as [_ (Hsub & Hl & Hr & Hcl)]; [done..|].
  assert (closed (dfs fuel x out)) as Hclosed.
  { intros z y Hz Hy. destruct (decide (z ∈ out)) as [Hz'|Hz']; [apply Hsub; by eapply Hc|by eapply Hcl]. }
  split; [done|]. intros z. split.
  - intros [Hz|(w & ->%list_elem_of_singleton & Hw)]%Hr; auto.
  - intros [Hz|Hz]; [by apply Hsub|]. eapply closed_reach; [done| |done]. apply Hl, list_elem_of_here.
Qed.
End dfs.

(** ** The target and its operations *)
Section evict.
Context {MF : Multiformats} {IP : Ipld} {BS : Blockstore} {FM : FileManager} {DS : Datastore} {BA : Batching}.

Record target := mk_target {
  tg_map : bstate; tg_bs : bstore; tg_fm : fman; tg_os : osst; tg_log : list string
}.
Definition lift_map {A} : M bstate A → M target A :=
  m_zoom tg_map (λ x s, mk_target x (tg_bs s) (tg_fm s) (tg_os s) (tg_log s)).
Definition lift_bs {A} : M bstore A → M target A :=
  m_zoom tg_bs (λ x s, mk_target (tg_map s) x (tg_fm s) (tg_os s) (tg_log s)).
Definition lift_fm {A} : M fman A → M target A :=
  m_zoom tg_fm (λ x s, mk_target (tg_map s) (tg_bs s) x (tg_os s) (tg_log s)).
Definition lift_os {A} : M osst A → M target A :=
  m_zoom tg_os (λ x s, mk_target (tg_map s) (tg_bs s) (tg_fm s) x (tg_log s)).
Definition progress (msg : string) : M target unit :=
  m_modify (λ s, mk_target (tg_map s) (tg_bs s) (tg_fm s) (tg_os s) (tg_log s ++ [msg])).

Definition short (s : string) : string := if 12 <? String.length s then take_bytes 12 s else s.

Fixpoint walk (fuel : nat) (bs : bstore) (c : cid) (out : gset cid) : gset cid :=
  match fuel with
  | O => out
  | S fuel' =>
      if decide (c ∈ out) then out
      else
        let out := {[c]} ∪ out in
        match bs_has bs c with
        | Ok true =>
            match bs_get bs c with
            | Err _ => out
            | Ok data =>
                match decode_protobuf data with
                | Err _ => out
                | Ok links =>
                    foldl (λ out l, match link_cid l with
                                    | Some lc => walk fuel' bs lc out
                                    | None => out
                                    end) out links
                end
            end
        | _ => out
        end
  end.

Definition referencedPaths (root : string) (fds : fman) : result (gset string) :=
  paths ← fm_paths fds;
  Ok (foldl (λ out p, if decide (p = "") then out else {[clean (resolve_path root p)]} ∪ out) ∅ paths).

(** One step of the loop that deletes the revision's own blocks. *)
Definition evict_cid (keep : gset cid) (c : cid) : M target unit :=
  if decide (c ∈ keep) then mret tt
  else
    f ← m_gets tg_fm;
    match fm_has f c with
    | Ok true => m_wrap "delete filestore ref" (lift_fm (λ f, fm_delete f c))
    | _ =>
        b ← m_gets tg_bs;
        match bs_has b c with
        | Ok true => m_wrap "delete block" (lift_bs (λ b, bs_delete b c))
        | _ => mret tt
        end
    end.

Definition remove_blob (paths : Paths) (remaining : gset string) (f : FileManifest) : M target unit :=
  if negb (SafeBlobName (mf_BlobName f)) then mret tt
  else
    let blob := clean (BlobPath paths (mf_BlobName f)) in
    if decide (blob ∈ remaining) then mret tt
    else
      r ← m_try (lift_os (os_remove blob));
      match r with
      | Err err => if errors_is err SNotExist then mret tt else m_fail (ErrWrap "remove blob" err)
      | Ok _ => mret tt
      end.

(** What the other mappings still reach. *)
Definition keep_set (fuel : nat) (bs : bstore) (commit : string) (others : list Entry) : gset cid :=
  foldl (λ keep o,
           if decide (en_CommitHash o = commit) then keep
           else match cid_decode (en_ActualCID o) with
                | Err _ => keep
                | Ok oc => walk fuel bs oc keep
                end) ∅ others.

(** The HF cache plumbing of the revision. *)
Definition remove_plumbing (paths : Paths) (commit : string) : M osst unit :=
  m_ignore (os_remove_all (SnapshotDir paths commit)) ;;
  m_ignore (os_remove (TreePath paths commit)) ;;
  cur ← m_try (CurrentCommit paths "main");
  match cur with
  | Ok cur => if decide (cur = commit) then m_ignore (os_remove (RefPath paths "main")) else mret tt
  | Err _ => mret tt
  end.

Variable fuel : nat.
Variable map_order : gset cid → list cid.
Variable hub : string.

Definition Commit (entry : Entry) : M target unit :=
  let paths := NewPaths hub (en_RepoID entry) (en_RepoType entry) in
  others ← lift_map DB.List;
  bs ← m_gets tg_bs;
  let keep := keep_set fuel bs (en_CommitHash entry) others in
  root ← m_lift (wrap_result "bad actual cid" (cid_decode (en_ActualCID entry)));
  m_foreach (evict_cid keep) (map_order (walk fuel bs root ∅)) ;;
  fds ← m_gets tg_fm;
  remaining ← m_lift (referencedPaths hub fds);
  m_foreach (remove_blob paths remaining) (en_Files entry) ;;
  m_wrap "delete mapping" (lift_map (DB.Delete (en_CommitHash entry))) ;;
  lift_os (remove_plumbing paths (en_CommitHash entry)) ;;
  progress ("evicted " +:+ en_RepoID entry +:+ "@" +:+ short (en_CommitHash entry)).

(** The count is returned beside the error. *)
Fixpoint repo_loop (repoID : string) (entries : list Entry) (n : Z) : M target (Z * result unit) :=
  match entries with
  | [] =>
      if decide (n = 0%Z) then mret (0%Z, Err (errorf "no shared revision"))
      else mret (n, Ok tt)
  | e :: rest =>
      if decide (en_RepoID e ≠ repoID) then repo_loop repoID rest n
      else
        r ← m_try (Commit e);
        match r with
        | Err err => mret (n, Err err)
        | Ok _ => repo_loop repoID rest (n + 1)%Z
        end
  end.
Definition Repo (repoID : string) : M target (Z * result unit) :=
  r ← m_try (lift_map DB.List);
  match r with
  | Err err => mret (0%Z, Err err)
  | Ok entries => repo_loop repoID entries 0%Z
  end.
End evict.

(** ** The walk collects what is reachable *)
Section walk.
Context {MF : Multiformats} {IP : Ipld} {BS : Blockstore} {BL : BlockstoreLaws}.
Implicit Types (b : bstore) (c : cid) (out : gset cid).

Definition pb_links (data : string) : list cid :=
  match decode_protobuf data with Ok ls => omap link_cid ls | Err _ => [] end.
(** The links [walk] follows from [c] in the store [b]. *)
Definition dag_succ b c : list cid :=
  match bs_has b c with
  | Ok true => match bs_get b c with Ok data => pb_links data | Err _ => [] end
  | _ => []
  end.
Definition reaches b : cid → cid → Prop := rtc (edge (dag_succ b)).
(** Every link of every stored block. *)
Definition dag_cids b : gset cid :=
  list_to_set (flat_map (λ kv, pb_links kv.2) (map_to_list (bs_view b))).
Definition enough b (fuel : nat) : Prop := S (size (dag_cids b)) ≤ fuel.

Lemma walk_dfs fuel b c out : walk fuel b c out = dfs (dag_succ b) fuel c out.
Proof.
  revert c out. induction fuel as [|fuel IH]; intros c out; [done|]. cbn [walk dfs].
  case_decide; [done|]. unfold dag_succ at 2.
  destruct (bs_has b c) as [[]|]; [|done|done]. destruct (bs_get b c) as [data|]; [|done].
  unfold pb_links. destruct (decode_protobuf data) as [ls|]; [|done].
  generalize ({[c]} ∪ out). induction ls as [|l ls IHl]; intros o; [done|]. cbn [foldl].
  rewrite IHl. unfold omap at 2. simpl. destruct (link_cid l); [|done]. simpl. by rewrite IH.
Qed.
Lemma dag_succ_known b c y : bs_healthy b → y ∈ dag_succ b c → y ∈ dag_cids b.
Proof.
  intros Hb. unfold dag_succ. rewrite bs_has_spec by done. case_bool_decide as Hs; [|set_solver].
  destruct Hs as [d Hd]. rewrite (bs_get_spec _ _ _ Hb Hd). intros Hy.
  unfold dag_cids. rewrite elem_of_list_to_set, list_elem_of_In, in_flat_map.
  exists (cid_hash c, d). split; [by apply list_elem_of_In, elem_of_map_to_list|by apply list_elem_of_In].
Qed.
Lemma walk_run fuel b c out :
  bs_healthy b → enough b fuel → closed (dag_succ b) out →
  closed (dag_succ b) (walk fuel b c out) ∧
  ∀ z, z ∈ walk fuel b c out ↔ z ∈ out ∨ reaches b c z.
Proof.
  intros Hb Hf Hc. rewrite walk_dfs. apply (dfs_reachable _ (out ∪ {[c]} ∪ dag_cids b)); try done.
  - intros x y _ Hy. apply dag_succ_known in Hy; [set_solver|done].
  - set_solver.
  - set_solver.
  - etrans; [|exact Hf]. transitivity (size ({[c]} ∪ dag_cids b)); [apply subseteq_size; set_solver|].
    rewrite size_union_alt, size_singleton.
    assert (size (dag_cids b ∖ {[c]}) ≤ size (dag_cids b)) by (apply subseteq_size; set_solver). lia.
Qed.
Lemma closed_empty b : closed (dag_succ b) ∅.
Proof. intros x y. set_solver. Qed.

Lemma keep_run fuel b commit others :
  bs_healthy b → enough b fuel → ∀ z,
  z ∈ keep_set fuel b commit others ↔
  ∃ o oc, o ∈ others ∧ en_CommitHash o ≠ commit ∧ cid_decode (en_ActualCID o) = Ok oc ∧ reaches b oc z.
Proof.
  intros Hb Hf. unfold keep_set.
  assert (∀ keep, closed (dag_succ b) keep → ∀ z,
    z ∈ foldl (λ keep o, if decide (en_CommitHash o = commit) then keep
                         else match cid_decode (en_ActualCID o) with
                              | Err _ => keep | Ok oc => walk fuel b oc keep end) keep others ↔
    z ∈ keep ∨ ∃ o oc, o ∈ others ∧ en_CommitHash o ≠ commit ∧
      cid_decode (en_ActualCID o) = Ok oc ∧ reaches b oc z) as Hgen.
  { induction others as [|o others IH]; intros keep Hk z; cbn [foldl].
    { split; [by left|]. intros [?|(o & oc & Ho & _)]; [done|]. set_solver. }
    setoid_rewrite elem_of_cons.
    assert (∀ Q : Entry → cid → Prop, (∃ o' oc, (o' = o ∨ o' ∈ others) ∧ Q o' oc) ↔
      (∃ oc, Q o oc) ∨ ∃ o' oc, o' ∈ others ∧ Q o' oc) as Hsplit.
    { clear. intros Q. split; [|intros [(oc & ?)|(o' & oc & ?)]; eauto 6; naive_solver].
      intros (o' & oc & [->|?] & ?); eauto. }
    rewrite (Hsplit (λ o oc, en_CommitHash o ≠ commit ∧ cid_decode (en_ActualCID o) = Ok oc ∧ reaches b oc z)).
    destruct (decide (en_CommitHash o = commit)) as [He|He].
    { rewrite IH by done. split; [tauto|]. intros [?|[(? & ? & _)|?]]; tauto. }
    destruct (cid_decode (en_ActualCID o)) as [oc|err] eqn:Ed.
    - destruct (walk_run fuel b oc keep) as [Hc' Hw]; [done..|]. rewrite IH, Hw by done.
      split; [intros [[?|?]|?]; eauto 8|]. intros [?|[(oc' & _ & [= <-] & ?)|?]]; tauto.
    - rewrite IH by done. split; [tauto|]. intros [?|[(? & _ & ? & _)|?]]; [tauto|done|tauto]. }
  intros z. rewrite Hgen by apply closed_empty. set_solver.
Qed.

(** [walk] terminates with exactly the CIDs reachable through stored dag-pb
    blocks, whatever the shape of the graph, cycles and sharing included: any
    fuel above the number of stored links gives that set. *)
Theorem walk_reachable fuel b c :
  bs_healthy b → enough b fuel → ∀ z, z ∈ walk fuel b c ∅ ↔ reaches b c z.
Proof. intros Hb Hf z. destruct (walk_run fuel b c ∅) as [_ ->]; [done..|apply closed_empty|]. set_solver. Qed.
End walk.

(** ** What one eviction does *)
Section commit.
Context {MF : Multiformats} {IP : Ipld} {BS : Blockstore} {FM : FileManager} {DS : Datastore} {BA : Batching}.
Context {BSL : BlockstoreLaws} {FML : FileManagerLaws} {DL : DatastoreLaws} {BAL : BatchingLaws}.
Context (map_order : gset cid → list cid) (map_order_perm : ∀ X, map_order X ≡ₚ elements X).
Context (fuel : nat) (hub : string) (Hhub : is_abs hub = true).
Implicit Types (s : target) (m : gmap string Entry) (e : Entry) (keep : gset cid) (h : multihash).

Definition healthy s : Prop := bs_healthy (tg_bs s) ∧ fm_healthy (tg_fm s).

(** [s'] differs from [s] only in blocks and references under [H]. *)
Definition only_blocks (H : multihash → Prop) s s' : Prop :=
  tg_map s' = tg_map s ∧ tg_os s' = tg_os s ∧
  (healthy s → healthy s' ∧ ∀ h, ¬ H h →
     bs_view (tg_bs s') !! h = bs_view (tg_bs s) !! h ∧ fm_view (tg_fm s') !! h = fm_view (tg_fm s) !! h).
#[local] Instance only_blocks_preorder H : PreOrder (only_blocks H).
Proof.
  split; [by intros s|]. intros s1 s2 s3 (M1 & O1 & H1) (M2 & O2 & H2). split_and!; [congruence..|].
  intros Hs. destruct (H1 Hs) as [Hs2 E1]. destruct (H2 Hs2) as [Hs3 E2]. split; [done|].
  intros h Hh. destruct (E2 h Hh) as [-> ->]. by apply E1.
Qed.
Lemma fm_delete_blocks (H : multihash → Prop) c :
  H (cid_hash c) → pres (only_blocks H) (lift_fm (λ f, fm_delete f c)).
Proof.
  intros Hc s. unfold lift_fm, m_zoom. destruct (fm_delete (tg_fm s) c) as [r f'] eqn:E. simpl.
  split_and!; [done..|]. intros [Hb Hf]. destruct (fm_delete_spec _ _ _ _ Hf E) as (_ & Hf' & Hv).
  split; [done|]. intros h Hh. simpl. rewrite Hv, lookup_delete_ne; [done|]. by intros <-.
Qed.
Lemma bs_delete_blocks (H : multihash → Prop) c :
  H (cid_hash c) → pres (only_blocks H) (lift_bs (λ b, bs_delete b c)).
Proof.
  intros Hc s. unfold lift_bs, m_zoom. destruct (bs_delete (tg_bs s) c) as [r b'] eqn:E. simpl.
  split_and!; [done..|]. intros [Hb Hf]. destruct (bs_delete_spec _ _ _ _ Hb E) as (_ & Hb' & Hv).
  split; [done|]. intros h Hh. simpl. rewrite Hv, lookup_delete_ne; [done|]. by intros <-.
Qed.
Lemma evict_cid_blocks (H : multihash → Prop) keep c :
  (c ∉ keep → H (cid_hash c)) → pres (only_blocks H) (evict_cid keep c).
Proof.
  intros Hc. unfold evict_cid. case_decide as Hk; [apply pres_ret, _|].
  apply pres_bind; [apply _|apply pres_gets, _|]. intros f.
  assert (pres (only_blocks H) (m_wrap "delete filestore ref" (lift_fm (λ f, fm_delete f c)))).
  { apply pres_wrap, fm_delete_blocks. auto. }
  assert (pres (only_blocks H) (b ← m_gets tg_bs;
    match bs_has b c with
    | Ok true => m_wrap "delete block" (lift_bs (λ b, bs_delete b c))
    | _ => mret tt
    end)).
  { apply pres_bind; [apply _|apply pres_gets, _|]. intros b.
    destruct (bs_has b c) as [[]|]; [apply pres_wrap, bs_delete_blocks; auto|apply pres_ret, _..]. }
  by destruct (fm_has f c) as [[]|].
Qed.

(** On success nothing of [c] is left in the references, and its block is gone
    too unless a reference stood for it. *)
Definition forgotten s s' c : Prop :=
  fm_view (tg_fm s') !! cid_hash c = None ∧
  (bs_view (tg_bs s') !! cid_hash c = None ∨ is_Some (fm_view (tg_fm s) !! cid_hash c)).
Lemma evict_cid_ok keep c s s' :
  healthy s → c ∉ keep → evict_cid keep c s = (Ok tt, s') → forgotten s s' c.
Proof.
  intros [Hb Hf] Hk. unfold evict_cid. rewrite decide_False by done. rewrite bind_gets_run.
  rewrite fm_has_spec by done. case_bool_decide as Hs; unfold forgotten.
  - unfold m_wrap, lift_fm, m_zoom. destruct (fm_delete (tg_fm s) c) as [r f'] eqn:E.
    destruct (fm_delete_spec _ _ _ _ Hf E) as (-> & Hf' & Hv). intros [= <-]. simpl.
    rewrite Hv, lookup_delete_eq. auto.
  - rewrite bind_gets_run, bs_has_spec by done. apply eq_None_not_Some in Hs. case_bool_decide as Hs'.
    + unfold m_wrap, lift_bs, m_zoom. destruct (bs_delete (tg_bs s) c) as [r b'] eqn:E.
      destruct (bs_delete_spec _ _ _ _ Hb E) as (-> & Hb' & Hv). intros [= <-]. simpl.
      rewrite Hv, lookup_delete_eq. auto.
    + intros [= <-]. apply eq_None_not_Some in Hs'. auto.
Qed.

(** Deleting never brings anything back. *)
Definition shrinks s s' : Prop :=
  healthy s → healthy s' ∧ bs_view (tg_bs s') ⊆ bs_view (tg_bs s) ∧ fm_view (tg_fm s') ⊆ fm_view (tg_fm s).
#[local] Instance shrinks_preorder : PreOrder shrinks.
Proof.
  split; [by intros s|]. intros s1 s2 s3 H1 H2 Hs. destruct (H1 Hs) as (Hs2 & A1 & B1).
  destruct (H2 Hs2) as (Hs3 & A2 & B2). split_and!; [done|by etrans|by etrans].
Qed.
Lemma evict_cid_shrinks keep c : pres shrinks (evict_cid keep c).
Proof.
  intros s [Hb Hf]. unfold evict_cid. case_decide; [done|]. rewrite bind_gets_run, fm_has_spec by done.
  case_bool_decide.
  - unfold m_wrap, lift_fm, m_zoom. destruct (fm_delete (tg_fm s) c) as [r f'] eqn:E.
    destruct (fm_delete_spec _ _ _ _ Hf E) as (-> & Hf' & Hv). simpl. split_and!; [done|done|].
    rewrite Hv. apply delete_subseteq.
  - rewrite bind_gets_run, bs_has_spec by done. case_bool_decide; [|done].
    unfold m_wrap, lift_bs, m_zoom. destruct (bs_delete (tg_bs s) c) as [r b'] eqn:E.
    destruct (bs_delete_spec _ _ _ _ Hb E) as (-> & Hb' & Hv). simpl. split_and!; [done| |done].
    rewrite Hv. apply delete_subseteq.
Qed.
Lemma evict_cids_ok keep l s s' :
  healthy s → m_foreach (evict_cid keep) l s = (Ok tt, s') → ∀ c, c ∈ l → c ∉ keep → forgotten s s' c.
Proof.
  revert s. induction l as [|x l IH]; intros s Hs H c Hc Hk; [set_solver|]. cbn [m_foreach] in H.
  apply bind_ok_inv in H as ([] & s1 & H1 & H2). pose proof (evict_cid_shrinks keep x s) as Hsh.
  rewrite H1 in Hsh. destruct (Hsh Hs) as (Hs1 & Hb1 & Hf1). simpl in *.
  apply elem_of_cons in Hc as [->|Hc].
  - destruct (evict_cid_ok _ _ _ _ Hs Hk H1) as [A B].
    pose proof (pres_foreach shrinks (evict_cid keep) l (evict_cid_shrinks keep) s1) as Hsh2.
    rewrite H2 in Hsh2. destruct (Hsh2 Hs1) as (_ & Hb2 & Hf2). simpl in *. split.
    + destruct (fm_view (tg_fm s') !! cid_hash x) eqn:E; [|done].
      eapply lookup_weaken in E; [|exact Hf2]. congruence.
    + destruct B as [B|B]; [left|by right]. destruct (bs_view (tg_bs s') !! cid_hash x) eqn:E; [|done].
      eapply lookup_weaken in E; [|exact Hb2]. congruence.
  - destruct (IH s1 Hs1 H2 c Hc Hk) as [A B]. split; [done|]. destruct B as [B|[r B]]; [by left|right].
    exists r. by eapply lookup_weaken.
Qed.

(** *** The stages of [Commit] *)
Definition finish (remaining : gset string) e : M target unit :=
  let paths := NewPaths hub (en_RepoID e) (en_RepoType e) in
  m_foreach (remove_blob paths remaining) (en_Files e) ;;
  m_wrap "delete mapping" (lift_map (DB.Delete (en_CommitHash e))) ;;
  lift_os (remove_plumbing paths (en_CommitHash e)) ;;
  progress ("evicted " +:+ en_RepoID e +:+ "@" +:+ short (en_CommitHash e)).

Lemma m_zoom_run {S T A} (get : S → T) (set : T → S → S) (op : M T A) (s : S) r t :
  op (get s) = (r, t) → m_zoom get set op s = (r, set t s).
Proof. unfold m_zoom. by intros ->. Qed.
Lemma List_target s m :
  represents (tg_map s) m → ∃ l, lift_map DB.List s = (Ok l, s) ∧ l ≡ₚ (map_to_list m).*2.
Proof.
  intros Hm. destruct (List_run _ _ Hm) as (l & Hl & Hp & _). exists l. split; [|done].
  unfold lift_map. erewrite m_zoom_run by exact Hl. by destruct s.
Qed.
Lemma referenced_run (f : fman) :
  fm_healthy f → ∃ rem, referencedPaths hub f = Ok rem ∧
  ∀ q, Forall seg_ok q → render_abs q ∈ rem ↔
    ∃ h r, fm_view f !! h = Some r ∧ fr_path r ≠ "" ∧ abs_segs (resolve_path hub (fr_path r)) = q.
Proof.
  intros Hf. destruct (fm_paths_spec f Hf) as (l & Hl & Hp). unfold referencedPaths. rewrite Hl.
  eexists. split; [done|]. intros q Hq.
  assert (∀ out : gset string, render_abs q ∈ foldl (λ out p, if decide (p = "") then out
        else {[clean (resolve_path hub p)]} ∪ out) out l ↔
    render_abs q ∈ out ∨ ∃ p, p ∈ l ∧ p ≠ "" ∧ abs_segs (resolve_path hub p) = q) as Hgen.
  { clear Hl Hp. induction l as [|p l IH]; intros out; cbn [foldl].
    { split; [by left|]. intros [?|(p & Hp & _)]; [done|]. by apply elem_of_nil in Hp. }
    rewrite IH. setoid_rewrite elem_of_cons.
    assert (is_abs (resolve_path hub p) = true) as Ha.
    { unfold resolve_path. destruct (is_abs p) eqn:E; [done|]. by apply is_abs_fjoin2. }
    assert (render_abs q = clean (resolve_path hub p) ↔ abs_segs (resolve_path hub p) = q) as Hc.
    { rewrite clean_abs by done. split; [|by intros <-]. intros E.
      apply (f_equal abs_segs) in E. by rewrite !abs_segs_render in E by (done || apply abs_segs_ok). }
    case_decide as Hd.
    - split; [intros [?|(p' & ? & ?)]; eauto|]. intros [?|(p' & [->|?] & ? & ?)]; [by left|done|eauto].
    - rewrite elem_of_union, elem_of_singleton, Hc.
      split; [intros [[?|?]|(p' & ? & ?)]; eauto 6|]. intros [?|(p' & [->|?] & ? & ?)]; eauto 6. }
  rewrite Hgen. split.
  - intros [?|(p & Hin & Hne & E)]; [set_solver|]. apply Hp in Hin as (h & r & Hh & <-). eauto.
  - intros (h & r & Hh & Hne & E). right. exists (fr_path r). split; [apply Hp; eauto|done].
Qed.

Lemma Commit_run e s m r s' :
  represents (tg_map s) m → healthy s → Commit fuel map_order hub e s = (r, s') →
  (s' = s ∧ is_ok r = false) ∨
  ∃ root others r1 s1,
    cid_decode (en_ActualCID e) = Ok root ∧ others ≡ₚ (map_to_list m).*2 ∧
    m_foreach (evict_cid (keep_set fuel (tg_bs s) (en_CommitHash e) others))
      (map_order (walk fuel (tg_bs s) root ∅)) s = (r1, s1) ∧
    match r1 with
    | Err err => r = Err err ∧ s' = s1
    | Ok _ => ∃ rem, referencedPaths hub (tg_fm s1) = Ok rem ∧ finish rem e s1 = (r, s')
    end.
Proof.
  intros Hm Hs. destruct (List_target s m Hm) as (others & Hl & Hp). unfold Commit.
  rewrite (bind_run_ok _ _ _ _ _ Hl), bind_gets_run.
  destruct (cid_decode (en_ActualCID e)) as [root|err]; [|intros [= <- <-]; by left].
  intros H. right. exists root, others.
  set (keep := keep_set fuel (tg_bs s) (en_CommitHash e) others) in *.
  destruct (m_foreach (evict_cid keep) (map_order (walk fuel (tg_bs s) root ∅)) s) as [r1 s1] eqn:E.
  exists r1, s1. split_and!; [done..|]. unfold m_lift, wrap_result in H. unfold mbind at 1, M_bind at 1 in H.
  destruct r1 as [[]|err].
  - assert (healthy s1) as Hs1.
    { pose proof (pres_foreach shrinks (evict_cid keep) (map_order (walk fuel (tg_bs s) root ∅))
        (evict_cid_shrinks keep) s) as Hsh. rewrite E in Hsh. apply (Hsh Hs). }
    destruct (referenced_run (tg_fm s1)) as (rem & Hrem & _); [apply Hs1|]. exists rem. split; [done|].
    rewrite (bind_run_ok _ _ _ _ _ E), bind_gets_run in H. unfold mbind at 1, M_bind at 1 in H.
    rewrite Hrem in H. exact H.
  - rewrite (bind_run_err _ _ _ _ _ E) in H. by injection H as <- <-.
Qed.

(** *** The files *)
Definition evict_base e : fpath := abs_segs hub ++ [RepoDirName (en_RepoID e) (en_RepoType e)].
Definition referenced (f : fman) (q : fpath) : Prop :=
  ∃ h r, fm_view f !! h = Some r ∧ fr_path r ≠ "" ∧ abs_segs (resolve_path hub (fr_path r)) = q.
Definition blob_at e (g : FileManifest) : fpath := evict_base e ++ ["blobs"; mf_BlobName g].
(** All that an eviction of [e] may touch on disk. *)
Definition evict_footprint e (f : fman) (q : fpath) : Prop :=
  snap_segs (evict_base e) (en_CommitHash e) `prefix_of` q ∨
  q = evict_base e ++ ["trees"; en_CommitHash e +:+ ".json"] ∨
  q = evict_base e ++ ["refs"; "main"] ∨
  ∃ g, g ∈ en_Files e ∧ SafeBlobName (mf_BlobName g) = true ∧ q = blob_at e g ∧ ¬ referenced f q.

Definition on_os (R : relation osst) s s' : Prop := R (tg_os s) (tg_os s').
#[local] Instance on_os_preorder R `{!PreOrder R} : PreOrder (on_os R).
Proof. unfold on_os. split; [intros s; reflexivity|intros s1 s2 s3 ? ?; by etrans]. Qed.
Definition same_stores s s' : Prop :=
  tg_bs s' = tg_bs s ∧ tg_fm s' = tg_fm s.
#[local] Instance same_stores_preorder : PreOrder same_stores.
Proof. split; [by intros s|]. intros s1 s2 s3 [] []. split; congruence. Qed.

Lemma pres_lift_os R {A} (op : M osst A) : pres R op → pres (on_os R) (lift_os op).
Proof. apply (pres_zoom (on_os R) R). done. Qed.
Lemma stores_lift_os {A} (op : M osst A) : pres same_stores (lift_os op).
Proof. intros s. unfold lift_os, m_zoom. by destruct (op (tg_os s)). Qed.
Lemma stores_lift_map {A} (op : M bstate A) : pres same_stores (lift_map op).
Proof. intros s. unfold lift_map, m_zoom. by destruct (op (tg_map s)). Qed.
Lemma os_lift_map R `{!PreOrder R} {A} (op : M bstate A) : pres (on_os R) (lift_map op).
Proof. intros s. unfold lift_map, m_zoom, on_os. destruct (op (tg_map s)). simpl. reflexivity. Qed.
Lemma os_progress R `{!PreOrder R} msg : pres (on_os R) (progress msg).
Proof. intros s. unfold on_os. simpl. reflexivity. Qed.

Lemma blob_path_seg e g :
  SafeBlobName (mf_BlobName g) = true →
  clean (BlobPath (NewPaths hub (en_RepoID e) (en_RepoType e)) (mf_BlobName g)) = render_abs (blob_at e g) ∧
  Forall seg_ok (blob_at e g).
Proof.
  intros [Hg _]%SafeBlobName_spec. pose proof (NewPaths_at hub (en_RepoID e) (en_RepoType e) Hhub) as Hc.
  assert (BlobPath (NewPaths hub (en_RepoID e) (en_RepoType e)) (mf_BlobName g) = render_abs (blob_at e g)) as ->.
  { unfold BlobPath. rewrite (ca_blobs _ _ Hc). apply join_part; [apply (ca_ok _ _ Hc)|done|done]. }
  assert (Forall seg_ok (blob_at e g)) as Hok.
  { unfold blob_at. apply Forall_app. split; [apply (ca_ok _ _ Hc)|].
    constructor; [done|]. constructor; [done|constructor]. }
  split; [|done]. rewrite clean_abs by apply is_abs_render. by rewrite abs_segs_render.
Qed.

Lemma remove_all_frame (P : fpath → Prop) p :
  (∀ q, abs_segs p `prefix_of` q → P q) → pres (os_frame P) (os_remove_all p).
Proof.
  intros H. apply pres_os_update. intros s fs' [= <-] q Hq. left. unfold fs_remove_all.
  rewrite map_lookup_filter. destruct (os_fs s !! q); [|done]. simpl.
  rewrite option_guard_True; [done|]. simpl. auto.
Qed.
Lemma remove_blob_frame f rem e g :
  g ∈ en_Files e → fm_healthy f → referencedPaths hub f = Ok rem →
  pres (on_os (os_frame (evict_footprint e f)))
    (remove_blob (NewPaths hub (en_RepoID e) (en_RepoType e)) rem g).
Proof.
  intros Hg Hf Hrem. unfold remove_blob. destruct (SafeBlobName (mf_BlobName g)) eqn:Hs; [|apply pres_ret, _].
  destruct (blob_path_seg e g Hs) as [-> Hok]. destruct (referenced_run f Hf) as (rem' & Hr' & Hrem').
  assert (rem' = rem) as -> by congruence. simpl.
  case_decide as Hin; [apply pres_ret, _|]. rewrite Hrem' in Hin by done.
  apply pres_bind; [apply _| |intros r; pres_auto]. apply pres_try, pres_lift_os, pres_remove.
  rewrite abs_segs_render by done. right. right. right. exists g. split_and!; [done|done|done|]. exact Hin.
Qed.
Lemma plumbing_frame e f :
  seg_ok (en_CommitHash e) →
  pres (os_frame (evict_footprint e f))
    (remove_plumbing (NewPaths hub (en_RepoID e) (en_RepoType e)) (en_CommitHash e)).
Proof.
  intros Hc. pose proof (NewPaths_at hub (en_RepoID e) (en_RepoType e) Hhub) as Hat.
  unfold remove_plumbing. apply pres_bind; [apply _| |intros _; apply pres_bind; [apply _| |]].
  - apply pres_ignore, remove_all_frame. intros q Hq. left.
    rewrite (snapshot_dir_at _ _ Hat) in Hq by done.
    by rewrite abs_segs_render in Hq by by apply (snap_segs_ok _ _ Hat).
  - apply pres_ignore, pres_remove. right. left.
    rewrite (tree_path_at _ _ _ Hat Hc), abs_segs_render by by eapply tree_segs_ok. by rewrite <- app_assoc.
  - intros _. apply pres_bind; [apply _|apply pres_try|].
    { unfold CurrentCommit. pres_auto. }
    intros [cur|]; [|apply pres_ret, _]. case_decide; [|apply pres_ret, _].
    apply pres_ignore, pres_remove. right. right. left.
    rewrite (ref_path_at _ _ "main" Hat) by done. apply abs_segs_render.
    apply Forall_app. split; [apply (ca_ok _ _ Hat)|]. by repeat constructor.
Qed.

(** Removals only shrink the tree. *)
Definition fs_shrinks (o o' : osst) : Prop := os_fs o' ⊆ os_fs o.
#[local] Instance fs_shrinks_preorder : PreOrder fs_shrinks.
Proof. unfold fs_shrinks. split; [intros o; reflexivity|intros o1 o2 o3 ? ?; by etrans]. Qed.
Lemma shrinks_remove p : pres fs_shrinks (os_remove p).
Proof.
  intros o. destruct (os_remove p o) as [r o'] eqn:E. unfold fs_shrinks.
  simpl. apply os_remove_cases in E as [->| ->]; [done|]. apply delete_subseteq.
Qed.
Lemma shrinks_remove_all p : pres fs_shrinks (os_remove_all p).
Proof.
  intros o. destruct (os_remove_all p o) as [r o'] eqn:E. unfold fs_shrinks. simpl.
  apply os_update_cases in E as [(_ & [= <-] & _)|(err & _ & ->)]; [|done]. apply map_filter_subseteq.
Qed.
Lemma shrinks_query {A} (f : gmap fpath fnode → result A) : pres fs_shrinks (os_query f).
Proof. intros o. destruct (os_query f o) as [r o'] eqn:E. apply os_query_cases in E as [-> _]. unfold fs_shrinks. done. Qed.
Lemma plumbing_shrinks paths commit : pres fs_shrinks (remove_plumbing paths commit).
Proof.
  pose proof shrinks_remove. pose proof shrinks_remove_all. pose proof @shrinks_query.
  unfold remove_plumbing, CurrentCommit, os_read_file. pres_auto; auto.
  all: try (apply pres_ignore; auto). all: try apply _. all: auto.
Qed.
Lemma remove_blob_shrinks paths rem g : pres (on_os fs_shrinks) (remove_blob paths rem g).
Proof.
  unfold remove_blob. destruct (negb _); [apply pres_ret, _|]. cbn zeta. case_decide; [apply pres_ret, _|].
  apply pres_bind; [apply _|apply pres_try, pres_lift_os, shrinks_remove|]. intros r. pres_auto.
Qed.
Lemma remove_blob_gone rem e g s s' :
  SafeBlobName (mf_BlobName g) = true → render_abs (blob_at e g) ∉ rem →
  remove_blob (NewPaths hub (en_RepoID e) (en_RepoType e)) rem g s = (Ok tt, s') →
  os_fs (tg_os s') !! blob_at e g = None.
Proof.
  intros Hs Hn. unfold remove_blob. rewrite Hs. destruct (blob_path_seg e g Hs) as [-> Hok].
  cbn zeta. rewrite decide_False by done. cbn [negb].
  destruct (lift_os (os_remove (render_abs (blob_at e g))) s) as [r s1] eqn:E.
  rewrite (bind_try_run _ _ _ _ _ E). unfold lift_os, m_zoom in E.
  destruct (os_remove (render_abs (blob_at e g)) (tg_os s)) as [r0 o] eqn:Eo. injection E as <- <-.
  assert (blob_at e g ≠ []) as Hne by (unfold blob_at; by destruct (evict_base e)).
  unfold os_remove in Eo. rewrite abs_segs_render in Eo by done.
  destruct (os_update_cases _ _ _ _ Eo) as [(-> & Hr & _)|(err & -> & ->)].
  - intros [= <-]. simpl. apply fs_remove_ok in Hr as ->. apply lookup_delete_eq.
  - destruct (errors_is err SNotExist) eqn:Ex; [|done]. intros [= <-]. simpl.
    apply os_update_err in Eo as [->|Hr]; [done|]. unfold fs_remove, fs_lookup in Hr. simpl in Hr.
    rewrite fs_get_lookup in Hr by done. destruct (os_fs (tg_os s) !! blob_at e g) as [[]|]; [done| |done|done].
    simpl in Hr. rewrite decide_False in Hr by done. destruct (fs_children _ _); [done|].
    by injection Hr as <-.
Qed.

Lemma remove_blobs_gone rem e l s s' g :
  m_foreach (remove_blob (NewPaths hub (en_RepoID e) (en_RepoType e)) rem) l s = (Ok tt, s') →
  g ∈ l → SafeBlobName (mf_BlobName g) = true → render_abs (blob_at e g) ∉ rem →
  os_fs (tg_os s') !! blob_at e g = None.
Proof.
  intros H Hg Hs Hn. revert s H. induction l as [|x l IH]; intros s H; [by apply elem_of_nil in Hg|].
  cbn [m_foreach] in H. apply bind_ok_inv in H as ([] & s1 & H1 & H2).
  apply elem_of_cons in Hg as [->|Hg]; [|by eapply IH].
  apply remove_blob_gone in H1; [|done..].
  pose proof (pres_foreach (on_os fs_shrinks) _ l (remove_blob_shrinks
    (NewPaths hub (en_RepoID e) (en_RepoType e)) rem) s1) as Hsh. rewrite H2 in Hsh.
  destruct (os_fs (tg_os s') !! blob_at e x) eqn:E; [|done].
  eapply lookup_weaken in E; [|exact Hsh]. congruence.
Qed.
Lemma remove_blob_stores paths rem g : pres same_stores (remove_blob paths rem g).
Proof.
  unfold remove_blob. destruct (negb _); [apply pres_ret, _|]. cbn zeta. case_decide; [apply pres_ret, _|].
  apply pres_bind; [apply _|apply pres_try, stores_lift_os|]. intros r. pres_auto.
Qed.
Definition same_map s s' : Prop := tg_map s' = tg_map s.
#[local] Instance same_map_preorder : PreOrder same_map.
Proof. unfold same_map. split; [done|]. intros s1 s2 s3 E1 E2. congruence. Qed.
Lemma remove_blob_map paths rem g : pres same_map (remove_blob paths rem g).
Proof.
  unfold remove_blob. destruct (negb _); [apply pres_ret, _|]. cbn zeta. case_decide; [apply pres_ret, _|].
  apply pres_bind; [apply _| |intros r; pres_auto]. apply pres_try. intros s.
  unfold lift_os, m_zoom. by destruct (os_remove _ (tg_os s)).
Qed.
Lemma plumbing_total paths commit o : (remove_plumbing paths commit o).1 = Ok tt.
Proof.
  unfold remove_plumbing. rewrite !bind_ignore_run.
  rewrite (bind_try_run _ _ _ _ _ (surjective_pairing _)).
  destruct (CurrentCommit _ _ _).1; [case_decide|]; done.
Qed.

Lemma finish_run rem e s r s' m :
  represents (tg_map s) m → healthy s → seg_ok (en_CommitHash e) →
  referencedPaths hub (tg_fm s) = Ok rem → finish rem e s = (r, s') →
  same_stores s s' ∧ on_os (os_frame (evict_footprint e (tg_fm s))) s s' ∧
  represents (tg_map s') (match r with Ok _ => delete (en_CommitHash e) m | Err _ => m end) ∧
  (is_ok r = true → ∀ g, g ∈ en_Files e → SafeBlobName (mf_BlobName g) = true →
     ¬ referenced (tg_fm s) (blob_at e g) → os_fs (tg_os s') !! blob_at e g = None).
Proof.
  intros Hm Hs Hc Hrem. unfold finish. cbn zeta. set (paths := NewPaths hub (en_RepoID e) (en_RepoType e)).
  set (loop := m_foreach (remove_blob paths rem) (en_Files e)).
  pose proof (pres_foreach same_stores _ (en_Files e) (remove_blob_stores paths rem) s) as S1.
  pose proof (pres_foreach same_map _ (en_Files e) (remove_blob_map paths rem) s) as M1.
  assert (pres (on_os (os_frame (evict_footprint e (tg_fm s)))) loop) as F1.
  { apply pres_foreach_in; [apply _|]. intros g Hg. by apply remove_blob_frame; [|apply Hs|]. }
  specialize (F1 s). fold loop in S1, M1. destruct (loop s) as [r1 s1] eqn:E1. cbn [snd] in *.
  destruct r1 as [[]|err].
  2:{ rewrite (bind_run_err _ _ _ _ _ E1). intros [= <- <-]. split_and!; [done..|by rewrite M1|done]. }
  rewrite (bind_run_ok _ _ _ _ _ E1).
  pose proof (stores_lift_map (DB.Delete (en_CommitHash e)) s1) as S2.
  pose proof (os_lift_map (os_frame (evict_footprint e (tg_fm s))) (DB.Delete (en_CommitHash e)) s1) as F2.
  destruct (DB.Delete (en_CommitHash e) (tg_map s1)) as [r2 t2] eqn:E2.
  rewrite M1 in E2. pose proof (Delete_run _ _ _ _ _ Hm Hc E2) as Hm2.
  unfold lift_map in *. rewrite <- M1 in E2.
  pose proof (m_zoom_run tg_map (λ x s, mk_target x (tg_bs s) (tg_fm s) (tg_os s) (tg_log s)) _ _ _ _ E2) as Z2.
  rewrite Z2 in S2, F2. cbn [snd] in S2, F2.
  set (s2 := mk_target t2 (tg_bs s1) (tg_fm s1) (tg_os s1) (tg_log s1)) in *.
  destruct r2 as [[]|err]; unfold mbind at 1, M_bind at 1, m_wrap at 1; rewrite Z2; cbn [wrap_result].
  2:{ intros [= <- <-]. split_and!; [by etrans|by etrans|done|done]. }
  pose proof (plumbing_total paths (en_CommitHash e) (tg_os s2)) as Ht.
  pose proof (plumbing_frame e (tg_fm s) Hc (tg_os s2)) as F3. fold paths in F3.
  pose proof (plumbing_shrinks paths (en_CommitHash e) (tg_os s2)) as H3.
  destruct (remove_plumbing paths (en_CommitHash e) (tg_os s2)) as [r3 o3] eqn:E3. cbn [fst snd] in *. subst r3.
  unfold lift_os. rewrite (bind_run_ok _ _ _ _ _ (m_zoom_run _ _ _ _ _ _ E3)).
  intros [= <- <-]. split_and!.
  - etrans; [exact S1|exact S2].
  - etrans; [exact F1|]. etrans; [exact F2|]. exact F3.
  - exact Hm2.
  - intros _ g Hg Hsafe Hn. destruct (blob_path_seg e g Hsafe) as [_ Hok].
    destruct (referenced_run (tg_fm s)) as (rem' & Hr' & Hin); [apply Hs|].
    assert (rem' = rem) as -> by congruence.
    assert (os_fs (tg_os s1) !! blob_at e g = None) as Hgone.
    { eapply remove_blobs_gone; [exact E1|done..|]. by rewrite Hin. }
    destruct (os_fs o3 !! blob_at e g) eqn:E; [|by cbn [tg_os]; rewrite E].
    eapply lookup_weaken in E; [|exact H3]. unfold s2 in E. cbn [tg_os] in E. congruence.
Qed.

(** What another mapping of [m] than that of [e] still reaches. *)
Definition shared s m e (x : cid) : Prop :=
  ∃ c o oc, m !! c = Some o ∧ c ≠ en_CommitHash e ∧ cid_decode (en_ActualCID o) = Ok oc ∧
            reaches (tg_bs s) oc x.
(** What the revision of [e] reaches. *)
Definition owned s e (x : cid) : Prop :=
  ∃ root, cid_decode (en_ActualCID e) = Ok root ∧ reaches (tg_bs s) root x.

Lemma keep_shared s m e others x :
  represents (tg_map s) m → healthy s → enough (tg_bs s) fuel → others ≡ₚ (map_to_list m).*2 →
  x ∈ keep_set fuel (tg_bs s) (en_CommitHash e) others ↔ shared s m e x.
Proof.
  intros (_ & _ & Hm) [Hb _] Hf Hp. rewrite keep_run by done. unfold shared. split.
  - intros (o & oc & Ho & Hne & Hd & Hr). rewrite Hp in Ho.
    apply list_elem_of_fmap in Ho as ([c o'] & -> & Hin%elem_of_map_to_list). simpl in *.
    destruct (Hm _ _ Hin) as [<- _]. eauto 8.
  - intros (c & o & oc & Hin & Hne & Hd & Hr). exists o, oc. split_and!; [|by destruct (Hm _ _ Hin) as [-> _]|done..].
    rewrite Hp. apply list_elem_of_fmap. exists (c, o). split; [done|]. by apply elem_of_map_to_list.
Qed.

Lemma Commit_outcome e s m r s' :
  represents (tg_map s) m → healthy s → enough (tg_bs s) fuel → seg_ok (en_CommitHash e) →
  Commit fuel map_order hub e s = (r, s') →
  only_blocks (λ h, ∃ x, owned s e x ∧ ¬ shared s m e x ∧ cid_hash x = h)
    s (mk_target (tg_map s) (tg_bs s') (tg_fm s') (tg_os s) (tg_log s)) ∧
  on_os (os_frame (evict_footprint e (tg_fm s'))) s s' ∧
  represents (tg_map s') (match r with Ok _ => delete (en_CommitHash e) m | Err _ => m end) ∧
  (is_ok r = true →
     (∀ x, owned s e x → ¬ shared s m e x → forgotten s s' x) ∧
     ∀ g, g ∈ en_Files e → SafeBlobName (mf_BlobName g) = true →
       ¬ referenced (tg_fm s') (blob_at e g) → os_fs (tg_os s') !! blob_at e g = None).
Proof.
  intros Hm Hs Hf Hc H. destruct (Commit_run _ _ _ _ _ Hm Hs H) as [[-> Hr]|(root & others & r1 & s1 & Hroot & Hp & H1 & H2)].
  { destruct r; [done|]. split_and!; [|unfold on_os; reflexivity|done|done]. destruct s. reflexivity. }
  set (keep := keep_set fuel (tg_bs s) (en_CommitHash e) others) in *.
  set (own := map_order (walk fuel (tg_bs s) root ∅)) in *.
  assert (∀ x, x ∈ own ↔ owned s e x) as Hown.
  { intros x. unfold own, owned. rewrite map_order_perm, elem_of_elements.
    destruct (walk_run fuel (tg_bs s) root ∅) as [_ ->]; [apply Hs|done|apply closed_empty|].
    rewrite Hroot. split; [intros [?|?]; [set_solver|eauto]|]. intros (? & [= <-] & ?). by right. }
  set (H' := λ h, ∃ x, owned s e x ∧ ¬ shared s m e x ∧ cid_hash x = h).
  assert (only_blocks H' s s1) as Hb1.
  { pose proof (pres_foreach_in (only_blocks H') (evict_cid keep) own) as Hpres.
    assert (∀ x, x ∈ own → pres (only_blocks H') (evict_cid keep x)) as Hin; [|specialize (Hpres Hin s); by rewrite H1 in Hpres].
    intros x Hx. apply evict_cid_blocks. intros Hk. exists x. split_and!; [by apply Hown| |done].
    intros Hsh. apply Hk. by apply (keep_shared s m e). }
  destruct Hb1 as (Hmap & Hos & Hblocks). destruct (Hblocks Hs) as [Hs1 Hviews].
  assert (∀ sx, tg_bs sx = tg_bs s1 → tg_fm sx = tg_fm s1 →
    only_blocks H' s (mk_target (tg_map s) (tg_bs sx) (tg_fm sx) (tg_os s) (tg_log s))) as Hfinal.
  { intros sx E1 E2. split_and!; [done..|]. intros _. rewrite E1, E2. split; [exact Hs1|exact Hviews]. }
  destruct r1 as [[]|err].
  - destruct H2 as (rem & Hrem & Hfin). rewrite <- Hmap in Hm.
    destruct (finish_run _ _ _ _ _ _ Hm Hs1 Hc Hrem Hfin) as ([Eb Ef] & Hframe & Hrep & Hgone).
    split_and!; [by apply Hfinal|by unfold on_os in *; rewrite Ef, <- Hos|done|]. intros Hok. split.
    + intros x Hx Hn. destruct (evict_cids_ok keep own s s1 Hs H1 x) as [F1 F2].
      * by apply Hown.
      * intros Hk. apply Hn. apply (keep_shared s m e) in Hk; [done| |done..].
        by rewrite <- Hmap.
      * split; [by rewrite Ef|by rewrite Eb].
    + rewrite Ef. by apply Hgone.
  - destruct H2 as [-> ->]. split_and!; [by apply Hfinal| |by rewrite Hmap|done].
    unfold on_os. rewrite Hos. reflexivity.
Qed.

(** C10. Evicting a revision never harms another: whether it succeeds or fails at
    any step, every other revision keeps its mapping, and every block and
    filestore reference another mapping reaches is still there unchanged, as
    long as the revision does not reach the same content under another CID. *)
Theorem Commit_keeps_shared e s m r s' :
  represents (tg_map s) m → healthy s → enough (tg_bs s) fuel → seg_ok (en_CommitHash e) →
  Commit fuel map_order hub e s = (r, s') →
  (∃ m', represents (tg_map s') m' ∧ ∀ c, c ≠ en_CommitHash e → m' !! c = m !! c) ∧
  ∀ x, shared s m e x → (∀ y, owned s e y → cid_hash y = cid_hash x → y = x) →
    bs_view (tg_bs s') !! cid_hash x = bs_view (tg_bs s) !! cid_hash x ∧
    fm_view (tg_fm s') !! cid_hash x = fm_view (tg_fm s) !! cid_hash x.
Proof.
  intros Hm Hs Hf Hc H. destruct (Commit_outcome _ _ _ _ _ Hm Hs Hf Hc H) as ((_ & _ & Hb) & _ & Hrep & _).
  split.
  - eexists. split; [exact Hrep|]. intros c Hne. destruct r; [by rewrite lookup_delete_ne|done].
  - intros x Hx Hu. apply (Hb Hs). intros (y & Hy & Hn & E). apply Hn. by rewrite (Hu y).
Qed.

(** C30. A successful eviction forgets the revision: its mapping is gone; no
    reference to content that only it reaches is left, nor the block, unless a
    reference stood for it; and each of its blob files is gone unless a
    remaining reference points into it. *)
Theorem Commit_forgets e s m s' :
  represents (tg_map s) m → healthy s → enough (tg_bs s) fuel → seg_ok (en_CommitHash e) →
  Commit fuel map_order hub e s = (Ok tt, s') →
  represents (tg_map s') (delete (en_CommitHash e) m) ∧
  (∀ x, owned s e x → ¬ shared s m e x → forgotten s s' x) ∧
  (∀ g, g ∈ en_Files e → SafeBlobName (mf_BlobName g) = true →
     ¬ referenced (tg_fm s') (blob_at e g) → os_fs (tg_os s') !! blob_at e g = None).
Proof.
  intros Hm Hs Hf Hc H. destruct (Commit_outcome _ _ _ _ _ Hm Hs Hf Hc H) as (_ & _ & Hrep & Hok).
  split; [exact Hrep|by apply Hok].
Qed.

(** C31. On disk an eviction stays inside the revision's own files: its snapshot
    directory, its tree record, refs/main, and those of its blobs with a safe
    name that no remaining reference points into.  Whatever the names in the
    entry and whichever calls fail, nothing else changes. *)
Theorem Commit_confined e s m r s' :
  represents (tg_map s) m → healthy s → enough (tg_bs s) fuel → seg_ok (en_CommitHash e) →
  Commit fuel map_order hub e s = (r, s') →
  fs_frame (evict_footprint e (tg_fm s')) (os_fs (tg_os s)) (os_fs (tg_os s')).
Proof.
  intros Hm Hs Hf Hc H. destruct (Commit_outcome _ _ _ _ _ Hm Hs Hf Hc H) as (_ & [Hframe _] & _).
  exact Hframe.
Qed.

(** *** A whole repository *)
Lemma stores_shrinks {A} (op : M target A) : pres same_stores op → pres shrinks op.
Proof. intros H s Hs. destruct (H s) as [E1 E2]. unfold healthy in *. by rewrite E1, E2. Qed.
Lemma Commit_shrinks e : pres shrinks (Commit fuel map_order hub e).
Proof.
  unfold Commit. cbn zeta.
  apply pres_bind; [apply _|apply stores_shrinks, stores_lift_map|intros others].
  apply pres_bind; [apply _|apply pres_gets, _|intros bs].
  apply pres_bind; [apply _|apply pres_lift, _|intros root].
  apply pres_bind; [apply _|apply pres_foreach; [apply _|intros c; apply evict_cid_shrinks]|intros _].
  apply pres_bind; [apply _|apply pres_gets, _|intros fds].
  apply pres_bind; [apply _|apply pres_lift, _|intros rem].
  apply pres_bind; [apply _|apply stores_shrinks, pres_foreach; [apply _|intros g; apply remove_blob_stores]|intros _].
  apply pres_bind; [apply _|apply pres_wrap, stores_shrinks, stores_lift_map|intros _].
  apply pres_bind; [apply _|apply stores_shrinks, stores_lift_os|intros _].
  apply stores_shrinks. by intros s.
Qed.
Lemma enough_shrinks (b b' : bstore) : bs_view b' ⊆ bs_view b → enough b fuel → enough b' fuel.
Proof.
  unfold enough. intros Hsub Hf. etrans; [|exact Hf]. apply le_n_S, subseteq_size. intros x.
  unfold dag_cids. rewrite !elem_of_list_to_set, !list_elem_of_In, !in_flat_map.
  intros ([h d] & Hin & Hx). exists (h, d). split; [|done].
  rewrite <- list_elem_of_In, elem_of_map_to_list in *. by eapply lookup_weaken.
Qed.
Definition evict_all m (l : list Entry) : gmap string Entry :=
  foldl (λ m e, delete (en_CommitHash e) m) m l.

Lemma repo_loop_run repoID l n s m res s' :
  represents (tg_map s) m → healthy s → enough (tg_bs s) fuel →
  Forall (λ e, seg_ok (en_CommitHash e)) l →
  repo_loop fuel map_order hub repoID l (Z.of_nat n) s = (res, s') →
  let mine := filter (λ e, en_RepoID e = repoID) l in
  ∃ k err, k ≤ length mine ∧ res = Ok (Z.of_nat (n + k), err) ∧
    represents (tg_map s') (evict_all m (take k mine)) ∧
    (is_ok err = true ↔ k = length mine ∧ 0 < n + k).
Proof.
  intros Hm Hs Hf Hl. revert n s m Hm Hs Hf. induction Hl as [|e l He _ IH]; intros n s m Hm Hs Hf H; cbn zeta.
  { cbn [repo_loop] in H. exists 0. case_decide; injection H as <- <-; eexists.
    - split_and!; [done|by replace n with 0 by lia|done|]. simpl. split; [done|]. simpl. lia.
    - split_and!; [done|by rewrite Nat.add_0_r|done|]. simpl. split; [|done]. lia. }
  cbn [repo_loop] in H. rewrite filter_cons. destruct (decide (en_RepoID e ≠ repoID)) as [Hne|Heq].
  { rewrite decide_False by done. by eapply IH. }
  rewrite decide_True by (by apply dec_stable). simpl.
  destruct (Commit fuel map_order hub e s) as [r1 s1] eqn:E1.
  rewrite (bind_try_run _ _ _ _ _ E1) in H.
  destruct (Commit_outcome _ _ _ _ _ Hm Hs Hf He E1) as (_ & _ & Hrep & _).
  pose proof (Commit_shrinks e s) as Hsh. rewrite E1 in Hsh. destruct (Hsh Hs) as (Hs1 & Hb1 & _). simpl in *.
  destruct r1 as [[]|err].
  - replace (Z.of_nat n + 1)%Z with (Z.of_nat (S n)) in H by lia.
    destruct (IH _ _ _ Hrep Hs1 (enough_shrinks _ _ Hb1 Hf) H) as (k & err & Hk & -> & Hrep' & Hok).
    exists (S k), err. split_and!; [lia|by replace (S n + k) with (n + S k) by lia|exact Hrep'|].
    rewrite Hok. lia.
  - injection H as <- <-. exists 0, (Err err). split_and!; [lia|by rewrite Nat.add_0_r|done|]. simpl. lia.
Qed.

(** Evicting a repository evicts its revisions one by one in the order they
    are listed, and the count says how many went, whatever happens: the mapping
    is the one before without exactly the first [n] of them.  The call succeeds
    exactly when all of them went and there was one. *)
Theorem Repo_evicts repoID s m n err s' :
  represents (tg_map s) m → healthy s → enough (tg_bs s) fuel →
  map_Forall (λ c _, seg_ok c) m →
  Repo fuel map_order hub repoID s = (Ok (n, err), s') →
  ∃ l mine k, l ≡ₚ (map_to_list m).*2 ∧ Sorted entry_before l ∧
    mine = filter (λ e, en_RepoID e = repoID) l ∧ n = Z.of_nat k ∧ k ≤ length mine ∧
    represents (tg_map s') (evict_all m (take k mine)) ∧
    (is_ok err = true ↔ k = length mine ∧ 0 < k).
Proof.
  intros Hm Hs Hf Hall. destruct (List_run _ _ Hm) as (l & Hl & Hp & Hsort). unfold Repo.
  assert (lift_map DB.List s = (Ok l, s)) as Hl'.
  { unfold lift_map. erewrite m_zoom_run by exact Hl. by destruct s. }
  rewrite (bind_try_run _ _ _ _ _ Hl'). intros H. exists l, (filter (λ e, en_RepoID e = repoID) l).
  destruct (repo_loop_run repoID l 0 s m (Ok (n, err)) s') as (k & err' & Hk & [= -> ->] & Hrep & Hok); [done..| |exact H|].
  - apply Forall_forall. intros e He. rewrite Hp in He.
    apply list_elem_of_fmap in He as ([c e'] & -> & Hin%elem_of_map_to_list). simpl.
    destruct Hm as (_ & _ & Hm). destruct (Hm _ _ Hin) as [-> _]. exact (Hall _ _ Hin).
  - exists k. done.
Qed.
End commit.

(** ** A concrete store with two revisions sharing a blob *)
Module ToyEvict.
Import ToyDB.
#[export] Existing Instances Toy.multiformats Toy.ipld Toy.blockstore Toy.blockstore_laws
  Toy.filemanager Toy.filemanager_laws.

Definition root1 : cid := (byte_of_Z DagProtobuf, "r1").
Definition root2 : cid := (byte_of_Z DagProtobuf, "r2").
Definition leaf_own : cid := (byte_of_Z Raw, "o").
Definition leaf_shared : cid := (byte_of_Z Raw, "s").
Definition file (path blob : string) (size : Z) : FileManifest :=
  mk_FileManifest path blob size "" 420 0 false "" "".
Definition rev1 : Entry :=
  mk_Entry "org/m" "model" "c1" (cid_string root1) "" [file "own" "bo" 3; file "both" "bs" 3; file "empty" "be" 0]
    6 "2024-02-29T12:00:00Z" "ingest".
Definition rev2 : Entry :=
  mk_Entry "org/m" "model" "c2" (cid_string root2) "" [file "both" "bs" 3; file "empty" "be" 0]
    3 "2024-02-29T12:00:00Z" "ingest".
Definition table : gmap string Entry := {[ "c1" := rev1; "c2" := rev2 ]}.
Definition db : bstate :=
  ({[ BucketMap := (λ e, print (entry_json e)) <$> table ]} : buckets).
Definition store : bstore :=
  ({[ "r1" := "@own=" +:+ cid_string leaf_own +:+ ",both=" +:+ cid_string leaf_shared +:+ ",";
      "r2" := "@both=" +:+ cid_string leaf_shared +:+ "," ]} : gmap string string).
Definition blobs : fpath := ["hub"; "models--org--m"; "blobs"].
Definition refs : fman :=
  ({[ "o" := mk_fref (render_abs (blobs ++ ["bo"])) 0 3;
      "s" := mk_fref (render_abs (blobs ++ ["bs"])) 0 3 ]} : gmap string fref).
Definition data (d : string) : fnode := FFile (mk_regular d 420 0).
Definition disk : osst :=
  mk_osst {[ blobs ++ ["bo"] := data "own"; blobs ++ ["bs"] := data "two"; blobs ++ ["be"] := data "";
             ["etc"] := FDir 493; blobs := FDir 493; ["hub"; "models--org--m"] := FDir 493;
             ["hub"] := FDir 493 ]} [] ["17"] 0.
Definition st : target := mk_target db store refs disk [].
Definition order (X : gset cid) : list cid := elements X.
Definition run : result unit * target := Commit 9 order "/hub" rev1 st.

Lemma represents_db : represents db table.
Proof.
  split; [exact I|]. split; [reflexivity|]. intros c e. unfold table.
  rewrite lookup_insert_Some, lookup_singleton_Some. intros [[<- <-]|[_ [<- <-]]]; (split; [done|]);
    (split; [|done]); (split; [|done]); repeat (constructor; [done|]); constructor.
Defined.
Lemma st_healthy : healthy st.
Proof. done. Defined.
Lemma enough9 : enough (tg_bs st) 9.
Proof. apply Nat.leb_le. vm_compute. reflexivity. Defined.
Lemma run_ok : run = (Ok tt, run.2).
Proof. transitivity (run.1, run.2); [by destruct run|]. assert (run.1 = Ok tt) as -> by (vm_compute; reflexivity). reflexivity. Defined.
End ToyEvict.

Section witnesses.
Import ToyDB ToyEvict.

Lemma walk_reachable_witness :
  reaches store root1 leaf_shared ∧ ¬ reaches store root2 leaf_own.
Proof.
  assert (enough store 9) as H9 by exact enough9. split.
  - apply (walk_reachable (BL := Toy.blockstore_laws) 9 store root1 I H9). apply (bool_decide_unpack _). vm_compute. exact I.
  - rewrite <- (walk_reachable (BL := Toy.blockstore_laws) 9 store root2 I H9). apply (bool_decide_unpack _). vm_compute. exact I.
Defined.

Lemma Commit_forgets_witness :
  os_fs (tg_os run.2) !! (blobs ++ ["bo"]) = None ∧
  (* the empty file, which the other revision lists too, went as well *)
  os_fs (tg_os run.2) !! (blobs ++ ["be"]) = None ∧
  os_fs (tg_os run.2) !! (blobs ++ ["bs"]) = Some (data "two") ∧
  (∃ e, (delete "c1" table) !! "c2" = Some e ∧ file "empty" "be" 0 ∈ en_Files e).
Proof.
  destruct (Commit_forgets (BAL := batching_laws) order (λ X, reflexivity _) 9 "/hub" eq_refl rev1 st table run.2
    represents_db st_healthy enough9) as (_ & _ & Hgone); [by split_and!|exact run_ok|].
  assert (fm_view (tg_fm run.2) = {[ "s" := mk_fref (render_abs (blobs ++ ["bs"])) 0 3 ]}) as Hrefs
    by (vm_compute; reflexivity).
  assert (∀ g, blob_at "/hub" rev1 g ≠ blobs ++ ["bs"] →
    ¬ referenced "/hub" (tg_fm run.2) (blob_at "/hub" rev1 g)) as Hn.
  { intros g Hg (h & r & Hh & _ & E). rewrite Hrefs in Hh. apply lookup_singleton_Some in Hh as [<- <-].
    apply Hg. rewrite <- E. vm_compute. reflexivity. }
  split_and!; [| |vm_compute; reflexivity|].
  - apply (Hgone (file "own" "bo" 3)); [apply list_elem_of_here|reflexivity|]. by apply Hn.
  - apply (Hgone (file "empty" "be" 0)); [apply list_elem_of_further, list_elem_of_further, list_elem_of_here|reflexivity|].
    by apply Hn.
  - exists rev2. split; [vm_compute; reflexivity|]. apply list_elem_of_further, list_elem_of_here.
Defined.

Lemma Commit_keeps_shared_witness :
  fm_view (tg_fm run.2) !! cid_hash leaf_shared = Some (mk_fref (render_abs (blobs ++ ["bs"])) 0 3).
Proof.
  destruct (Commit_keeps_shared (BAL := batching_laws) order (λ X, reflexivity _) 9 "/hub" eq_refl rev1 st table (Ok tt) run.2
    represents_db st_healthy enough9) as (_ & Hkeep); [by split_and!|exact run_ok|].
  destruct (Hkeep leaf_shared) as [_ ->]; [| |vm_compute; reflexivity].
  - exists "c2", rev2, root2. split_and!; [vm_compute; reflexivity|done|vm_compute; reflexivity|].
    apply rtc_once. unfold edge. apply (bool_decide_unpack _). vm_compute. exact I.
  - intros y (root & Hroot & Hy). vm_compute in Hroot. injection Hroot as <-.
    destruct (walk_run 9 store root1 ∅) as [_ Hw]; [done|exact enough9|apply closed_empty|].
    assert (y ∈ walk 9 store root1 ∅) as Hin by (apply Hw; by right).
    assert (walk 9 store root1 ∅ = {[ root1; leaf_own; leaf_shared ]}) as E by (vm_compute; reflexivity).
    rewrite E, !elem_of_union, !elem_of_singleton in Hin. by destruct Hin as [[-> | ->]| ->].
Defined.

Lemma Commit_confined_witness : os_fs (tg_os run.2) !! ["etc"] = Some (FDir 493).
Proof.
  destruct (Commit_confined (BAL := batching_laws) order (λ X, reflexivity _) 9 "/hub" eq_refl rev1 st table (Ok tt) run.2
    represents_db st_healthy enough9) with (q := ["etc"]) as [->|[E _]];
    [by split_and!|exact run_ok| |vm_compute; reflexivity|vm_compute in E; discriminate].
  intros [[l E]|[E|[E|(g & _ & _ & E & _)]]]; vm_compute in E; discriminate.
Defined.

Lemma Repo_evicts_witness :
  (Repo 9 order "/hub" "org/m" st).1 = Ok (2%Z, Ok tt) ∧
  represents (tg_map (Repo 9 order "/hub" "org/m" st).2) ∅.
Proof.
  assert (Repo 9 order "/hub" "org/m" st = (Ok (2%Z, Ok tt), (Repo 9 order "/hub" "org/m" st).2)) as H.
  { assert ((Repo 9 order "/hub" "org/m" st).1 = Ok (2%Z, Ok tt)) as <- by (vm_compute; reflexivity). apply surjective_pairing. }
  split; [by rewrite H|].
  destruct (Repo_evicts (BAL := batching_laws) order (λ X, reflexivity _) 9 "/hub" eq_refl "org/m" st table 2 (Ok tt) (Repo 9 order "/hub" "org/m" st).2
    represents_db st_healthy enough9) as (l & mine & k & Hl & _ & -> & Hk & _ & Hrep & _);
    [|exact H|].
  - intros c e. unfold table. rewrite lookup_insert_Some, lookup_singleton_Some.
    intros [[<- _]|[_ [<- _]]]; by split_and!.
  - assert (k = 2) as -> by lia.
    assert (l ≡ₚ [rev1; rev2]) as Hl2 by (rewrite Hl; reflexivity).
    assert (evict_all table (take 2 (filter (λ e, en_RepoID e = "org/m") l)) = ∅) as <-; [|exact Hrep].
    symmetry in Hl2; apply Permutation_length_2_inv in Hl2 as [-> | ->]; vm_compute; reflexivity.
Defined.
End witnesses.
