(* ===== verification/Config.v ===== *)
(** * internal/config: the settings of a node.

    The environment is a function from variable names to values, the empty
    string when unset; the home directory is what [os.UserHomeDir] answers. *)
From S2P Require Import Prelude GoStrings GoPath GoFS.

Definition ProtocolMapID : string := "/hf-ipfs/map/1.0.0".
Definition ProtocolBlockID : string := "/hf-ipfs/block/1.0.0".
Definition DefaultChunkSize : Z := Z.shiftl 1 20.
Definition MaxFrameSize : Z := Z.shiftl 8 20.
Definition DefaultListenPort : Z := 4008.

Record Config := mk_Config {
  RepoDir : string; HFHubDir : string; Listen : list string; Bootstrap : list string;
  Isolated : bool; Connect : list string; HolePunch : bool; Relay : bool; NATPortMap : bool;
  RelayService : bool; StaticRelays : list string; RelayBulk : bool; ChunkSize : Z;
  DHTServer : bool; HFEndpoint : string; HFToken : string; APISocket : string;
  RescanInterval : Z   (* nanoseconds *)
}.

Fixpoint firstNonEmpty (vals : list string) : string :=
  match vals with
  | [] => ""
  | v :: rest => if decide (trim_space v ≠ "") then v else firstNonEmpty rest
  end.

Definition trim_right_slash (s : string) : string := trim_right_fn (λ a, Ascii.eqb a ch_slash) s.

Definition Default (UserHomeDir : result string) (Getenv : string → string) : result Config :=
  home ← wrap_result "resolve home dir" UserHomeDir;
  let repo := firstNonEmpty [Getenv "SWARMFACE_REPO"; Getenv "HF_IPFS_REPO"; fjoin [home; ".swarmface"]] in
  let hfHome := firstNonEmpty [Getenv "HF_HOME"; fjoin [home; ".cache"; "huggingface"]] in
  let hub := firstNonEmpty [Getenv "HF_HUB_CACHE"; fjoin [hfHome; "hub"]] in
  let endpoint := trim_right_slash (firstNonEmpty [Getenv "HF_ENDPOINT"; "https://huggingface.co"]) in
  let token := firstNonEmpty [Getenv "HF_TOKEN"; Getenv "HUGGING_FACE_HUB_TOKEN"] in
  Ok {|
    RepoDir := repo; HFHubDir := hub;
    Listen := ["/ip4/0.0.0.0/tcp/" +:+ dec_of_Z DefaultListenPort];
    Bootstrap := []; Isolated := false; Connect := [];
    HolePunch := true; Relay := true; NATPortMap := true; RelayService := false;
    StaticRelays := []; RelayBulk := false; ChunkSize := DefaultChunkSize; DHTServer := true;
    HFEndpoint := endpoint; HFToken := trim_space token;
    APISocket := fjoin [repo; "api.sock"]; RescanInterval := 5 * 60 * 1000000000
  |}.

Definition EnsureDirs (c : Config) : M osst unit :=
  m_foreach (λ d, m_wrap "create" (os_mkdir_all d 448)) [RepoDir c].

Definition KeyPath (c : Config) : string := fjoin [RepoDir c; "key"].
Definition DBPath (c : Config) : string := fjoin [RepoDir c; "swarmface.db"].
Definition LockPath (c : Config) : string := fjoin [RepoDir c; "swarmface.lock"].

(** ** Lemmas *)
Lemma firstNonEmpty_in vals : firstNonEmpty vals = "" ∨ firstNonEmpty vals ∈ vals.
Proof.
  induction vals as [|v vals IH]; [by left|]. cbn [firstNonEmpty]. case_decide; [right; set_solver|].
  destruct IH; [by left|right; set_solver].
Qed.
Lemma firstNonEmpty_fallback vals d :
  trim_space d ≠ "" → trim_space (firstNonEmpty (vals ++ [d])) ≠ "".
Proof.
  intros Hd. induction vals as [|v vals IH]; cbn [app firstNonEmpty]; [by rewrite decide_True|].
  by case_decide.
Qed.
Lemma trim_right_no_suffix f s :
  ∀ t a, trim_right_fn f s = t +:+ String a "" → f a = false.
Proof.
  induction s as [|c s IH]; intros t a; cbn [trim_right_fn]; [by destruct t|].
  destruct (trim_right_fn f s) as [|c' s'] eqn:E.
  - destruct (f c) eqn:Ec; [by destruct t|]. destruct t as [|? []]; [|done..]. intros [= <-]. done.
  - destruct t as [|x t]; [done|]. intros [= _ H]. by apply (IH t).
Qed.

Lemma abs_not_blank p : is_abs p = true → trim_space p ≠ "".
Proof.
  intros [t ->]%has_prefix_spec. unfold trim_space.
  change ("/" +:+ t) with (String "/" t). cbn [trim_left_fn]. change (is_space "/") with false. cbn [trim_right_fn].
  by destruct (trim_right_fn is_space t).
Qed.
Lemma firstNonEmpty_blank vals d :
  Forall (λ v, trim_space v = "") vals → trim_space d ≠ "" → firstNonEmpty (vals ++ [d]) = d.
Proof.
  intros Hv Hd. induction Hv as [|v vals Hv _ IH]; cbn [app firstNonEmpty]; [by rewrite decide_True|].
  rewrite decide_False; [done|]. intros H. by apply H.
Qed.

(** Whatever the environment: the repo directory is never blank and an
    explicit setting wins over a default; with nothing set the hub cache is
    that of the hf CLI; the endpoint never ends in a slash; and what costs
    other people bandwidth, a relay service and bulk transfers over relays, is
    off.  The chunks that are made fit the frames they travel in. *)
Theorem Default_spec home Getenv :
  is_abs home = true →
  ∃ c, Default (Ok home) Getenv = Ok c ∧
  trim_space (RepoDir c) ≠ "" ∧
  (trim_space (Getenv "SWARMFACE_REPO") ≠ "" → RepoDir c = Getenv "SWARMFACE_REPO") ∧
  (trim_space (Getenv "HF_HUB_CACHE") ≠ "" → HFHubDir c = Getenv "HF_HUB_CACHE") ∧
  (trim_space (Getenv "HF_HUB_CACHE") = "" → trim_space (Getenv "HF_HOME") = "" →
     HFHubDir c = render_abs (abs_segs home ++ [".cache"; "huggingface"; "hub"])) ∧
  (∀ t, HFEndpoint c ≠ t +:+ "/") ∧
  RelayService c = false ∧ RelayBulk c = false ∧ (0 < ChunkSize c < MaxFrameSize)%Z.
Proof.
  intros Hh. eexists. split; [reflexivity|].
  cbn [RepoDir HFHubDir HFEndpoint RelayService RelayBulk ChunkSize]. split_and!; [| | | | |done..].
  - apply (firstNonEmpty_fallback [_; _]), abs_not_blank, is_abs_fjoin2, Hh.
  - intros H. cbn [firstNonEmpty]. by rewrite decide_True.
  - intros H. cbn [firstNonEmpty]. by rewrite decide_True.
  - intros H1 H2.
    assert (fjoin [home; ".cache"; "huggingface"] = render_abs (abs_segs home ++ [".cache"; "huggingface"])) as E1.
    { change (fjoin [home; ".cache"; "huggingface"]) with (fjoin ([home] ++ [".cache"; "huggingface"])).
      transitivity (fjoin [home; ".cache/huggingface"]).
      - cbn [fjoin app]. rewrite !decide_False by by apply is_abs_nonempty. done.
      - rewrite fjoin2_render; [done|done|]. by repeat constructor. }
    assert (trim_space (render_abs (abs_segs home ++ [".cache"; "huggingface"])) ≠ "") as Hb
      by apply abs_not_blank, is_abs_render.
    change (firstNonEmpty [Getenv "HF_HUB_CACHE"; fjoin [firstNonEmpty ([Getenv "HF_HOME"] ++ [fjoin [home; ".cache"; "huggingface"]]); "hub"]] =
      render_abs (abs_segs home ++ [".cache"; "huggingface"; "hub"])).
    rewrite firstNonEmpty_blank, E1, fjoin2_render_seg by
      (rewrite ?E1; done || apply is_abs_render || (constructor; [done|constructor])).
    assert (Forall seg_ok (abs_segs home ++ [".cache"; "huggingface"])) as Hok.
    { apply Forall_app. split; [apply abs_segs_ok|]. by repeat constructor. }
    rewrite abs_segs_render, <- app_assoc by done.
    apply (firstNonEmpty_blank [_]); [constructor; [done|constructor]|apply abs_not_blank, is_abs_render].
  - intros t E. apply trim_right_no_suffix in E. done.
Qed.

Lemma Default_spec_witness :
  ∃ c, Default (Ok "/home/me") (λ _, "") = Ok c ∧ HFHubDir c = "/home/me/.cache/huggingface/hub" ∧
    HFEndpoint c = "https://huggingface.co".
Proof.
  destruct (Default_spec "/home/me" (λ _, "")) as (c & Hc & _ & _ & _ & Hhub & _); [reflexivity|].
  exists c. split; [exact Hc|]. split; [by rewrite Hhub|]. injection Hc as <-. vm_compute. reflexivity.
Defined.
