(* ===== verification/Identity.v ===== *)
(** * internal/identity: the persistent key of a node.

    go-libp2p's keys are an interface: a key pair is drawn from a supply of
    randomness, and [UnmarshalPrivateKey] reads back what [MarshalPrivateKey]
    wrote. *)
From S2P Require Import Prelude GoStrings GoPath GoFS.

Class Keys := {
  privkey : Type;
  peer_id : Type;
  key_unmarshal : string → result privkey;        (* ic.UnmarshalPrivateKey *)
  key_marshal : privkey → result string;          (* ic.MarshalPrivateKey *)
  key_generate : string → result privkey;         (* ic.GenerateKeyPair, from random bytes *)
  key_peer_id : privkey → result peer_id;         (* peer.IDFromPrivateKey *)
}.
Class KeysLaws {K : Keys} : Prop := {
  key_roundtrip k raw : key_marshal k = Ok raw → key_unmarshal raw = Ok k
}.

Section identity.
Context {K : Keys}.

(** The warning has no effect the program can see. *)
Definition warnIfReadable (path : string) : M osst unit := m_ignore (os_stat path).

Definition Load (path : string) : M osst (privkey * peer_id) :=
  raw ← os_read_file path;
  warnIfReadable path ;;
  key ← m_lift (wrap_result "parse identity" (key_unmarshal raw));
  id ← m_lift (wrap_result "derive peer id" (key_peer_id key));
  mret (key, id).

Definition LoadOrGenerate (path : string) : M osst (privkey * peer_id) :=
  r ← m_try (os_read_file path);
  match r with
  | Ok raw =>
      warnIfReadable path ;;
      key ← m_lift (wrap_result "parse identity" (key_unmarshal raw));
      id ← m_lift (wrap_result "derive peer id" (key_peer_id key));
      mret (key, id)
  | Err err =>
      if negb (errors_is err SNotExist) then m_fail (ErrWrap "read identity" err)
      else
        seed ← os_random;
        key ← m_lift (wrap_result "generate ed25519 key" (key_generate seed));
        marshalled ← m_lift (wrap_result "marshal key" (key_marshal key));
        m_wrap "create identity dir" (os_mkdir_all (fdir path) 448) ;;
        let tmp := path +:+ ".tmp" in
        m_wrap "write identity" (os_write_file tmp marshalled 384) ;;
        m_wrap "persist identity" (os_rename tmp path) ;;
        id ← m_lift (wrap_result "derive peer id" (key_peer_id key));
        mret (key, id)
  end.
End identity.

(** ** A node keeps its name *)
Section stability.
Context {K : Keys} {KL : KeysLaws}.
Context (d : fpath) (w : string) (Hok : Forall seg_ok (d ++ [w])).

Definition key_segs : fpath := d ++ [w].
Definition tmp_segs : fpath := d ++ [w +:+ ".tmp"].

Lemma tmp_path : abs_segs (render_abs key_segs +:+ ".tmp") = tmp_segs.
Proof.
  unfold key_segs, tmp_segs. rewrite render_abs_suffix.
  apply abs_segs_render. apply Forall_app in Hok as [Hd [Hw _]%Forall_cons_1].
  apply Forall_app. split; [done|]. constructor; [by apply seg_ok_app|constructor].
Qed.
Lemma tmp_ne : tmp_segs ≠ key_segs.
Proof.
  unfold tmp_segs, key_segs. intros [_ [= E]]%app_inj_tail. apply (f_equal String.length) in E.
  rewrite slength_app in E. simpl in E. lia.
Qed.

Lemma mkdir_all_link p perm s q :
  no_link (os_fs s) q → no_link (os_fs (os_mkdir_all p perm s).2) q.
Proof.
  intros Hn t. destruct (pres_mkdir_all (λ _, False) p perm s) as [Hf _]. unfold fs_get.
  destruct (decide (q = [])) as [->|Hq]; [done|]. specialize (Hn t).
  rewrite fs_get_lookup in Hn by done. destruct (Hf q) as [-> |[_ Hd]]; [by intros []|done|].
  intros E. by rewrite E in Hd.
Qed.

Lemma mkdir_key perm s :
  os_fs (os_mkdir_all (fdir (render_abs key_segs)) perm s).2 !! key_segs = os_fs s !! key_segs.
Proof.
  apply (mkdir_all_at _ perm key_segs).
  assert (Forall seg_ok d) as Hd by by apply Forall_app in Hok as [Hd _].
  unfold key_segs. rewrite fdir_render, abs_segs_render by done.
  intros [l E]%prefixes_prefix. apply (f_equal length) in E. rewrite !length_app in E. simpl in E. lia.
Qed.

(** Everything [LoadOrGenerate] can do: use the key that is there, fail and
    leave what stands at the path, or put a whole new key there. *)
Lemma LoadOrGenerate_cases s r s' :
  no_link (os_fs s) tmp_segs → LoadOrGenerate (render_abs key_segs) s = (r, s') →
  (os_fs s' = os_fs s ∧ ∀ k id, r = Ok (k, id) →
     ∃ raw, fs_read_file (os_fs s) (render_abs key_segs) = Ok raw ∧ key_unmarshal raw = Ok k ∧
            key_peer_id k = Ok id) ∨
  (os_fs s' !! key_segs = os_fs s !! key_segs ∧ is_ok r = false) ∨
  (∃ k m, key_marshal k = Ok (reg_data m) ∧ os_fs s' !! key_segs = Some (FFile m) ∧
     ∀ k' id, r = Ok (k', id) → k' = k ∧ key_peer_id k = Ok id).
Proof.
  intros Hn. unfold LoadOrGenerate. destruct (os_read_file (render_abs key_segs) s) as [r0 s0] eqn:E0.
  rewrite (bind_try_run _ _ _ _ _ E0). unfold os_read_file in E0.
  apply os_query_cases in E0 as [-> Hr0]. set (s0 := ticked s) in *.
  destruct r0 as [raw|err].
  { intros H. left. unfold warnIfReadable in H. rewrite bind_ignore_run in H.
    assert (os_fs (os_stat (render_abs key_segs) s0).2 = os_fs s) as Hs by apply (same_fs_query _ s0).
    destruct (os_stat (render_abs key_segs) s0).2 as [fs1 x y z]. simpl in Hs. subst fs1.
    unfold m_lift, wrap_result, mbind, M_bind in H.
    destruct (key_unmarshal raw) as [k|] eqn:Ek; [|injection H as <- <-; done].
    destruct (key_peer_id k) as [id|] eqn:Ei; injection H as <- <-; [|done]. split; [done|].
    intros k' id' [= <- <-]. exists raw. split; [|done]. destruct Hr0 as [Hr0|]; [by symmetry|done]. }
  destruct (errors_is err SNotExist); [|intros [= <- <-]; left; done]. cbn [negb].
  assert (os_fs (os_random s0).2 = os_fs s ∧ is_ok (os_random s0).1 = true) as [Hr1 Hr2].
  { unfold os_random. by destruct (os_rand s0). }
  destruct (os_random s0) as [[seed|] s1] eqn:E1; [|done]. simpl in Hr1.
  rewrite (bind_run_ok _ _ _ _ _ E1). rewrite bind_lift_run.
  destruct (key_generate seed) as [k|]; cbn [wrap_result]; [|intros [= <- <-]; right; left; by rewrite Hr1].
  rewrite bind_lift_run.
  destruct (key_marshal k) as [raw|] eqn:Ek; cbn [wrap_result]; [|intros [= <- <-]; right; left; by rewrite Hr1].
  pose proof (mkdir_key 448 s1) as Hm. pose proof (mkdir_all_link (fdir (render_abs key_segs)) 448 s1 tmp_segs) as Hl.
  rewrite Hr1 in Hm, Hl. specialize (Hl Hn).
  destruct (os_mkdir_all (fdir (render_abs key_segs)) 448 s1) as [r2 s2] eqn:E2. simpl in Hm, Hl.
  rewrite (bind_wrap_run _ _ _ _ _ _ E2).
  destruct r2 as [[]|]; cbn [wrap_result]; [|intros [= <- <-]; right; left; by rewrite Hm].
  destruct (os_write_file (render_abs key_segs +:+ ".tmp") raw 384 s2) as [r3 s3] eqn:E3.
  rewrite (bind_wrap_run _ _ _ _ _ _ E3). apply write_file_at in E3 as (_ & _ & H3); [|by rewrite tmp_path].
  rewrite tmp_path in H3. destruct r3 as [[]|]; cbn [wrap_result].
  2:{ intros [= <- <-]. right. left. split; [|done]. rewrite <- Hm.
      destruct H3 as [->|[f ->]]; [done|]. rewrite lookup_insert_ne; [done|apply tmp_ne]. }
  destruct H3 as [m H3]. destruct (os_rename (render_abs key_segs +:+ ".tmp") (render_abs key_segs) s3) as [r4 s4] eqn:E4.
  rewrite (bind_wrap_run _ _ _ _ _ _ E4). apply rename_at in E4.
  rewrite tmp_path in E4. destruct r4 as [[]|]; cbn [wrap_result].
  2:{ intros [= <- <-]. right. left. split; [|done]. rewrite E4, H3, <- Hm.
      rewrite lookup_insert_ne; [done|apply tmp_ne]. }
  destruct E4 as (n & Hget & _ & E4). rewrite fs_get_lookup, H3, lookup_insert_eq in Hget by (unfold tmp_segs; by destruct d).
  injection Hget as <-. intros H. right. right. exists k, (mk_regular raw m (os_clock s2)).
  assert (s' = s4 ∧ ∀ k' id, r = Ok (k', id) → k' = k ∧ key_peer_id k = Ok id) as [-> Hr].
  { unfold m_lift, wrap_result, mbind, M_bind in H. destruct (key_peer_id k); injection H as <- <-; [|done].
    split; [done|]. by intros k' id [= <- <-]. }
  split; [done|]. split; [|done]. rewrite E4. unfold key_segs at 1. rewrite abs_segs_render by done. apply lookup_insert_eq.
Qed.

(** The identity is stable: once a node has started, every later load gives
    the same key and peer id. *)
Theorem identity_stable s k id s' :
  no_link (os_fs s) tmp_segs → LoadOrGenerate (render_abs key_segs) s = (Ok (k, id), s') →
  (Load (render_abs key_segs) (nofault s')).1 = Ok (k, id) ∧
  (LoadOrGenerate (render_abs key_segs) (nofault s')).1 = Ok (k, id).
Proof.
  intros Hn H.
  assert (∃ raw, fs_read_file (os_fs s') (render_abs key_segs) = Ok raw ∧ key_unmarshal raw = Ok k ∧
    key_peer_id k = Ok id) as (raw & Hr & Hk & Hi).
  { apply LoadOrGenerate_cases in H as [[-> H]|[[_ ?]|(k' & m & Hm & Hf & H)]]; [by apply H|done| |done].
    destruct (H k id eq_refl) as [-> Hi]. exists (reg_data m). split; [|by rewrite (key_roundtrip _ _ Hm)].
    apply fs_read_file_at. unfold key_segs in *. rewrite abs_segs_render by done.
    by rewrite fs_get_lookup by by destruct d. }
  assert (os_read_file (render_abs key_segs) (nofault s') = (Ok raw, nofault s')) as E.
  { unfold os_read_file. rewrite os_query_nofault by done. simpl. by rewrite Hr. }
  split.
  - unfold Load. rewrite (bind_run_ok _ _ _ _ _ E). unfold warnIfReadable. rewrite bind_ignore_run.
    unfold m_lift, wrap_result, mbind, M_bind. by rewrite Hk, Hi.
  - unfold LoadOrGenerate. rewrite (bind_try_run _ _ _ _ _ E). unfold warnIfReadable. rewrite bind_ignore_run.
    unfold m_lift, wrap_result, mbind, M_bind. by rewrite Hk, Hi.
Qed.

(** Whichever call fails, a crash included, the file at the key's path is
    the one that was there or a whole key that can be read back: never a
    truncated one. *)
Theorem identity_never_torn s r s' :
  no_link (os_fs s) tmp_segs → LoadOrGenerate (render_abs key_segs) s = (r, s') →
  os_fs s' !! key_segs = os_fs s !! key_segs ∨
  ∃ k m, os_fs s' !! key_segs = Some (FFile m) ∧ key_unmarshal (reg_data m) = Ok k.
Proof.
  intros Hn H. apply LoadOrGenerate_cases in H as [[-> _]|[[-> _]|(k & m & Hm & Hf & _)]]; [by left|by left| |done].
  right. exists k, m. split; [done|]. by apply key_roundtrip.
Qed.
End stability.

(** ** Concrete keys *)
Module ToyKeys.
(* A key is its seed; it is stored with a tag. *)
#[export] Instance keys : Keys := {|
  privkey := string; peer_id := string;
  key_unmarshal raw := if has_prefix raw "key:" then Ok (trim_prefix raw "key:") else Err (errorf "bad key");
  key_marshal k := Ok ("key:" +:+ k);
  key_generate seed := Ok seed;
  key_peer_id k := Ok ("peer-" +:+ k)
|}.
#[export] Instance keys_laws : KeysLaws.
Proof.
  split. intros k raw [= <-]. cbn [key_unmarshal keys]. by rewrite has_prefix_app, trim_prefix_app.
Qed.
Definition s0 : osst := mk_osst ∅ [] ["17"] 0.
(* the rename is lost to a crash *)
Definition s_crash : osst := mk_osst ∅ [false; false; false; false; false; true] ["17"] 0.
End ToyKeys.

Section witnesses.
Import ToyKeys.
Definition key_path : string := render_abs ["repo"; "key"].

Lemma identity_stable_witness :
  (LoadOrGenerate key_path s0).1 = Ok ("17", "peer-17") ∧
  (Load key_path (nofault (LoadOrGenerate key_path s0).2)).1 = Ok ("17", "peer-17").
Proof.
  assert ((LoadOrGenerate key_path s0).1 = Ok ("17", "peer-17")) as H by (vm_compute; reflexivity).
  split; [exact H|].
  apply (identity_stable ["repo"] "key" ltac:(by repeat constructor) s0 "17" "peer-17" (LoadOrGenerate key_path s0).2);
    [by intros t|]. apply injective_projections; [exact H|reflexivity].
Defined.

Lemma identity_never_torn_witness :
  is_ok (LoadOrGenerate key_path s_crash).1 = false ∧
  (os_fs (LoadOrGenerate key_path s_crash).2 !! ["repo"; "key"] = None ∨
   ∃ k m, os_fs (LoadOrGenerate key_path s_crash).2 !! ["repo"; "key"] = Some (FFile m) ∧
     key_unmarshal (reg_data m) = Ok k).
Proof.
  split; [vm_compute; reflexivity|].
  exact (identity_never_torn ["repo"] "key" ltac:(by repeat constructor) s_crash _ _ ltac:(by intros t)
    (surjective_pairing _)).
Defined.
End witnesses.
