(* ===== verification/Net.v ===== *)
(** * The network as the program sees it.

    libp2p, go-multiaddr and kad-dht are not part of the repository.  [Network]
    is what the program calls; [swarm] is the state of the host and of the
    DHT behind those calls.  A stream is the bytes the other side will have
    sent when it ends and the error it ends with, what has been written to it,
    and whether it is closed: a theorem about every such stream is a theorem
    about every peer, however it reacts to what it is sent. *)
From S2P Require Import Prelude GoStrings Protoio Lib Identity.

Record stream := mk_stream {
  st_in : rstate; st_out : wstate; st_limited : bool; st_reset : bool; st_closed : bool
}.
Definition stream_read {A} : M rstate A → M stream A :=
  m_zoom st_in (λ x s, mk_stream x (st_out s) (st_limited s) (st_reset s) (st_closed s)).
Definition stream_write {A} : M wstate A → M stream A :=
  m_zoom st_out (λ x s, mk_stream (st_in s) x (st_limited s) (st_reset s) (st_closed s)).
(** [s.Reset()] and [s.Close()]. *)
Definition stream_reset : M stream unit :=
  m_modify (λ s, mk_stream (st_in s) (st_out s) (st_limited s) true (st_closed s)).
Definition stream_close : M stream unit :=
  m_modify (λ s, mk_stream (st_in s) (st_out s) (st_limited s) (st_reset s) true).

Record AddrInfo {K : Keys} (maddr : Type) := mk_AddrInfo { ai_ID : peer_id; ai_Addrs : list maddr }.
Arguments mk_AddrInfo {K maddr} _ _.
Arguments ai_ID {K maddr} _.
Arguments ai_Addrs {K maddr} _.

Class Network {MF : Multiformats} {K : Keys} := {
  peer_id_eq_dec :: EqDecision peer_id;
  peer_string : peer_id → string;                               (* p.String() *)
  maddr : Type;
  ma_new : string → result maddr;                               (* ma.NewMultiaddr *)
  ma_string : maddr → string;
  addr_info : maddr → result (AddrInfo maddr);                  (* peer.AddrInfoFromP2pAddr *)
  addr_infos : list maddr → result (list (AddrInfo maddr));     (* peer.AddrInfosFromP2pAddrs *)
  default_bootstrap : list (AddrInfo maddr);                    (* dht.GetDefaultBootstrapPeerAddrInfos *)
  ma_public : maddr → bool;                                     (* manet.IsPublicAddr *)
  ma_loopback : maddr → result bool;                            (* manet.ToIP, then IsLoopback *)
  swarm : Type;
  host_connect : AddrInfo maddr → M swarm unit;                 (* Host.Connect *)
  host_new_stream : peer_id → string → M swarm stream;          (* Host.NewStream *)
  host_addrs : swarm → list maddr;                              (* Host.Addrs *)
  dht_table_size : swarm → Z;                                   (* RoutingTable().Size() *)
  dht_provide : cid → M swarm unit;                             (* DHT.Provide *)
  dht_find : cid → Z → M swarm (list (AddrInfo maddr));         (* all of FindProvidersAsync *)
  net_tick : swarm → swarm;                                     (* what happens on its own while the node waits *)
}.

(** What a provider record is good for: a successful [Provide] is remembered
    with the CIDs announced before. *)
Class NetworkLaws {MF : Multiformats} {K : Keys} {N : Network} := {
  dht_provided : swarm → gset cid;
  dht_provide_spec c s r s' :
    dht_provide c s = (r, s') →
    dht_table_size s' = dht_table_size s ∧
    match r with
    | Ok _ => dht_provided s' = {[c]} ∪ dht_provided s
    | Err _ => dht_provided s ⊆ dht_provided s'
    end
}.

(** ** A concrete network *)
Module ToyNet.
#[export] Existing Instances Toy.multiformats Toy.multiformats_laws ToyKeys.keys.

(* The CIDs announced, and the streams that peers will answer with, in order. *)
Record net := mk_net { nt_provided : gset cid; nt_streams : list stream; nt_providers : list (AddrInfo (K := ToyKeys.keys) string) }.

Definition peer_addr (m : string) : result (AddrInfo (K := ToyKeys.keys) string) :=
  if has_prefix m "/" then Ok (mk_AddrInfo (K := ToyKeys.keys) (trim_prefix m "/") [m])
  else Err (errorf "invalid p2p multiaddr").
Fixpoint peer_addrs (l : list string) : result (list (AddrInfo (K := ToyKeys.keys) string)) :=
  match l with
  | [] => Ok []
  | m :: l => a ← peer_addr m; r ← peer_addrs l; Ok (a :: r)
  end.
#[export] Instance network : Network := {|
  peer_string p := p;
  maddr := string;
  ma_new m := if has_prefix m "/" then Ok m else Err (errorf "must begin with /");
  ma_string m := m;
  addr_info := peer_addr;
  addr_infos := peer_addrs;
  default_bootstrap := [mk_AddrInfo (K := ToyKeys.keys) "boot" ["/boot"]];
  ma_public m := negb (has_prefix m "/127" || has_prefix m "/10");
  ma_loopback m := Ok (has_prefix m "/127");
  swarm := net;
  host_connect _ := mret tt;
  host_new_stream _ _ := λ s,
    match nt_streams s with
    | [] => (Err (errorf "no such peer"), s)
    | x :: l => (Ok x, mk_net (nt_provided s) l (nt_providers s))
    end;
  host_addrs _ := ["/127.0.0.1"];
  dht_table_size _ := 1%Z;
  dht_provide c := m_modify (λ s, mk_net ({[c]} ∪ nt_provided s) (nt_streams s) (nt_providers s));
  dht_find _ _ := m_gets nt_providers;
  net_tick s := s
|}.
#[export] Program Instance network_laws : NetworkLaws := {| dht_provided s := nt_provided s |}.
Next Obligation. by intros c s r s' [= <- <-]. Qed.
End ToyNet.
