(* ===== verification/Node.v ===== *)
(** * internal/node: the node and the two protocols it serves.

    A [node] is the state behind the fields of [Node]: the mapping table, the
    block store and file manager under the filestore, the files, and the
    network.  A handler runs on a [sess], the node together with the stream it
    was given. *)
From S2P Require Import Prelude GoStrings Json GoPath GoFS Protoio Lib Store Dummy Mapping Wire.
From S2P Require Import Config Identity Net.

Definition maxBlockBatch : nat := Z.to_nat 1024.

Section node.
Context {MF : Multiformats} {IP : Ipld} {BS : Blockstore} {FM : FileManager} {FS : Filestore}
  {DS : Datastore} {BA : Batching} {K : Keys} {N : Network}.

Record node := mk_node {
  nd_map : bstate; nd_bs : bstore; nd_fm : fman; nd_os : osst; nd_net : swarm
}.
Record sess := mk_sess { ss_node : node; ss_stream : stream }.

Definition on_map {A} : M bstate A → M node A :=
  m_zoom nd_map (λ x n, mk_node x (nd_bs n) (nd_fm n) (nd_os n) (nd_net n)).
Definition on_stores {A} (op : bstore → fman → result A * (bstore * fman)) : M node A := λ n,
  let '(r, (b, f)) := op (nd_bs n) (nd_fm n) in
  (r, mk_node (nd_map n) b f (nd_os n) (nd_net n)).
Definition on_files {A} : M osst A → M node A :=
  m_zoom nd_os (λ x n, mk_node (nd_map n) (nd_bs n) (nd_fm n) x (nd_net n)).
Definition on_net {A} : M swarm A → M node A :=
  m_zoom nd_net (λ x n, mk_node (nd_map n) (nd_bs n) (nd_fm n) (nd_os n) x).
Definition in_node {A} : M node A → M sess A := m_zoom ss_node (λ x s, mk_sess x (ss_stream s)).
Definition in_stream {A} : M stream A → M sess A := m_zoom ss_stream (λ x s, mk_sess (ss_node s) x).

(** [n.Fstore.Get]. *)
Definition Fstore_Get (c : cid) : M node string := λ n,
  (fst_get (os_fs (nd_os n)) (nd_bs n) (nd_fm n) c, n).

(** ** Addresses *)
Definition loopbackOnly (addrs : list maddr) : bool :=
  match addrs with
  | [] => false
  | _ => forallb (λ a, match ma_loopback a with Ok l => l | Err _ => false end) addrs
  end.
Definition BoundLoopbackOnly (n : node) : bool := loopbackOnly (host_addrs (nd_net n)).
Definition announceAddrs (addrs : list maddr) : list maddr :=
  match filter (λ a, ma_public a = true) addrs with
  | [] => addrs
  | out => out
  end.
Definition dialOrder (addrs : list maddr) : list maddr :=
  filter (λ a, ma_public a = true) addrs ++ filter (λ a, ma_public a ≠ true) addrs.
Definition Addrs (id : peer_id) (n : node) : list string :=
  map (λ a, ma_string a +:+ "/p2p/" +:+ peer_string id) (host_addrs (nd_net n)).
Fixpoint parseAddrs (strs : list string) : result (list maddr) :=
  match strs with
  | [] => Ok []
  | s :: rest =>
      m ← wrap_result "parse multiaddr" (ma_new s);
      out ← parseAddrs rest;
      Ok (m :: out)
  end.
Definition resolveBootstrap (cfg : Config) : result (list (AddrInfo maddr)) :=
  if Isolated cfg then Ok []
  else match Config.Bootstrap cfg with
       | [] => Ok default_bootstrap
       | l => addrs ← parseAddrs l; addr_infos addrs
       end.

Inductive Reachability := ReachabilityUnknown | ReachabilityPublic | ReachabilityPrivate.
Definition ReachabilityLine (r : Reachability) (cfg : Config) : string :=
  if Isolated cfg then "n/a (isolated node: no swarm to probe against)"
  else match r with
       | ReachabilityPublic => "public — dialable by strangers"
       | ReachabilityPrivate =>
           "private — NOT dialable by strangers; "
           +:+ (if negb (NATPortMap cfg)
                then "port mapping is off; drop --no-nat-portmap or port-forward manually"
                else "NAT-PMP/UPnP did not map the port; port it forward on the gateway")
           +:+ " (hole punching still works for peers that can reach us at all)"
       | ReachabilityUnknown => "probing (AutoNAT)…"
       end.

(** ** Peers and providers *)
Definition Dial (addr : string) : M node peer_id :=
  m ← m_lift (wrap_result "parse peer address" (ma_new addr));
  ai ← m_lift (wrap_result "parse peer address" (addr_info m));
  m_wrap "connect" (on_net (host_connect ai)) ;;
  mret (ai_ID ai).
Definition DialPeers (cfg : Config) : M node unit :=
  m_foreach (λ a, m_ignore (Dial a)) (Config.Connect cfg).

Definition ProvideCommit (commit : string) (actual : cid) : M node unit :=
  dummyCID ← m_lift (FromCommit commit);
  m_wrap "provide dummy cid" (on_net (dht_provide dummyCID)) ;;
  if decide (actual ≠ cid_undef ∧ actual ≠ dummyCID) then m_ignore (on_net (dht_provide actual))
  else mret tt.

Fixpoint reprovide_loop (entries : list Entry) (count : Z) : M node Z :=
  match entries with
  | [] => mret count
  | e :: rest =>
      match cid_decode (en_ActualCID e) with
      | Err _ => reprovide_loop rest count
      | Ok actual =>
          r ← m_try (ProvideCommit (en_CommitHash e) actual);
          match r with
          | Err _ => reprovide_loop rest count
          | Ok _ => reprovide_loop rest (count + 1)%Z
          end
      end
  end.
Definition ReprovideAll : M node Z :=
  rtSize ← m_gets (λ n, dht_table_size (nd_net n));
  if decide (rtSize = 0%Z) then mret 0%Z
  else
    entries ← on_map DB.List;
    reprovide_loop entries 0%Z.

Definition FindProvidersForCommit (self : peer_id) (commit : string) (limit : Z) :
    M node (list (AddrInfo maddr)) :=
  dummyCID ← m_lift (FromCommit commit);
  found ← on_net (dht_find dummyCID (if decide (limit ≤ 0)%Z then 16%Z else limit));
  mret (map (λ p, mk_AddrInfo (ai_ID p) (dialOrder (ai_Addrs p))) (filter (λ p, ai_ID p ≠ self) found)).

(** Looks at the table every 100 ms, [ticks] times. *)
Fixpoint WaitForRoutingTable (ticks : nat) : M node Z :=
  size ← m_gets (λ n, dht_table_size (nd_net n));
  if decide (size > 0)%Z then mret size
  else match ticks with
       | O => mret size
       | S ticks' => on_net (m_modify net_tick) ;; WaitForRoutingTable ticks'
       end.

(** ** Filestore references *)
Definition RegisterFilestoreRef (hub : string) (c : cid) (data absPath : string) (offset : Z) : M node unit :=
  if decide (cid_type c ≠ Raw) then m_fail (errorf "filestore references require raw blocks")
  else on_stores (λ b f, fst_put_ref hub b f c data absPath offset).

(** ** The map protocol *)
Definition relayed (s : stream) : bool := st_limited s.

(** The answer to a request, once it has been read. *)
Definition map_answer (cfg : Config) (req : MapRequest) : M sess MapResponse :=
  let refuse msg := mk_MapResponse false msg (rq_CommitHash req) "" "" "" "" 0 [] in
  match FromCommit (rq_CommitHash req) with
  | Err _ => mret (refuse "commit hash must be 40 hex characters")
  | Ok _ =>
      s ← m_gets ss_stream;
      if relayed s && negb (RelayBulk cfg)
      then mret (refuse ("peer will not stream bulk data over a circuit relay; it needs a " +:+
                         "publicly reachable address, or the seeder must run with --relay-bulk"))
      else
        r ← m_try (in_node (on_map (DB.Get (rq_CommitHash req))));
        mret (match r with
              | Err _ => refuse "lookup failed"
              | Ok None => refuse "commit not shared by this peer"
              | Ok (Some entry) =>
                  mk_MapResponse true "" (rq_CommitHash req) (en_RepoID entry) (en_RepoType entry)
                    (en_ActualCID entry) (en_DummyCID entry) (en_TotalSize entry) (en_Files entry)
              end)
  end.
Definition handleMap (cfg : Config) : M sess unit :=
  r ← m_try (in_stream (stream_read (ReadJSON dec_MapRequest zero_MapRequest)));
  match r with
  | Err _ => mret tt
  | Ok req =>
      resp ← map_answer cfg req;
      m_ignore (in_stream (stream_write (WriteJSON (MapResponse_json resp))))
  end ;;
  in_stream stream_close.

(** ** The block protocol *)
Record BlockRequest := mk_BlockRequest { br_CIDs : list string }.
Definition zero_BlockRequest : BlockRequest := mk_BlockRequest [].
Definition BlockRequest_json (r : BlockRequest) : json := JObj [("cids", JArr (map JStr (br_CIDs r)))].
Definition BlockRequest_fields : list (field BlockRequest) := [
  mk_field "cids" (dec_list dec_string "") br_CIDs (λ v _, mk_BlockRequest v)
].
Definition dec_BlockRequest : json → BlockRequest → result BlockRequest := dec_struct BlockRequest_fields.

Definition isStreamEnd (e : error) : bool :=
  errors_is e SEOF || errors_is e SCanceled || errors_is e SReset
  || match e with ErrRoot STimeout _ => true | _ => false end.
Definition isNotFound (e : error) : bool := errors_is e SIpldNotFound || errors_is e SDsNotFound.

Definition write_frame (data : string) : M sess unit := in_stream (stream_write (WriteFrame data)).

(** The answers to one batch; [false] when the handler is to return. *)
Fixpoint serve_cids (raws : list string) : M sess bool :=
  match raws with
  | [] => mret true
  | raw :: rest =>
      let not_found :=
        w ← m_try (write_frame (String BlockNotFound ""));
        match w with Err _ => mret false | Ok _ => serve_cids rest end in
      match cid_decode raw with
      | Err _ => not_found
      | Ok c =>
          r ← m_try (in_node (Fstore_Get c));
          match r with
          | Err err =>
              if negb (isNotFound err) then in_stream stream_reset ;; mret false
              else not_found
          | Ok data =>
              w ← m_try (write_frame (String BlockOK data));
              match w with Err _ => mret false | Ok _ => serve_cids rest end
          end
      end
  end.
Fixpoint serve (fuel : nat) : M sess unit :=
  match fuel with
  | O => mret tt
  | S fuel' =>
      r ← m_try (in_stream (stream_read (ReadJSON dec_BlockRequest zero_BlockRequest)));
      match r with
      | Err err => if isStreamEnd err then mret tt else mret tt
      | Ok req =>
          if maxBlockBatch <? length (br_CIDs req) then in_stream stream_reset
          else
            more ← serve_cids (br_CIDs req);
            if more : bool then serve fuel' else mret tt
      end
  end.
Definition handleBlocks (cfg : Config) : M sess unit :=
  s ← m_gets ss_stream;
  (if relayed s && negb (RelayBulk cfg) then in_stream stream_reset
   else serve (S (String.length (rs_in (st_in s))))) ;;
  in_stream stream_close.
End node.

(** ** The block server *)
Section block_server.
Context {MF : Multiformats} {IP : Ipld} {BS : Blockstore} {FM : FileManager} {FS : Filestore}
  {DS : Datastore} {BA : Batching} {K : Keys} {N : Network}.
Implicit Types (s : sess) (n : node) (raws : list string).

(** *** Termination, whatever is asked *)
Definition pending s : nat := String.length (rs_in (st_in (ss_stream s))).
Definition same_input s s' : Prop := st_in (ss_stream s') = st_in (ss_stream s).
#[local] Instance same_input_preorder : PreOrder same_input.
Proof. unfold same_input. split; [done|]. intros s1 s2 s3 E1 E2. congruence. Qed.
Lemma input_node {A} (op : M node A) : pres same_input (in_node op).
Proof. intros s. unfold in_node, m_zoom. by destruct (op (ss_node s)). Qed.
Lemma input_write data : pres same_input (write_frame data).
Proof.
  intros s. unfold write_frame, in_stream, stream_write, m_zoom.
  by destruct (WriteFrame data (st_out (ss_stream s))).
Qed.
Lemma input_reset : pres same_input (in_stream stream_reset).
Proof. by intros s. Qed.
Lemma serve_cids_input raws : pres same_input (serve_cids raws).
Proof.
  induction raws as [|raw raws IH]; [apply pres_ret, _|]. cbn [serve_cids]. cbv zeta.
  assert (pres same_input (w ← m_try (write_frame (String BlockNotFound ""));
    match w with Err _ => mret false | Ok _ => serve_cids raws end)) as Hn.
  { apply pres_bind; [apply _|apply pres_try, input_write|]. intros []; [done|apply pres_ret, _]. }
  destruct (cid_decode raw) as [c|]; [|done].
  apply pres_bind; [apply _|apply pres_try, input_node|]. intros [data|err].
  - apply pres_bind; [apply _|apply pres_try, input_write|]. intros []; [done|apply pres_ret, _].
  - destruct (negb _); [|done]. apply pres_bind; [apply _|apply input_reset|]. intros _. apply pres_ret, _.
Qed.
Lemma read_request_pending s r s' :
  in_stream (stream_read (ReadJSON dec_BlockRequest zero_BlockRequest)) s = (Ok r, s') → pending s' < pending s.
Proof.
  unfold in_stream, stream_read, m_zoom, pending.
  destruct (ReadJSON dec_BlockRequest zero_BlockRequest (st_in (ss_stream s))) as [r1 t] eqn:E.
  intros [= -> <-]. simpl. apply ReadJSON_consumes in E. lia.
Qed.
Lemma serve_fuel fuel k s : pending s < fuel → serve (fuel + k) s = serve fuel s.
Proof.
  revert s. induction fuel as [|fuel IH]; intros s Hf; [lia|]. cbn [Nat.add serve].
  destruct (in_stream (stream_read (ReadJSON dec_BlockRequest zero_BlockRequest)) s) as [r s1] eqn:E.
  rewrite !(bind_try_run _ _ _ _ _ E). destruct r as [req|err]; [|done].
  destruct (maxBlockBatch <? length (br_CIDs req)); [done|].
  apply read_request_pending in E. pose proof (serve_cids_input (br_CIDs req) s1) as Hin.
  destruct (serve_cids (br_CIDs req) s1) as [[[]|e] s2] eqn:Es; simpl in Hin.
  - rewrite !(bind_run_ok _ _ _ _ _ Es). apply IH. unfold pending in *. rewrite Hin. lia.
  - by rewrite !(bind_run_ok _ _ _ _ _ Es).
  - by rewrite !(bind_run_err _ _ _ _ _ Es).
Qed.


(** *** The answers *)
Definition block_answer n (raw : string) : string :=
  match cid_decode raw with
  | Err _ => String BlockNotFound ""
  | Ok c => match (Fstore_Get c n).1 with
            | Ok d => String BlockOK d
            | Err _ => String BlockNotFound ""
            end
  end.
(** The lookup of [raw] neither breaks nor yields a block too big for a frame. *)
Definition servable n (raw : string) : Prop :=
  ∀ c, cid_decode raw = Ok c →
  match (Fstore_Get c n).1 with Ok d => (slen d < MaxFrame)%Z | Err e => isNotFound e = true end.
Definition wrote (data : string) s : sess :=
  mk_sess (ss_node s)
    (mk_stream (st_in (ss_stream s)) (mk_wstate (ws_out (st_out (ss_stream s)) +:+ data) [])
       (st_limited (ss_stream s)) (st_reset (ss_stream s)) (st_closed (ss_stream s))).
Definition writable s : Prop := ws_faults (st_out (ss_stream s)) = [].

Lemma write_frame_run data s :
  writable s → (slen data ≤ MaxFrame)%Z → write_frame data s = (Ok tt, wrote (frame data) s).
Proof.
  destruct s as [n [i [o f] l r c]]. unfold writable. simpl. intros -> Hl.
  unfold write_frame, in_stream, stream_write, m_zoom. simpl. by rewrite WriteFrame_run.
Qed.
Lemma wrote_wrote a b s : wrote b (wrote a s) = wrote (a +:+ b) s.
Proof. unfold wrote. simpl. by rewrite sapp_assoc. Qed.
Lemma wrote_nil s : writable s → wrote "" s = s.
Proof. destruct s as [n [i [o f] l r c]]. unfold writable, wrote. simpl. intros ->. by rewrite sapp_nil_r. Qed.
Lemma Fstore_Get_run c s : in_node (Fstore_Get c) s = ((Fstore_Get c (ss_node s)).1, s).
Proof. by destruct s. Qed.

Lemma serve_cids_run raws s :
  writable s → Forall (servable (ss_node s)) raws →
  serve_cids raws s = (Ok true, wrote (frames (map (block_answer (ss_node s)) raws)) s).
Proof.
  intros Hw H. revert s Hw H. induction raws as [|raw raws IH]; intros s Hw H.
  { simpl. by rewrite wrote_nil. }
  apply Forall_cons in H as [Hraw H]. cbn [serve_cids map frames foldr]. cbv zeta.
  assert (∀ d, (slen d ≤ MaxFrame)%Z → block_answer (ss_node s) raw = d →
    (w ← m_try (write_frame d); match w with Err _ => mret false | Ok _ => serve_cids raws end) s =
    (Ok true, wrote (frame (block_answer (ss_node s) raw) +:+
                     frames (map (block_answer (ss_node s)) raws)) s)) as Hone.
  { intros d Hd ->. erewrite bind_try_run by by apply write_frame_run.
    cbv beta iota. rewrite (IH (wrote (frame d) s)) by done. by rewrite wrote_wrote. }
  assert ((slen (String BlockNotFound "") ≤ MaxFrame)%Z) as Hnf by (vm_compute; congruence).
  specialize (Hraw). unfold servable, block_answer in *. destruct (cid_decode raw) as [c|]; [|by apply Hone].
  specialize (Hraw c eq_refl). erewrite bind_try_run by apply Fstore_Get_run.
  destruct (Fstore_Get c (ss_node s)).1 as [d|e].
  - apply Hone; [|done]. unfold slen in *. cbn [String.length]. lia.
  - rewrite Hraw. cbn [negb]. by apply Hone.
Qed.

Definition batch_json (l : list string) : json := BlockRequest_json (mk_BlockRequest l).
Lemma dec_batch l : dec_BlockRequest (batch_json l) zero_BlockRequest = Ok (mk_BlockRequest l).
Proof.
  unfold dec_BlockRequest, batch_json, BlockRequest_json. cbn [br_CIDs].
  assert (dec_list dec_string "" (JArr (map JStr l)) [] = Ok l) as H.
  { apply (dec_list_ok JStr). by induction l; constructor. }
  simpl. simpl in H. by rewrite H.
Qed.
Lemma plain_batch l : plain (batch_json l).
Proof. split; [|done]. apply (plain_arr JStr). done. Qed.
(** A batch a well-behaved client may send. *)
Definition batch_ok (l : list string) : Prop :=
  length l ≤ maxBlockBatch ∧ (slen (print (batch_json l)) ≤ MaxFrame)%Z.
Definition requests (batches : list (list string)) : string := frames (map (λ l, print (batch_json l)) batches).
Definition input_is s (data : string) : Prop := rs_in (st_in (ss_stream s)) = data.

Lemma read_request_run l rest s :
  batch_ok l → input_is s (frame (print (batch_json l)) +:+ rest) →
  ∃ s', in_stream (stream_read (ReadJSON dec_BlockRequest zero_BlockRequest)) s = (Ok (mk_BlockRequest l), s') ∧
    input_is s' rest ∧ ss_node s' = ss_node s ∧ st_out (ss_stream s') = st_out (ss_stream s).
Proof.
  destruct s as [n [[i e] o lim rst c]]. unfold input_is. simpl. intros [_ Hl] ->.
  unfold in_stream, stream_read, m_zoom. cbn [ss_stream st_in st_out ss_node].
  rewrite ReadJSON_frame; [|apply plain_batch|exact Hl]. rewrite dec_batch. cbn [wrap_result].
  eexists. split; [reflexivity|]. split_and!; reflexivity.
Qed.
Lemma serve_run batches fuel s :
  writable s → Forall batch_ok batches → Forall (servable (ss_node s)) (concat batches) →
  input_is s (requests batches) → pending s < fuel →
  ∃ s', serve fuel s = (Ok tt, s') ∧ ss_node s' = ss_node s ∧
    ws_out (st_out (ss_stream s')) =
      ws_out (st_out (ss_stream s)) +:+ frames (map (block_answer (ss_node s)) (concat batches)).
Proof.
  intros Hw Hb. revert fuel s Hw. induction Hb as [|l batches Hl _ IH]; intros fuel s Hw Hs Hin Hf;
    (destruct fuel as [|fuel]; [lia|]); cbn [serve].
  - destruct s as [n [[i e] o lim rst c]]. unfold input_is in Hin. simpl in Hin. subst i.
    destruct (ReadJSON_empty dec_BlockRequest zero_BlockRequest e) as (e' & r' & He).
    assert (∃ s', in_stream (stream_read (ReadJSON dec_BlockRequest zero_BlockRequest))
      (mk_sess n (mk_stream (mk_rstate "" e) o lim rst c)) = (Err e', s') ∧ ss_node s' = n ∧
      st_out (ss_stream s') = o) as (s' & E & Hn & Ho).
    { unfold in_stream, stream_read, m_zoom. cbn [ss_stream st_in]. rewrite He. eexists. split; [reflexivity|]. done. }
    rewrite (bind_try_run _ _ _ _ _ E). exists s'.
    split; [by destruct (isStreamEnd e')|]. split; [done|]. rewrite Ho. simpl. by rewrite sapp_nil_r.
  - cbn [concat] in Hs. apply Forall_app in Hs as [Hs1 Hs2].
    destruct (read_request_run l (requests batches) s Hl Hin) as (s1 & E1 & Hin1 & Hn1 & Ho1).
    rewrite (bind_try_run _ _ _ _ _ E1). cbn [br_CIDs].
    destruct (Nat.ltb_spec maxBlockBatch (length l)) as [Hlt|_]; [destruct Hl; lia|].
    assert (writable s1) as Hw1 by (unfold writable; by rewrite Ho1).
    rewrite (bind_run_ok _ _ _ _ _ (serve_cids_run l s1 Hw1 ltac:(by rewrite Hn1))).
    apply read_request_pending in E1.
    destruct (IH fuel (wrote (frames (map (block_answer (ss_node s1)) l)) s1)) as (s' & Es & Hn' & Ho').
    { done. }
    { unfold wrote. cbn [ss_node]. by rewrite Hn1. }
    { exact Hin1. }
    { unfold pending, wrote in *. simpl. lia. }
    exists s'. split; [exact Es|]. unfold wrote in Hn', Ho'. cbn in Hn', Ho'.
    split; [congruence|]. rewrite Ho', Ho1, Hn1. cbn [concat]. rewrite map_app, frames_app, sapp_assoc. done.
Qed.

(** C26. The block protocol answers every request in order: for any batches of at
    most [maxBlockBatch] CIDs sent one after the other, the stream carries
    exactly one frame per CID, in the order asked, with the block when the
    filestore has it and the not-found byte when it does not or when the text
    is no CID; and nothing of the node changes. *)
Theorem handleBlocks_answers cfg s batches :
  writable s → (relayed (ss_stream s) && negb (RelayBulk cfg)) = false →
  Forall batch_ok batches → Forall (servable (ss_node s)) (concat batches) →
  input_is s (requests batches) →
  ∃ s', handleBlocks cfg s = (Ok tt, s') ∧ ss_node s' = ss_node s ∧ st_closed (ss_stream s') = true ∧
    ws_out (st_out (ss_stream s')) =
      ws_out (st_out (ss_stream s)) +:+ frames (map (block_answer (ss_node s)) (concat batches)).
Proof.
  intros Hw Hr Hb Hs Hin. unfold handleBlocks. rewrite bind_gets_run, Hr.
  destruct (serve_run batches (S (String.length (rs_in (st_in (ss_stream s))))) s) as (s' & Es & Hn & Ho);
    [done..|unfold pending; lia|].
  rewrite (bind_run_ok _ _ _ _ _ Es). eexists. split; [reflexivity|]. done.
Qed.
End block_server.

(** ** Announcing what is shared *)
Section announce.
Context {MF : Multiformats} {IP : Ipld} {BS : Blockstore} {FM : FileManager} {FS : Filestore}
  {DS : Datastore} {BA : Batching} {K : Keys} {N : Network}.
Context {DL : DatastoreLaws} {BAL : BatchingLaws} {NL : NetworkLaws}.
Implicit Types (n : node).

(** The commit of [e] can be looked up by anyone who asks the DHT in [n]. *)
Definition announced n (e : Entry) : Prop :=
  ∃ d, FromCommit (en_CommitHash e) = Ok d ∧ d ∈ dht_provided (nd_net n).
(** Announcing only adds records, and touches nothing else of the node. *)
Definition grows n n' : Prop :=
  dht_provided (nd_net n) ⊆ dht_provided (nd_net n') ∧
  dht_table_size (nd_net n') = dht_table_size (nd_net n) ∧
  nd_map n' = nd_map n ∧ nd_bs n' = nd_bs n ∧ nd_fm n' = nd_fm n ∧ nd_os n' = nd_os n.
#[local] Instance grows_preorder : PreOrder grows.
Proof.
  split; [done|]. intros n1 n2 n3 (A1 & B1 & C1 & D1 & E1 & F1) (A2 & B2 & C2 & D2 & E2 & F2).
  split_and!; [by etrans|congruence..].
Qed.
Lemma provide_grows c : pres grows (on_net (dht_provide c)).
Proof.
  intros n. unfold on_net, m_zoom. destruct (dht_provide c (nd_net n)) as [r s'] eqn:E.
  apply dht_provide_spec in E as [Hsz Hr]. simpl. split_and!; try done. simpl. destruct r; [set_solver|done].
Qed.
Lemma ProvideCommit_grows commit actual : pres grows (ProvideCommit commit actual).
Proof.
  unfold ProvideCommit. apply pres_bind; [apply _|apply pres_lift, _|intros d].
  apply pres_bind; [apply _|apply pres_wrap, provide_grows|intros _].
  case_decide; [apply pres_ignore, provide_grows|apply pres_ret, _].
Qed.
Lemma ProvideCommit_ok commit actual n n' :
  ProvideCommit commit actual n = (Ok tt, n') →
  ∃ d, FromCommit commit = Ok d ∧ d ∈ dht_provided (nd_net n').
Proof.
  unfold ProvideCommit. rewrite bind_lift_run. destruct (FromCommit commit) as [d|]; [|done].
  destruct (on_net (dht_provide d) n) as [r n1] eqn:E. rewrite (bind_wrap_run _ _ _ _ _ _ E).
  destruct r as [[]|]; [|done]. intros H. exists d. split; [done|].
  unfold on_net, m_zoom in E. destruct (dht_provide d (nd_net n)) as [r s'] eqn:Ep. injection E as -> <-.
  apply dht_provide_spec in Ep as [_ Ep].
  assert (grows (mk_node (nd_map n) (nd_bs n) (nd_fm n) (nd_os n) s') n') as [Hg _].
  { assert (n' = ((if decide (actual ≠ cid_undef ∧ actual ≠ d) then m_ignore (on_net (dht_provide actual))
      else mret tt) (mk_node (nd_map n) (nd_bs n) (nd_fm n) (nd_os n) s')).2) as -> by by rewrite H.
    assert (pres grows (if decide (actual ≠ cid_undef ∧ actual ≠ d) then m_ignore (on_net (dht_provide actual))
      else mret tt)) as Hp; [|apply Hp].
    case_decide; [apply pres_ignore, provide_grows|apply pres_ret, _]. }
  apply Hg. simpl. set_solver.
Qed.

(** The network takes every announcement. *)
Definition dht_up : Prop := ∀ c s, (dht_provide c s).1 = Ok tt.
Definition announceable (e : Entry) : bool :=
  is_ok (cid_decode (en_ActualCID e)) && is_ok (FromCommit (en_CommitHash e)).
Lemma ProvideCommit_up commit actual n :
  dht_up → is_ok (FromCommit commit) = true → (ProvideCommit commit actual n).1 = Ok tt.
Proof.
  intros Hup Hc. unfold ProvideCommit. rewrite bind_lift_run. destruct (FromCommit commit) as [d|]; [|done].
  assert (∀ c n, (on_net (dht_provide c) n).1 = Ok tt) as Hp.
  { intros c n1. unfold on_net, m_zoom. pose proof (Hup c (nd_net n1)) as H.
    destruct (dht_provide c (nd_net n1)). done. }
  pose proof (Hp d n) as H. destruct (on_net (dht_provide d) n) as [r n1] eqn:E. simpl in H. subst r.
  rewrite (bind_wrap_run _ _ _ _ _ _ E). by case_decide.
Qed.

Lemma reprovide_run entries count n r n' :
  reprovide_loop entries count n = (r, n') →
  grows n n' ∧ ∃ done, done `sublist_of` entries ∧ r = Ok (count + Z.of_nat (length done))%Z ∧
    Forall (announced n') done ∧ (dht_up → done = filter (λ e, announceable e = true) entries).
Proof.
  revert count n. induction entries as [|e entries IH]; intros count n H; cbn [reprovide_loop] in H.
  { injection H as <- <-. split; [reflexivity|]. exists []. split_and!; [done| |done|done].
    simpl. f_equal. lia. }
  rewrite filter_cons.
  assert (∀ n, reprovide_loop entries count n = (r, n') → (dht_up → announceable e = false) →
    grows n n' ∧ ∃ done, done `sublist_of` e :: entries ∧ r = Ok (count + Z.of_nat (length done))%Z ∧
    Forall (announced n') done ∧ (dht_up → done = if decide (announceable e = true)
       then e :: filter (λ e, announceable e = true) entries
       else filter (λ e, announceable e = true) entries)) as Hskip.
  { intros n1 H1 Hna. destruct (IH _ _ H1) as (Hg & l & Hs & Hr & Hf & Hup). split; [done|].
    exists l. split_and!; [by apply sublist_cons|done|done|]. intros U. rewrite (Hna U). by apply Hup. }
  destruct (cid_decode (en_ActualCID e)) as [actual|] eqn:Ea.
  2:{ apply Hskip; [done|]. intros _. unfold announceable. by rewrite Ea. }
  destruct (ProvideCommit (en_CommitHash e) actual n) as [rp n1] eqn:Ep.
  rewrite (bind_try_run _ _ _ _ _ Ep) in H.
  pose proof (ProvideCommit_grows (en_CommitHash e) actual n) as Hg1. rewrite Ep in Hg1. simpl in Hg1.
  destruct rp as [[]|err].
  - destruct (IH _ _ H) as (Hg & l & Hs & Hr & Hf & Hup). split; [by etrans|].
    apply ProvideCommit_ok in Ep as (d & Hd & Hin). exists (e :: l). split_and!.
    + by apply sublist_skip.
    + rewrite Hr. f_equal. simpl. lia.
    + constructor; [|done]. exists d. split; [done|]. by apply Hg.
    + intros U. rewrite (Hup U), decide_True; [done|]. unfold announceable. by rewrite Ea, Hd.
  - destruct (Hskip n1 H) as [Hg Hrest]; [|split; [by etrans|exact Hrest]].
    intros U. unfold announceable. rewrite Ea. simpl. pose proof (ProvideCommit_up (en_CommitHash e) actual n U) as Hup. rewrite Ep in Hup.
    destruct (is_ok (FromCommit (en_CommitHash e))); [|done]. by specialize (Hup eq_refl).
Qed.

(** Re-announcing is complete and honest: in a node that has joined the
    swarm, the count returned is that of revisions whose commit can now be found
    on the DHT; a revision that cannot be announced never stops the others, and
    when the network takes every announcement all well-formed ones are there.
    Nothing is unannounced and nothing else of the node changes. *)
Theorem ReprovideAll_announces n m :
  represents (nd_map n) m → dht_table_size (nd_net n) ≠ 0%Z →
  ∃ n' l, ReprovideAll n = (Ok (Z.of_nat (length l)), n') ∧ grows n n' ∧
    l ⊆ (map_to_list m).*2 ∧ Forall (announced n') l ∧
    (dht_up → ∀ c e, m !! c = Some e → announceable e = true → announced n' e).
Proof.
  intros Hm Hsz. destruct (List_run _ _ Hm) as (es & Hes & Hp & _).
  unfold ReprovideAll. rewrite bind_gets_run, decide_False by done.
  assert (on_map DB.List n = (Ok es, n)) as Hl.
  { unfold on_map, m_zoom. rewrite Hes. by destruct n. }
  rewrite (bind_run_ok _ _ _ _ _ Hl).
  destruct (reprovide_loop es 0 n) as [r n'] eqn:E.
  apply reprovide_run in E as (Hg & l & Hs & -> & Hf & Hup). exists n', l.
  split_and!; [done|done| |done|].
  - intros e He. rewrite <- Hp. by eapply elem_of_sublist.
  - intros U c e Hc Ha. rewrite Forall_forall in Hf. apply Hf. rewrite (Hup U).
    apply list_elem_of_filter. split; [done|]. rewrite Hp. apply list_elem_of_fmap.
    exists (c, e). split; [done|]. by apply elem_of_map_to_list.
Qed.
End announce.

(** ** A concrete node *)
Module ToyNode.
Import ToyDB.
#[export] Existing Instances Toy.multiformats Toy.multiformats_laws Toy.ipld Toy.blockstore Toy.blockstore_laws
  Toy.filemanager Toy.filemanager_laws Toy.filestore Toy.filestore_laws ToyKeys.keys ToyNet.network ToyNet.network_laws
  ToyDB.batching ToyDB.batching_laws ToyStore.datastore ToyStore.datastore_laws.

Definition commit : string := "0123456789abcdef0123456789abcdef01234567".
Definition leaf : cid := (byte_of_Z Raw, "l").
Definition absent : cid := (byte_of_Z Raw, "x").
Definition root : cid := (byte_of_Z DagProtobuf, "r").
Definition entry : Entry :=
  mk_Entry "org/m" "model" commit (cid_string root) "" [] 3 "2024-02-29T12:00:00Z" "ingest".
Definition table : gmap string Entry := {[ commit := entry ]}.
Definition node0 : node :=
  mk_node ({[ BucketMap := (λ e, print (entry_json e)) <$> table ]} : buckets)
    ({[ "r" := "@f=" +:+ cid_string leaf +:+ ","; "l" := "data" ]} : gmap string string)
    (∅ : gmap string fref) (mk_osst ∅ [] ["17"] 0) (ToyNet.mk_net ∅ [] []).
Definition stream_of (data : string) : stream :=
  mk_stream (mk_rstate data (ErrRoot SEOF "EOF")) (mk_wstate "" []) false false false.
Definition cfg0 : Config :=
  mk_Config "/repo" "/hub" [] [] false [] true true true false [] false 1048576 true "" "" "" 0.
Definition batch : list string := [cid_string leaf; "junk"; cid_string absent; cid_string root].

Lemma represents0 : represents (nd_map node0) table.
Proof.
  split; [exact I|]. split; [reflexivity|]. intros c e. unfold table. intros [<- <-]%lookup_singleton_Some.
  split; [done|]. split; [|done]. split; [constructor|done].
Defined.
Lemma servable0 : Forall (servable node0) (concat [batch]).
Proof.
  assert (∀ raw, (match cid_decode raw with
    | Ok c => match (Fstore_Get c node0).1 with Ok d => slen d <? MaxFrame | Err e => isNotFound e end
    | Err _ => true end)%Z = true → servable node0 raw) as H.
  { intros raw Hb c Hc. rewrite Hc in Hb. destruct (Fstore_Get c node0).1; [by apply Z.ltb_lt|done]. }
  unfold batch. cbn [concat app]. repeat (constructor; [apply H; vm_compute; reflexivity|]). constructor.
Defined.
Lemma batch_ok0 : batch_ok batch.
Proof. split; [apply Nat.leb_le; vm_compute; reflexivity|apply Z.leb_le; vm_compute; reflexivity]. Defined.
End ToyNode.

Section witnesses.
Import ToyNode.


Lemma handleBlocks_answers_witness :
  ∃ s', handleBlocks cfg0 (mk_sess node0 (stream_of (requests [batch]))) = (Ok tt, s') ∧
    ws_out (st_out (ss_stream s')) =
      frames [String BlockOK "data"; String BlockNotFound ""; String BlockNotFound "";
              String BlockOK ("@f=" +:+ cid_string leaf +:+ ",")].
Proof.
  destruct (handleBlocks_answers cfg0 (mk_sess node0 (stream_of (requests [batch]))) [batch])
    as (s' & H & _ & _ & Ho); [reflexivity|reflexivity|constructor; [exact batch_ok0|constructor]|exact servable0|reflexivity|].
  exists s'. split; [exact H|]. rewrite Ho. vm_compute. reflexivity.
Defined.

Lemma ReprovideAll_announces_witness :
  ∃ n', ReprovideAll node0 = (Ok 1%Z, n') ∧ announced n' entry.
Proof.
  destruct (ReprovideAll_announces node0 table represents0) as (n' & l & H & _ & _ & Hall & Hup); [done|].
  exists n'. assert (length l = 1) as Hl.
  { assert ((ReprovideAll node0).1 = Ok 1%Z) as H1 by (vm_compute; reflexivity). rewrite H in H1.
    injection H1. lia. }
  split; [rewrite H, Hl; reflexivity|].
  apply (Hup ltac:(by intros c s) commit entry); [vm_compute; reflexivity|vm_compute; reflexivity].
Defined.
End witnesses.
