(* ===== verification/Reach.v ===== *)
(** * internal/node: reachability and relay candidates.

    A [tracker] is a node with AutoNAT's verdict on it, the channel of verdicts
    the banner reads ([reachCh], four places) and what it has read so far.  The
    goroutine of [trackReachability] and its reader are the [signal]s, in the
    order in which they happen.  The peer store is a pair of functions. *)
From stdpp Require Import gmap.
From S2P Require Import Prelude GoStrings GoFS Protoio Lib Store Dummy Mapping Wire Config Identity Net Node.

(** ** Reachability *)
#[export] Instance Reachability_eq_dec : EqDecision Reachability.
Proof. solve_decision. Defined.

Section reach.
Context {MF : Multiformats} {BS : Blockstore} {FM : FileManager} {DS : Datastore} {BA : Batching} {K : Keys} {N : Network}.

Record tracker := mk_tracker {
  tk_node : node; tk_reach : Reachability; tk_chan : list Reachability; tk_taken : list Reachability; tk_public : bool
}.
Definition on_tracked {A} : M node A → M tracker A :=
  m_zoom tk_node (λ n t, mk_tracker n (tk_reach t) (tk_chan t) (tk_taken t) (tk_public t)).
(** [Reachability]. *)
Definition reachability : M tracker Reachability := m_gets tk_reach.
Definition store_reach (r : Reachability) : M tracker unit :=
  m_modify (λ t, mk_tracker (tk_node t) r (tk_chan t) (tk_taken t) (tk_public t)).
(** A send that does not block: a full channel drops the verdict. *)
Definition reachCap : nat := 4.
Definition notify (r : Reachability) : M tracker unit :=
  m_modify (λ t, mk_tracker (tk_node t) (tk_reach t)
    (if length (tk_chan t) <? reachCap then tk_chan t ++ [r] else tk_chan t) (tk_taken t) (tk_public t)).
Definition now_public : M tracker unit :=
  m_modify (λ t, mk_tracker (tk_node t) (tk_reach t) (tk_chan t) (tk_taken t) true).
(** The reader of [ReachabilityChanged]. *)
Definition receive : M tracker unit :=
  m_modify (λ t, match tk_chan t with
                 | [] => t
                 | r :: q => mk_tracker (tk_node t) (tk_reach t) q (tk_taken t ++ [r]) (tk_public t)
                 end).

(** An event of the subscription, one of another type, a look at the channel,
    or a change to the node by somebody else. *)
Inductive signal := Changed (r : Reachability) | Unrelated | Received | Meanwhile (f : node → node).
Definition on_signal (s : signal) : M tracker unit :=
  match s with
  | Changed r =>
      store_reach r ;;
      notify r ;;
      was ← m_gets tk_public;
      if bool_decide (r = ReachabilityPublic) && negb was then
        now_public ;;
        m_ignore (on_tracked ReprovideAll)
      else mret tt
  | Unrelated => mret tt
  | Received => receive
  | Meanwhile f => on_tracked (m_modify f)
  end.
Definition trackReachability (l : list signal) : M tracker unit := m_foreach on_signal l.
Definition untracked (n : node) : tracker := mk_tracker n ReachabilityUnknown [] [] false.

(** One look every 200 ms; [ticks] is what happens between two looks. *)
Fixpoint wait_loop (ticks : list (list signal)) : M tracker Reachability :=
  r ← reachability;
  if decide (r ≠ ReachabilityUnknown) then mret r
  else match ticks with
       | [] => reachability
       | l :: rest => trackReachability l ;; wait_loop rest
       end.
Definition WaitForReachability (isolated : bool) (ticks : list (list signal)) : M tracker Reachability :=
  if isolated then mret ReachabilityUnknown else wait_loop ticks.

(** ** Relay candidates *)
(* Peerstore().SupportsProtocols for the hop protocol, and Peerstore().Addrs. *)
Context (supports_hop : peer_id → result (list string)) (ps_addrs : peer_id → list maddr).

(** [room] is how many the consumer takes before it is cancelled. *)
Fixpoint relay_loop (peers : list peer_id) (num : Z) (room : nat) : list (AddrInfo maddr) :=
  match peers with
  | [] => []
  | p :: rest =>
      if decide (num ≤ 0)%Z then []
      else
        match supports_hop p with
        | Err _ | Ok [] => relay_loop rest num room
        | Ok _ =>
            match ps_addrs p with
            | [] => relay_loop rest num room
            | addrs =>
                match room with
                | O => []
                | S room' => mk_AddrInfo p addrs :: relay_loop rest (num - 1) room'
                end
            end
        end
  end.
(** [known] is the peer store of the host, once there is one. *)
Definition relayCandidates (known : option (list peer_id)) (num : Z) (room : nat) : list (AddrInfo maddr) :=
  match known with None => [] | Some peers => relay_loop peers num room end.

(** *** Which peers are offered *)
Definition hop (p : peer_id) : option (AddrInfo maddr) :=
  match supports_hop p, ps_addrs p with
  | Ok (_ :: _), (_ :: _) as addrs => Some (mk_AddrInfo p addrs)
  | _, _ => None
  end.
(** The pool is offered the peers that advertise the hop service and have an
    address, in the order of the peer store, as many as it asked for unless it
    stops listening before; a request for none, or for fewer than none, gets
    none. *)
Theorem relayCandidates_spec peers num room :
  relayCandidates (Some peers) num room = take (Z.to_nat num `min` room) (omap hop peers).
Proof.
  cbn [relayCandidates]. revert num room. induction peers as [|p rest IH]; intros num room; cbn [relay_loop omap list_omap].
  { by rewrite take_nil. }
  case_decide as Hn; [by replace (Z.to_nat num) with 0 by lia|]. unfold hop at 1.
  destruct (supports_hop p) as [[|s l]|e]; [apply IH| |apply IH]. destruct (ps_addrs p) as [|a addrs]; [apply IH|].
  destruct room as [|room]; [by rewrite Nat.min_0_r|]. rewrite IH.
  replace (Z.to_nat num) with (S (Z.to_nat (num - 1))) by lia. done.
Qed.

(** *** What the verdicts lead to *)
Definition verdict (s : signal) : option Reachability := match s with Changed r => Some r | _ => None end.
Definition verdicts (l : list signal) : list Reachability := omap verdict l.
(** What the others do to the node. *)
Definition others (l : list signal) (n : node) : node :=
  foldl (λ n s, match s with Meanwhile f => f n | _ => n end) n l.
(** The channel never overflows when [waiting] verdicts are in it. *)
Fixpoint fits (waiting : nat) (l : list signal) : bool :=
  match l with
  | [] => true
  | Changed _ :: l => (waiting <? reachCap) && fits (S waiting) l
  | Received :: l => fits (pred waiting) l
  | _ :: l => fits waiting l
  end.

Lemma on_signal_ok s t : (on_signal s t).1 = Ok tt.
Proof.
  destruct s as [r| | |f]; try done. cbn [on_signal]. unfold store_reach, notify, m_modify, m_gets, mbind, M_bind.
  by destruct (_ && _).
Qed.
Lemma track_cons s l t : trackReachability (s :: l) t = trackReachability l (on_signal s t).2.
Proof.
  unfold trackReachability. cbn [m_foreach]. rewrite (bind_run_ok _ _ t tt (on_signal s t).2); [done|].
  rewrite <- (on_signal_ok s t). by destruct (on_signal s t).
Qed.
Lemma on_changed r t : let t' := (on_signal (Changed r) t).2 in
  tk_reach t' = r ∧ tk_taken t' = tk_taken t ∧
  tk_chan t' = (if length (tk_chan t) <? reachCap then tk_chan t ++ [r] else tk_chan t) ∧
  tk_public t' = bool_decide (r = ReachabilityPublic) || tk_public t ∧
  tk_node t' = if bool_decide (r = ReachabilityPublic) && negb (tk_public t) then (ReprovideAll (tk_node t)).2 else tk_node t.
Proof.
  cbv zeta. cbn [on_signal]. unfold store_reach, notify, now_public, on_tracked, m_ignore, m_zoom, m_modify, m_gets, mbind, M_bind.
  cbn [tk_public tk_chan tk_node tk_taken]. destruct (bool_decide (r = ReachabilityPublic)), (tk_public t); cbn [andb negb orb snd]; try (by split_and!).
  cbn. destruct (ReprovideAll (tk_node t)). by split_and!.
Qed.

(** The verdict a caller reads is always AutoNAT's latest.  The channel is a
    hint: what comes out of it comes in order, each verdict once, and all of
    them while the reader keeps up; when four wait, newer ones are dropped. *)
Theorem verdict_mirrored n l :
  let t := (trackReachability l (untracked n)).2 in
  tk_reach t = default ReachabilityUnknown (last (verdicts l)) ∧
  tk_taken t ++ tk_chan t `sublist_of` verdicts l ∧ length (tk_chan t) ≤ reachCap ∧
  (fits 0 l = true → tk_taken t ++ tk_chan t = verdicts l).
Proof.
  cbv zeta. enough (∀ t0, length (tk_chan t0) ≤ reachCap → let t := (trackReachability l t0).2 in
    tk_reach t = default (tk_reach t0) (last (verdicts l)) ∧
    tk_taken t ++ tk_chan t `sublist_of` (tk_taken t0 ++ tk_chan t0) ++ verdicts l ∧ length (tk_chan t) ≤ reachCap ∧
    (fits (length (tk_chan t0)) l = true → tk_taken t ++ tk_chan t = (tk_taken t0 ++ tk_chan t0) ++ verdicts l)) as H
    by by apply (H (untracked n)); unfold untracked, reachCap; simpl; lia.
  cbv zeta. induction l as [|s l IH]; intros t0 Hl.
  { cbn [trackReachability m_foreach verdicts omap list_omap last default]. rewrite app_nil_r. by split_and!. }
  rewrite track_cons. destruct s as [r| | |f].
  - pose proof (on_changed r t0) as (Hr & Ht & Hc & _). set (t1 := (on_signal _ t0).2) in *.
    assert (verdicts (Changed r :: l) = r :: verdicts l) as -> by done. cbn [fits].
    destruct (length (tk_chan t0) <? reachCap) eqn:Efit.
    + apply Nat.ltb_lt in Efit. destruct (IH t1) as (H1 & H2 & H3 & H4).
      { rewrite Hc, length_app. simpl. lia. }
      rewrite Hr in H1. rewrite Ht, Hc in H2, H4. split_and!; [|by rewrite app_assoc, <- app_assoc in H2|done|].
      * rewrite H1, (last_cons r). by destruct (last (verdicts l)).
      * intros Hf. rewrite length_app, Nat.add_1_r in H4. rewrite H4 by done. by rewrite app_assoc, <- app_assoc.
    + destruct (IH t1) as (H1 & H2 & H3 & H4); [by rewrite Hc|]. rewrite Hr in H1. rewrite Ht, Hc in H2.
      split_and!; [| |done|done].
      * rewrite H1, (last_cons r). by destruct (last (verdicts l)).
      * etrans; [exact H2|]. apply sublist_app; [done|]. by apply sublist_cons.
  - apply IH, Hl.
  - assert (tk_taken (on_signal Received t0).2 ++ tk_chan (on_signal Received t0).2 = tk_taken t0 ++ tk_chan t0 ∧
      length (tk_chan (on_signal Received t0).2) = pred (length (tk_chan t0)) ∧
      tk_reach (on_signal Received t0).2 = tk_reach t0) as (E1 & E2 & E3).
    { cbn [on_signal]. unfold receive, m_modify. cbn [snd]. destruct (tk_chan t0) eqn:Eq; [by rewrite Eq|].
      cbn [tk_taken tk_chan length pred tk_reach]. by rewrite <- app_assoc. }
    destruct (IH (on_signal Received t0).2) as (H1 & H2 & H3 & H4); [lia|]. rewrite E1, E3, ?E2 in *. by split_and!.
  - apply (IH (on_signal (Meanwhile f) t0).2), Hl.
Qed.

Lemma others_only l t : tk_public t = true ∨ ReachabilityPublic ∉ verdicts l →
  tk_node (trackReachability l t).2 = others l (tk_node t).
Proof.
  revert t. induction l as [|s l IH]; intros t Hp; [done|]. rewrite track_cons. destruct s as [r| | |f].
  - pose proof (on_changed r t) as (_ & _ & _ & Hpub & Hn). set (t1 := (on_signal _ t).2) in *.
    assert (verdicts (Changed r :: l) = r :: verdicts l) as E by done. rewrite E in Hp.
    assert (tk_node t1 = tk_node t) as Ht.
    { rewrite Hn. destruct Hp as [Hp|Hp]; [by rewrite Hp, andb_false_r|]. rewrite bool_decide_eq_false_2; [done|].
      intros ->. apply Hp, list_elem_of_here. }
    rewrite IH, Ht; [done|]. rewrite Hpub. destruct Hp as [->|Hp]; [left; apply orb_true_r|right].
    intros Hin. by apply Hp, list_elem_of_further.
  - by apply IH.
  - rewrite IH; [cbn [on_signal]; unfold receive, m_modify; cbn [snd]; by destruct (tk_chan t)|].
    cbn [on_signal]; unfold receive, m_modify; cbn [snd]. by destruct (tk_chan t).
  - by apply IH.
Qed.
Lemma track_app l1 l2 t : (trackReachability (l1 ++ l2) t).2 = (trackReachability l2 (trackReachability l1 t).2).2.
Proof. revert t. induction l1 as [|s l1 IH]; intros t; [done|]. cbn [app]. by rewrite !track_cons, IH. Qed.
Lemma not_yet_public l t : ReachabilityPublic ∉ verdicts l → tk_public (trackReachability l t).2 = tk_public t.
Proof.
  revert t. induction l as [|s l IH]; intros t Hp; [done|]. rewrite track_cons. destruct s as [r| | |f].
  - pose proof (on_changed r t) as (_ & _ & _ & Hpub & _). assert (verdicts (Changed r :: l) = r :: verdicts l) as E by done.
    rewrite E in Hp. apply not_elem_of_cons in Hp as [Hr Hp]. rewrite IH by done. rewrite Hpub. by rewrite bool_decide_eq_false_2.
  - by apply IH.
  - rewrite IH by done. cbn [on_signal]; unfold receive, m_modify; cbn [snd]. by destruct (tk_chan t).
  - by rewrite IH.
Qed.
End reach.

Section announced.
Context {MF : Multiformats} {BS : Blockstore} {FM : FileManager} {DS : Datastore} {BA : Batching} {DL : DatastoreLaws}
  {BAL : BatchingLaws} {K : Keys} {N : Network} {NL : NetworkLaws}.

(** C15. The first verdict that the node is public re-announces what it shares, once:
    the table as it is at that moment, every revision that can be announced,
    and whatever the others do to the node before and after is kept.  With an
    empty routing table nothing is announced at that moment, and no later
    verdict makes up for it. *)
Theorem public_reannounces n l1 l2 m :
  ReachabilityPublic ∉ verdicts l1 → let n1 := others l1 n in represents (nd_map n1) m →
  let t := (trackReachability (l1 ++ Changed ReachabilityPublic :: l2) (untracked n)).2 in
  ∃ n2, tk_node t = others l2 n2 ∧
  (dht_table_size (nd_net n1) = 0%Z → n2 = n1) ∧
  (dht_table_size (nd_net n1) ≠ 0%Z → grows n1 n2 ∧
   (dht_up → ∀ c e, m !! c = Some e → announceable e = true → announced n2 e)).
Proof.
  cbv zeta. intros Hp Hm. exists (ReprovideAll (others l1 n)).2. split_and!.
  - rewrite track_app, track_cons. set (t1 := (trackReachability l1 (untracked n)).2).
    assert (tk_node t1 = others l1 n) as E1 by by (unfold t1; rewrite others_only by by right).
    assert (tk_public t1 = false) as E2 by by (unfold t1; rewrite not_yet_public).
    pose proof (on_changed ReachabilityPublic t1) as (_ & _ & _ & Hpub & Hn). rewrite others_only by (left; by rewrite Hpub).
    by rewrite Hn, E1, E2.
  - intros Hz. unfold ReprovideAll. by rewrite bind_gets_run, decide_True by done.
  - intros Hz. destruct (ReprovideAll_announces _ m Hm Hz) as (n2 & l & -> & Hg & _ & _ & Hall). by split.
Qed.
End announced.

(** ** A concrete node *)
Section witnesses.
Import ToyNode.
Definition flapping : list signal := [Changed ReachabilityPrivate; Unrelated].

Lemma public_reannounces_witness :
  announced (tk_node (trackReachability (flapping ++ Changed ReachabilityPublic :: [Received]) (untracked node0)).2) entry.
Proof.
  destruct (public_reannounces node0 flapping [Received] table) as (n2 & -> & _ & H).
  - intros H%list_elem_of_singleton. discriminate H.
  - exact represents0.
  - destruct (H ltac:(by vm_compute)) as [_ Hall]. apply (Hall ltac:(by intros c s) commit entry); vm_compute; reflexivity.
Defined.
(** Five verdicts before the banner looks: what it reads last is not the
    verdict the node holds. *)
Lemma banner_stale :
  let l := [Changed ReachabilityPrivate; Changed ReachabilityPublic; Changed ReachabilityPrivate; Changed ReachabilityUnknown;
            Changed ReachabilityPublic; Received; Received; Received; Received; Received] in
  let t := (trackReachability l (untracked node0)).2 in
  tk_reach t = ReachabilityPublic ∧ last (tk_taken t) = Some ReachabilityUnknown ∧ tk_chan t = [].
Proof. vm_compute. by split_and!. Qed.
End witnesses.
