(* ===== verification/Start.v ===== *)
(** * internal/node: opening and closing a node.

    [New] acquires the repository lock, the database and the host one after
    the other and gives back what it holds when a later step fails.  [res] is
    what the process holds; the libp2p constructors are operations that succeed
    or fail.  What the options switch on is not observable here. *)
From stdpp Require Import gmap.
From S2P Require Import Prelude GoStrings GoPath GoFS Lib Store Config Identity Net Node.

Section start.
Context {MF : Multiformats} {IP : Ipld} {B : Bolt} {K : Keys} {N : Network}.

Record res := mk_res {
  re_lock : lockst;             (* files and the kernel's lock table *)
  re_db : option boltdb;        (* the database handle, if one was ever opened *)
  re_store_open : bool;
  re_host_open : bool;
  re_dht_open : bool
}.
Definition on_lock {A} : M lockst A → M res A :=
  m_zoom re_lock (λ x s, mk_res x (re_db s) (re_store_open s) (re_host_open s) (re_dht_open s)).
Definition on_files {A} (m : M osst A) : M res A := on_lock (lift_os m).

(** What libp2p's constructors answer. *)
Record libp2p := mk_libp2p {
  lp_conn_manager : result unit;      (* connmgr.NewConnManager *)
  lp_resource_manager : result unit;  (* rcmgr.NewResourceManager *)
  lp_host : result unit;              (* libp2p.New *)
  lp_dht : result unit                (* dht.New *)
}.
Variable lp : libp2p.

(** A store and a host are open from the moment their constructor returns. *)
Definition open_store (path : string) : M res Store := λ s,
  let '(r, db) := Store.Open path (re_db s) in
  (r, mk_res (re_lock s) db (is_ok r) (re_host_open s) (re_dht_open s)).
Definition close_store (st : Store) : M res unit := λ s,
  let '(r, db) := Store.Close st (re_db s) in
  (r, mk_res (re_lock s) db false (re_host_open s) (re_dht_open s)).
Definition close_lock (l : Lock) : M res unit := on_lock (CloseLock l) ;; mret tt.
Definition open_host : M res unit := λ s,
  match lp_host lp with
  | Ok _ => (Ok tt, mk_res (re_lock s) (re_db s) (re_store_open s) true (re_dht_open s))
  | Err e => (Err e, s)
  end.
Definition close_host : M res unit :=
  m_modify (λ s, mk_res (re_lock s) (re_db s) (re_store_open s) false (re_dht_open s)).
Definition open_dht : M res unit := λ s,
  match lp_dht lp with
  | Ok _ => (Ok tt, mk_res (re_lock s) (re_db s) (re_store_open s) (re_host_open s) true)
  | Err e => (Err e, s)
  end.
Definition close_dht : M res unit :=
  m_modify (λ s, mk_res (re_lock s) (re_db s) (re_store_open s) (re_host_open s) false).

(** [if err != nil { cleanup; return nil, err }]. *)
Definition or_release {A} (m : M res A) (cleanup : M res unit) : M res A :=
  r ← m_try m;
  match r with
  | Ok a => mret a
  | Err e => cleanup ;; m_fail e
  end.

Fixpoint parse_relays (strs : list string) : result (list (AddrInfo maddr)) :=
  match strs with
  | [] => Ok []
  | s :: rest =>
      m ← wrap_result "static relay" (ma_new s);
      ai ← wrap_result "static relay must include /p2p/<peer-id>" (addr_info m);
      out ← parse_relays rest;
      Ok (ai :: out)
  end.

(** What a started node owns. *)
Record started := mk_started { sn_lock : Lock; sn_store : Store; sn_key : privkey; sn_id : peer_id }.

Definition New (cfg : Config) : M res started :=
  on_files (EnsureDirs cfg) ;;
  lock ← on_lock (AcquireLock (LockPath cfg));
  st ← or_release (open_store (DBPath cfg)) (m_ignore (close_lock lock));
  let release := m_ignore (close_store st) ;; m_ignore (close_lock lock) in
  kp ← or_release (on_files (LoadOrGenerate (KeyPath cfg))) release;
  or_release (m_lift (lp_conn_manager lp)) release ;;
  or_release (m_lift (lp_resource_manager lp)) release ;;
  (* a bad static relay returns at once *)
  m_lift (if negb (Isolated cfg) && Relay cfg && bool_decide (StaticRelays cfg ≠ [])
          then _ ← parse_relays (StaticRelays cfg); Ok tt
          else Ok tt) ;;
  m_wrap "create libp2p host" (or_release open_host release) ;;
  or_release (_ ← m_lift (resolveBootstrap cfg); mret tt) (m_ignore close_host ;; release) ;;
  m_wrap "create kad-dht" (or_release open_dht (m_ignore close_host ;; release)) ;;
  mret (mk_started lock st kp.1 kp.2).

(** [Close] closes everything, whatever fails on the way.  Of the joined errors
    the first is kept. *)
Definition CloseNode (n : started) : M res unit :=
  r1 ← m_try close_dht;
  r2 ← m_try close_host;
  r3 ← m_try (close_store (sn_store n));
  r4 ← m_try (close_lock (sn_lock n));
  match filter (λ r : result unit, is_ok r = false) [r1; r2; r3; r4] with
  | Err e :: _ => m_fail e
  | _ => mret tt
  end.
End start.

(** ** Nothing is left behind *)
Section release.
Context {MF : Multiformats} {IP : Ipld} {B : Bolt} {K : Keys} {N : Network}.
Context (lp : libp2p) (cfg : Config).
Implicit Types (s : res).

Definition lock_file : fpath := abs_segs (LockPath cfg).
(** Beyond what [s0] held, [s] holds nothing; the lock; the lock and the
    database, and the host when [h]. *)
Definition idle (s0 s : res) : Prop :=
  lk_held (re_lock s) = lk_held (re_lock s0) ∧ re_store_open s = false ∧
  re_host_open s = false ∧ re_dht_open s = false.
Definition locked (s0 s : res) : Prop :=
  lock_file ∉ lk_held (re_lock s0) ∧ lk_held (re_lock s) = {[lock_file]} ∪ lk_held (re_lock s0) ∧
  re_store_open s = false ∧ re_host_open s = false ∧ re_dht_open s = false.
Definition opened (h d : bool) (s0 s : res) : Prop :=
  lock_file ∉ lk_held (re_lock s0) ∧ lk_held (re_lock s) = {[lock_file]} ∪ lk_held (re_lock s0) ∧
  re_store_open s = true ∧ re_host_open s = h ∧ re_dht_open s = d.
(** A static relay is configured that cannot be parsed. *)
Definition bad_relay : Prop :=
  Isolated cfg = false ∧ Relay cfg = true ∧ StaticRelays cfg ≠ [] ∧
  is_ok (parse_relays (StaticRelays cfg)) = false.

(** [stage P m Q R]: from [P], success ends in [Q] and failure in [R]. *)
Definition stage {A} (P : res → Prop) (m : M res A) (Q : A → res → Prop) (R : res → Prop) : Prop :=
  triple P m (λ r s, match r with Ok a => Q a s | Err _ => R s end).
Lemma stage_bind {A C} P (m : M res A) Q (f : A → M res C) Q' R :
  stage P m Q R → (∀ a, stage (Q a) (f a) Q' R) → stage P (m ≫= f) Q' R.
Proof. intros Hm Hf. eapply triple_bind; [exact Hm|]. intros a. apply Hf. Qed.
Lemma stage_release {A} P (m : M res A) Q P' cleanup R :
  stage P m Q P' → (∀ s, P' s → R (cleanup s).2) → stage P (or_release m cleanup) Q R.
Proof.
  intros Hm Hc s Hs. specialize (Hm s Hs). unfold or_release.
  destruct (m s) as [r s1] eqn:E. rewrite (bind_try_run _ _ _ _ _ E). simpl in Hm. destruct r as [a|e]; [done|].
  specialize (Hc s1 Hm). unfold mbind, M_bind. by destruct (cleanup s1) as [[] s2].
Qed.
Lemma stage_wrap {A} P ctx (m : M res A) Q R : stage P m Q R → stage P (m_wrap ctx m) Q R.
Proof. intros Hm s Hs. specialize (Hm s Hs). unfold m_wrap. destruct (m s) as [[] s1]; exact Hm. Qed.
Lemma stage_lift {A} (P : res → Prop) (r : result A) (R : res → Prop) :
  (∀ s, P s → is_ok r = false → R s) → stage P (m_lift r) (λ a s, P s ∧ r = Ok a) R.
Proof. intros H s Hs. simpl. destruct r; [done|]. by apply H. Qed.
Lemma stage_ret {A} (a : A) (P : res → Prop) (Q : A → res → Prop) R :
  (∀ s, P s → Q a s) → stage P (mret a) Q R.
Proof. intros H s Hs. by apply H. Qed.
Lemma stage_weaken {A} (P P' : res → Prop) (m : M res A) Q R :
  (∀ s, P s → P' s) → stage P' m Q R → stage P m Q R.
Proof. intros H Hm s Hs. apply Hm, H, Hs. Qed.

Lemma stage_pure {A} (φ : Prop) P (m : M res A) Q R :
  (φ → stage P m Q R) → stage (λ s, φ ∧ P s) m Q R.
Proof. intros Hm s [H Hs]. by apply Hm. Qed.

(** *** The steps *)
Definition files_only (s s' : res) : Prop :=
  lk_held (re_lock s') = lk_held (re_lock s) ∧ re_store_open s' = re_store_open s ∧
  re_host_open s' = re_host_open s ∧ re_dht_open s' = re_dht_open s.
Lemma on_files_only {A} (m : M osst A) s : files_only s (on_files m s).2.
Proof.
  unfold on_files, on_lock, lift_os, m_zoom. destruct (m (lk_os (re_lock s))) as [r o]. done.
Qed.
Lemma files_idle s0 s s' : files_only s s' → idle s0 s → idle s0 s'.
Proof. unfold files_only, idle. intuition congruence. Qed.
Lemma files_opened h d s0 s s' : files_only s s' → opened h d s0 s → opened h d s0 s'.
Proof. unfold files_only, opened. intuition congruence. Qed.
Lemma stage_files {A} (m : M osst A) (P : res → Prop) :
  (∀ s s', files_only s s' → P s → P s') → stage P (on_files m) (λ _, P) P.
Proof.
  intros H s Hs. pose proof (H _ _ (on_files_only m s) Hs). destruct (on_files m s) as [[] s']; done.
Qed.

Lemma acquire_stage s0 :
  stage (idle s0) (on_lock (AcquireLock (LockPath cfg))) (λ l s, l = Some lock_file ∧ locked s0 s) (idle s0).
Proof.
  intros s (Hh & Hst & Hho & Hd). unfold on_lock, m_zoom, AcquireLock.
  destruct (lift_os (open_rw (LockPath cfg) 420) (re_lock s)) as [r1 l1] eqn:E1.
  assert (lk_held l1 = lk_held (re_lock s)) as Hl1.
  { unfold lift_os, m_zoom in E1. destruct (open_rw _ _ (lk_os (re_lock s))). by injection E1 as _ <-. }
  rewrite (bind_wrap_run _ _ _ _ _ _ E1). destruct r1 as [[]|e]; [|split_and!; simpl; congruence].
  unfold flock_ex, m_wrap, mbind, M_bind. fold lock_file.
  case_decide as Hin; simpl; [split_and!; simpl; congruence|].
  split; [done|]. rewrite Hl1, Hh in *. done.
Qed.
Lemma close_lock_stage s0 s : locked s0 s → idle s0 (m_ignore (close_lock (Some lock_file)) s).2.
Proof.
  intros (Hn & Hh & Hst & Hho & Hd). split_and!; [|done..]. simpl. rewrite Hh. set_solver.
Qed.
Lemma open_store_stage s0 path :
  stage (locked s0) (open_store path) (λ _, opened false false s0) (locked s0).
Proof.
  intros s (Hn & Hh & Hst & Hho & Hd). unfold open_store. destruct (Store.Open path (re_db s)) as [[st|e] db]; done.
Qed.
Lemma release_stage s0 s st :
  opened false false s0 s → idle s0 (((m_ignore (close_store st) ;; m_ignore (close_lock (Some lock_file))) : M res unit) s).2.
Proof.
  intros (Hn & Hh & Hst & Hho & Hd). rewrite bind_ignore_run. apply close_lock_stage.
  unfold close_store. destruct (Store.Close st (re_db s)) as [r db]. done.
Qed.
Lemma release_host_stage s0 s st :
  opened true false s0 s →
  idle s0 (((m_ignore close_host ;; m_ignore (close_store st) ;; m_ignore (close_lock (Some lock_file))) : M res unit) s).2.
Proof.
  intros (Hn & Hh & Hst & Hho & Hd). rewrite bind_ignore_run. by apply release_stage.
Qed.

Lemma New_stages s0 :
  stage (idle s0) (New lp cfg) (λ n s, sn_lock n = Some lock_file ∧ opened true true s0 s)
    (λ s, idle s0 s ∨ (bad_relay ∧ opened false false s0 s)).
Proof.
  unfold New.
  assert (∀ A P (m : M res A) Q, stage P m Q (idle s0) →
    stage P m Q (λ s, idle s0 s ∨ (bad_relay ∧ opened false false s0 s))) as Hweak.
  { intros A P m Q Hm s Hs. specialize (Hm s Hs). destruct (m s) as [[] s']; [done|by left]. }
  eapply stage_bind; [apply Hweak, stage_files, files_idle|intros ?].
  eapply stage_bind; [apply Hweak, acquire_stage|intros lock].
  apply stage_pure. intros ->.
  eapply stage_bind; [eapply Hweak, stage_release; [apply open_store_stage|apply close_lock_stage]|intros st].
  cbv beta zeta.
  eapply stage_bind; [eapply Hweak, stage_release; [apply stage_files, files_opened|intros s; apply release_stage]|intros kp].
  eapply stage_bind; [eapply Hweak, stage_release; [apply stage_lift; by intros|intros s; apply release_stage]|intros []].
  eapply stage_bind; [eapply Hweak, stage_release; [apply (stage_weaken _ (opened false false s0)); [by intros s []|]; apply stage_lift; by intros|intros s; apply release_stage]|intros []].
  eapply stage_bind.
  { apply (stage_weaken _ (opened false false s0)); [by intros s []|]. apply stage_lift. intros s Hs Hr. right.
    split; [|exact Hs]. unfold bad_relay. destruct (Isolated cfg); [done|]. destruct (Relay cfg); [|done].
    simpl in Hr. case_bool_decide; [|done]. split_and!; [done..|].
    destruct (parse_relays (StaticRelays cfg)); [done|done]. }
  intros [].
  eapply stage_bind.
  { apply Hweak, stage_wrap. eapply stage_release; [|intros s; apply release_stage].
    apply (stage_weaken _ (opened false false s0)); [by intros s []|].
    instantiate (1 := λ _, opened true false s0). intros s (Hn & Hh & Hst & Hho & Hd). unfold open_host.
    destruct (lp_host lp); done. }
  intros ?. eapply stage_bind.
  { apply Hweak. eapply stage_release; [|intros s; apply release_host_stage].
    eapply stage_bind; [apply stage_lift; by intros|]. intros bs.
    apply (stage_ret _ _ (λ _, opened true false s0)). by intros s []. }
  intros ?. eapply stage_bind.
  { apply Hweak, stage_wrap. eapply stage_release; [|intros s; apply release_host_stage].
    instantiate (1 := λ _, opened true true s0). intros s (Hn & Hh & Hst & Hho & Hd). unfold open_dht.
    destruct (lp_dht lp); done. }
  intros ?. apply stage_ret. done.
Qed.

(** Starting a node is all or nothing, but for one case.  When [New]
    succeeds the process holds the lock and everything is open.  When it fails
    at any step, the lock it took is free again and nothing is left open;
    except when a configured static relay cannot be parsed, where it may return
    with the lock and the database still held. *)
Theorem New_outcome s r s' :
  re_store_open s = false → re_host_open s = false → re_dht_open s = false →
  New lp cfg s = (r, s') →
  match r with
  | Ok n => sn_lock n = Some lock_file ∧ opened true true s s'
  | Err _ => idle s s' ∨ (bad_relay ∧ opened false false s s')
  end.
Proof.
  intros Hst Hh Hd H. pose proof (New_stages s s ltac:(by split_and!)) as Hn. by rewrite H in Hn.
Qed.

Lemma New_started s n s' :
  re_store_open s = false → re_host_open s = false → re_dht_open s = false →
  New lp cfg s = (Ok n, s') → sn_lock n = Some lock_file ∧ opened true true s s'.
Proof.
  intros Hst Hh Hd H. pose proof (New_stages s s ltac:(by split_and!)) as Hn. by rewrite H in Hn.
Qed.
(** Closing a started node gives back all it took, even when closing one part
    fails: another process can start on the same directory. *)
Lemma CloseNode_idle s n s' :
  sn_lock n = Some lock_file → opened true true s s' → idle s (CloseNode n s').2.
Proof.
  intros Hl (Hni & Hheld & _). unfold CloseNode. set (s1 := (close_host (close_dht s').2).2).
  assert (∃ r2 s2, close_store (sn_store n) s1 = (r2, s2) ∧ re_lock s2 = re_lock s' ∧ re_store_open s2 = false ∧
    re_host_open s2 = false ∧ re_dht_open s2 = false) as (r2 & s2 & E2 & L2 & A2 & B2 & C2).
  { unfold close_store. destruct (Store.Close (sn_store n) (re_db s1)) as [r db]. eexists _, _.
    split; [reflexivity|]. done. }
  erewrite bind_try_run by reflexivity. erewrite bind_try_run by reflexivity.
  fold s1. erewrite bind_try_run by exact E2.
  assert (close_lock (sn_lock n) s2 = (Ok tt, mk_res (mk_lockst (lk_os (re_lock s2)) (lk_held (re_lock s2) ∖ {[lock_file]}))
    (re_db s2) (re_store_open s2) (re_host_open s2) (re_dht_open s2))) as E3 by by rewrite Hl.
  erewrite bind_try_run by exact E3.
  assert (∀ (o : result unit) sx, idle s sx → idle s ((match filter (λ r : result unit, is_ok r = false) [Ok tt; Ok tt; o; Ok tt] with
     | Err e :: _ => m_fail e | _ => mret tt end : M res unit) sx).2) as Hfin.
  { intros o sx Hi. by destruct o. }
  apply Hfin. split_and!; simpl; [|done..]. rewrite L2, Hheld. set_solver.
Qed.
End release.

(** ** A concrete start *)
Module ToyStart.
#[export] Existing Instances Toy.multiformats Toy.ipld ToyKeys.keys ToyNet.network ToyStore.bolt.
Definition up : libp2p := mk_libp2p (Ok tt) (Ok tt) (Ok tt) (Ok tt).
Definition cfg (relays : list string) : Config :=
  mk_Config "/repo" "/hub" [] [] false [] true true true false relays false 1048576 true "" "" "" 0.
Definition s0 : res := mk_res (mk_lockst (mk_osst ∅ [] ["17"] 0) ∅) None false false false.
Definition first : result started * res := New up (cfg ["not-an-address"]) s0.
Definition good : result started * res := New up (cfg []) s0.
End ToyStart.

Section witnesses.
Import ToyStart.

(* The bad relay: the lock stays, and a second start with a good configuration
   in the same process is refused. *)
Lemma New_outcome_witness :
  is_ok first.1 = false ∧ opened (cfg ["not-an-address"]) false false s0 first.2 ∧
  is_ok (New up (cfg []) first.2).1 = false.
Proof.
  pose proof (New_outcome up (cfg ["not-an-address"]) s0 first.1 first.2 eq_refl eq_refl eq_refl
    (surjective_pairing _)) as H.
  assert (∃ e, first.1 = Err e) as [e E] by (eexists; vm_compute; reflexivity).
  rewrite E in H. split; [by rewrite E|]. split; [|vm_compute; reflexivity].
  destruct H as [(H & _)|[_ H]]; [|exact H]. exfalso.
  assert (["repo"; "swarmface.lock"] ∈ lk_held (re_lock first.2)) as Hin.
  { apply (bool_decide_unpack _). vm_compute. exact I. }
  rewrite H in Hin. apply not_elem_of_empty in Hin. exact Hin.
Defined.

End witnesses.
