(* ===== verification/Blocks.v ===== *)
(** * internal/pull: reading a DAG from a peer.

    The client of the block protocol, the block store that falls back to the
    peer, and the walks over directories and files.  A [sess] here is the
    pulling node with its stream to one peer.

    [collectLeaves] recurses over a graph the peer shapes; its fuel is the depth
    of the recursion, and [None] is the answer of a recursion that goes deeper,
    which in the program is a goroutine whose stack grows. *)
From S2P Require Import Prelude GoStrings Json GoFS Protoio Lib Store Wire Config Identity Net Node.

Definition BatchSize : nat := 64.
Definition maxFileChunks : Z := Z.shiftl 1 20.

Section blocks.
Context {MF : Multiformats} {IP : Ipld} {BS : Blockstore} {FM : FileManager} {FS : Filestore}
  {DS : Datastore} {BA : Batching} {K : Keys} {N : Network}.
Abbreviation SS := (@sess MF BS FM DS BA K N).

(** ** blockClient *)
(** The response frames, one per CID asked. *)
Fixpoint fetch_loop (cs : list cid) : M SS (list (option string)) :=
  match cs with
  | [] => mret []
  | _ :: rest =>
      f ← m_wrap "read block response" (in_stream (stream_read ReadFrame));
      match f with
      | "" => m_fail (errorf "peer sent an empty status frame")
      | String st data =>
          out ← fetch_loop rest;
          mret ((if decide (st ≠ BlockNotFound) then Some data else None) :: out)
      end
  end.
Definition Fetch (cs : list cid) : M SS (list (option string)) :=
  match cs with
  | [] => mret []
  | _ =>
      m_wrap "send block request" (in_stream (stream_write (WriteJSON (batch_json (map cid_string cs))))) ;;
      fetch_loop cs
  end.

(** ** readThrough *)
Definition rt_Get (c : cid) : M SS string :=
  l ← m_try (in_node (Fstore_Get c));
  match l with
  | Ok data => mret data
  | Err _ =>
      out ← Fetch [c];
      match out with
      | Some data :: _ =>
          m_lift (wrap_result "block failed integrity check" (new_block_with_cid data c)) ;;
          (if decide (cid_type c ≠ Raw)
           then m_ignore (in_node (on_stores (λ b f, fst_put_block b f c data)))
           else mret tt) ;;
          mret data
      | _ => m_fail (ErrRoot SIpldNotFound "not found")
      end
  end.
Definition rt_GetSize (c : cid) : M SS Z :=
  l ← m_try (in_node (Fstore_Get c));
  match l with
  | Ok data => mret (slen data)
  | Err _ => data ← rt_Get c; mret (slen data)
  end.

(** [ds.Get]: the block's bytes and its links. *)
Definition ds_Get (c : cid) : M SS (string * list link) :=
  data ← rt_Get c;
  links ← m_lift (decode_node c data);
  mret (data, links).

(** ** findNode *)
Definition trim_slashes (s : string) : string :=
  trim_right_fn (λ a, Ascii.eqb a ch_slash) (trim_left_fn (λ a, Ascii.eqb a ch_slash) s).
Fixpoint find_parts (parts : list string) (cur : cid) : M SS cid :=
  match parts with
  | [] => mret cur
  | part :: rest =>
      nd ← ds_Get cur;
      child ← m_lift (wrap_result "find" (dir_find nd.1 part));
      find_parts rest child
  end.
Definition findNode (root : cid) (rel : string) : M SS cid :=
  find_parts (split_on ch_slash (trim_slashes rel)) root.

(** ** collectLeaves *)
Fixpoint over_links (f : cid → list cid → M SS (option (list cid))) (ls : list link) (out : list cid) :
    M SS (option (list cid)) :=
  match ls with
  | [] => mret (Some out)
  | l :: rest =>
      r ← f (default cid_undef (link_cid l)) out;
      match r with
      | None => mret None
      | Some out => over_links f rest out
      end
  end.
Fixpoint collectLeaves (fuel : nat) (c : cid) (out : list cid) : M SS (option (list cid)) :=
  match fuel with
  | O => mret None
  | S fuel' =>
      if decide (cid_type c = Raw) then
        if decide (Z.of_nat (length out) >= maxFileChunks)%Z then m_fail (errorf "chunk count exceeds")
        else mret (Some (out ++ [c]))
      else
        nd ← ds_Get c;
        over_links (collectLeaves fuel') nd.2 out
  end.
End blocks.

(** ** The two ends of the block protocol *)
Section exchange.
Context {MF : Multiformats} {MFL : MultiformatsLaws} {IP : Ipld} {BS : Blockstore} {FM : FileManager} {FS : Filestore}
  {DS : Datastore} {BA : Batching} {K : Keys} {N : Network}.
Implicit Types (s : sess) (n : node).

(** What the node [n] has under [c]. *)
Definition held n (c : cid) : option string :=
  match (Fstore_Get c n).1 with Ok d => Some d | Err _ => None end.

Lemma answer_of n c :
  block_answer n (cid_string c) =
  match held n c with Some d => String BlockOK d | None => String BlockNotFound "" end.
Proof. unfold block_answer, held. rewrite cid_decode_string. by destruct (Fstore_Get c n).1. Qed.

Lemma read_frame_run d rest s :
  (slen d ≤ MaxFrame)%Z → input_is s (frame d +:+ rest) →
  ∃ s', in_stream (stream_read ReadFrame) s = (Ok d, s') ∧ input_is s' rest ∧
    ss_node s' = ss_node s ∧ st_out (ss_stream s') = st_out (ss_stream s).
Proof.
  destruct s as [n [[i e] o lim rst c]]. unfold input_is. cbn [ss_stream st_in rs_in]. intros Hl ->.
  unfold in_stream, stream_read, m_zoom. cbn [ss_stream st_in]. rewrite ReadFrame_run by done.
  eexists. split; [reflexivity|]. done.
Qed.
Lemma fetch_loop_run n cs rest s :
  Forall (servable n) (map cid_string cs) →
  input_is s (frames (map (block_answer n) (map cid_string cs)) +:+ rest) →
  ∃ s', fetch_loop cs s = (Ok (map (held n) cs), s') ∧ input_is s' rest ∧ ss_node s' = ss_node s ∧
    st_out (ss_stream s') = st_out (ss_stream s).
Proof.
  revert s. induction cs as [|c cs IH]; intros s Hs Hin; [by exists s|].
  cbn [map] in *. apply Forall_cons in Hs as [Hc Hs]. cbn [frames foldr] in Hin. rewrite sapp_assoc in Hin.
  assert ((slen (block_answer n (cid_string c)) ≤ MaxFrame)%Z) as Hl.
  { rewrite answer_of. unfold held. specialize (Hc c (cid_decode_string c)).
    destruct (Fstore_Get c n).1; [|vm_compute; congruence]. unfold slen in *. cbn [String.length]. lia. }
  destruct (read_frame_run _ _ _ Hl Hin) as (s1 & E1 & Hin1 & Hn1 & Ho1). cbn [fetch_loop].
  rewrite (bind_wrap_run _ _ _ _ _ _ E1).
  destruct (IH s1 Hs Hin1) as (s2 & E2 & Hin2 & Hn2 & Ho2). exists s2.
  split; [|split_and!; [done|congruence|congruence]].
  rewrite answer_of. destruct (held n c); rewrite (bind_run_ok _ _ _ _ _ E2).
  - by rewrite decide_True.
  - rewrite decide_False; [done|]. by intros [].
Qed.

(** C33. Puller and seeder agree: what a client writes, given to the handler of a
    node [n], makes it write what the client then reads as exactly the blocks
    of [n], in the order asked, with a gap for each block [n] does not have. *)
Theorem Fetch_from_handleBlocks cfg cs s sv :
  cs ≠ [] → batch_ok (map cid_string cs) → Forall (servable (ss_node sv)) (map cid_string cs) →
  writable s → writable sv → (relayed (ss_stream sv) && negb (RelayBulk cfg)) = false →
  (* the handler reads what [Fetch] writes, and [Fetch] reads what it answers *)
  input_is sv (frame (print (batch_json (map cid_string cs)))) →
  ws_out (st_out (ss_stream sv)) = "" →
  input_is s (ws_out (st_out (ss_stream (handleBlocks cfg sv).2))) →
  ∃ s', Fetch cs s = (Ok (map (held (ss_node sv)) cs), s') ∧
    ws_out (st_out (ss_stream s')) =
      ws_out (st_out (ss_stream s)) +:+ frame (print (batch_json (map cid_string cs))) ∧
    ss_node s' = ss_node s.
Proof.
  intros Hne Hb Hs Hw Hwv Hr Hinv Ho Hin.
  destruct (serve_run [map cid_string cs] (S (pending sv)) sv Hwv ltac:(constructor; [exact Hb|constructor])
    ltac:(cbn [concat]; by rewrite app_nil_r)) as (sv' & Esv & _ & Hout).
  { unfold requests, input_is in *. cbn [map frames foldr]. by rewrite sapp_nil_r. }
  { lia. }
  cbn [concat] in Hout. rewrite app_nil_r, Ho in Hout.
  assert (ws_out (st_out (ss_stream (handleBlocks cfg sv).2)) =
    frames (map (block_answer (ss_node sv)) (map cid_string cs))) as Hans.
  { unfold handleBlocks. rewrite bind_gets_run, Hr, (bind_run_ok _ _ _ _ _ Esv). exact Hout. }
  rewrite Hans in Hin. unfold Fetch. destruct cs as [|c cs]; [done|].
  destruct (WriteFrame (print (batch_json (map cid_string (c :: cs)))) (st_out (ss_stream s))) as [rw w] eqn:Ew.
  destruct s as [n [i [o f] lim rst cl]]. unfold writable in Hw. cbn in Hw. subst f.
  cbn [ss_stream st_out] in Ew. rewrite WriteFrame_run in Ew by apply Hb. injection Ew as <- <-.
  set (s1 := mk_sess n (mk_stream i (mk_wstate (o +:+ frame (print (batch_json (map cid_string (c :: cs))))) []) lim rst cl)).
  assert (in_stream (stream_write (WriteJSON (batch_json (map cid_string (c :: cs)))))
    (mk_sess n (mk_stream i (mk_wstate o []) lim rst cl)) = (Ok tt, s1)) as E1.
  { unfold in_stream, stream_write, m_zoom, WriteJSON. cbn [ss_stream st_out]. rewrite WriteFrame_run by apply Hb. reflexivity. }
  rewrite (bind_wrap_run _ _ _ _ _ _ E1).
  destruct (fetch_loop_run (ss_node sv) (c :: cs) "" s1 Hs) as (s' & E & _ & Hn & Hos).
  { rewrite sapp_nil_r. exact Hin. }
  exists s'. split; [exact E|]. split; [by rewrite Hos|by rewrite Hn].
Qed.
End exchange.

(** ** Collecting the leaves of a file *)
Section leaves.
Context {MF : Multiformats} {IP : Ipld} {BS : Blockstore} {FM : FileManager} {FS : Filestore}
  {DS : Datastore} {BA : Batching} {K : Keys} {N : Network}.
Implicit Types (s : sess) (n : node) (c : cid) (out : list cid).

Definition extends out (l : list cid) : Prop :=
  ∃ new, l = out ++ new ∧ Forall (λ c, cid_type c = Raw) new ∧
    ((Z.of_nat (length out) ≤ maxFileChunks)%Z → (Z.of_nat (length l) ≤ maxFileChunks)%Z).
Lemma extends_refl out : extends out out.
Proof. exists []. by rewrite app_nil_r. Qed.
Lemma extends_trans out l l' : extends out l → extends l l' → extends out l'.
Proof.
  intros (n1 & -> & H1 & L1) (n2 & -> & H2 & L2). exists (n1 ++ n2).
  rewrite app_assoc. split_and!; [done|by apply Forall_app|auto].
Qed.
Lemma over_links_extends f ls out s l s' :
  (∀ c out s l s', f c out s = (Ok (Some l), s') → extends out l) →
  over_links f ls out s = (Ok (Some l), s') → extends out l.
Proof.
  intros Hf. revert out s. induction ls as [|lk ls IH]; intros out s H; cbn [over_links] in H.
  { injection H as <- _. apply extends_refl. }
  apply bind_ok_inv in H as ([out1|] & s1 & H1 & H2); [|done].
  eapply extends_trans; [by eapply Hf|by eapply IH].
Qed.

(** C34. However a peer shapes the graph, a walk that ends has collected raw
    leaves only and never more than the budget of [maxFileChunks]. *)
Theorem collectLeaves_bounded fuel c s l s' :
  collectLeaves fuel c [] s = (Ok (Some l), s') →
  Forall (λ c, cid_type c = Raw) l ∧ (Z.of_nat (length l) ≤ maxFileChunks)%Z.
Proof.
  assert (∀ fuel c out s l s', collectLeaves fuel c out s = (Ok (Some l), s') → extends out l) as Hgen.
  { clear. induction fuel as [|fuel IH]; intros c out s l s' H; [done|]. cbn [collectLeaves] in H.
    destruct (decide (cid_type c = Raw)) as [Hr|Hr].
    - destruct (decide (Z.of_nat (length out) >= maxFileChunks)%Z); [done|]. injection H as <- _.
      exists [c]. split_and!; [done|by repeat constructor|]. intros _. rewrite length_app. simpl. lia.
    - apply bind_ok_inv in H as (nd & s1 & _ & H). by eapply over_links_extends; [apply IH|]. }
  intros H. apply Hgen in H as (new & -> & Hf & Hl). split; [done|]. apply Hl. vm_compute. congruence.
Qed.

(** The leaves under [c] among the blocks the node holds, in order. *)
Fixpoint leaves_of (fuel : nat) n c : option (list cid) :=
  match fuel with
  | O => None
  | S fuel' =>
      if decide (cid_type c = Raw) then Some [c]
      else
        d ← held n c;
        match decode_node c d with
        | Err _ => None
        | Ok ls => mjoin <$> mapM (λ l, leaves_of fuel' n (default cid_undef (link_cid l))) ls
        end
  end.

Lemma rt_Get_local c d s : held (ss_node s) c = Some d → rt_Get c s = (Ok d, s).
Proof.
  unfold held, rt_Get. intros H. erewrite bind_try_run by apply Fstore_Get_run.
  destruct (Fstore_Get c (ss_node s)).1; [by injection H as ->|done].
Qed.
Lemma ds_Get_local c d ls s :
  held (ss_node s) c = Some d → decode_node c d = Ok ls → ds_Get c s = (Ok (d, ls), s).
Proof.
  intros Hh Hd. unfold ds_Get. rewrite (bind_run_ok _ _ _ _ _ (rt_Get_local _ _ _ Hh)), bind_lift_run.
  by rewrite Hd.
Qed.
Definition within out (l : list cid) : bool := bool_decide (Z.of_nat (length out + length l) ≤ maxFileChunks)%Z.
Lemma leaves_run fuel c out s l :
  (Z.of_nat (length out) ≤ maxFileChunks)%Z → leaves_of fuel (ss_node s) c = Some l →
  if within out l then collectLeaves fuel c out s = (Ok (Some (out ++ l)), s)
  else ∃ e, collectLeaves fuel c out s = (Err e, s).
Proof.
  revert c out l. induction fuel as [|fuel IH]; intros c out l Hout H; [done|]. cbn [leaves_of collectLeaves] in *.
  destruct (decide (cid_type c = Raw)) as [Hr|Hr].
  { injection H as <-. unfold within. cbn [length]. case_bool_decide.
    - by rewrite decide_False by lia.
    - rewrite decide_True by lia. by eexists. }
  apply bind_Some in H as (d & Hh & H). destruct (decode_node c d) as [ls|] eqn:Ed; [|done].
  apply fmap_Some in H as (lss & Hm & ->).
  rewrite (bind_run_ok _ _ _ _ _ (ds_Get_local _ _ _ _ Hh Ed)). cbn [snd]. apply mapM_Some in Hm.
  clear Ed Hh. revert out Hout. induction Hm as [|lk l1 ls lss Hl _ IHm]; intros out Hout.
  { unfold within. cbn [over_links mjoin list_join length]. rewrite Nat.add_0_r, app_nil_r, bool_decide_true by done. done. }
  cbn [over_links]. specialize (IH _ _ _ Hout Hl). cbn [mjoin list_join].
  destruct (within out l1) eqn:E1.
  - rewrite (bind_run_ok _ _ _ _ _ IH). apply bool_decide_eq_true in E1.
    specialize (IHm (out ++ l1)). rewrite length_app in IHm. specialize (IHm ltac:(lia)).
    unfold within in *. rewrite length_app in *. rewrite Nat.add_assoc. by rewrite <- app_assoc in IHm.
  - destruct IH as [e IH]. apply bool_decide_eq_false in E1.
    unfold within. rewrite length_app, bool_decide_false by lia. exists e. by apply bind_run_err.
Qed.
Lemma leaves_of_mono fuel k n c l : leaves_of fuel n c = Some l → leaves_of (fuel + k) n c = Some l.
Proof.
  revert c l. induction fuel as [|fuel IH]; intros c l H; [done|]. cbn [Nat.add leaves_of] in *.
  case_decide; [done|]. apply bind_Some in H as (d & -> & H). simpl. destruct (decode_node c d); [|done].
  apply fmap_Some in H as (lss & Hm & ->). apply mapM_Some in Hm.
  apply fmap_Some. exists lss. split; [|done]. apply mapM_Some. eapply Forall2_impl; [exact Hm|]. intros. by apply IH.
Qed.

(** On a file the node holds in full, whose blocks form a tree of some
    depth, the walk ends with exactly its leaves in order, or with an error
    when they exceed the budget, and changes nothing; any more fuel gives the
    same answer. *)
Theorem collectLeaves_local fuel k c s l :
  leaves_of fuel (ss_node s) c = Some l →
  if bool_decide (Z.of_nat (length l) ≤ maxFileChunks)%Z
  then collectLeaves (fuel + k) c [] s = (Ok (Some l), s)
  else ∃ e, collectLeaves (fuel + k) c [] s = (Err e, s).
Proof.
  intros H. apply (leaves_of_mono _ k) in H. apply (leaves_run _ _ []) in H; [|vm_compute; congruence].
  exact H.
Qed.

(** The budget does not bound the walk itself: when a node's first link is
    the node, which a peer can arrange since a fetched block is not checked
    against its CID, the walk visits it for ever; no amount of fuel is enough
    and no leaf is ever counted. *)
Theorem collectLeaves_cycle fuel c out s d lk ls :
  cid_type c ≠ Raw → held (ss_node s) c = Some d → decode_node c d = Ok (lk :: ls) → link_cid lk = Some c →
  collectLeaves fuel c out s = (Ok None, s).
Proof.
  intros Hr Hh Hd Hl. induction fuel as [|fuel IH]; [done|]. cbn [collectLeaves].
  rewrite decide_False by done. rewrite (bind_run_ok _ _ _ _ _ (ds_Get_local _ _ _ _ Hh Hd)). cbn [snd over_links].
  rewrite Hl. cbn [default from_option id]. by rewrite (bind_run_ok _ _ _ _ _ IH).
Qed.
End leaves.

Module ToyBlocks.
Import ToyNode.
Definition puller (n : node) (data : string) : sess := mk_sess n (stream_of data).
Definition empty_node : node :=
  mk_node (nd_map node0) (∅ : gmap string string) (∅ : gmap string fref) (mk_osst ∅ [] ["17"] 0) (nd_net node0).
Definition wanted : list cid := [leaf; absent; root].
Definition asked : string := frame (print (batch_json (map cid_string wanted))).
Definition answered : string := ws_out (st_out (ss_stream (handleBlocks cfg0 (puller node0 asked)).2)).
(* A directory block whose only link is itself. *)
Definition loop : cid := (byte_of_Z DagProtobuf, "p").
Definition loop_data : string := "@f=" +:+ cid_string loop +:+ ",".
Definition trapped : sess := (rt_Get loop (puller empty_node (frame (String BlockOK loop_data)))).2.
End ToyBlocks.

Section witnesses.
Import ToyNode ToyBlocks.

Lemma Fetch_from_handleBlocks_witness :
  ∃ s', Fetch wanted (puller empty_node answered) =
    (Ok [Some "data"; None; Some ("@f=" +:+ cid_string leaf +:+ ",")], s').
Proof.
  destruct (Fetch_from_handleBlocks cfg0 wanted (puller empty_node answered) (puller node0 asked))
    as (s' & H & _); [done| | |reflexivity|reflexivity|reflexivity|reflexivity|reflexivity|reflexivity|].
  - split; [apply Nat.leb_le; vm_compute; reflexivity|apply Z.leb_le; vm_compute; reflexivity].
  - pose proof servable0 as Hs. unfold batch in Hs. cbn [concat app] in Hs.
    apply Forall_cons in Hs as [H1 [_ [H2 Hs]%Forall_cons]%Forall_cons].
    unfold wanted. cbn [map]. constructor; [exact H1|]. constructor; [exact H2|exact Hs].
  - exists s'. rewrite H. f_equal.
Defined.

Lemma collectLeaves_bounded_witness :
  collectLeaves 2 root [] (puller node0 "") = (Ok (Some [leaf]), puller node0 "") ∧
  (Z.of_nat (length [leaf]) ≤ maxFileChunks)%Z.
Proof.
  assert (leaves_of 2 node0 root = Some [leaf]) as Hl by (vm_compute; reflexivity).
  pose proof (leaves_run 2 root [] (puller node0 "") [leaf] ltac:(vm_compute; congruence) Hl) as H.
  assert (within [] [leaf] = true) as Hw by (vm_compute; reflexivity). rewrite Hw in H.
  split; [exact H|]. apply (collectLeaves_bounded _ _ _ _ _ H).
Defined.

Lemma collectLeaves_local_witness :
  collectLeaves (2 + 7) root [] (puller node0 "") = (Ok (Some [leaf]), puller node0 "").
Proof.
  assert (leaves_of 2 node0 root = Some [leaf]) as Hl by (vm_compute; reflexivity).
  exact (collectLeaves_local 2 7 root (puller node0 "") [leaf] Hl).
Defined.

(* What the peer sent is stored, and from then on the walk never ends. *)
Lemma collectLeaves_cycle_witness :
  (rt_Get loop (puller empty_node (frame (String BlockOK loop_data)))).1 = Ok loop_data ∧
  collectLeaves 1000 loop [] trapped = (Ok None, trapped).
Proof.
  split; [vm_compute; reflexivity|].
  apply (collectLeaves_cycle 1000 loop [] trapped loop_data (mk_link _ "f" (Some loop)) []);
    [by apply Z.eqb_neq|reflexivity|reflexivity|reflexivity].
Defined.
End witnesses.
