(* ===== verification/Reconstruct.v ===== *)
(** * internal/pull: materialising the files of a manifest.

    [reconstructFile] downloads the chunks of one file, checks them against the
    manifest, places the blob and registers each chunk as a reference into it.
    An [xfer] is the pulling session with the byte counter and the events sent
    to the caller.  What a peer sends is any stream, so every theorem here
    holds against every peer. *)
From S2P Require Import Prelude GoStrings GoPath GoFS Protoio Lib Store Mapping Wire Hfcache.
From S2P Require Import Identity Net Node Blocks.

Section reconstruct.
Context {MF : Multiformats} {IP : Ipld} {BS : Blockstore} {FM : FileManager} {FS : Filestore}
  {DS : Datastore} {BA : Batching} {K : Keys} {N : Network} {HS : Hashes}.

Record xfer := mk_xfer { xf_sess : sess; xf_done : Z; xf_events : list ControlEvent }.
Definition on_sess {A} : M sess A → M xfer A := m_zoom xf_sess (λ x s, mk_xfer x (xf_done s) (xf_events s)).
Definition on_node {A} (m : M node A) : M xfer A := on_sess (in_node m).
Definition on_os {A} (m : M osst A) : M xfer A := on_node (on_files m).
Definition emit (e : ControlEvent) : M xfer unit :=
  m_modify (λ s, mk_xfer (xf_sess s) (xf_done s) (xf_events s ++ [e])).
Definition count_bytes (n : Z) : M xfer unit :=
  m_modify (λ s, mk_xfer (xf_sess s) (wrap64 (xf_done s + n)) (xf_events s)).
Definition progress (total : Z) (msg : string) : M xfer unit := λ s,
  emit (mk_ControlEvent "progress" msg (xf_done s) total) s.

Definition hashFile (path : string) : M osst string :=
  data ← os_read_file path; mret (hex_encode (sha256_sum data)).
Definition randSuffix : M osst string := os_random.

(** What has been written to the temporary file and registered so far. *)
Record acc := mk_acc { ac_content : string; ac_registered : list cid }.

(** One batch of chunks; an error is what [rollback] is to be called with. *)
Fixpoint store_chunks (hub tmp blobPath : string) (l : list (cid * option string)) (a : acc) :
    M xfer (acc * result unit) :=
  match l with
  | [] => mret (a, Ok tt)
  | (c, None) :: _ => mret (a, Err (errorf "peer is missing chunk"))
  | (c, Some data) :: rest =>
      match new_block_with_cid data c with
      | Err e => mret (a, Err (ErrWrap "chunk failed integrity check" e))
      | Ok _ =>
          w ← m_try (on_os (os_append tmp data));
          match w with
          | Err e => mret (a, Err e)
          | Ok _ =>
              r ← m_try (on_node (RegisterFilestoreRef hub c data blobPath (slen (ac_content a))));
              match r with
              | Err e => mret (a, Err (ErrWrap "register filestore ref" e))
              | Ok _ =>
                  count_bytes (slen data) ;;
                  store_chunks hub tmp blobPath rest
                    (mk_acc (ac_content a +:+ data) (ac_registered a ++ [c]))
              end
          end
      end
  end.

Fixpoint batches (fuel : nat) (leaves : list cid) : list (list cid) :=
  match fuel, leaves with
  | S fuel', _ :: _ => take BatchSize leaves :: batches fuel' (drop BatchSize leaves)
  | _, _ => []
  end.
Fixpoint store_batches (hub tmp blobPath path : string) (total : Z) (count : nat) (bs : list (list cid)) (a : acc) :
    M xfer (acc * result unit) :=
  match bs with
  | [] => mret (a, Ok tt)
  | batch :: rest =>
      f ← m_try (on_sess (Fetch batch));
      match f with
      | Err e => mret (a, Err e)
      | Ok datas =>
          ar ← store_chunks hub tmp blobPath (zip batch datas) a;
          match ar.2 with
          | Err e => mret (ar.1, Err e)
          | Ok _ =>
              progress total (path +:+ ": " +:+ dec_of_Z (Z.of_nat (length (ac_registered ar.1)))
                              +:+ "/" +:+ dec_of_Z (Z.of_nat count) +:+ " chunks") ;;
              store_batches hub tmp blobPath path total count rest ar.1
          end
      end
  end.

Definition rollback (tmp path : string) (registered : list cid) (cause : error) : M xfer unit :=
  m_ignore (on_os os_close) ;;
  m_ignore (on_os (os_remove tmp)) ;;
  m_foreach (λ c, m_ignore (on_node (on_stores (λ b f, fst_delete b f c)))) registered ;;
  m_fail (ErrWrap path cause).

(** The blob is there already, with the right size and content. *)
Definition cached (blobPath : string) (f : FileManifest) : M xfer bool :=
  st ← m_try (on_os (os_stat blobPath));
  match st with
  | Err _ => mret false
  | Ok info =>
      if decide (fi_size info = mf_Size f) then
        sum ← m_try (on_os (hashFile blobPath));
        mret (match sum with Ok sum => bool_decide (sum = mf_SHA256 f) | Err _ => false end)
      else mret false
  end.

(** An empty file. *)
Definition reconstruct_empty (blobPath : string) (perm total : Z) (f : FileManifest) (fileCid : cid) : M xfer unit :=
  m_wrap "create empty blob" (on_os (os_create_trunc blobPath perm)) ;;
  m_wrap "close empty blob" (on_os os_close) ;;
  datas ← m_wrap "fetch empty leaf" (on_sess (Fetch [fileCid]));
  match datas with
  | [Some data] =>
      m_lift (wrap_result "empty leaf failed integrity check" (new_block_with_cid data fileCid)) ;;
      if decide (hex_encode (sha256_sum data) ≠ mf_SHA256 f) then m_fail (errorf "empty blob: sha256 mismatch")
      else
        m_wrap "store empty leaf" (on_node (λ n,
          let '(r, b) := bs_put (nd_bs n) fileCid data in
          (r, mk_node (nd_map n) b (nd_fm n) (nd_os n) (nd_net n)))) ;;
        count_bytes (mf_Size f) ;;
        progress total (mf_Path f +:+ ": empty leaf stored")
  | _ => m_fail (errorf "peer is missing the empty leaf")
  end.

(** The checks and the rename, once every chunk is written. *)
Definition place_blob (tmp blobPath : string) (perm : Z) (f : FileManifest) (a : acc) : M xfer unit :=
  let back := rollback tmp (mf_Path f) (ac_registered a) in
  c ← m_try (on_os os_close);
  match c with
  | Err e => back e
  | Ok _ =>
      if decide (hex_encode (sha256_sum (ac_content a)) ≠ mf_SHA256 f) then back (errorf "sha256 mismatch")
      else if decide (slen (ac_content a) ≠ mf_Size f) then back (errorf "size mismatch")
      else
        r ← m_try (on_os (os_rename tmp blobPath));
        match r with
        | Err e => back e
        | Ok _ =>
            m ← m_try (on_os (os_chmod blobPath perm));
            match m with
            | Err e => back e
            | Ok _ => mret tt
            end
        end
  end.

Definition transfer (hub blobPath : string) (perm total : Z) (f : FileManifest) (leaves : list cid) : M xfer unit :=
  suffix ← on_os randSuffix;
  let tmp := blobPath +:+ ".part-" +:+ suffix in
  on_os (os_create_trunc tmp 438) ;;
  ar ← store_batches hub tmp blobPath (mf_Path f) total (length leaves)
         (batches (length leaves) leaves) (mk_acc "" []);
  match ar.2 with
  | Err e => rollback tmp (mf_Path f) (ac_registered ar.1) e
  | Ok _ => place_blob tmp blobPath perm f ar.1
  end.

Definition reconstructFile (fuel : nat) (hub : string) (paths : Paths) (total : Z) (f : FileManifest) (fileCid : cid) :
    M xfer unit :=
  if decide (mf_SHA256 f = "") then m_fail (errorf "peer sent no sha256")
  else
    let blobPath := BlobPath paths (mf_BlobName f) in
    let perm := Z.land (mf_Mode f) 511 in
    let perm := if decide (perm = 0%Z) then 420%Z else perm in
    hit ← cached blobPath f;
    if hit : bool then
      count_bytes (mf_Size f) ;; progress total ("cached " +:+ mf_Path f)
    else
      on_os (os_mkdir_all (Blobs paths) 493) ;;
      if decide (mf_Size f = 0%Z) then reconstruct_empty blobPath perm total f fileCid
      else
        r ← m_wrap "enumerate chunks" (on_sess (collectLeaves fuel fileCid []));
        match r with
        | None => m_fail (errorf "stack overflow")
        | Some [] => m_fail (errorf "no chunks found")
        | Some leaves => transfer hub blobPath perm total f leaves
        end.

(** Every file of the manifest, over one block stream. *)
Fixpoint reconstruct_files (fuel : nat) (hub : string) (paths : Paths) (total : Z) (actual : cid) (files : list FileManifest) :
    M xfer unit :=
  match files with
  | [] => mret tt
  | f :: rest =>
      fileCid ← m_wrap "locate" (on_sess (findNode actual (mf_Path f)));
      reconstructFile fuel hub paths total f fileCid ;;
      reconstruct_files fuel hub paths total actual rest
  end.
End reconstruct.

(** ** What leaves the files alone *)
Section files.
Context {MF : Multiformats} {IP : Ipld} {BS : Blockstore} {FM : FileManager} {FS : Filestore}
  {DS : Datastore} {BA : Batching} {K : Keys} {N : Network} {HS : Hashes}.
Implicit Types (s : xfer).

Definition xos s : osst := nd_os (ss_node (xf_sess s)).
Definition tree s : gmap fpath fnode := os_fs (xos s).

Definition kept_node (s s' : sess) : Prop := ss_node s' = ss_node s.
Definition kept_files (s s' : sess) : Prop := nd_os (ss_node s') = nd_os (ss_node s).
Definition same_os s s' : Prop := xos s' = xos s.
#[local] Instance kept_node_preorder : PreOrder kept_node.
Proof. unfold kept_node. split; [done|]. intros a b c E1 E2. congruence. Qed.
#[local] Instance kept_files_preorder : PreOrder kept_files.
Proof. unfold kept_files. split; [done|]. intros a b c E1 E2. congruence. Qed.
#[local] Instance same_os_preorder : PreOrder same_os.
Proof. unfold same_os. split; [done|]. intros a b c E1 E2. congruence. Qed.

Lemma kept_in_stream {A} (m : M stream A) : pres kept_node (in_stream m).
Proof. intros s. unfold in_stream, m_zoom. by destruct (m (ss_stream s)). Qed.
Lemma kept_fetch_loop cs : pres kept_node (fetch_loop cs).
Proof.
  induction cs as [|c cs IH]; [apply pres_ret, _|]. cbn [fetch_loop].
  apply pres_bind; [apply _|apply pres_wrap, kept_in_stream|]. intros [|st data]; [apply pres_fail, _|].
  apply pres_bind; [apply _|exact IH|]. intros. apply pres_ret, _.
Qed.
Lemma kept_Fetch cs : pres kept_node (Fetch cs).
Proof.
  unfold Fetch. destruct cs; [apply pres_ret, _|].
  apply pres_bind; [apply _|apply pres_wrap, kept_in_stream|]. intros _. apply kept_fetch_loop.
Qed.
Lemma kept_weaken {A} (m : M sess A) : pres kept_node m → pres kept_files m.
Proof. intros H s. unfold kept_files. by rewrite (H s). Qed.
Lemma kept_node_files {A} (m : M node A) :
  (∀ n, nd_os (m n).2 = nd_os n) → pres kept_files (in_node m).
Proof. intros H s. unfold kept_files, in_node, m_zoom. specialize (H (ss_node s)). by destruct (m (ss_node s)). Qed.
Lemma stores_os {A} (op : bstore → fman → result A * (bstore * fman)) n : nd_os (on_stores op n).2 = nd_os n.
Proof. unfold on_stores. by destruct (op (nd_bs n) (nd_fm n)) as [r [b f]]. Qed.
Lemma kept_rt_Get c : pres kept_files (rt_Get c).
Proof.
  unfold rt_Get. apply pres_bind; [apply _|by apply pres_try, kept_node_files|]. intros [data|e]; [apply pres_ret, _|].
  apply pres_bind; [apply _|apply kept_weaken, kept_Fetch|]. intros [|[data|] rest]; try apply pres_fail, _.
  apply pres_bind; [apply _|apply pres_lift, _|]. intros _.
  apply pres_bind; [apply _| |intros _; apply pres_ret, _].
  case_decide; [|apply pres_ret, _]. apply pres_ignore, kept_node_files. intros n. apply stores_os.
Qed.
Lemma kept_ds_Get c : pres kept_files (ds_Get c).
Proof.
  unfold ds_Get. apply pres_bind; [apply _|apply kept_rt_Get|]. intros d.
  apply pres_bind; [apply _|apply pres_lift, _|]. intros. apply pres_ret, _.
Qed.
Lemma kept_over_links f ls out : (∀ c out, pres kept_files (f c out)) → pres kept_files (over_links f ls out).
Proof.
  intros Hf. revert out. induction ls as [|l ls IH]; intros out; [apply pres_ret, _|]. cbn [over_links].
  apply pres_bind; [apply _|apply Hf|]. intros [out'|]; [apply IH|apply pres_ret, _].
Qed.
Lemma kept_collectLeaves fuel c out : pres kept_files (collectLeaves fuel c out).
Proof.
  revert c out. induction fuel as [|fuel IH]; intros c out; [apply pres_ret, _|]. cbn [collectLeaves].
  case_decide; [case_decide; [apply pres_fail, _|apply pres_ret, _]|].
  apply pres_bind; [apply _|apply kept_ds_Get|]. intros nd. by apply kept_over_links.
Qed.
Lemma kept_findNode root rel : pres kept_files (findNode root rel).
Proof.
  unfold findNode. generalize (split_on ch_slash (trim_slashes rel)). intros parts. revert root.
  induction parts as [|p parts IH]; intros root; [apply pres_ret, _|]. cbn [find_parts].
  apply pres_bind; [apply _|apply kept_ds_Get|]. intros nd.
  apply pres_bind; [apply _|apply pres_lift, _|]. intros. apply IH.
Qed.
Lemma same_on_sess {A} (m : M sess A) : pres kept_files m → pres same_os (on_sess m).
Proof. intros H. apply (pres_zoom same_os kept_files); [|exact H]. done. Qed.
Lemma same_stores_op {A} (op : bstore → fman → result A * (bstore * fman)) : pres same_os (on_node (on_stores op)).
Proof. apply same_on_sess, kept_node_files. intros n. apply stores_os. Qed.
Lemma same_register hub c data p off : pres same_os (on_node (RegisterFilestoreRef hub c data p off)).
Proof.
  apply same_on_sess, kept_node_files. intros n. unfold RegisterFilestoreRef. case_decide; [done|apply stores_os].
Qed.
Lemma same_progress total msg : pres same_os (progress total msg).
Proof. by intros s. Qed.
Lemma same_count n : pres same_os (count_bytes n).
Proof. by intros s. Qed.

(** An operating-system call runs on the node's files. *)
Definition with_os s (o : osst) : xfer :=
  mk_xfer (mk_sess (mk_node (nd_map (ss_node (xf_sess s))) (nd_bs (ss_node (xf_sess s))) (nd_fm (ss_node (xf_sess s)))
    o (nd_net (ss_node (xf_sess s)))) (ss_stream (xf_sess s))) (xf_done s) (xf_events s).
Lemma on_os_run {A} (m : M osst A) s : on_os m s = ((m (xos s)).1, with_os s (m (xos s)).2).
Proof.
  unfold on_os, on_node, on_sess, in_node, on_files, m_zoom, xos. destruct s as [[[a b c o d] st] n e]. simpl.
  by destruct (m o).
Qed.
Lemma on_os_case {A} (m : M osst A) s r s' :
  on_os m s = (r, s') → ∃ o, m (xos s) = (r, o) ∧ s' = with_os s o.
Proof. rewrite on_os_run. intros [= <- <-]. eexists. split; [apply surjective_pairing|done]. Qed.
Lemma on_os_pres R `{!PreOrder R} {A} (m : M osst A) : pres R m → pres (λ s s', R (xos s) (xos s')) (on_os m).
Proof. intros H s. rewrite on_os_run. apply (H (xos s)). Qed.
End files.

(** ** The blob is placed whole and verified, or not at all *)
Section blob.
Context {MF : Multiformats} {IP : Ipld} {BS : Blockstore} {FM : FileManager} {FS : Filestore}
  {DS : Datastore} {BA : Batching} {K : Keys} {N : Network} {HS : Hashes}.
#[local] Existing Instances same_os_preorder.
Context (d : fpath) (w : string) (Hok : Forall seg_ok (d ++ [w])).
Implicit Types (s : xfer) (f : FileManifest).

Definition blob_segs' : fpath := d ++ [w].
Definition part_segs (x : string) : fpath := d ++ [w +:+ ".part-" +:+ x].
Definition blob_path : string := render_abs blob_segs'.
Definition part_path (x : string) : string := blob_path +:+ ".part-" +:+ x.

Lemma blob_abs : abs_segs blob_path = blob_segs'.
Proof. by apply abs_segs_render. Qed.
Lemma part_abs x : contains_char ch_slash x = false → abs_segs (part_path x) = part_segs x.
Proof.
  intros Hx. unfold part_path, blob_path, blob_segs', part_segs. rewrite render_abs_suffix.
  apply abs_segs_render. apply Forall_app in Hok as [Hd [Hw _]%Forall_cons_1].
  apply Forall_app. split; [done|]. constructor; [|constructor]. apply seg_ok_app; [done|].
  rewrite contains_char_app. by rewrite Hx.
Qed.
Lemma part_ne x : part_segs x ≠ blob_segs'.
Proof.
  unfold part_segs, blob_segs'. intros [_ [= E]]%app_inj_tail. apply (f_equal String.length) in E.
  rewrite slength_app in E. simpl in E. lia.
Qed.
Lemma part_nonnil x : part_segs x ≠ [].
Proof. unfold part_segs. by destruct d. Qed.

(** Only the temporary file differs. *)
Definition only_part (x : string) s s' : Prop := ∀ q, q ≠ part_segs x → tree s' !! q = tree s !! q.
#[local] Instance only_part_preorder x : PreOrder (only_part x).
Proof.
  unfold only_part. split; [done|]. intros a b c H1 H2 q Hq. by rewrite H2, H1.
Qed.
Lemma same_only_part {A} x (m : M xfer A) : pres same_os m → pres (only_part x) m.
Proof. intros H s q _. unfold tree. by rewrite (H s). Qed.
(** The temporary file holds [content]. *)
Definition part_holds (x content : string) s : Prop :=
  ∃ m, tree s !! part_segs x = Some (FFile m) ∧ reg_data m = content.
Lemma part_holds_same x content s s' : same_os s s' → part_holds x content s → part_holds x content s'.
Proof. unfold same_os, part_holds, tree. by intros ->. Qed.

Lemma append_run x content data s r s' :
  contains_char ch_slash x = false → part_holds x content s →
  on_os (os_append (part_path x) data) s = (r, s') →
  only_part x s s' ∧ (is_ok r = true → part_holds x (content +:+ data) s').
Proof.
  intros Hx (m & Hm & Hc) H. rewrite on_os_run in H. injection H as <- <-.
  destruct (os_append (part_path x) data (xos s)) as [r1 o] eqn:E.
  apply os_append_at with (f := m) in E as (E & _ & _).
  2:{ rewrite part_abs, fs_get_lookup by (done || apply part_nonnil). exact Hm. }
  rewrite part_abs in E by done. unfold only_part, part_holds, tree. cbn [fst snd].
  change (xos (with_os s o)) with o. rewrite E. split.
  - intros q Hq. destruct r1; [by rewrite lookup_insert_ne|done].
  - destruct r1; [|done]. intros _. rewrite lookup_insert_eq. eexists. split; [done|]. simpl. by rewrite Hc.
Qed.

Lemma store_chunks_run hub x l a s r s' :
  contains_char ch_slash x = false → part_holds x (ac_content a) s →
  store_chunks hub (part_path x) blob_path l a s = (r, s') →
  ∃ a' res, r = Ok (a', res) ∧ only_part x s s' ∧ (is_ok res = true → part_holds x (ac_content a') s').
Proof.
  intros Hx. revert a s. induction l as [|[c [data|]] l IH]; intros a s Ha H; cbn [store_chunks] in H.
  { injection H as <- <-. eexists _, _. split; [done|]. split; [reflexivity|done]. }
  2:{ injection H as <- <-. eexists _, _. split; [done|]. split; [reflexivity|done]. }
  destruct (new_block_with_cid data c) as [[]|e].
  2:{ injection H as <- <-. eexists _, _. split; [done|]. split; [reflexivity|done]. }
  destruct (on_os (os_append (part_path x) data) s) as [r1 s1] eqn:E1.
  destruct (append_run _ _ _ _ _ _ Hx Ha E1) as [F1 I1]. rewrite (bind_try_run _ _ _ _ _ E1) in H.
  destruct r1 as [[]|e].
  2:{ injection H as <- <-. eexists _, _. split; [done|]. split; [exact F1|done]. }
  pose proof (same_register hub c data blob_path (slen (ac_content a)) s1) as F2.
  destruct (on_node (RegisterFilestoreRef hub c data blob_path (slen (ac_content a))) s1) as [r2 s2] eqn:E2.
  rewrite (bind_try_run _ _ _ _ _ E2) in H. cbn [snd] in F2.
  assert (only_part x s s2) as F12.
  { etrans; [exact F1|]. intros q _. unfold tree. by rewrite F2. }
  destruct r2 as [[]|e].
  2:{ injection H as <- <-. eexists _, _. split; [done|]. split; [exact F12|done]. }
  pose proof (same_count (slen data) s2) as F3.
  destruct (count_bytes (slen data) s2) as [r3 s3] eqn:E3. cbn [snd] in F3.
  assert (r3 = Ok tt) as -> by (unfold count_bytes, m_modify in E3; by injection E3).
  rewrite (bind_run_ok _ _ _ _ _ E3) in H.
  apply IH in H as (a' & res & -> & F4 & I4).
  - eexists _, _. split; [done|]. split; [|exact I4].
    etrans; [exact F12|]. etrans; [|exact F4]. intros q _. unfold tree. by rewrite F3.
  - cbn [ac_content]. eapply part_holds_same; [exact F3|]. eapply part_holds_same; [exact F2|]. by apply I1.
Qed.

Lemma store_batches_run hub x path total n bs a s r s' :
  contains_char ch_slash x = false → part_holds x (ac_content a) s →
  store_batches hub (part_path x) blob_path path total n bs a s = (r, s') →
  ∃ a' res, r = Ok (a', res) ∧ only_part x s s' ∧ (is_ok res = true → part_holds x (ac_content a') s').
Proof.
  intros Hx. revert a s. induction bs as [|b bs IH]; intros a s Ha H; cbn [store_batches] in H.
  { injection H as <- <-. eexists _, _. split; [done|]. split; [reflexivity|done]. }
  pose proof (same_on_sess (Fetch b) (kept_weaken _ (kept_Fetch b)) s) as F1.
  destruct (on_sess (Fetch b) s) as [r1 s1] eqn:E1. cbn [snd] in F1. rewrite (bind_try_run _ _ _ _ _ E1) in H.
  assert (only_part x s s1) as F1' by (intros q _; unfold tree; by rewrite F1).
  destruct r1 as [datas|e].
  2:{ injection H as <- <-. eexists _, _. split; [done|]. split; [exact F1'|done]. }
  destruct (store_chunks hub (part_path x) blob_path (zip b datas) a s1) as [r2 s2] eqn:E2.
  destruct (store_chunks_run _ _ _ _ _ _ _ Hx (part_holds_same _ _ _ _ F1 Ha) E2) as (a2 & res2 & -> & F2 & I2).
  rewrite (bind_run_ok _ _ _ _ _ E2) in H. cbn [fst snd] in H.
  destruct res2 as [[]|e].
  2:{ injection H as <- <-. eexists _, _. split; [done|]. split; [by etrans|done]. }
  match type of H with ((progress ?t ?m ≫= _) _ = _) => pose proof (same_progress t m s2) as F3 end.
  unfold progress, emit, m_modify in H, F3. unfold mbind at 1, M_bind at 1 in H. cbn [snd] in F3.
  apply IH in H as (a' & res & -> & F4 & I4); [|eapply part_holds_same; [exact F3|by apply I2]].
  eexists _, _. split; [done|]. split; [|exact I4]. etrans; [exact F1'|]. etrans; [exact F2|].
  etrans; [|exact F4]. intros q _. unfold tree. by rewrite F3.
Qed.

(** The file at the blob's path is what the manifest announced. *)
Definition verified f (fs : gmap fpath fnode) : Prop :=
  ∃ m, fs !! blob_segs' = Some (FFile m) ∧ hex_encode (sha256_sum (reg_data m)) = mf_SHA256 f ∧
       slen (reg_data m) = mf_Size f.
(** [s'] has, beside the temporary file, at most a verified blob more than [s]. *)
Definition placed f x (res : bool) s s' : Prop :=
  (∀ q, q ≠ part_segs x → q ≠ blob_segs' → tree s' !! q = tree s !! q) ∧
  (tree s' !! blob_segs' = tree s !! blob_segs' ∨ verified f (tree s')) ∧
  (res = true → verified f (tree s')).

Lemma rollback_run x path cs cause s r s' :
  contains_char ch_slash x = false → rollback (part_path x) path cs cause s = (r, s') →
  only_part x s s' ∧ is_ok r = false.
Proof.
  intros Hx. unfold rollback. rewrite !bind_ignore_run.
  set (s1 := (on_os os_close s).2). set (s2 := (on_os (os_remove (part_path x)) s1).2).
  assert (only_part x s s1) as F1.
  { intros q _. unfold s1, tree. rewrite on_os_run. cbn [snd]. change (xos (with_os s ?o)) with o.
    unfold os_close. by destruct (os_tick_cases (xos s)) as [[_ ->]|[_ ->]]. }
  assert (only_part x s1 s2) as F2.
  { intros q Hq. unfold s2, tree. rewrite on_os_run. cbn [snd]. change (xos (with_os s1 ?o)) with o.
    destruct (os_remove (part_path x) (xos s1)) as [r1 o] eqn:E. cbn [snd].
    apply os_remove_cases in E as [->| ->]; [done|]. rewrite part_abs by done. by rewrite lookup_delete_ne. }
  assert (pres same_os (m_foreach (λ c, m_ignore (on_node (on_stores (λ b fm, fst_delete b fm c)))) cs)) as F3.
  { apply pres_foreach; [apply _|]. intros c. apply pres_ignore, same_stores_op. }
  specialize (F3 s2).
  assert ((m_foreach (λ c, m_ignore (on_node (on_stores (λ b fm, fst_delete b fm c)))) cs s2).1 = Ok tt) as Hr.
  { generalize s2. clear. induction cs as [|c cs IH]; intros sx; [done|]. cbn [m_foreach]. rewrite bind_ignore_run. apply IH. }
  destruct (m_foreach _ cs s2) as [r3 s3] eqn:E3. cbn [fst snd] in *. subst r3.
  rewrite (bind_run_ok _ _ _ _ _ E3). intros [= <- <-]. split; [|done].
  etrans; [exact F1|]. etrans; [exact F2|]. intros q _. unfold tree. by rewrite F3.
Qed.

Lemma only_placed f x s s' : only_part x s s' → placed f x false s s'.
Proof. intros H. split; [intros q Hq _; by apply H|]. split; [left; apply H, not_eq_sym, part_ne|done]. Qed.
Lemma rollback_placed f x path cs cause s0 s r s' res :
  contains_char ch_slash x = false → placed f x res s0 s →
  rollback (part_path x) path cs cause s = (r, s') → placed f x (is_ok r) s0 s'.
Proof.
  intros Hx (P1 & P2 & P3) H. apply rollback_run in H as [F ->]; [|done].
  assert (tree s' !! blob_segs' = tree s !! blob_segs') as E by apply F, not_eq_sym, part_ne.
  split; [intros q Hq Hq'; rewrite F by done; by apply P1|]. split; [|done].
  destruct P2 as [P2|(m & Hm & Hv)]; [left; congruence|right]. exists m. by rewrite E.
Qed.

Lemma place_blob_run x perm f a s r s' :
  contains_char ch_slash x = false → part_holds x (ac_content a) s →
  place_blob (part_path x) blob_path perm f a s = (r, s') → placed f x (is_ok r) s s'.
Proof.
  intros Hx Ha. unfold place_blob. cbv zeta.
  set (back := rollback (part_path x) (mf_Path f) (ac_registered a)).
  assert (∀ s1 res cause, placed f x res s s1 → back cause s1 = (r, s') → placed f x (is_ok r) s s') as Hback
    by (intros s1 res cause; by apply rollback_placed).
  destruct (on_os os_close s) as [r1 s1] eqn:E1. rewrite (bind_try_run _ _ _ _ _ E1).
  assert (tree s1 = tree s) as T1.
  { rewrite on_os_run in E1. injection E1 as _ <-. unfold tree. change (xos (with_os s ?o)) with o.
    unfold os_close. by destruct (os_tick_cases (xos s)) as [[_ ->]|[_ ->]]. }
  assert (placed f x false s s1) as P1.
  { split; [by rewrite T1|]. split; [left; by rewrite T1|done]. }
  destruct r1 as [[]|e]; [|by apply Hback with (res := false)].
  destruct (decide (hex_encode (sha256_sum (ac_content a)) ≠ mf_SHA256 f)) as [|Hsha%dec_stable];
    [by apply Hback with (res := false)|].
  destruct (decide (slen (ac_content a) ≠ mf_Size f)) as [|Hsize%dec_stable]; [by apply Hback with (res := false)|].
  destruct (on_os (os_rename (part_path x) blob_path) s1) as [r2 s2] eqn:E2. rewrite (bind_try_run _ _ _ _ _ E2).
  rewrite on_os_run in E2. injection E2 as <- <-.
  destruct (os_rename (part_path x) blob_path (xos s1)) as [r2 o2] eqn:E2. cbn [fst snd]. apply rename_at in E2.
  destruct r2 as [[]|e].
  2:{ apply Hback with (res := false). split; [|split; [|done]].
      - intros q _ _. unfold tree. change (xos (with_os s1 o2)) with o2. rewrite E2. fold (tree s1). by rewrite T1.
      - left. unfold tree. change (xos (with_os s1 o2)) with o2. rewrite E2. fold (tree s1). by rewrite T1. }
  destruct E2 as (n & Hn & _ & E2). fold (tree s1) in Hn, E2.
  rewrite part_abs, fs_get_lookup, T1 in Hn by (done || apply part_nonnil). rewrite part_abs, blob_abs, T1 in E2 by done.
  destruct Ha as (m & Hm & Hc). assert (n = FFile m) as -> by congruence.
  set (s2 := with_os s1 o2). assert (tree s2 = <[blob_segs' := FFile m]> (delete (part_segs x) (tree s))) as T2 by exact E2.
  assert (placed f x true s s2) as P2.
  { assert (verified f (tree s2)) as Hv.
    { exists m. rewrite T2, lookup_insert_eq, Hc. done. }
    split; [|split; [by right|done]]. intros q Hq Hq'. by rewrite T2, lookup_insert_ne, lookup_delete_ne. }
  destruct (on_os (os_chmod blob_path perm) s2) as [r3 s3] eqn:E3. rewrite (bind_try_run _ _ _ _ _ E3).
  rewrite on_os_run in E3. injection E3 as <- <-.
  destruct (os_chmod blob_path perm (xos s2)) as [r3 o3] eqn:E3. cbn [fst snd].
  apply os_chmod_at with (f := m) in E3 as (E3 & _).
  2:{ rewrite blob_abs, fs_get_lookup by (unfold blob_segs'; by destruct d). fold (tree s2). by rewrite T2, lookup_insert_eq. }
  fold (tree s2) in E3. rewrite blob_abs in E3.
  assert (placed f x true s (with_os s2 o3)) as P3.
  { assert (tree (with_os s2 o3) = os_fs o3) as T3 by done.
    assert (verified f (tree (with_os s2 o3))) as Hv.
    { rewrite T3, E3. destruct r3; [|by apply P2].
      exists (mk_regular (reg_data m) perm (reg_mtime m)). rewrite lookup_insert_eq. cbn [reg_data]. by rewrite Hc. }
    split; [|split; [by right|done]]. intros q Hq Hq'. rewrite T3, E3. destruct P2 as [P2 _].
    destruct r3; [rewrite lookup_insert_ne by done|]; by apply P2. }
  destruct r3 as [[]|e]; [|by apply Hback with (res := true)]. by intros [= <- <-].
Qed.

(** The names of temporary files are fresh as far as links go. *)
Definition no_part_links s : Prop := ∀ x, no_link (tree s) (part_segs x).
Definition placed_some f (res : bool) s s' : Prop :=
  ∃ x, contains_char ch_slash x = false ∧ placed f x res s s'.

Lemma transfer_run hub perm total f leaves s r s' :
  rand_ok (xos s) → no_part_links s →
  transfer hub blob_path perm total f leaves s = (r, s') → placed_some f (is_ok r) s s'.
Proof.
  intros Hr Hn. unfold transfer.
  destruct (on_os randSuffix s) as [r1 s1] eqn:E1.
  assert (∃ x, r1 = Ok x ∧ contains_char ch_slash x = false ∧ tree s1 = tree s) as (x & -> & Hx & T1).
  { rewrite on_os_run in E1. injection E1 as <- <-. unfold randSuffix, os_random, rand_ok in *. unfold tree.
    change (xos (with_os s ?o)) with o. destruct (os_rand (xos s)) as [|y l]; [by exists "0"|].
    exists y. split; [done|]. split; [by inversion Hr|done]. }
  rewrite (bind_run_ok _ _ _ _ _ E1). cbv zeta. fold (part_path x).
  destruct (on_os (os_create_trunc (part_path x) 438) s1) as [r2 s2] eqn:E2x.
  destruct (on_os_case _ _ _ _ E2x) as (o2 & E2 & ->).
  apply create_trunc_at in E2 as (_ & _ & E2).
  2:{ rewrite part_abs by done. fold (tree s1). rewrite T1. apply Hn. }
  fold (tree s1) in E2. rewrite part_abs, T1 in E2 by done. set (s2 := with_os s1 o2) in *.
  change (os_fs o2) with (tree s2) in E2. destruct r2 as [[]|e].
  2:{ rewrite (bind_run_err _ _ _ _ _ E2x). intros [= <- <-]. exists x. split; [done|].
      apply only_placed. intros q _. by rewrite E2. }
  rewrite (bind_run_ok _ _ _ _ _ E2x). destruct E2 as (_ & m & E2).
  assert (only_part x s s2) as F2 by (intros q Hq; by rewrite E2, lookup_insert_ne).
  assert (part_holds x "" s2) as I2 by (eexists; by rewrite E2, lookup_insert_eq).
  destruct (store_batches hub (part_path x) blob_path (mf_Path f) total (length leaves)
    (batches (length leaves) leaves) (mk_acc "" []) s2) as [r3 s3] eqn:E3.
  destruct (store_batches_run hub x _ _ _ _ (mk_acc "" []) _ _ _ Hx I2 E3) as (a' & res & -> & F3 & I3).
  rewrite (bind_run_ok _ _ _ _ _ E3). cbn [fst snd].
  assert (only_part x s s3) as F by by etrans. intros H. exists x. split; [done|].
  destruct res as [[]|e].
  - apply place_blob_run in H as (P1 & P2 & P3); [|done|by apply I3].
    assert (tree s3 !! blob_segs' = tree s !! blob_segs') as Eb by apply F, not_eq_sym, part_ne.
    split; [|split; [|done]].
    + intros q Hq Hq'. rewrite P1 by done. by apply F.
    + destruct P2 as [P2|P2]; [left; congruence|by right].
  - eapply rollback_placed; [done|by apply only_placed|exact H].
Qed.

(** A hit means the blob reads as the manifest says. *)
Lemma cached_run f s r s' :
  cached blob_path f s = (r, s') →
  tree s' = tree s ∧ (rand_ok (xos s) → rand_ok (xos s')) ∧ ∃ hit, r = Ok hit ∧
  (hit = true → ∃ content, fs_read_file (tree s) blob_path = Ok content ∧
     hex_encode (sha256_sum content) = mf_SHA256 f ∧ slen content = mf_Size f).
Proof.
  unfold cached. destruct (on_os (os_stat blob_path) s) as [r1 s1] eqn:E1. rewrite (bind_try_run _ _ _ _ _ E1).
  apply on_os_case in E1 as (o1 & E1 & ->). unfold os_stat in E1. apply os_query_cases in E1 as [-> Hr1].
  destruct r1 as [info|e]; [|intros [= <- <-]; split_and!; [done|done|by exists false]].
  destruct Hr1 as [Hr1|]; [|done]. fold (tree s) in Hr1.
  case_decide as Hsz; [|intros [= <- <-]; split_and!; [done|done|by exists false]].
  destruct (on_os (hashFile blob_path) (with_os s (ticked (xos s)))) as [r2 s2] eqn:E2.
  rewrite (bind_try_run _ _ _ _ _ E2). apply on_os_case in E2 as (o2 & E2 & ->).
  change (xos (with_os s ?o)) with o in E2. unfold hashFile in E2.
  destruct (os_read_file blob_path (ticked (xos s))) as [r3 o3] eqn:E3.
  pose proof E3 as E3'. unfold os_read_file in E3'. apply os_query_cases in E3' as [-> Hr3].
  destruct r3 as [content|e].
  2:{ rewrite (bind_run_err _ _ _ _ _ E3) in E2. injection E2 as <- <-. intros [= <- <-].
      split_and!; [done|done|by exists false]. }
  rewrite (bind_run_ok _ _ _ _ _ E3) in E2. injection E2 as <- <-. intros [= <- <-].
  split_and!; [done|done|]. eexists. split; [done|]. intros Hhit%bool_decide_eq_true.
  exists content. destruct Hr3 as [Hr3|]; [|done]. change (os_fs (ticked (xos s))) with (tree s) in Hr3.
  split; [done|]. split; [done|]. rewrite <- Hsz. symmetry in Hr1, Hr3. revert Hr1 Hr3.
  unfold fs_stat, fs_read_file, mbind, result_bind. destruct (fs_follow _ _ _) as [q|]; [|done].
  destruct (fs_lookup (tree s) q) as [[g| |]|]; [|done..]. by intros [= <-] [= <-].
Qed.

Lemma verified_reads f fs : verified f fs →
  ∃ content, fs_read_file fs blob_path = Ok content ∧
    hex_encode (sha256_sum content) = mf_SHA256 f ∧ slen content = mf_Size f.
Proof.
  intros (m & Hm & Hh & Hs). exists (reg_data m). split; [|done].
  apply fs_read_file_at. rewrite blob_abs, fs_get_lookup by (unfold blob_segs'; by destruct d). done.
Qed.
(** Beside the blob and a temporary file, only directories may be new. *)
Definition blob_frame s s' : Prop :=
  ∃ x, contains_char ch_slash x = false ∧
  fs_frame (λ q, q = blob_segs' ∨ q = part_segs x) (tree s) (tree s').
Lemma same_tree_outcome f s s' :
  tree s' = tree s → blob_frame s s' ∧ (tree s' !! blob_segs' = tree s !! blob_segs' ∨ verified f (tree s')).
Proof.
  intros E. split; [|left; by rewrite E]. exists "". split; [done|]. rewrite E. reflexivity.
Qed.
End blob.

Section verified.
Context {MF : Multiformats} {IP : Ipld} {BS : Blockstore} {FM : FileManager} {FS : Filestore}
  {DS : Datastore} {BA : Batching} {K : Keys} {N : Network} {HS : Hashes}.
#[local] Existing Instances same_os_preorder.
Context (p : Paths) (base : fpath) (Hp : cache_at p base).
Implicit Types (s : xfer) (f : FileManifest).

Definition blobs_dir : fpath := base ++ ["blobs"].
Lemma blobs_dir_ok name : seg_ok name → Forall seg_ok (blobs_dir ++ [name]).
Proof.
  intros Hn. unfold blobs_dir. rewrite <- app_assoc. apply Forall_app. split; [apply Hp|].
  constructor; [by split_and!|]. constructor; [done|constructor].
Qed.
Lemma BlobPath_at name : seg_ok name → BlobPath p name = blob_path blobs_dir name.
Proof.
  intros Hn. unfold BlobPath. rewrite (ca_blobs _ _ Hp). rewrite join_part; [|apply (ca_ok _ _ Hp)|by split_and!|done].
  unfold blob_path, blob_segs', blobs_dir. by rewrite <- app_assoc.
Qed.

(** Making the blobs directory. *)
Lemma mkdir_blobs w s r s' :
  seg_ok w → on_os (os_mkdir_all (Blobs p) 493) s = (r, s') → rand_ok (xos s) → no_part_links blobs_dir w s →
  fs_frame (λ _, False) (tree s) (tree s') ∧ rand_ok (xos s') ∧ no_part_links blobs_dir w s' ∧
  tree s' !! blob_segs' blobs_dir w = tree s !! blob_segs' blobs_dir w.
Proof.
  intros Hw E Hr Hl. apply on_os_case in E as (o & E & ->). unfold tree in *.
  change (xos (with_os s o)) with o.
  pose proof (pres_mkdir_all (λ _, False) (Blobs p) 493 (xos s)) as Hm. rewrite E in Hm. cbn [snd] in Hm.
  destruct Hm as [Fm Rm]. split; [exact Fm|]. split; [by eapply rand_ok_suffix|]. split.
  - intros x. pose proof (mkdir_all_link (Blobs p) 493 (xos s) (part_segs blobs_dir w x)) as Hk. rewrite E in Hk.
    apply Hk. apply Hl.
  - pose proof (mkdir_all_at (Blobs p) 493 (blob_segs' blobs_dir w)) as Hk. rewrite (ca_blobs _ _ Hp) in Hk, E.
    pose proof (blobs_dir_ok w Hw) as [Hd _]%Forall_app. rewrite abs_segs_render in Hk by done.
    assert (blob_segs' blobs_dir w ∉ prefixes (base ++ ["blobs"])) as Hnp.
    { intros [l El]%prefixes_prefix. apply (f_equal length) in El. unfold blob_segs', blobs_dir in El.
      rewrite !length_app in El. simpl in El. lia. }
    specialize (Hk Hnp (xos s)). by rewrite E in Hk.
Qed.

Lemma reconstructFile_run fuel hub total f c s r s' :
  SafeBlobName (mf_BlobName f) = true → mf_Size f ≠ 0%Z →
  rand_ok (xos s) → no_part_links blobs_dir (mf_BlobName f) s →
  reconstructFile fuel hub p total f c s = (r, s') →
  blob_frame blobs_dir (mf_BlobName f) s s' ∧
  (tree s' !! blob_segs' blobs_dir (mf_BlobName f) = tree s !! blob_segs' blobs_dir (mf_BlobName f) ∨
   verified blobs_dir (mf_BlobName f) f (tree s')) ∧
  (is_ok r = true → ∃ content, fs_read_file (tree s') (BlobPath p (mf_BlobName f)) = Ok content ∧
     hex_encode (sha256_sum content) = mf_SHA256 f ∧ slen content = mf_Size f).
Proof.
  intros [Hn _]%SafeBlobName_spec Hsz Hr Hl. pose proof (blobs_dir_ok _ Hn) as Hok.
  set (d := blobs_dir) in *. set (w := mf_BlobName f) in *.
  unfold reconstructFile. case_decide as Hsha.
  { intros [= <- <-]. destruct (same_tree_outcome d w f s s eq_refl). by split_and!. }
  fold w. rewrite (BlobPath_at w Hn). fold d. cbv zeta.
  set (perm := if decide (Z.land (mf_Mode f) 511 = 0%Z) then 420%Z else Z.land (mf_Mode f) 511).
  destruct (cached (blob_path d w) f s) as [r1 s1] eqn:E1.
  destruct (cached_run d w f _ _ _ E1) as (T1 & R1 & hit & -> & Hhit).
  rewrite (bind_run_ok _ _ _ _ _ E1). destruct hit.
  { intros H. assert (tree s' = tree s ∧ r = Ok tt) as [T ->].
    { rewrite <- T1. unfold count_bytes, progress, emit, m_modify, mbind, M_bind in H. injection H as <- <-. by split. }
    destruct (same_tree_outcome d w f _ _ T) as [F1 F2]. split_and!; [done..|]. intros _. rewrite T. by apply Hhit. }
  destruct (on_os (os_mkdir_all (Blobs p) 493) s1) as [r2 s2] eqn:E2.
  assert (no_part_links d w s1) as Hl1 by (intros x; rewrite T1; apply Hl).
  destruct (mkdir_blobs w _ _ _ Hn E2 (R1 Hr) Hl1) as (Fm & Hr2 & Hl2 & Eb). rewrite T1 in Fm, Eb.
  assert (∀ sx, tree sx = tree s2 → blob_frame d w s sx ∧ tree sx !! blob_segs' d w = tree s !! blob_segs' d w) as Hsame.
  { intros sx Ex. rewrite Ex. split; [|done]. exists "". split; [done|]. rewrite Ex.
    eapply fs_frame_mono; [|exact Fm]. done. }
  destruct r2 as [[]|e].
  2:{ rewrite (bind_run_err _ _ _ _ _ E2). intros [= <- <-]. destruct (Hsame s2 eq_refl). split_and!; [done|by left|done]. }
  rewrite (bind_run_ok _ _ _ _ _ E2), decide_False by done.
  pose proof (same_on_sess (collectLeaves fuel c []) (kept_collectLeaves fuel c []) s2) as F3.
  destruct (on_sess (collectLeaves fuel c []) s2) as [r3 s3] eqn:E3. cbn [snd] in F3.
  rewrite (bind_wrap_run _ _ _ _ _ _ E3).
  assert (tree s3 = tree s2) as T3 by (unfold tree; by rewrite F3).
  destruct (Hsame s3 T3) as [Fs3 Eb3].
  destruct r3 as [[[|l ls]|]|e]; try (intros [= <- <-]; split_and!; [done|by left|done]).
  intros H. apply (transfer_run d w Hok) in H as (x & Hx & P1 & P2 & P3).
  2:{ by rewrite F3. } 2:{ intros x. rewrite T3. apply Hl2. }
  split_and!.
  - exists x. split; [done|]. intros q Hq. rewrite P1, T3 by naive_solver. apply Fm. naive_solver.
  - destruct P2 as [P2|P2]; [left; congruence|by right].
  - intros Hres. apply (verified_reads d w Hok). by apply P3.
Qed.
End verified.

(** C11. No peer can plant a blob.  Whatever bytes the peer sends, and whichever
    system call fails or whenever the process dies, after pulling a non-empty
    file the blob's path holds what it held before or a file whose size and
    SHA-256 are those of the manifest; when the pull succeeds it reads as such;
    and beside one temporary file nothing else on disk has changed. *)
Theorem reconstructFile_verified {MF : Multiformats} {IP : Ipld} {BS : Blockstore} {FM : FileManager}
    {FS : Filestore} {DS : Datastore} {BA : Batching} {K : Keys} {N : Network} {HS : Hashes}
    fuel hub id t total f c (s s' : xfer) r :
  let p := NewPaths hub id t in
  let dir := blobs_dir (abs_segs hub ++ [RepoDirName id t]) in
  let blob := dir ++ [mf_BlobName f] in
  is_abs hub = true → SafeBlobName (mf_BlobName f) = true → mf_Size f ≠ 0%Z →
  rand_ok (xos s) → (∀ x, no_link (tree s) (dir ++ [mf_BlobName f +:+ ".part-" +:+ x])) →
  reconstructFile fuel hub p total f c s = (r, s') →
  (tree s' !! blob = tree s !! blob ∨
   ∃ m, tree s' !! blob = Some (FFile m) ∧ hex_encode (sha256_sum (reg_data m)) = mf_SHA256 f ∧
        slen (reg_data m) = mf_Size f) ∧
  (r = Ok tt → ∃ content, fs_read_file (tree s') (BlobPath p (mf_BlobName f)) = Ok content ∧
     hex_encode (sha256_sum content) = mf_SHA256 f ∧ slen content = mf_Size f) ∧
  ∃ x, fs_frame (λ q, q = blob ∨ q = dir ++ [mf_BlobName f +:+ ".part-" +:+ x]) (tree s) (tree s').
Proof.
  cbv zeta. intros Hh Hs Hsz Hr Hl H.
  destruct (reconstructFile_run _ _ (NewPaths_at hub id t Hh) fuel hub total f c s r s' Hs Hsz Hr Hl H)
    as ((x & _ & F) & P & V). split_and!; [exact P| |by exists x]. intros ->. by apply V.
Qed.

(** ** References after a failure *)
Section refs.
Context {MF : Multiformats} {IP : Ipld} {BS : Blockstore} {FM : FileManager} {FS : Filestore}
  {DS : Datastore} {BA : Batching} {K : Keys} {N : Network} {HS : Hashes}.
Context {BSL : BlockstoreLaws} {FML : FileManagerLaws} {FSL : FilestoreLaws}.
Implicit Types (s : xfer) (n : node) (f : FileManifest).

Definition stores_ok n : Prop := bs_healthy (nd_bs n) ∧ fm_healthy (nd_fm n).
Definition refs_of s : gmap multihash fref := fm_view (nd_fm (ss_node (xf_sess s))).
Definition xok s : Prop := stores_ok (ss_node (xf_sess s)).

(** The references stay as they are. *)
Definition node_keeps n n' : Prop := stores_ok n → stores_ok n' ∧ nd_fm n' = nd_fm n.
Definition sess_keeps (s s' : sess) : Prop := node_keeps (ss_node s) (ss_node s').
Definition keeps_refs s s' : Prop := xok s → xok s' ∧ refs_of s' = refs_of s.
#[local] Instance node_keeps_preorder : PreOrder node_keeps.
Proof.
  split; [by intros n|]. intros n1 n2 n3 H1 H2 H. destruct (H1 H) as [Hn2 E1]. destruct (H2 Hn2) as [Hn3 E2].
  split; [done|congruence].
Qed.
#[local] Instance sess_keeps_preorder : PreOrder sess_keeps.
Proof. unfold sess_keeps. split; [intros s; reflexivity|intros s1 s2 s3 ? ?; by etrans]. Qed.
#[local] Instance keeps_refs_preorder : PreOrder keeps_refs.
Proof.
  split; [by intros s|]. intros n1 n2 n3 H1 H2 H. destruct (H1 H) as [Hn2 E1]. destruct (H2 Hn2) as [Hn3 E2].
  split; [done|congruence].
Qed.
Lemma keeps_sess {A} (m : M sess A) : pres sess_keeps m → pres keeps_refs (on_sess m).
Proof.
  intros H. apply (pres_zoom keeps_refs sess_keeps); [|exact H]. intros s t Ht Hs.
  destruct (Ht Hs) as [Ho E]. split; [exact Ho|]. unfold refs_of. simpl. by rewrite E.
Qed.
Lemma keeps_node {A} (m : M sess A) : pres kept_node m → pres sess_keeps m.
Proof. intros H s Hs. by rewrite (H s). Qed.
Lemma keeps_in_node {A} (m : M node A) : pres node_keeps m → pres sess_keeps (in_node m).
Proof. apply (pres_zoom sess_keeps node_keeps). done. Qed.
Lemma keeps_put_block c data : pres node_keeps (on_stores (λ b fm, fst_put_block b fm c data)).
Proof.
  intros n [Hb Hf]. unfold on_stores. destruct (fst_put_block (nd_bs n) (nd_fm n) c data) as [r [b fm]] eqn:E.
  destruct (fst_put_block_spec _ _ _ _ _ _ _ Hb Hf E) as (Hb' & -> & _). done.
Qed.
Lemma keeps_rt_Get c : pres sess_keeps (rt_Get c).
Proof.
  unfold rt_Get. apply pres_bind; [apply _|apply pres_try, keeps_in_node; by intros n|]. intros [data|e]; [apply pres_ret, _|].
  apply pres_bind; [apply _|apply keeps_node, kept_Fetch|]. intros [|[data|] rest]; try apply pres_fail, _.
  apply pres_bind; [apply _|apply pres_lift, _|]. intros _.
  apply pres_bind; [apply _| |intros _; apply pres_ret, _].
  case_decide; [|apply pres_ret, _]. apply pres_ignore, keeps_in_node, keeps_put_block.
Qed.
Lemma keeps_collectLeaves fuel c out : pres sess_keeps (collectLeaves fuel c out).
Proof.
  revert c out. induction fuel as [|fuel IH]; intros c out; [apply pres_ret, _|]. cbn [collectLeaves].
  case_decide; [case_decide; [apply pres_fail, _|apply pres_ret, _]|].
  assert (pres sess_keeps (ds_Get c)) as Hd.
  { unfold ds_Get. apply pres_bind; [apply _|apply keeps_rt_Get|]. intros d.
    apply pres_bind; [apply _|apply pres_lift, _|]. intros. apply pres_ret, _. }
  apply pres_bind; [apply _|exact Hd|]. intros nd. generalize (nd.2). intros ls. revert out.
  induction ls as [|l ls IHl]; intros out; [apply pres_ret, _|]. cbn [over_links].
  apply pres_bind; [apply _|apply IH|]. intros [out'|]; [apply IHl|apply pres_ret, _].
Qed.
Lemma keeps_refs_os {A} (m : M osst A) : pres keeps_refs (on_os m).
Proof. intros s Hs. by rewrite on_os_run. Qed.
Lemma keeps_quiet total msg k : pres keeps_refs (progress total msg) ∧ pres keeps_refs (count_bytes k).
Proof. split; by intros s. Qed.

(** Since [s0] only references under [registered] have changed. *)
Definition only_refs (registered : list cid) s0 s : Prop :=
  xok s ∧ ∀ h, h ∉ map cid_hash registered → refs_of s !! h = refs_of s0 !! h.
Lemma only_refs_keep cs s0 s s' : keeps_refs s s' → only_refs cs s0 s → only_refs cs s0 s'.
Proof. intros H [Hs Hh]. destruct (H Hs) as [Hs' E]. split; [done|]. by rewrite E. Qed.

Lemma register_refs hub c data path off cs s0 s r s' :
  only_refs cs s0 s → on_node (RegisterFilestoreRef hub c data path off) s = (r, s') →
  match r with Ok _ => only_refs (cs ++ [c]) s0 s' | Err _ => only_refs cs s0 s' end.
Proof.
  intros Hs. pose proof Hs as [[Hb Hf] Hh]. unfold RegisterFilestoreRef. case_decide as Hc.
  { unfold on_node, on_sess, in_node, m_zoom. simpl. intros [= <- <-]. exact Hs. }
  unfold on_node, on_sess, in_node, on_stores, m_zoom.
  destruct (fst_put_ref hub (nd_bs (ss_node (xf_sess s))) (nd_fm (ss_node (xf_sess s))) c data path off) as [rr [b fm]] eqn:E.
  destruct (fst_put_ref_spec _ _ _ _ _ _ _ _ _ _ Hb Hf E) as (-> & -> & Hf' & Hv).
  intros [= <- <-]. split; [by split|]. intros h. rewrite map_app. intros [Hh1 Hh2]%not_elem_of_app.
  rewrite <- Hh by done. unfold refs_of. simpl. destruct Hv as [-> |[-> _]]; [|done].
  rewrite lookup_insert_ne; [done|]. intros <-. apply Hh2. apply list_elem_of_here.
Qed.
Lemma store_chunks_refs hub tmp path l a s0 s r s' :
  only_refs (ac_registered a) s0 s → store_chunks hub tmp path l a s = (r, s') →
  ∃ a' res, r = Ok (a', res) ∧ only_refs (ac_registered a') s0 s'.
Proof.
  revert a s. induction l as [|[c [data|]] l IH]; intros a s Ha H; cbn [store_chunks] in H.
  { injection H as <- <-. eauto. }
  2:{ injection H as <- <-. eauto. }
  destruct (new_block_with_cid data c) as [[]|e]; [|injection H as <- <-; by eauto].
  pose proof (keeps_refs_os (os_append tmp data) s) as F1.
  destruct (on_os (os_append tmp data) s) as [r1 s1] eqn:E1. rewrite (bind_try_run _ _ _ _ _ E1) in H. cbn [snd] in F1.
  apply (only_refs_keep _ _ _ _ F1) in Ha. destruct r1 as [[]|e]; [|injection H as <- <-; by eauto].
  destruct (on_node (RegisterFilestoreRef hub c data path (slen (ac_content a))) s1) as [r2 s2] eqn:E2.
  rewrite (bind_try_run _ _ _ _ _ E2) in H. apply (register_refs _ _ _ _ _ _ _ _ _ _ Ha) in E2.
  destruct r2 as [[]|e]; [|injection H as <- <-; by eauto].
  apply IH in H; [exact H|]. cbn [ac_registered]. eapply only_refs_keep; [|exact E2].
  apply (proj2 (keeps_quiet 0 "" (slen data)) s2).
Qed.
Lemma store_batches_refs hub tmp path fp total (count : nat) bs a s0 s r s' :
  only_refs (ac_registered a) s0 s → store_batches hub tmp path fp total count bs a s = (r, s') →
  ∃ a' res, r = Ok (a', res) ∧ only_refs (ac_registered a') s0 s'.
Proof.
  revert a s. induction bs as [|b bs IH]; intros a s Ha H; cbn [store_batches] in H.
  { injection H as <- <-. eauto. }
  pose proof (keeps_sess (Fetch b) (keeps_node _ (kept_Fetch b)) s) as F1.
  destruct (on_sess (Fetch b) s) as [r1 s1] eqn:E1. rewrite (bind_try_run _ _ _ _ _ E1) in H. cbn [snd] in F1.
  apply (only_refs_keep _ _ _ _ F1) in Ha. destruct r1 as [datas|e]; [|injection H as <- <-; by eauto].
  destruct (store_chunks hub tmp path (zip b datas) a s1) as [r2 s2] eqn:E2.
  destruct (store_chunks_refs _ _ _ _ _ _ _ _ _ Ha E2) as (a2 & res2 & -> & F2).
  rewrite (bind_run_ok _ _ _ _ _ E2) in H. cbn [fst snd] in H.
  destruct res2 as [[]|e]; [|injection H as <- <-; by eauto].
  unfold progress, emit, m_modify in H. unfold mbind at 1, M_bind at 1 in H.
  apply IH in H; [exact H|]. exact F2.
Qed.

(** After a rollback no reference is new. *)
Lemma rollback_refs tmp path cs cause s0 s r s' :
  only_refs cs s0 s → rollback tmp path cs cause s = (r, s') → refs_of s' ⊆ refs_of s0.
Proof.
  intros Hs. unfold rollback. rewrite !bind_ignore_run.
  apply (only_refs_keep _ _ _ _ (keeps_refs_os os_close s)) in Hs. set (s1 := (on_os os_close s).2) in *.
  apply (only_refs_keep _ _ _ _ (keeps_refs_os (os_remove tmp) s1)) in Hs. set (s2 := (on_os (os_remove tmp) s1).2) in *.
  destruct Hs as [Hok Hh].
  assert (∀ cs s, xok s → ∃ s', m_foreach (λ c, m_ignore (on_node (on_stores (λ b fm, fst_delete b fm c)))) cs s = (Ok tt, s') ∧
    ∀ h, refs_of s' !! h = if decide (h ∈ map cid_hash cs) then None else refs_of s !! h) as Hdel.
  { clear -FSL. induction cs as [|c cs IH]; intros s Hs; [by exists s|]. cbn [m_foreach]. rewrite bind_ignore_run.
    set (s1 := (on_node (on_stores (λ b fm, fst_delete b fm c)) s).2).
    assert (xok s1 ∧ refs_of s1 = delete (cid_hash c) (refs_of s)) as [Hs1 E1].
    { destruct Hs as [Hb Hf]. unfold s1, on_node, on_sess, in_node, on_stores, m_zoom.
      destruct (fst_delete (nd_bs (ss_node (xf_sess s))) (nd_fm (ss_node (xf_sess s))) c) as [r [b fm]] eqn:E.
      destruct (fst_delete_spec _ _ _ _ _ _ Hb Hf E) as (Hb' & Hf' & _ & Hv). by split; [split|]. }
    destruct (IH s1 Hs1) as (s' & E & Hv). exists s'. split; [exact E|]. intros h. rewrite Hv, E1. cbn [map].
    destruct (decide (h ∈ map cid_hash cs)) as [Hin|Hin].
    - rewrite decide_True by (apply elem_of_cons; by right). done.
    - destruct (decide (h = cid_hash c)) as [->|Hne].
      + rewrite decide_True by apply list_elem_of_here. apply lookup_delete_eq.
      + rewrite decide_False by (rewrite elem_of_cons; tauto). by apply lookup_delete_ne. }
  destruct (Hdel cs s2 Hok) as (s3 & E3 & Hv). rewrite (bind_run_ok _ _ _ _ _ E3). intros [= _ <-].
  apply map_subseteq_spec. intros h ref. rewrite Hv. case_decide as Hin; [done|]. by rewrite Hh.
Qed.
Lemma place_blob_refs tmp path perm f a s0 s r s' :
  only_refs (ac_registered a) s0 s → place_blob tmp path perm f a s = (r, s') →
  is_ok r = false → refs_of s' ⊆ refs_of s0.
Proof.
  intros Hs. unfold place_blob. cbv zeta.
  assert (∀ s1 cause, only_refs (ac_registered a) s0 s1 →
    rollback tmp (mf_Path f) (ac_registered a) cause s1 = (r, s') → is_ok r = false → refs_of s' ⊆ refs_of s0) as Hback
    by (intros s1 cause H1 H2 _; by eapply rollback_refs).
  pose proof (keeps_refs_os os_close s) as F1. destruct (on_os os_close s) as [r1 s1] eqn:E1.
  rewrite (bind_try_run _ _ _ _ _ E1). apply (only_refs_keep _ _ _ _ F1) in Hs. cbn [snd] in Hs.
  destruct r1 as [[]|e]; [|by apply Hback]. case_decide; [by apply Hback|]. case_decide; [by apply Hback|].
  pose proof (keeps_refs_os (os_rename tmp path) s1) as F2. destruct (on_os (os_rename tmp path) s1) as [r2 s2] eqn:E2.
  rewrite (bind_try_run _ _ _ _ _ E2). apply (only_refs_keep _ _ _ _ F2) in Hs. cbn [snd] in Hs.
  destruct r2 as [[]|e]; [|by apply Hback].
  pose proof (keeps_refs_os (os_chmod path perm) s2) as F3. destruct (on_os (os_chmod path perm) s2) as [r3 s3] eqn:E3.
  rewrite (bind_try_run _ _ _ _ _ E3). apply (only_refs_keep _ _ _ _ F3) in Hs. cbn [snd] in Hs.
  destruct r3 as [[]|e]; [by intros [= <- <-]|by apply Hback].
Qed.
Lemma transfer_refs hub path perm total f leaves s r s' :
  xok s → transfer hub path perm total f leaves s = (r, s') → is_ok r = false → refs_of s' ⊆ refs_of s.
Proof.
  intros Hs. unfold transfer.
  assert (only_refs [] s s) as H0 by done.
  pose proof (keeps_refs_os randSuffix s) as F1. destruct (on_os randSuffix s) as [r1 s1] eqn:E1.
  apply (only_refs_keep _ _ _ _ F1) in H0. cbn [snd] in H0. destruct r1 as [x|e].
  2:{ rewrite (bind_run_err _ _ _ _ _ E1). intros [= <- <-] _. apply map_subseteq_spec. intros h ref.
      destruct H0 as [_ H0]. rewrite H0; [done|]. apply not_elem_of_nil. }
  rewrite (bind_run_ok _ _ _ _ _ E1). cbv zeta.
  set (tmp := path +:+ ".part-" +:+ x).
  pose proof (keeps_refs_os (os_create_trunc tmp 438) s1) as F2. destruct (on_os (os_create_trunc tmp 438) s1) as [r2 s2] eqn:E2.
  apply (only_refs_keep _ _ _ _ F2) in H0. cbn [snd] in H0. destruct r2 as [[]|e].
  2:{ rewrite (bind_run_err _ _ _ _ _ E2). intros [= <- <-] _. apply map_subseteq_spec. intros h ref.
      destruct H0 as [_ H0]. rewrite H0; [done|]. apply not_elem_of_nil. }
  rewrite (bind_run_ok _ _ _ _ _ E2).
  destruct (store_batches hub tmp path (mf_Path f) total (length leaves) (batches (length leaves) leaves) (mk_acc "" []) s2)
    as [r3 s3] eqn:E3.
  destruct (store_batches_refs _ _ _ _ _ _ _ (mk_acc "" []) s _ _ _ H0 E3) as (a' & res & -> & H3).
  rewrite (bind_run_ok _ _ _ _ _ E3). cbn [fst snd]. destruct res as [[]|e].
  - by apply place_blob_refs.
  - intros H _. by eapply rollback_refs.
Qed.

(** C32. A pull that fails on a file, at whatever step, leaves no new reference:
    every nocopy reference there is afterwards was there before, so none points
    into a blob that was never completed.  The converse does not hold: the
    rollback also deletes references that were there before the pull. *)
Theorem reconstructFile_rollback fuel hub p total f c s r s' :
  xok s → mf_Size f ≠ 0%Z → reconstructFile fuel hub p total f c s = (r, s') → is_ok r = false →
  refs_of s' ⊆ refs_of s.
Proof.
  intros Hs Hsz. unfold reconstructFile. case_decide; [by intros [= <- <-]|]. cbv zeta.
  set (blob := BlobPath p (mf_BlobName f)).
  set (perm := if decide (Z.land (mf_Mode f) 511 = 0%Z) then 420%Z else Z.land (mf_Mode f) 511).
  assert (pres keeps_refs (cached blob f)) as F1.
  { unfold cached. apply pres_bind; [apply _|apply pres_try, keeps_refs_os|]. intros [info|e]; [|apply pres_ret, _].
    case_decide; [|apply pres_ret, _]. apply pres_bind; [apply _|apply pres_try, keeps_refs_os|]. intros. apply pres_ret, _. }
  specialize (F1 s Hs). destruct (cached blob f s) as [r1 s1] eqn:E1. cbn [snd] in F1. destruct F1 as [Hs1 R1].
  destruct r1 as [hit|e].
  2:{ rewrite (bind_run_err _ _ _ _ _ E1). intros [= <- <-] _. by rewrite R1. }
  rewrite (bind_run_ok _ _ _ _ _ E1). destruct hit; [by intros [= <- <-]|].
  pose proof (keeps_refs_os (os_mkdir_all (Blobs p) 493) s1 Hs1) as F2.
  destruct (on_os (os_mkdir_all (Blobs p) 493) s1) as [r2 s2] eqn:E2. cbn [snd] in F2. destruct F2 as [Hs2 R2].
  destruct r2 as [[]|e].
  2:{ rewrite (bind_run_err _ _ _ _ _ E2). intros [= <- <-] _. by rewrite R2, R1. }
  rewrite (bind_run_ok _ _ _ _ _ E2), decide_False by done.
  pose proof (keeps_sess _ (keeps_collectLeaves fuel c []) s2 Hs2) as F3.
  destruct (on_sess (collectLeaves fuel c []) s2) as [r3 s3] eqn:E3. cbn [snd] in F3. destruct F3 as [Hs3 R3].
  rewrite (bind_wrap_run _ _ _ _ _ _ E3), <- R1, <- R2, <- R3.
  destruct r3 as [[[|l ls]|]|e]; try by intros [= <- <-]. by apply transfer_refs.
Qed.
End refs.

(** ** Empty files *)
Section empty.
Context {MF : Multiformats} {IP : Ipld} {BS : Blockstore} {FM : FileManager} {FS : Filestore}
  {DS : Datastore} {BA : Batching} {K : Keys} {N : Network} {HS : Hashes}.
Context (d : fpath) (w : string) (Hok : Forall seg_ok (d ++ [w])).
Implicit Types (s : xfer) (f : FileManifest).

(** All that happens on disk once the blob was created. *)
Lemma empty_tree perm total f c s r s' :
  no_link (tree s) (d ++ [w]) → (on_os (os_create_trunc (render_abs (d ++ [w])) perm) s).1 = Ok tt →
  reconstruct_empty (render_abs (d ++ [w])) perm total f c s = (r, s') →
  ∃ m, tree s' = <[d ++ [w] := FFile (mk_regular "" m (os_clock (xos s)))]> (tree s).
Proof.
  intros Hn Hc. unfold reconstruct_empty.
  destruct (on_os (os_create_trunc (render_abs (d ++ [w])) perm) s) as [r1 s1] eqn:E1x. simpl in Hc. subst r1.
  rewrite (bind_wrap_run _ _ _ _ _ _ E1x). apply on_os_case in E1x as (o & E1 & ->).
  apply create_trunc_at in E1 as (_ & _ & _ & m & E1); [|by rewrite abs_segs_render].
  rewrite abs_segs_render in E1 by done. change (os_fs o) with (tree (with_os s o)) in E1.
  set (s1 := with_os s o) in *.
  intros H. exists m. trans (tree s1); [|exact E1].
  set (Rt := λ s s' : xfer, tree s' = tree s).
  assert (PreOrder Rt) as HR by (unfold Rt; split; [done|intros a b e Ea Eb; congruence]).
  match type of H with (?m s1 = _) => assert (pres Rt m) as Hp end; [|specialize (Hp s1); rewrite H in Hp; unfold Rt in Hp; cbn [snd] in Hp; done].
  clear H E1. apply pres_bind; [apply _| |intros _].
  { apply pres_wrap. intros sx. rewrite on_os_run. unfold Rt, tree. cbn [snd]. change (xos (with_os sx ?o)) with o.
    unfold os_close. by destruct (os_tick_cases (xos sx)) as [[_ ->]|[_ ->]]. }
  apply pres_bind; [apply _|apply pres_wrap|].
  { intros sx. unfold Rt, tree. by rewrite (same_on_sess (Fetch [c]) (kept_weaken _ (kept_Fetch [c])) sx). }
  intros [|[data|] [|]]; try apply pres_fail, _. apply pres_bind; [apply _|apply pres_lift, _|]. intros _.
  case_decide; [apply pres_fail, _|]. apply pres_bind; [apply _| |intros _; by intros sx].
  apply pres_wrap. intros sx. unfold on_node, on_sess, in_node, m_zoom, Rt, tree, xos. simpl.
  by destruct (bs_put (nd_bs (ss_node (xf_sess sx))) c data).
Qed.

(** The blob of a file announced as empty is written before anything is
    checked: once the call that creates it has succeeded, an earlier blob of
    that name is gone, whatever the peer answers and whether or not the pull
    succeeds. *)
Theorem reconstruct_empty_truncates perm total f c s r s' :
  no_link (tree s) (d ++ [w]) → (on_os (os_create_trunc (render_abs (d ++ [w])) perm) s).1 = Ok tt →
  reconstruct_empty (render_abs (d ++ [w])) perm total f c s = (r, s') →
  ∃ m, tree s' !! (d ++ [w]) = Some (FFile m) ∧ reg_data m = "".
Proof.
  intros Hn Hc H. destruct (empty_tree _ _ _ _ _ _ _ Hn Hc H) as [m ->].
  rewrite lookup_insert_eq. by eexists.
Qed.
End empty.

(** ** A concrete pull *)
Module ToyPull.
Import ToyNode ToyBlocks.
#[export] Instance toy_hashes : Hashes := {| sha256_sum := id; sha1_sum := id |}.
Definition p : Paths := NewPaths "/hub" "org/m" Model.
Definition dir : fpath := ["hub"; "models--org--m"; "blobs"].
Definition manifest (size : Z) (sha : string) : FileManifest := mk_FileManifest "f" "b" size sha 0 0 false "" "".
Definition node1 (refs : gmap string fref) : node :=
  mk_node (nd_map node0) ({[ "r" := "@f=" +:+ cid_string leaf +:+ "," ]} : gmap string string) (refs : fman)
    (mk_osst {[ dir ++ ["b"] := FFile (mk_regular "precious" 420 0); dir := FDir 493;
                ["hub"; "models--org--m"] := FDir 493; ["hub"] := FDir 493 ]} [] ["17"] 0) (nd_net node0).
(* a reference to the chunk, into another blob *)
Definition old_ref : gmap string fref := {[ "l" := mk_fref "/hub/elsewhere" 0 4 ]}.
Definition pulling (refs : gmap string fref) (data : string) : xfer := mk_xfer (mk_sess (node1 refs) (stream_of data)) 0 [].
(* The peer delivers the chunk. *)
Definition chunk : string := frame (String BlockOK "data").
Definition good : FileManifest := manifest 4 (hex_encode "data").
Definition bad : FileManifest := manifest 4 (hex_encode "other").
Definition run (f : FileManifest) : result unit * xfer := reconstructFile 5 "/hub" p 4 f root (pulling old_ref chunk).
End ToyPull.

Section witnesses.
Import ToyNode ToyBlocks ToyPull.

Lemma no_part : ∀ x, no_link (tree (pulling old_ref chunk)) (dir ++ ["b" +:+ ".part-" +:+ x]).
Proof.
  intros x t. unfold tree, xos. cbn [pulling xf_sess ss_node node1 nd_os os_fs].
  rewrite fs_get_lookup by done.
  rewrite !lookup_insert_ne by (intros E; vm_compute in E; discriminate).
  rewrite lookup_singleton_ne by done. done.
Qed.

Lemma reconstructFile_verified_witness :
  (run good).1 = Ok tt ∧ fs_read_file (tree (run good).2) (BlobPath p "b") = Ok "data".
Proof.
  assert ((run good).1 = Ok tt) as H by (vm_compute; reflexivity). split; [exact H|].
  destruct (reconstructFile_verified 5 "/hub" "org/m" Model 4 good root (pulling old_ref chunk) (run good).2 (run good).1)
    as (_ & Hread & _); [reflexivity|reflexivity|done|by repeat constructor|exact no_part|apply surjective_pairing|].
  destruct (Hread H) as (content & Hc & Hsha & _). cbn [mf_BlobName good manifest] in Hc.
  assert (content = "data") as ->; [|exact Hc].
  apply (f_equal hex_decode) in Hsha. cbn [mf_SHA256 good manifest] in Hsha.
  rewrite !hex_decode_encode in Hsha. by injection Hsha.
Defined.

(* A bad hash: nothing new is referenced, and the old reference is lost. *)
Lemma reconstructFile_rollback_witness :
  is_ok (run bad).1 = false ∧ refs_of (run bad).2 ⊆ old_ref ∧ refs_of (run bad).2 = ∅.
Proof.
  assert (is_ok (run bad).1 = false) as H by (vm_compute; reflexivity). split; [exact H|]. split; [|vm_compute; reflexivity].
  apply (reconstructFile_rollback (FSL := Toy.filestore_laws) 5 "/hub" p 4 bad root (pulling old_ref chunk) (run bad).1 (run bad).2);
    [exact (conj I I)|by apply Z.eqb_neq|apply surjective_pairing|exact H].
Defined.

(* The peer sends nothing at all, and the blob is gone. *)
Lemma reconstruct_empty_truncates_witness :
  let r := reconstructFile 5 "/hub" p 4 (manifest 0 "00") root (pulling ∅ "") in
  is_ok r.1 = false ∧ fs_read_file (tree (pulling ∅ "")) (BlobPath p "b") = Ok "precious" ∧
  ∃ m, tree (reconstruct_empty (BlobPath p "b") 420 4 (manifest 0 "00") root (pulling ∅ "")).2 !! (dir ++ ["b"]) = Some (FFile m) ∧
       reg_data m = "".
Proof.
  cbv zeta. split; [vm_compute; reflexivity|]. split; [vm_compute; reflexivity|].
  apply (reconstruct_empty_truncates dir "b" ltac:(by repeat constructor) 420 4 (manifest 0 "00") root (pulling ∅ ""))
    with (r := (reconstruct_empty (BlobPath p "b") 420 4 (manifest 0 "00") root (pulling ∅ "")).1);
    [by intros t|vm_compute; reflexivity|apply surjective_pairing].
Defined.
End witnesses.
