(* ===== verification/Job.v ===== *)
(** * A node at work for somebody, and the texts it sends them.

    A [job] is a node with the events reported so far, in order.  Pulling and
    ingesting run on jobs; the daemon forwards the events over the control
    socket. *)
From S2P Require Import Prelude GoStrings Json GoPath GoFS Protoio Lib Store Dummy Mapping Wire.
From S2P Require Import Config Identity Net Node.

(** ** Texts *)
Definition short (s : string) : string := if 12 <? String.length s then take_bytes 12 s else s.
(** The nearest integer, halves to even. *)
Definition round_half_even (num den : Z) : Z :=
  let q := (num / den)%Z in
  let r := (num mod den)%Z in
  if (2 * r <? den)%Z then q else if (den <? 2 * r)%Z then (q + 1)%Z
  else if Z.even q then q else (q + 1)%Z.
(** [float64(b)] for [b > 0]: 53 significant bits. *)
Definition float64_of_int (b : Z) : Z :=
  let e := (Z.log2 b - 52)%Z in
  if (e <=? 0)%Z then b else (round_half_even b (2 ^ e) * 2 ^ e)%Z.
(** [fmt.Sprintf("%.1f", num/den)] for an exact quotient. *)
Definition fixed1 (num den : Z) : string :=
  let t := round_half_even (10 * num) den in
  dec_of_Z (t / 10) +:+ "." +:+ dec_of_Z (t mod 10).
Definition humanBytes (b : Z) : string :=
  if (Z.shiftl 1 30 <=? b)%Z then fixed1 (float64_of_int b) (Z.shiftl 1 30) +:+ " GiB"
  else if (Z.shiftl 1 20 <=? b)%Z then fixed1 (float64_of_int b) (Z.shiftl 1 20) +:+ " MiB"
  else if (Z.shiftl 1 10 <=? b)%Z then fixed1 (float64_of_int b) (Z.shiftl 1 10) +:+ " KiB"
  else dec_of_Z b +:+ " B".
Fixpoint err_text (e : error) : string :=
  match e with ErrRoot _ msg => msg | ErrWrap ctx e => ctx +:+ ": " +:+ err_text e end.

Example humanBytes_tests :
  map humanBytes [0; 1023; 1024; 1279; 1280; 1587609; 1073741824; 9223372036854775807; -5]%Z =
  ["0 B"; "1023 B"; "1.0 KiB"; "1.2 KiB"; "1.2 KiB"; "1.5 MiB"; "1.0 GiB"; "8589934592.0 GiB"; "-5 B"].
Proof. vm_compute. reflexivity. Qed.

(** ** Jobs *)
Section job.
Context {MF : Multiformats} {IP : Ipld} {BS : Blockstore} {FM : FileManager} {FS : Filestore}
  {DS : Datastore} {BA : Batching} {K : Keys} {N : Network}.

Record job := mk_job { jb_node : node; jb_events : list ControlEvent }.
Definition on_jnode {A} : M node A → M job A := m_zoom jb_node (λ x j, mk_job x (jb_events j)).
Definition on_jfiles {A} (m : M osst A) : M job A := on_jnode (on_files m).
Definition send (typ msg : string) : M job unit :=
  m_modify (λ j, mk_job (jb_node j) (jb_events j ++ [mk_ControlEvent typ msg 0 0])).
Definition say : string → M job unit := send "progress".

End job.

(** ** Work that leaves the node's own state alone *)
Section local.
Context {MF : Multiformats} {IP : Ipld} {BS : Blockstore} {FM : FileManager} {FS : Filestore}
  {DS : Datastore} {BA : Batching} {K : Keys} {N : Network}.
Implicit Types (j : job) (n : node).

Lemma on_net_local {A} (m : M swarm A) n : ∃ w, (on_net m n).2 = mk_node (nd_map n) (nd_bs n) (nd_fm n) (nd_os n) w.
Proof. unfold on_net, m_zoom. destruct (m (nd_net n)). by eexists. Qed.
(** Only the network is touched. *)
Definition local_same n n' : Prop :=
  nd_map n' = nd_map n ∧ nd_bs n' = nd_bs n ∧ nd_fm n' = nd_fm n ∧ nd_os n' = nd_os n.
#[export] Instance local_same_preorder : PreOrder local_same.
Proof.
  split; [done|]. intros n1 n2 n3 (A1 & B1 & C1 & D1) (A2 & B2 & C2 & D2). split_and!; congruence.
Qed.
Lemma local_on_net {A} (m : M swarm A) : pres local_same (on_net m).
Proof. intros n. by destruct (on_net_local m n) as [w ->]. Qed.
Lemma local_ProvideCommit commit actual : pres local_same (ProvideCommit commit actual).
Proof.
  unfold ProvideCommit. apply pres_bind; [apply _|apply pres_lift, _|]. intros d.
  apply pres_bind; [apply _|apply pres_wrap, local_on_net|]. intros _.
  case_decide; [apply pres_ignore, local_on_net|apply pres_ret, _].
Qed.
Lemma local_Dial a : pres local_same (Dial a).
Proof.
  unfold Dial. do 2 (apply pres_bind; [apply _|apply pres_lift, _|]; intros ?).
  apply pres_bind; [apply _|apply pres_wrap, local_on_net|]. intros _. apply pres_ret, _.
Qed.
Lemma local_wait ticks : pres local_same (WaitForRoutingTable ticks).
Proof.
  induction ticks as [|ticks IH]; cbn [WaitForRoutingTable]; (apply pres_bind; [apply _|apply pres_gets, _|]; intros size);
    (case_decide; [apply pres_ret, _|]); [apply pres_ret, _|].
  apply pres_bind; [apply _|apply local_on_net|]. intros _. exact IH.
Qed.
Definition jos j : osst := nd_os (jb_node j).
(** Looking for peers touches the network and the events only. *)
Definition local_j j j' : Prop := local_same (jb_node j) (jb_node j').
#[export] Instance local_j_preorder : PreOrder local_j.
Proof. unfold local_j. split; [intros j; reflexivity|intros a b c; apply transitivity]. Qed.
Lemma local_jnode {A} (op : M node A) : pres local_same op → pres local_j (on_jnode op).
Proof. apply pres_zoom. by intros. Qed.
Lemma local_send typ msg : pres local_j (send typ msg).
Proof. intros j. unfold send, m_modify, local_j. reflexivity. Qed.
End local.
