(* ===== verification/Exchange.v ===== *)
(** * internal/pull: asking a peer for a revision.

    [mapExchange] opens a stream of the map protocol, sends a [MapRequest] and
    vets the answer.  [exchange] is what happens on the stream once it is open;
    the stream is the client's own, so all that is left of it is its result.
    [dialHint] only adds text to an error and is not modelled. *)
From S2P Require Import Prelude GoStrings Json GoPath GoFS Protoio Lib Store Dummy Mapping Wire Hfcache Tree.
From S2P Require Import Config Identity Net Node Job.

Section exchange.
Context {MF : Multiformats} {IP : Ipld} {BS : Blockstore} {FM : FileManager} {FS : Filestore}
  {DS : Datastore} {BA : Batching} {K : Keys} {N : Network}.

Definition maxPeerErrorLen : nat := 512.
Definition truncatePeerError (s : string) : string :=
  if String.length s <=? maxPeerErrorLen then s
  else take_bytes maxPeerErrorLen s +:+ "… (truncated)".

Definition validateMapBinding (commit : string) (resp : MapResponse) : result unit :=
  if decide (rs_CommitHash resp ≠ commit) then Err (errorf "peer answered for another commit")
  else if decide (rs_DummyCID resp = "") then Ok tt
  else
    want ← wrap_result "commit has no dummy cid" (FromCommit commit);
    got ← wrap_result "peer sent unusable dummy cid" (cid_decode (rs_DummyCID resp));
    if decide (got ≠ want) then Err (errorf "peer dummy cid does not match commit")
    else Ok tt.

Definition safe_names (f : FileManifest) : bool := SafeRelPath (mf_Path f) && SafeBlobName (mf_BlobName f).
(** What is asked of an answer before it is used. *)
Definition check_response (commit : string) (resp : MapResponse) : result cid :=
  if negb (rs_OK resp) then Err (errorf (truncatePeerError (rs_Error resp)))
  else
    validateMapBinding commit resp ;;
    if negb (forallb safe_names (rs_Files resp)) then Err (errorf "peer sent unsafe manifest path or blob name")
    else wrap_result "peer sent unusable actual cid" (cid_decode (rs_ActualCID resp)).

Definition exchange (repoID commit : string) : M stream (cid * MapResponse) :=
  m_wrap "send map request" (stream_write (WriteJSON (MapRequest_json (mk_MapRequest commit repoID)))) ;;
  resp ← m_wrap "read map response" (stream_read (ReadJSON dec_MapResponse zero_MapResponse));
  actual ← m_lift (check_response commit resp);
  mret (actual, resp).
Definition mapExchange (p : AddrInfo maddr) (repoID commit : string) : M node (cid * MapResponse) :=
  m_wrap "connect" (on_net (host_connect p)) ;;
  s ← m_wrap "open map stream" (on_net (host_new_stream (ai_ID p) ProtocolMapID));
  m_lift (exchange repoID commit s).1.
End exchange.

(** ** What decoding guarantees *)
(** Within the ranges of the Go types, and with no path of the peer's host. *)
Definition decoded_manifest (f : FileManifest) : Prop := manifest_ok f ∧ mf_SrcPath f = "".
Definition decoded_response (x : MapResponse) : Prop :=
  in_int64 (rs_TotalSize x) ∧ Forall decoded_manifest (rs_Files x).

Lemma dec_manifest_inv j f : dec_manifest j zero_manifest = Ok f → decoded_manifest f.
Proof.
  assert (decoded_manifest zero_manifest) as H0 by (split; [split_and!; done|done]).
  unfold dec_manifest, dec_struct. destruct j; try done; [by intros [= <-]|].
  apply (dec_members_inv decoded_manifest); [|done]. clear. intros f j t t' Hf [(H1 & H2 & H3) H4].
  destruct t as [a b c d e g h i k]. cbn [mf_Size mf_Mode mf_Mtime mf_SrcPath] in *. unfold manifest_fields in Hf.
  repeat (apply elem_of_cons in Hf as [->|Hf]); [..|by apply not_elem_of_nil in Hf]; cbn [mk_field snd mf_Path mf_BlobName mf_Size mf_SHA256 mf_Mode mf_Mtime mf_LFS mf_XetHash];
    match goal with |- (?d j ?o ≫= _) = _ → _ => destruct (d j o) as [v|] eqn:E; [|done] end;
    intros [= <-]; (split; [split; [|split]|]); cbn; try assumption; by apply dec_int_range in E.
Qed.
Lemma mapR_inv {A B} (f : A → result B) (P : B → Prop) l ys :
  (∀ x y, f x = Ok y → P y) → mapR f l = Ok ys → Forall P ys.
Proof.
  intros Hf. revert ys. induction l as [|x l IH]; intros ys; cbn [mapR]; [by intros [= <-]|].
  destruct (f x) as [y|] eqn:E; [|done]. destruct (mapR f l) as [zs|]; [|done]. intros [= <-].
  constructor; [by eapply Hf|by apply IH].
Qed.
Lemma dec_MapResponse_inv j x : dec_MapResponse j zero_MapResponse = Ok x → decoded_response x.
Proof.
  assert (decoded_response zero_MapResponse) as H0 by (split; [done|constructor]).
  unfold dec_MapResponse, dec_struct. destruct j; try done; [by intros [= <-]|].
  apply (dec_members_inv decoded_response); [|done]. clear. intros f j t t' Hf [H1 H2].
  destruct t as [a b c d e g h i k]. cbn [rs_TotalSize rs_Files] in *. unfold MapResponse_fields in Hf.
  repeat (apply elem_of_cons in Hf as [->|Hf]); [..|by apply not_elem_of_nil in Hf];
    cbn [mk_field snd rs_OK rs_Error rs_CommitHash rs_RepoID rs_RepoType rs_ActualCID rs_DummyCID rs_TotalSize rs_Files];
    match goal with |- (?d j ?o ≫= _) = _ → _ => destruct (d j o) as [v|] eqn:E; [|done] end;
    intros [= <-]; split; cbn; try done; [by apply dec_int_range in E|].
  unfold dec_list in E. destruct j; try done; [by injection E as <-|].
  eapply mapR_inv; [|exact E]. intros ? ?. apply dec_manifest_inv.
Qed.
Lemma decoded_published f : decoded_manifest f → published f = f.
Proof. destruct f. intros [_ H]. cbn in H. subst. done. Qed.

(** ** The client's side *)
Section client.
Context {MF : Multiformats} {IP : Ipld} {BS : Blockstore} {FM : FileManager} {FS : Filestore}
  {DS : Datastore} {BA : Batching} {K : Keys} {N : Network}.
Implicit Types (n : node) (resp : MapResponse) (commit : string).

(** An answer that may be used for [commit]. *)
Record vetted commit (actual : cid) resp : Prop := {
  ve_ok : rs_OK resp = true;
  ve_commit : rs_CommitHash resp = commit;
  ve_actual : cid_decode (rs_ActualCID resp) = Ok actual;
  ve_dummy : rs_DummyCID resp = "" ∨ ∃ d, FromCommit commit = Ok d ∧ cid_decode (rs_DummyCID resp) = Ok d;
  ve_names : Forall (λ f, safe_names f = true) (rs_Files resp)
}.
Lemma validateMapBinding_ok commit resp :
  validateMapBinding commit resp = Ok tt ↔
  rs_CommitHash resp = commit ∧
  (rs_DummyCID resp = "" ∨ ∃ d, FromCommit commit = Ok d ∧ cid_decode (rs_DummyCID resp) = Ok d).
Proof.
  unfold validateMapBinding. case_decide as Hc; [naive_solver|]. case_decide as Hd; [naive_solver|].
  destruct (FromCommit commit) as [want|]; [|naive_solver].
  destruct (cid_decode (rs_DummyCID resp)) as [got|]; cbn; [|naive_solver].
  case_decide as Hg; naive_solver.
Qed.
Lemma check_response_vetted commit resp actual :
  check_response commit resp = Ok actual ↔ vetted commit actual resp.
Proof.
  unfold check_response. split.
  - destruct (rs_OK resp) eqn:Hok; [|done]. cbn [negb].
    destruct (validateMapBinding commit resp) as [[]|] eqn:Hb; [|done].
    apply validateMapBinding_ok in Hb as [Hc Hd]. cbn [mbind result_bind].
    destruct (forallb safe_names (rs_Files resp)) eqn:Hs; [|done]. cbn [negb].
    destruct (cid_decode (rs_ActualCID resp)) as [a|] eqn:Ha; [|done]. intros [= ->].
    split; try done. apply Forall_forall. intros f Hf. rewrite forallb_forall in Hs.
    by apply Hs, list_elem_of_In.
  - intros [-> Hc Ha Hd Hs]. cbn [negb].
    rewrite (proj2 (validateMapBinding_ok commit resp) (conj Hc Hd)). cbn [mbind result_bind].
    assert (forallb safe_names (rs_Files resp) = true) as ->; [|by rewrite Ha].
    apply forallb_forall. intros f Hf%list_elem_of_In. rewrite Forall_forall in Hs. by apply Hs.
Qed.
Lemma exchange_ok repoID commit s actual resp s' :
  exchange repoID commit s = (Ok (actual, resp), s') → vetted commit actual resp ∧ decoded_response resp.
Proof.
  unfold exchange. intros ([] & s1 & _ & H)%bind_ok_inv. apply bind_ok_inv in H as (r & s2 & Hr & H).
  apply bind_ok_inv in H as (a & s3 & Ha & H). injection H as -> -> _. split.
  - apply check_response_vetted. by injection Ha.
  - unfold m_wrap, stream_read, m_zoom in Hr.
    destruct (ReadJSON dec_MapResponse zero_MapResponse (st_in s1)) as [[x|e] t] eqn:E; [|done].
    injection Hr as -> _. unfold ReadJSON in E. apply bind_ok_inv in E as (d & t1 & _ & E).
    unfold m_wrap, m_lift, unmarshal in E. destruct (parse d) as [j|]; [|done].
    destruct (dec_MapResponse j zero_MapResponse) as [x|] eqn:Ej; [|done]. injection E as -> _.
    by eapply dec_MapResponse_inv.
Qed.
Lemma local_mapExchange p repoID commit : pres local_same (mapExchange p repoID commit).
Proof.
  unfold mapExchange. apply pres_bind; [apply _|apply pres_wrap, local_on_net|]. intros _.
  apply pres_bind; [apply _|apply pres_wrap, local_on_net|]. intros s. apply pres_lift, _.
Qed.
Lemma mapExchange_run p repoID commit n actual resp n' :
  mapExchange p repoID commit n = (Ok (actual, resp), n') →
  vetted commit actual resp ∧ decoded_response resp ∧ local_same n n'.
Proof.
  intros H. pose proof (local_mapExchange p repoID commit n) as Hl. rewrite H in Hl. cbn [snd] in Hl.
  unfold mapExchange in H. apply bind_ok_inv in H as ([] & n1 & _ & H).
  apply bind_ok_inv in H as (s & n2 & _ & H). unfold m_lift in H. injection H as H _.
  destruct (exchange repoID commit s) as [r s'] eqn:E. cbn [fst] in H. subst r.
  apply exchange_ok in E as [Hv Hd]. done.
Qed.

(** C28. No peer can make the map exchange return an answer for another
    revision or one that leaves the cache: the commit is the one asked for, the
    dummy CID is absent or that of the commit, the content CID decodes, every
    number is within its Go type, no host path is taken over, and every file's
    blob is a direct child of the blob directory and its link lies below the
    snapshot; and nothing of the node but the network has changed. *)
Theorem mapExchange_vets p repoID commit n actual resp n' hub id t :
  mapExchange p repoID commit n = (Ok (actual, resp), n') → is_abs hub = true →
  rs_CommitHash resp = commit ∧ cid_decode (rs_ActualCID resp) = Ok actual ∧
  (rs_DummyCID resp = "" ∨ ∃ d, FromCommit commit = Ok d ∧ cid_decode (rs_DummyCID resp) = Ok d) ∧
  decoded_response resp ∧ local_same n n' ∧
  ∀ f, f ∈ rs_Files resp →
    let base := abs_segs hub ++ [RepoDirName id t] in
    abs_segs (BlobPath (NewPaths hub id t) (mf_BlobName f)) = base ++ ["blobs"; mf_BlobName f] ∧
    (seg_ok commit → ∃ rel, rel ≠ [] ∧ Forall seg_ok rel ∧
       abs_segs (fjoin [SnapshotDir (NewPaths hub id t) commit; mf_Path f]) = base ++ ["snapshots"; commit] ++ rel).
Proof.
  intros H Hh. apply mapExchange_run in H as ([_ Hc Ha Hd Hs] & Hdec & Hl). split_and!; [done..|].
  intros f Hf. cbv zeta. rewrite Forall_forall in Hs. specialize (Hs f Hf). unfold safe_names in Hs.
  apply andb_true_iff in Hs as [Hrel Hblob]. pose proof (NewPaths_at hub id t Hh) as Hp.
  destruct (blob_path_at _ _ Hp f Hblob) as [-> Hok]. split; [by apply abs_segs_render|].
  intros Hcok. destruct (link_path_at _ _ Hp commit f Hcok Hrel) as [-> Hlok].
  exists (split_on ch_slash (mf_Path f)). split_and!; [apply split_on_nonempty|by apply SafeRelPath_spec in Hrel as [? _]|].
  rewrite abs_segs_render by done. unfold link_segs, snap_segs. by rewrite <- app_assoc.
Qed.
End client.

(** ** Both sides *)
Section protocol.
Context {MF : Multiformats} {MFL : MultiformatsLaws} {IP : Ipld} {BS : Blockstore} {FM : FileManager} {FS : Filestore}
  {DS : Datastore} {BA : Batching} {DL : DatastoreLaws} {BAL : BatchingLaws} {K : Keys} {N : Network}.
Implicit Types (m : gmap string Entry) (e : Entry) (commit : string) (resp : MapResponse).

Lemma commit_seg_ok commit d : FromCommit commit = Ok d → seg_ok commit.
Proof. intros ([Hl _] & raw & _ & Hd & _)%FromCommit_ok_inv. apply (hex_seg_ok _ _ Hd). by intros ->. Qed.

(** The answer of a node with the table [m]. *)
Definition entry_response commit e : MapResponse :=
  mk_MapResponse true "" commit (en_RepoID e) (en_RepoType e) (en_ActualCID e) (en_DummyCID e) (en_TotalSize e) (en_Files e).
Definition answers (cfg : Config) m (s : stream) commit resp : Prop :=
  is_ok (FromCommit commit) = true ∧ (relayed s && negb (RelayBulk cfg)) = false ∧
  ∃ e, m !! commit = Some e ∧ resp = entry_response commit e.

Lemma map_answer_run cfg m req sv :
  represents (nd_map (ss_node sv)) m →
  ∃ resp, map_answer cfg req sv = (Ok resp, sv) ∧ MapResponse_ok resp ∧ published_response resp = resp ∧
    (rs_OK resp = true → answers cfg m (ss_stream sv) (rq_CommitHash req) resp) ∧
    (∀ r, answers cfg m (ss_stream sv) (rq_CommitHash req) r → resp = r).
Proof.
  intros Hm. unfold map_answer. cbv zeta. unfold answers.
  destruct (FromCommit (rq_CommitHash req)) as [d|] eqn:Ed.
  2:{ eexists. split; [reflexivity|]. split_and!; [by split|done|done|by intros r []]. }
  rewrite bind_gets_run. destruct (relayed (ss_stream sv) && negb (RelayBulk cfg)) eqn:Er.
  { eexists. split; [reflexivity|]. split_and!; [by split|done|done|by intros r (_ & ? & _)]. }
  apply commit_seg_ok in Ed. pose proof (Get_run _ _ _ Hm Ed) as Hg.
  assert (in_node (on_map (DB.Get (rq_CommitHash req))) sv = (Ok (m !! rq_CommitHash req), sv)) as Hn.
  { unfold in_node, on_map, m_zoom. rewrite Hg. by destruct sv as [[] ?]. }
  rewrite (bind_try_run _ _ _ _ _ Hn). destruct (m !! rq_CommitHash req) as [e|] eqn:Ee.
  - destruct Hm as (_ & _ & Hm). destruct (Hm _ _ Ee) as (_ & (Hf & Ht & _) & Hp).
    eexists. split; [reflexivity|]. split_and!; [by split| |by eauto 6|by intros r (_ & _ & e' & [= <-] & ->)].
    unfold published_response. cbn. f_equal. by apply (f_equal en_Files) in Hp.
  - eexists. split; [reflexivity|]. split_and!; [by split|done|done|by intros r (_ & _ & e' & ? & _)].
Qed.

Lemma handleMap_run cfg m req rest sv :
  represents (nd_map (ss_node sv)) m → writable sv → (slen (print (MapRequest_json req)) ≤ MaxFrame)%Z →
  input_is sv (frame (print (MapRequest_json req)) +:+ rest) →
  ∃ resp sv', handleMap cfg sv = (Ok tt, sv') ∧ ss_node sv' = ss_node sv ∧
    ws_out (st_out (ss_stream sv')) = ws_out (st_out (ss_stream sv)) +:+
      (if decide (slen (print (MapResponse_json resp)) ≤ MaxFrame)%Z then frame (print (MapResponse_json resp)) else "") ∧
    MapResponse_ok resp ∧ published_response resp = resp ∧
    (rs_OK resp = true → answers cfg m (ss_stream sv) (rq_CommitHash req) resp) ∧
    (∀ r, answers cfg m (ss_stream sv) (rq_CommitHash req) r → resp = r).
Proof.
  destruct sv as [n [[i ie] [o fl] lim rst cl]]. unfold input_is, writable.
  cbn [ss_node ss_stream st_out st_in ws_faults ws_out rs_in]. intros Hm -> Hl ->.
  set (sv1 := mk_sess n (mk_stream (mk_rstate rest ie) (mk_wstate o []) lim rst cl)).
  destruct (map_answer_run cfg m req sv1 Hm) as (resp & Ha & Hrest). exists resp. unfold handleMap.
  assert (in_stream (stream_read (ReadJSON dec_MapRequest zero_MapRequest))
    (mk_sess n (mk_stream (mk_rstate (frame (print (MapRequest_json req)) +:+ rest) ie) (mk_wstate o []) lim rst cl))
    = (Ok req, sv1)) as Hr.
  { unfold in_stream, stream_read, m_zoom. cbn [ss_stream st_in].
    rewrite ReadJSON_frame by (done || apply plain_MapRequest). by rewrite dec_MapRequest_json. }
  rewrite (bind_try_run _ _ _ _ _ Hr).
  match goal with |- ∃ _, mbind _ ?body ?s = _ ∧ _ => assert (∃ sv2, body s = (Ok tt, sv2) ∧
    ss_node sv2 = n ∧ ws_out (st_out (ss_stream sv2)) = o +:+
      (if decide (slen (print (MapResponse_json resp)) ≤ MaxFrame)%Z then frame (print (MapResponse_json resp)) else ""))
    as (sv2 & E2 & Hn2 & Ho2) end.
  { rewrite (bind_run_ok _ _ _ _ _ Ha).
    unfold m_ignore, in_stream, stream_write, m_zoom, WriteJSON, sv1. cbn [ss_stream st_out].
    case_decide as Hf.
    - rewrite WriteFrame_run by done. eexists. split; [reflexivity|]. done.
    - unfold WriteFrame. rewrite decide_True by lia. eexists. split; [reflexivity|]. by rewrite sapp_nil_r. }
  rewrite (bind_run_ok _ _ _ _ _ E2). eexists. split; [reflexivity|]. cbn. done.
Qed.
Lemma exchange_run repoID commit resp rest s :
  ws_faults (st_out s) = [] → (slen (print (MapRequest_json (mk_MapRequest commit repoID))) ≤ MaxFrame)%Z →
  MapResponse_ok resp → (slen (print (MapResponse_json resp)) ≤ MaxFrame)%Z →
  rs_in (st_in s) = frame (print (MapResponse_json resp)) +:+ rest →
  (exchange repoID commit s).1 =
    match check_response commit (published_response resp) with
    | Ok a => Ok (a, published_response resp) | Err e => Err e end.
Proof.
  destruct s as [[i ie] [o fl] lim rst cl]. cbn [st_out st_in ws_faults rs_in]. intros -> Hl Hok Hf ->. unfold exchange.
  erewrite bind_wrap_run by by unfold stream_write, m_zoom, WriteJSON; cbn [st_out]; rewrite WriteFrame_run.
  cbv beta iota. erewrite bind_wrap_run
    by by unfold stream_read, m_zoom; cbn [st_in]; rewrite ReadJSON_frame by (done || apply plain_MapResponse).
  rewrite dec_MapResponse_json by done. cbn [wrap_result]. rewrite bind_lift_run. by destruct (check_response _ _).
Qed.
Lemma exchange_silence repoID commit s : rs_in (st_in s) = "" → is_ok (exchange repoID commit s).1 = false.
Proof.
  destruct s as [[i ie] o lim rst cl]. cbn. intros ->. unfold exchange.
  destruct (m_wrap "send map request" (stream_write (WriteJSON (MapRequest_json (mk_MapRequest commit repoID))))
    (mk_stream (mk_rstate "" ie) o lim rst cl)) as [[[]|e] s1] eqn:E1; [|by rewrite (bind_run_err _ _ _ _ _ E1)].
  rewrite (bind_run_ok _ _ _ _ _ E1).
  assert (st_in s1 = mk_rstate "" ie) as Hin.
  { unfold m_wrap, stream_write, m_zoom in E1. cbn [st_out] in E1.
    destruct (WriteJSON (MapRequest_json (mk_MapRequest commit repoID)) o). by injection E1 as _ <-. }
  destruct (ReadJSON_empty dec_MapResponse zero_MapResponse ie) as (e' & r' & He).
  erewrite bind_wrap_run by by unfold stream_read, m_zoom; rewrite Hin, He. done.
Qed.

(** C29. The two ends of the map protocol agree: when the seeder reads what the
    client sends and the client what the seeder answers, the exchange succeeds
    exactly when the seeder's table has the commit, the commit is well formed,
    the connection may carry bulk data, the answer fits a frame and stands up to
    the client's checks; the client then holds the table's entry, and the
    seeder is unchanged. *)
Theorem exchange_with_handleMap cfg m repoID commit sv s actual resp :
  represents (nd_map (ss_node sv)) m → writable sv → ws_faults (st_out s) = [] →
  (slen (print (MapRequest_json (mk_MapRequest commit repoID))) ≤ MaxFrame)%Z →
  input_is sv (frame (print (MapRequest_json (mk_MapRequest commit repoID)))) →
  ws_out (st_out (ss_stream sv)) = "" →
  rs_in (st_in s) = ws_out (st_out (ss_stream (handleMap cfg sv).2)) →
  ss_node (handleMap cfg sv).2 = ss_node sv ∧
  ((exchange repoID commit s).1 = Ok (actual, resp) ↔
   answers cfg m (ss_stream sv) commit resp ∧ (slen (print (MapResponse_json resp)) ≤ MaxFrame)%Z ∧
   vetted commit actual resp).
Proof.
  intros Hm Hw Hws Hl Hin Ho Hs.
  destruct (handleMap_run cfg m (mk_MapRequest commit repoID) "" sv) as (r & sv' & E & Hn & Hout & Hok & Hp & Hans & Huniq);
    [done..|by rewrite sapp_nil_r|]. cbn [rq_CommitHash] in *. rewrite E in Hs |- *. cbn [snd] in *.
  split; [done|]. rewrite Hout, Ho, sapp_nil_l in Hs. case_decide as Hf.
  - assert (rs_in (st_in s) = frame (print (MapResponse_json r)) +:+ "") as Hs' by by rewrite sapp_nil_r.
    rewrite (exchange_run repoID commit r "" s Hws Hl Hok Hf Hs'), Hp. clear -Hans Huniq Hf. split.
    + destruct (check_response commit r) as [a|e] eqn:Ec; [|done]. intros [= -> ->].
      apply check_response_vetted in Ec. split_and!; [|done..]. apply Hans, Ec.
    + intros (Ha & _ & Hv). rewrite (Huniq _ Ha). apply check_response_vetted in Hv. by rewrite Hv.
  - pose proof (exchange_silence repoID commit s Hs) as Hsil. split; [by intros Er; rewrite Er in Hsil|].
    intros (Ha & Hlen & _). apply Huniq in Ha as ->. done.
Qed.
End protocol.

(** ** A concrete exchange *)
Module ToyExchange.
Import ToyNode.
Definition entry1 : Entry :=
  mk_Entry "org/m" "model" commit (cid_string root) "" [mk_FileManifest "a/f" "b" 4 "ab" 420 0 false "" ""] 4
    "2024-02-29T12:00:00Z" "ingest".
Definition table1 : gmap string Entry := {[ commit := entry1 ]}.
Definition seeder : node :=
  mk_node ({[ BucketMap := (λ e, print (entry_json e)) <$> table1 ]} : buckets) (nd_bs node0) (nd_fm node0) (nd_os node0) (nd_net node0).
Definition served : sess :=
  mk_sess seeder (stream_of (frame (print (MapRequest_json (mk_MapRequest commit "org/m"))))).
Definition answer : string := ws_out (st_out (ss_stream (handleMap cfg0 served).2)).
(* A node whose only peer gives that answer. *)
Definition puller : node :=
  mk_node (nd_map node0) (nd_bs node0) (nd_fm node0) (nd_os node0) (ToyNet.mk_net ∅ [stream_of answer] []).
Definition peer1 : AddrInfo (K := ToyKeys.keys) maddr := mk_AddrInfo (K := ToyKeys.keys) "seeder" ["/seeder"].

Lemma represents_seeder : represents (nd_map seeder) table1.
Proof.
  split; [exact I|]. split; [reflexivity|]. intros c e. unfold table1. intros [<- <-]%lookup_singleton_Some.
  split; [done|]. split; [|done]. split; [|done]. constructor; [|constructor]. done.
Defined.
End ToyExchange.

Section witnesses.
Import ToyNode ToyExchange.

Lemma mapExchange_vets_witness :
  let resp := entry_response commit entry1 in
  abs_segs (BlobPath (NewPaths "/hub" "org/m" Model) "b") = ["hub"; "models--org--m"; "blobs"; "b"] ∧
  rs_Files resp = en_Files entry1.
Proof.
  cbv zeta. assert ((mapExchange peer1 "org/m" commit puller).1 = Ok (root, entry_response commit entry1)) as H
    by (vm_compute; reflexivity).
  destruct (mapExchange_vets peer1 "org/m" commit puller root (entry_response commit entry1)
    (mapExchange peer1 "org/m" commit puller).2 "/hub" "org/m" Model) as (_ & _ & _ & _ & _ & Hf);
    [rewrite <- H; apply surjective_pairing|reflexivity|].
  split; [|reflexivity].
  exact (proj1 (Hf (mk_FileManifest "a/f" "b" 4 "ab" 420 0 false "" "") (list_elem_of_here _ _))).
Defined.

Lemma exchange_with_handleMap_witness :
  (exchange "org/m" commit (stream_of answer)).1 = Ok (root, entry_response commit entry1).
Proof.
  apply (exchange_with_handleMap (BAL := ToyDB.batching_laws) cfg0 table1 "org/m" commit served (stream_of answer) root
    (entry_response commit entry1) represents_seeder);
    [reflexivity|reflexivity|apply Z.leb_le; vm_compute; reflexivity|reflexivity|reflexivity|reflexivity|].
  split; [|split].
  - split; [vm_compute; reflexivity|]. split; [reflexivity|]. exists entry1. split; [vm_compute; reflexivity|reflexivity].
  - apply Z.leb_le. vm_compute. reflexivity.
  - apply check_response_vetted. vm_compute. reflexivity.
Defined.
End witnesses.
