(* ===== verification/Materialise.v ===== *)
(** * internal/pull: all the files of a manifest.

    [reconstruct_files] materialises one file after the other.  The blob
    directory starts without symbolic links and never gets one; with that, each
    file's blob is still what its manifest says when the last file is done. *)
From stdpp Require Import gmap.
From S2P Require Import Prelude GoStrings Json GoPath GoFS Protoio Lib Store Mapping Wire Hfcache Tree.
From S2P Require Import Config Identity Net Node Blocks Reconstruct.

(** ** No links *)
Definition linkless (d : fpath) (fs : gmap fpath fnode) : Prop := ∀ w, no_link fs (d ++ [w]).
Definition is_link (n : fnode) : bool := match n with FLink _ => true | _ => false end.

Lemma linkless_lookup d fs w t : linkless d fs → fs !! (d ++ [w]) ≠ Some (FLink t).
Proof. intros H. specialize (H w t). by rewrite fs_get_lookup in H by by destruct d. Qed.
Lemma linkless_insert d fs q n : is_link n = false → linkless d fs → linkless d (<[q := n]> fs).
Proof.
  intros Hn H w t. rewrite fs_get_lookup by by destruct d.
  intros [[_ ->]|[_ E]]%lookup_insert_Some; [done|]. by eapply linkless_lookup.
Qed.
Lemma linkless_delete d fs q : linkless d fs → linkless d (delete q fs).
Proof.
  intros H w t. rewrite fs_get_lookup by by destruct d. intros [_ E]%lookup_delete_Some. by eapply linkless_lookup.
Qed.

Section linkless.
Context (d : fpath).
(** The supply of suffixes and the blob directory stay as they should be. *)
Definition clean_dir (s s' : osst) : Prop :=
  rand_ok s ∧ linkless d (os_fs s) → rand_ok s' ∧ linkless d (os_fs s').
#[export] Instance clean_dir_preorder : PreOrder clean_dir.
Proof. split; [intros s; unfold clean_dir; tauto|]. intros a b c H1 H2 H. by apply H2, H1. Qed.

Lemma clean_same s s' : os_fs s' = os_fs s → os_rand s' = os_rand s → clean_dir s s'.
Proof. unfold clean_dir, rand_ok. by intros -> ->. Qed.
Lemma clean_query {A} (f : gmap fpath fnode → result A) : pres clean_dir (os_query f).
Proof.
  intros s. destruct (os_query f s) as [r s'] eqn:E. apply os_query_cases in E as [-> _]. by apply clean_same.
Qed.
Lemma clean_close : pres clean_dir os_close.
Proof. intros s. unfold os_close. destruct (os_tick_cases s) as [[_ ->]|[_ ->]]; by apply clean_same. Qed.
Lemma clean_update (f : osst → result (gmap fpath fnode)) :
  (∀ s fs, f s = Ok fs → linkless d (os_fs s) → linkless d fs) → pres clean_dir (os_update f).
Proof.
  intros Hf s. destruct (os_update f s) as [r s'] eqn:E.
  apply os_update_cases in E as [(-> & E & Es)|(e & -> & ->)]; [|by apply clean_same].
  intros [Hr Hl]. cbn [snd]. split; [by rewrite Es|]. eapply Hf; [exact E|done].
Qed.
Lemma create_linkless fs q n fs' : is_link n = false → fs_create fs q n = Ok fs' → linkless d fs → linkless d fs'.
Proof. intros Hn (-> & _)%fs_create_ok. by apply linkless_insert. Qed.
Lemma clean_mkdir p perm : pres clean_dir (os_mkdir_all p perm).
Proof.
  apply pres_foreach; [apply _|]. intros q. apply clean_update. intros s fs. cbv zeta.
  destruct (fs_follow max_links (os_fs s) q) as [r|]; [|done]. cbn [mbind result_bind].
  destruct (fs_get (os_fs s) r) as [[| |]|]; [done|by intros [= <-]|done|].
  case_decide; [|done]. intros [= <-]. by apply linkless_insert.
Qed.
Lemma clean_create p perm : pres clean_dir (os_create_trunc p perm).
Proof.
  apply clean_update. intros s fs. destruct (fs_follow max_links (os_fs s) (abs_segs p)) as [q|]; [|done].
  cbn [mbind result_bind]. destruct (fs_get (os_fs s) q) as [[| |]|];
    [intros [= <-]; by apply linkless_insert|done|by apply create_linkless..].
Qed.
Lemma clean_append p data : pres clean_dir (os_append p data).
Proof.
  apply clean_update. intros s fs. destruct (fs_follow max_links (os_fs s) (abs_segs p)) as [q|]; [|done].
  cbn [mbind result_bind]. destruct (fs_lookup (os_fs s) q) as [[| |]|]; try done. cbn [mbind result_bind].
  intros [= <-]. by apply linkless_insert.
Qed.
Lemma clean_chmod p perm : pres clean_dir (os_chmod p perm).
Proof.
  apply clean_update. intros s fs. destruct (fs_follow max_links (os_fs s) (abs_segs p)) as [q|]; [|done].
  cbn [mbind result_bind]. destruct (fs_lookup (os_fs s) q) as [[| |]|]; try done; cbn [mbind result_bind];
    intros [= <-]; [by apply linkless_insert..|done].
Qed.
Lemma clean_remove p : pres clean_dir (os_remove p).
Proof. apply clean_update. intros s fs ->%fs_remove_ok. apply linkless_delete. Qed.
Lemma clean_rename a b w : abs_segs a = d ++ [w] → pres clean_dir (os_rename a b).
Proof.
  intros Ha. apply clean_update. intros s fs (n & Hn & _ & _ & ->)%fs_rename_ok Hl.
  apply linkless_insert; [|by apply linkless_delete]. destruct n as [| |t]; [done..|].
  rewrite Ha in Hn. by apply Hl in Hn.
Qed.
End linkless.

Section files.
Context {MF : Multiformats} {IP : Ipld} {BS : Blockstore} {FM : FileManager} {FS : Filestore}
  {DS : Datastore} {BA : Batching} {K : Keys} {N : Network} {HS : Hashes}.
Context (d : fpath).
Implicit Types (s : xfer) (f : FileManifest).

Definition clean_x s s' : Prop := clean_dir d (xos s) (xos s').
#[export] Instance clean_x_preorder : PreOrder clean_x.
Proof. unfold clean_x. split; [intros s; reflexivity|intros a b c; apply transitivity]. Qed.
Lemma clean_same_os {A} (m : M xfer A) : pres same_os m → pres clean_x m.
Proof. intros H s. unfold clean_x. rewrite (H s). reflexivity. Qed.
Lemma clean_on_os {A} (m : M osst A) : pres (clean_dir d) m → pres clean_x (on_os m).
Proof. apply (on_os_pres (clean_dir d)). Qed.
Lemma clean_progress total msg : pres clean_x (progress total msg).
Proof. apply clean_same_os, same_progress. Qed.
Lemma clean_count k : pres clean_x (count_bytes k).
Proof. apply clean_same_os, same_count. Qed.
Lemma clean_Fetch cs : pres clean_x (on_sess (Fetch cs)).
Proof. apply clean_same_os, same_on_sess, kept_weaken, kept_Fetch. Qed.

Lemma clean_rollback tmp path cs cause : pres clean_x (rollback tmp path cs cause).
Proof.
  unfold rollback. repeat (apply pres_bind; [apply _| |intros _]); [..|apply pres_fail, _].
  - apply pres_ignore, clean_on_os, clean_close.
  - apply pres_ignore, clean_on_os, clean_remove.
  - apply pres_foreach; [apply _|]. intros c. apply pres_ignore, clean_same_os, same_stores_op.
Qed.
Lemma clean_store_chunks hub tmp path l a : pres clean_x (store_chunks hub tmp path l a).
Proof.
  revert a. induction l as [|[c [data|]] l IH]; intros a; cbn [store_chunks]; try apply pres_ret, _.
  destruct (new_block_with_cid data c); [|apply pres_ret, _].
  apply pres_bind; [apply _|apply pres_try, clean_on_os, clean_append|]. intros [_|e]; [|apply pres_ret, _].
  apply pres_bind; [apply _|apply pres_try, clean_same_os, same_register|]. intros [_|e]; [|apply pres_ret, _].
  apply pres_bind; [apply _|apply clean_count|]. intros _. apply IH.
Qed.
Lemma clean_store_batches hub tmp path fp total (n : nat) bs a :
  pres clean_x (store_batches hub tmp path fp total n bs a).
Proof.
  revert a. induction bs as [|b bs IH]; intros a; cbn [store_batches]; [apply pres_ret, _|].
  apply pres_bind; [apply _|apply pres_try, clean_Fetch|]. intros [datas|e]; [|apply pres_ret, _].
  apply pres_bind; [apply _|apply clean_store_chunks|]. intros [a' [[]|e]]; cbn [fst snd]; [|apply pres_ret, _].
  apply pres_bind; [apply _|apply clean_progress|]. intros _. apply IH.
Qed.
Lemma clean_place_blob tmp path perm f a w :
  abs_segs tmp = d ++ [w] → pres clean_x (place_blob tmp path perm f a).
Proof.
  intros Ht. unfold place_blob. cbv zeta.
  assert (∀ e, pres clean_x (rollback tmp (mf_Path f) (ac_registered a) e)) as Hback by (intros; apply clean_rollback).
  apply pres_bind; [apply _|apply pres_try, clean_on_os, clean_close|]. intros [_|e]; [|done].
  case_decide; [done|]. case_decide; [done|].
  apply pres_bind; [apply _|by eapply pres_try, clean_on_os, clean_rename|]. intros [_|e]; [|done].
  apply pres_bind; [apply _|apply pres_try, clean_on_os, clean_chmod|]. intros [_|e]; [apply pres_ret, _|done].
Qed.

Section one.
Context (w : string) (Hok : Forall seg_ok (d ++ [w])).

Lemma clean_transfer hub perm total f leaves : pres clean_x (transfer hub (blob_path d w) perm total f leaves).
Proof.
  intros s. unfold clean_x, clean_dir. intros [Hr Hl]. unfold transfer.
  destruct (on_os randSuffix s) as [r1 s1] eqn:E1.
  assert (∃ x, r1 = Ok x ∧ contains_char ch_slash x = false ∧ tree s1 = tree s ∧ rand_ok (xos s1)) as (x & -> & Hx & T1 & R1).
  { rewrite on_os_run in E1. injection E1 as <- <-. unfold randSuffix, os_random, rand_ok in *. unfold tree.
    change (xos (with_os s ?o)) with o. destruct (os_rand (xos s)) as [|y l] eqn:Es.
    { exists "0". split_and!; [done..|]. cbn [snd]. by rewrite Es. }
    apply Forall_cons_1 in Hr as [Hy Hr]. by exists y. }
  rewrite (bind_run_ok _ _ _ _ _ E1). cbv zeta. fold (part_path d w x).
  match goal with |- rand_ok (xos (?m s1).2) ∧ _ => assert (pres clean_x m) as Hp end.
  2:{ apply (Hp s1). split; [done|]. fold (tree s1). by rewrite T1. }
  apply pres_bind; [apply _|apply clean_on_os, clean_create|]. intros _.
  apply pres_bind; [apply _|apply clean_store_batches|]. intros [a [[]|e]]; cbn [fst snd]; [|apply clean_rollback].
  eapply clean_place_blob. by rewrite part_abs.
Qed.
Lemma clean_empty perm total f c : pres clean_x (reconstruct_empty (blob_path d w) perm total f c).
Proof.
  unfold reconstruct_empty. apply pres_bind; [apply _|apply pres_wrap, clean_on_os, clean_create|]. intros _.
  apply pres_bind; [apply _|apply pres_wrap, clean_on_os, clean_close|]. intros _.
  apply pres_bind; [apply _|apply pres_wrap, clean_Fetch|]. intros [|[data|] [|]]; try apply pres_fail, _.
  apply pres_bind; [apply _|apply pres_lift, _|]. intros _. case_decide; [apply pres_fail, _|].
  apply pres_bind; [apply _| |intros _].
  { apply pres_wrap. intros s. unfold clean_x, on_node, on_sess, in_node, m_zoom, xos. simpl.
    destruct (bs_put (nd_bs (ss_node (xf_sess s))) c data). reflexivity. }
  apply pres_bind; [apply _|apply clean_count|]. intros _. apply clean_progress.
Qed.
Lemma clean_cached f : pres clean_x (cached (blob_path d w) f).
Proof.
  unfold cached. apply pres_bind; [apply _|apply pres_try, clean_on_os, clean_query|]. intros [info|e]; [|apply pres_ret, _].
  case_decide; [|apply pres_ret, _]. apply pres_bind; [apply _| |intros; apply pres_ret, _].
  apply pres_try, clean_on_os. unfold Reconstruct.hashFile.
  apply pres_bind; [apply _|apply clean_query|]. intros. apply pres_ret, _.
Qed.
End one.
End files.

Section manifest.
Context {MF : Multiformats} {IP : Ipld} {BS : Blockstore} {FM : FileManager} {FS : Filestore}
  {DS : Datastore} {BA : Batching} {K : Keys} {N : Network} {HS : Hashes}.
Context (p : Paths) (base : fpath) (Hp : cache_at p base).
Implicit Types (s : xfer) (f g : FileManifest) (files : list FileManifest).
#[local] Abbreviation d := (blobs_dir base).

Lemma clean_reconstructFile fuel hub total f c :
  SafeBlobName (mf_BlobName f) = true → pres (clean_x d) (reconstructFile fuel hub p total f c).
Proof.
  intros [Hn _]%SafeBlobName_spec. pose proof (blobs_dir_ok p base Hp _ Hn) as Hok. unfold reconstructFile.
  case_decide; [apply pres_fail, _|]. cbv zeta. rewrite (BlobPath_at p base Hp _ Hn).
  apply pres_bind; [apply _|by apply clean_cached|]. intros [].
  { apply pres_bind; [apply _|apply clean_count|]. intros _. apply clean_progress. }
  apply pres_bind; [apply _|apply clean_on_os, clean_mkdir|]. intros _.
  case_decide; [by apply clean_empty|].
  apply pres_bind; [apply _|apply pres_wrap, clean_same_os, same_on_sess, kept_collectLeaves|].
  intros [[|]|]; try apply pres_fail, _. by apply clean_transfer.
Qed.
Lemma clean_reconstruct_files fuel hub total actual files :
  Forall (λ f, SafeBlobName (mf_BlobName f) = true) files →
  pres (clean_x d) (reconstruct_files fuel hub p total actual files).
Proof.
  induction 1 as [|f files Hf _ IH]; cbn [reconstruct_files]; [apply pres_ret, _|].
  apply pres_bind; [apply _|apply pres_wrap, clean_same_os, same_on_sess, kept_findNode|]. intros c.
  apply pres_bind; [apply _|by apply clean_reconstructFile|]. intros _. exact IH.
Qed.

(** The blob of [f] is there in full. *)
Definition good f (fs : gmap fpath fnode) : Prop :=
  ∃ m, fs !! blob_segs' d (mf_BlobName f) = Some (FFile m) ∧ slen (reg_data m) = mf_Size f ∧
       (mf_Size f ≠ 0%Z → hex_encode (sha256_sum (reg_data m)) = mf_SHA256 f).
(** No two files want different bytes under one name, and no blob is called
    like the temporary file of another. *)
Definition coherent files : Prop :=
  ∀ f g, f ∈ files → g ∈ files →
    (mf_BlobName g = mf_BlobName f → mf_Size g = mf_Size f ∧ mf_SHA256 g = mf_SHA256 f) ∧
    ∀ x, mf_BlobName g ≠ mf_BlobName f +:+ ".part-" +:+ x.

Lemma linkless_read fs w content :
  Forall seg_ok (d ++ [w]) → linkless d fs → fs_read_file fs (blob_path d w) = Ok content →
  ∃ m, fs !! blob_segs' d w = Some (FFile m) ∧ reg_data m = content.
Proof.
  intros Hok Hl. unfold fs_read_file. rewrite (blob_abs d w Hok).
  assert (no_link fs (blob_segs' d w)) as Hn by apply Hl.
  assert (fs_follow max_links fs (blob_segs' d w) = Ok (blob_segs' d w)) as ->.
  { unfold max_links. cbn [fs_follow]. destruct (fs_get fs (blob_segs' d w)) as [[| |t]|] eqn:E; try done.
    by apply Hn in E. }
  cbn [mbind result_bind]. unfold fs_lookup. rewrite fs_get_lookup by by unfold blob_segs', blobs_dir; destruct base.
  destruct (fs !! blob_segs' d w) as [[m| |]|]; try done. intros [= <-]. by exists m.
Qed.
Lemma empty_run perm total f c s s' :
  Forall seg_ok (d ++ [mf_BlobName f]) → linkless d (tree s) →
  reconstruct_empty (blob_path d (mf_BlobName f)) perm total f c s = (Ok tt, s') →
  (∀ q, q ≠ blob_segs' d (mf_BlobName f) → tree s' !! q = tree s !! q) ∧
  ∃ m, tree s' !! blob_segs' d (mf_BlobName f) = Some (FFile m) ∧ reg_data m = "".
Proof.
  intros Hok Hl H. assert ((on_os (os_create_trunc (blob_path d (mf_BlobName f)) perm) s).1 = Ok tt) as H1.
  { unfold reconstruct_empty in H. apply bind_ok_inv in H as ([] & s1 & H & _). unfold m_wrap in H.
    by destruct (on_os _ s) as [[[]|] ?]. }
  destruct (empty_tree d (mf_BlobName f) Hok perm total f c s (Ok tt) s' (Hl _) H1 H) as [m ->]. split.
  - intros q Hq. by rewrite lookup_insert_ne.
  - rewrite lookup_insert_eq. by eexists.
Qed.

Lemma good_keep f g s s' :
  blob_frame d (mf_BlobName f) s s' → good f (tree s') → good g (tree s) → coherent [f; g] → good g (tree s').
Proof.
  intros (x & _ & Hf) Hgf (m & Hm & Hs & Hh) Hc.
  assert (f ∈ [f; g] ∧ g ∈ [f; g]) as [H1 H2] by set_solver.
  destruct (Hc f g H1 H2) as [Heq Hne]. destruct (decide (mf_BlobName g = mf_BlobName f)) as [E|E].
  - destruct (Heq E) as [Es Eh]. destruct Hgf as (m' & Hm' & Hs' & Hh'). exists m'. by rewrite E, Es, Eh.
  - exists m. split; [|done]. destruct (Hf (blob_segs' d (mf_BlobName g))) as [->|[Hnone _]]; [|done|congruence].
    intros [[_ [= ?]]%app_inj_tail|[_ [= Hx]]%app_inj_tail]; [done|]. by apply (Hne x).
Qed.

Lemma reconstructFile_good fuel hub total f c s s' :
  SafeBlobName (mf_BlobName f) = true → rand_ok (xos s) → linkless d (tree s) →
  reconstructFile fuel hub p total f c s = (Ok tt, s') → blob_frame d (mf_BlobName f) s s' ∧ good f (tree s').
Proof.
  intros Hn Hr Hl H. pose proof Hn as [Hok _]%SafeBlobName_spec. apply (blobs_dir_ok p base Hp) in Hok as Hd.
  pose proof (clean_reconstructFile fuel hub total f c Hn s) as Hcl. rewrite H in Hcl.
  destruct (Hcl (conj Hr Hl)) as [_ Hl']. clear Hcl. fold (tree s') in Hl'.
  assert (∀ content s1, tree s1 = tree s' → fs_read_file (tree s1) (blob_path d (mf_BlobName f)) = Ok content →
    hex_encode (sha256_sum content) = mf_SHA256 f → slen content = mf_Size f → good f (tree s')) as Hread.
  { intros content s1 -> Hread Hsha Hlen.
    destruct (linkless_read _ _ content Hd Hl' Hread) as (m & Hm & <-). by exists m. }
  destruct (decide (mf_Size f = 0%Z)) as [Hz|Hz].
  2:{ destruct (reconstructFile_run p base Hp fuel hub total f c s (Ok tt) s' Hn Hz Hr ltac:(intros x; apply Hl) H)
        as (Hf & _ & Hread'). split; [done|]. destruct (Hread' eq_refl) as (content & Hc & Hsha & Hlen).
      rewrite (BlobPath_at p base Hp _ Hok) in Hc. by eapply Hread. }
  unfold reconstructFile in H. case_decide as Hsha; [done|]. cbv zeta in H.
  rewrite (BlobPath_at p base Hp _ Hok) in H.
  destruct (cached (blob_path d (mf_BlobName f)) f s) as [r1 s1] eqn:E1.
  destruct (cached_run d (mf_BlobName f) f _ _ _ E1) as (T1 & R1 & hit & -> & Hhit).
  rewrite (bind_run_ok _ _ _ _ _ E1) in H. destruct hit.
  { assert (tree s' = tree s) as T.
    { rewrite <- T1. unfold count_bytes, progress, emit, m_modify, mbind, M_bind in H. by injection H as <-. }
    split; [by eapply (same_tree_outcome d (mf_BlobName f) f)|].
    destruct (Hhit eq_refl) as (content & Hc & Hs & Hlen). by eapply Hread. }
  apply bind_ok_inv in H as ([] & s2 & E2 & H). rewrite decide_True in H by done.
  destruct (mkdir_blobs p base Hp _ _ _ _ Hok E2 (R1 Hr) ltac:(intros x; rewrite T1; apply Hl)) as (Fm & _ & _ & _).
  assert (linkless d (tree s2)) as Hl2.
  { pose proof (clean_on_os d _ (clean_mkdir d (Blobs p) 493) s1) as Hcl. rewrite E2 in Hcl. apply Hcl.
    split; [by apply R1|]. fold (tree s1). by rewrite T1. }
  apply empty_run in H as (F & m & Hm & Hd0); [|done..]. split.
  - exists "". split; [done|]. intros q Hq. rewrite F by naive_solver. rewrite T1 in Fm. apply Fm. naive_solver.
  - exists m. rewrite Hd0, Hz. done.
Qed.
Lemma reconstruct_files_good fuel hub total actual files s s' :
  Forall (λ f, SafeBlobName (mf_BlobName f) = true) files → coherent files → rand_ok (xos s) → linkless d (tree s) →
  reconstruct_files fuel hub p total actual files s = (Ok tt, s') → Forall (λ f, good f (tree s')) files.
Proof.
  assert (∀ before files s, Forall (λ f, SafeBlobName (mf_BlobName f) = true) files → coherent (before ++ files) →
    rand_ok (xos s) → linkless d (tree s) → Forall (λ f, good f (tree s)) before →
    reconstruct_files fuel hub p total actual files s = (Ok tt, s') → Forall (λ f, good f (tree s')) (before ++ files)) as Hgen;
    [|intros Hs Hc Hr Hl; by apply (Hgen [])].
  clear -Hp. intros before files. revert before. induction files as [|f files IH]; intros before s Hs Hc Hr Hl Hb H.
  { injection H as <-. by rewrite app_nil_r. }
  apply Forall_cons in Hs as [Hf Hs]. cbn [reconstruct_files] in H.
  apply bind_ok_inv in H as (c & s1 & E1 & H). apply bind_ok_inv in H as ([] & s2 & E2 & H).
  assert (xos s1 = xos s) as T1.
  { pose proof (same_on_sess (findNode actual (mf_Path f)) (kept_findNode _ _) s) as Hk.
    unfold m_wrap in E1. destruct (on_sess _ s) as [[c'|] s0]; [|done]. by injection E1 as _ <-. }
  assert (tree s1 = tree s) as T1' by by unfold tree; rewrite T1.
  pose proof (clean_reconstructFile fuel hub total f c Hf s1) as Hcl. rewrite E2 in Hcl.
  destruct Hcl as [Hr2 Hl2]; [rewrite T1; by split|]. fold (tree s2) in Hl2.
  apply reconstructFile_good in E2 as [Fr Hg]; [|done|by rewrite T1|by rewrite T1'].
  rewrite (cons_middle f before files), app_assoc in Hc |- *. apply (IH _ s2); try done.
  apply Forall_app. split; [|by constructor]. apply Forall_forall. intros g Hgin. rewrite Forall_forall in Hb.
  eapply good_keep; [exact Fr|done|rewrite T1'; by apply Hb|].
  intros a b Ha Hb'. apply Hc; set_solver.
Qed.
End manifest.

(** ** What a pull leaves alone in the node *)
Section untouched.
Context {MF : Multiformats} {IP : Ipld} {BS : Blockstore} {FM : FileManager} {FS : Filestore}
  {DS : Datastore} {BA : Batching} {K : Keys} {N : Network} {HS : Hashes}.
(** The mapping table and the network belong to others. *)
Definition others n n' : Prop := nd_map n' = nd_map n ∧ nd_net n' = nd_net n.
Definition others_s (s s' : sess) : Prop := others (ss_node s) (ss_node s').
Definition others_x (s s' : xfer) : Prop := others_s (xf_sess s) (xf_sess s').
#[local] Instance others_preorder : PreOrder others.
Proof. unfold others. split; [done|]. intros a b c [] []. split; congruence. Qed.
#[local] Instance others_s_preorder : PreOrder others_s.
Proof. unfold others_s. split; [intros s; reflexivity|intros a b c; apply transitivity]. Qed.
#[export] Instance others_x_preorder : PreOrder others_x.
Proof. unfold others_x. split; [intros s; reflexivity|intros a b c; apply transitivity]. Qed.

Lemma others_node {A} (m : M node A) : pres others m → pres others_s (in_node m).
Proof. apply pres_zoom. by intros. Qed.
Lemma others_sess {A} (m : M sess A) : pres others_s m → pres others_x (on_sess m).
Proof. apply pres_zoom. by intros. Qed.
Lemma others_stream {A} (m : M stream A) : pres others_s (in_stream m).
Proof. intros s. unfold in_stream, m_zoom. destruct (m (ss_stream s)). done. Qed.
Lemma others_files {A} (m : M osst A) : pres others (on_files m).
Proof. intros n. unfold on_files, m_zoom. by destruct (m (nd_os n)). Qed.
Lemma others_stores {A} (op : bstore → fman → result A * (bstore * fman)) : pres others (on_stores op).
Proof. intros n. unfold on_stores. by destruct (op (nd_bs n) (nd_fm n)) as [r []]. Qed.
Lemma others_Fstore c : pres others (Fstore_Get c).
Proof. by intros n. Qed.
Lemma others_register hub c data path off : pres others (RegisterFilestoreRef hub c data path off).
Proof. unfold RegisterFilestoreRef. case_decide; [apply pres_fail, _|apply others_stores]. Qed.

Lemma others_fetch_loop cs : pres others_s (fetch_loop cs).
Proof.
  induction cs as [|c cs IH]; cbn [fetch_loop]; [apply pres_ret, _|].
  apply pres_bind; [apply _|apply pres_wrap, others_stream|]. intros [|st data]; [apply pres_fail, _|].
  apply pres_bind; [apply _|done|]. intros. apply pres_ret, _.
Qed.
Lemma others_Fetch cs : pres others_s (Fetch cs).
Proof.
  unfold Fetch. destruct cs; [apply pres_ret, _|].
  apply pres_bind; [apply _|apply pres_wrap, others_stream|]. intros _. apply others_fetch_loop.
Qed.
Lemma others_ds_Get c : pres others_s (ds_Get c).
Proof.
  unfold ds_Get, rt_Get. apply pres_bind; [apply _| |intros; apply pres_bind; [apply _|apply pres_lift, _|intros; apply pres_ret, _]].
  apply pres_bind; [apply _|apply pres_try, others_node, others_Fstore|]. intros [data|e]; [apply pres_ret, _|].
  apply pres_bind; [apply _|apply others_Fetch|]. intros [|[data|] l]; [apply pres_fail, _| |apply pres_fail, _].
  apply pres_bind; [apply _|apply pres_lift, _|]. intros _. apply pres_bind; [apply _| |intros; apply pres_ret, _].
  case_decide; [apply pres_ignore, others_node, others_stores|apply pres_ret, _].
Qed.
Lemma others_collectLeaves fuel c out : pres others_s (collectLeaves fuel c out).
Proof.
  revert c out. induction fuel as [|fuel IH]; intros c out; cbn [collectLeaves]; [apply pres_ret, _|].
  case_decide; [case_decide; [apply pres_fail, _|apply pres_ret, _]|].
  apply pres_bind; [apply _|apply others_ds_Get|]. intros nd. revert out. generalize nd.2 as ls. clear nd.
  induction ls as [|l ls IHl]; intros out; cbn [over_links]; [apply pres_ret, _|].
  apply pres_bind; [apply _|apply IH|]. intros [out'|]; [apply IHl|apply pres_ret, _].
Qed.
Lemma others_findNode root rel : pres others_s (findNode root rel).
Proof.
  unfold findNode. generalize (split_on ch_slash (trim_slashes rel)) as parts. intros parts. revert root.
  induction parts as [|w parts IH]; intros c; cbn [find_parts]; [apply pres_ret, _|].
  apply pres_bind; [apply _|apply others_ds_Get|]. intros nd. apply pres_bind; [apply _|apply pres_lift, _|]. done.
Qed.

(** A relation that everything a transfer does keeps, is kept by the transfer. *)
Context (R : relation xfer) `{!PreOrder R}.
Context (HR_sess : ∀ A (m : M sess A), pres others_s m → pres R (on_sess m)).
Context (HR_emit : ∀ total msg, pres R (progress total msg)) (HR_count : ∀ k, pres R (count_bytes k)).
Lemma keeps_os {A} (m : M osst A) : pres R (on_os m).
Proof. apply HR_sess, others_node, others_files. Qed.
Lemma keeps_rollback tmp path cs cause : pres R (rollback tmp path cs cause).
Proof.
  unfold rollback. repeat (apply pres_bind; [apply _| |intros _]); [..|apply pres_fail, _].
  1,2: apply pres_ignore, keeps_os.
  apply pres_foreach; [apply _|]. intros. apply pres_ignore, HR_sess, others_node, others_stores.
Qed.
Lemma keeps_store_chunks hub tmp path l a : pres R (store_chunks hub tmp path l a).
Proof.
  revert a. induction l as [|[c [data|]] l IH]; intros a; cbn [store_chunks]; try apply pres_ret, _.
  destruct (new_block_with_cid data c); [|apply pres_ret, _].
  apply pres_bind; [apply _|apply pres_try, keeps_os|]. intros [_|e]; [|apply pres_ret, _].
  apply pres_bind; [apply _|apply pres_try, HR_sess, others_node, others_register|]. intros [_|e]; [|apply pres_ret, _].
  apply pres_bind; [apply _|apply HR_count|]. intros _. apply IH.
Qed.
Lemma keeps_store_batches hub tmp path fp total (n : nat) bs a :
  pres R (store_batches hub tmp path fp total n bs a).
Proof.
  revert a. induction bs as [|b bs IH]; intros a; cbn [store_batches]; [apply pres_ret, _|].
  apply pres_bind; [apply _|apply pres_try, HR_sess, others_Fetch|]. intros [datas|e]; [|apply pres_ret, _].
  apply pres_bind; [apply _|apply keeps_store_chunks|]. intros [a' [[]|e]]; cbn [fst snd]; [|apply pres_ret, _].
  apply pres_bind; [apply _|apply HR_emit|]. intros _. apply IH.
Qed.
Lemma keeps_reconstructFile fuel hub p total f c : pres R (reconstructFile fuel hub p total f c).
Proof.
  unfold reconstructFile. case_decide; [apply pres_fail, _|]. cbv zeta.
  apply pres_bind; [apply _| |intros []].
  { unfold cached. apply pres_bind; [apply _|apply pres_try, keeps_os|]. intros [|]; [|apply pres_ret, _].
    case_decide; [|apply pres_ret, _]. apply pres_bind; [apply _|apply pres_try, keeps_os|]. intros. apply pres_ret, _. }
  { apply pres_bind; [apply _|apply HR_count|]. intros _. apply HR_emit. }
  apply pres_bind; [apply _|apply keeps_os|]. intros _. case_decide.
  - unfold reconstruct_empty. do 2 (apply pres_bind; [apply _|apply pres_wrap, keeps_os|]; intros _).
    apply pres_bind; [apply _|apply pres_wrap, HR_sess, others_Fetch|]. intros [|[data|] [|]]; try apply pres_fail, _.
    apply pres_bind; [apply _|apply pres_lift, _|]. intros _. case_decide; [apply pres_fail, _|].
    apply pres_bind; [apply _| |intros _].
    { apply pres_wrap, HR_sess, others_node. intros n. by destruct (bs_put (nd_bs n) c data). }
    apply pres_bind; [apply _|apply HR_count|]. intros _. apply HR_emit.
  - apply pres_bind; [apply _|apply pres_wrap, HR_sess, others_collectLeaves|].
    intros [[|l ls]|]; try apply pres_fail, _. unfold transfer.
    apply pres_bind; [apply _|apply keeps_os|]. intros x. apply pres_bind; [apply _|apply keeps_os|]. intros _.
    apply pres_bind; [apply _|apply keeps_store_batches|]. intros [a [[]|e]]; cbn [fst snd]; [|apply keeps_rollback].
    assert (∀ e, pres R (rollback (BlobPath p (mf_BlobName f) +:+ ".part-" +:+ x) (mf_Path f) (ac_registered a) e))
      as Hback by (intros; apply keeps_rollback).
    unfold place_blob. apply pres_bind; [apply _|apply pres_try, keeps_os|]. intros [_|e]; [|done].
    case_decide; [done|]. case_decide; [done|].
    do 2 (apply pres_bind; [apply _|apply pres_try, keeps_os|]; intros [_|e]; [|done]). apply pres_ret, _.
Qed.
Lemma keeps_reconstruct_files fuel hub p total actual files :
  pres R (reconstruct_files fuel hub p total actual files).
Proof.
  induction files as [|f files IH]; cbn [reconstruct_files]; [apply pres_ret, _|].
  apply pres_bind; [apply _|apply pres_wrap, HR_sess, others_findNode|]. intros c.
  apply pres_bind; [apply _|apply keeps_reconstructFile|]. intros _. exact IH.
Qed.
End untouched.

Section others_kept.
Context {MF : Multiformats} {IP : Ipld} {BS : Blockstore} {FM : FileManager} {FS : Filestore}
  {DS : Datastore} {BA : Batching} {K : Keys} {N : Network} {HS : Hashes}.
Lemma others_reconstruct_files fuel hub p total actual files :
  pres others_x (reconstruct_files fuel hub p total actual files).
Proof. apply keeps_reconstruct_files; [apply _|intros A; apply others_sess|by intros ? ? ?|by intros ? ?]. Qed.
End others_kept.
