(* ===== verification/Pull.v ===== *)
(** * internal/pull: pulling a revision from peers.

    [pullFromPeers] asks one candidate after the other; the state a failed candidate leaves is
    where the next one starts.  What a peer sends is any stream, so the
    theorems hold against every set of peers.  Texts of errors inside messages
    are those of the modelled errors ([err_text]); cancellation and deadlines
    are errors of the streams. *)
From stdpp Require Import gmap.
From S2P Require Import Prelude GoStrings Json GoPath GoFS Protoio Lib Store Dummy Mapping Wire Hfcache Tree.
From S2P Require Import Config Identity Net Node Job Blocks Reconstruct Exchange Materialise Sources.

(** ** What is asked for *)
Section pull.
Context {MF : Multiformats} {IP : Ipld} {BS : Blockstore} {FM : FileManager} {FS : Filestore}
  {DS : Datastore} {BA : Batching} {K : Keys} {N : Network} {HS : Hashes}.

Record Options := mk_Options {
  RepoID : string; RepoType : RepoType; Commit : string; Ref : string;
  Peers : list string; Connect : list string; Force : bool; Sources : Sources; Token : string
}.

Definition shortPeer (p : peer_id) : string :=
  let s := peer_string p in if 10 <? String.length s then take_bytes 10 s else s.

(** ** One peer *)
Definition newBlockClient (p : peer_id) : M node stream :=
  m_wrap "open block stream" (on_net (host_new_stream p ProtocolBlockID)).
(** A transfer over the stream [s]: what it does to the node and the events,
    and how many bytes it counted. *)
Definition with_stream (m : M xfer unit) (s : stream) : M job Z := λ j,
  let '(r, x) := m (mk_xfer (mk_sess (jb_node j) s) 0 (jb_events j)) in
  (match r with Ok _ => Ok (xf_done x) | Err e => Err e end, mk_job (ss_node (xf_sess x)) (xf_events x)).
Definition reconstruct (fuel : nat) (hub : string) (paths : Paths) (p : AddrInfo maddr) (resp : MapResponse) : M job Z :=
  actual ← m_lift (cid_decode (rs_ActualCID resp));
  s ← on_jnode (newBlockClient (ai_ID p));
  with_stream
    (m_wrap "fetch root" (on_sess (ds_Get actual)) ;;
     reconstruct_files fuel hub paths (rs_TotalSize resp) actual (rs_Files resp)) s.

(** ** Steps B to E *)
(** Peers named by the caller are candidates; those that cannot be dialled are not. *)
Fixpoint dial_candidates (addrs : list string) : M job (list (AddrInfo maddr)) :=
  match addrs with
  | [] => mret []
  | a :: rest =>
      r ← m_try (on_jnode (Dial a));
      match r with
      | Err e => say ("warn: " +:+ err_text e) ;; dial_candidates rest
      | Ok pid => l ← dial_candidates rest; mret (mk_AddrInfo pid [] :: l)
      end
  end.
Definition dial_bootstrap (a : string) : M job unit :=
  r ← m_try (on_jnode (Dial a));
  match r with
  | Err e => say ("warn: connect " +:+ a +:+ ": " +:+ err_text e)
  | Ok _ => say ("joined the DHT via " +:+ a)
  end.
Definition routing_ticks (opts : Options) : nat :=
  match Peers opts, Connect opts with [], [] => 150 | _, _ => 30 end.
Definition find_candidates (self : peer_id) (commit : string) (opts : Options) : M job (list (AddrInfo maddr)) :=
  dialled ← dial_candidates (Peers opts);
  m_foreach dial_bootstrap (Connect opts) ;;
  size ← on_jnode (WaitForRoutingTable (routing_ticks opts));
  (if decide (size = 0%Z) then say "warn: DHT routing table still empty; provider lookup may come up empty"
   else mret tt) ;;
  r ← m_try (on_jnode (FindProvidersForCommit self commit 16));
  match r with
  | Err e => say ("warn: DHT lookup failed: " +:+ err_text e) ;; mret dialled
  | Ok found => mret (dialled ++ found)
  end.

(** What is recorded, announced and linked once the files are there. *)
Definition finish_pull (paths : Paths) (now commit ref : string) (opts : Options) (actual : cid) (resp : MapResponse)
    (done : Z) : M job unit :=
  m_wrap "record pulled mapping" (on_jnode (on_map (DB.Put {|
    en_RepoID := RepoID opts; en_RepoType := RepoType opts; en_CommitHash := commit;
    en_ActualCID := rs_ActualCID resp; en_DummyCID := rs_DummyCID resp; en_Files := rs_Files resp;
    en_TotalSize := rs_TotalSize resp; en_AddedAt := now; en_Origin := "pull" |}))) ;;
  r ← m_try (on_jnode (ProvideCommit commit actual));
  match r with
  | Err e => say ("warn: could not re-announce pulled commit: " +:+ err_text e)
  | Ok _ => mret tt
  end ;;
  m_wrap "step E (symlinking)" (on_jfiles (WriteSnapshot paths commit (rs_Files resp) ref)) ;;
  send "done" ("pulled " +:+ RepoID opts +:+ " @ " +:+ short commit +:+ " (" +:+ humanBytes done +:+ ") into " +:+ Hfcache.RepoDir paths).

Fixpoint try_candidates (fuel : nat) (hub : string) (paths : Paths) (now commit ref : string) (opts : Options)
    (candidates : list (AddrInfo maddr)) (lastErr : error) : M job unit :=
  match candidates with
  | [] => m_fail (ErrWrap "pull failed" lastErr)
  | p :: rest =>
      m ← m_try (on_jnode (mapExchange p (RepoID opts) commit));
      match m with
      | Err e =>
          say ("step C: " +:+ shortPeer (ai_ID p) +:+ " unusable: " +:+ err_text e) ;;
          try_candidates fuel hub paths now commit ref opts rest e
      | Ok (actual, resp) =>
          say ("step C: " +:+ shortPeer (ai_ID p) +:+ " -> " +:+ cid_string actual +:+ " ("
               +:+ dec_of_Z (Z.of_nat (length (rs_Files resp))) +:+ " files, " +:+ humanBytes (rs_TotalSize resp) +:+ ")") ;;
          t ← m_try (reconstruct fuel hub paths p resp);
          match t with
          | Err e =>
              say ("step D: " +:+ shortPeer (ai_ID p) +:+ " failed: " +:+ err_text e) ;;
              try_candidates fuel hub paths now commit ref opts rest e
          | Ok done => finish_pull paths now commit ref opts actual resp done
          end
      end
  end.

Definition pullFromPeers (fuel : nat) (self : peer_id) (hub : string) (paths : Paths) (now commit ref : string)
    (opts : Options) : M job unit :=
  candidates ← find_candidates self commit opts;
  match candidates with
  | [] => m_fail (errorf "step B: no peers found hosting the commit")
  | _ =>
      say ("step B: " +:+ dec_of_Z (Z.of_nat (length candidates)) +:+ " candidate provider(s)") ;;
      try_candidates fuel hub paths now commit ref opts candidates (errorf "")
  end.
End pull.

(** ** What a pull delivers *)
Section delivery.
Context {MF : Multiformats} {MFL : MultiformatsLaws} {IP : Ipld} {BS : Blockstore} {FM : FileManager} {FS : Filestore}
  {DS : Datastore} {BA : Batching} {DL : DatastoreLaws} {BAL : BatchingLaws} {K : Keys} {N : Network} {HS : Hashes}.
Implicit Types (j : job) (n : node) (opts : Options) (m : gmap string Entry) (resp : MapResponse).

Lemma local_find_candidates self commit opts : pres local_j (find_candidates self commit opts).
Proof.
  unfold find_candidates. apply pres_bind; [apply _| |intros dialled].
  { generalize (Peers opts) as l. induction l as [|a l IH]; cbn [dial_candidates]; [apply pres_ret, _|].
    apply pres_bind; [apply _|apply pres_try, local_jnode, local_Dial|]. intros [pid|e].
    - apply pres_bind; [apply _|exact IH|]. intros ?. apply pres_ret, _.
    - apply pres_bind; [apply _|apply local_send|]. intros _. exact IH. }
  apply pres_bind; [apply _| |intros _].
  { apply pres_foreach; [apply _|]. intros a. unfold dial_bootstrap.
    apply pres_bind; [apply _|apply pres_try, local_jnode, local_Dial|]. intros [|]; apply local_send. }
  apply pres_bind; [apply _|apply local_jnode, local_wait|]. intros size.
  apply pres_bind; [apply _|case_decide; [apply local_send|apply pres_ret, _]|]. intros _.
  apply pres_bind; [apply _| |intros [found|e]].
  - apply pres_try, local_jnode. unfold FindProvidersForCommit.
    apply pres_bind; [apply _|apply pres_lift, _|]. intros d.
    apply pres_bind; [apply _|apply local_on_net|]. intros found. apply pres_ret, _.
  - apply pres_ret, _.
  - apply pres_bind; [apply _|apply local_send|]. intros _. apply pres_ret, _.
Qed.

Context (hub : string) (Hhub : is_abs hub = true) (now : string) (Hnow : rfc3339 now = true).
Context (commit ref : string) (Href : ref = "" ∨ seg_ok ref) (Hcommit : is_ok (FromCommit commit) = true).
Context (opts : Options).
#[local] Abbreviation paths := (NewPaths hub (RepoID opts) (RepoType opts)).
#[local] Abbreviation base := (abs_segs hub ++ [RepoDirName (RepoID opts) (RepoType opts)]).
#[local] Abbreviation dir := (blobs_dir base).

(** Before and between candidates. *)
Definition ready m j : Prop :=
  represents (nd_map (jb_node j)) m ∧ rand_ok (jos j) ∧ linkless dir (os_fs (jos j)).
Lemma ready_local m j j' : local_j j j' → ready m j → ready m j'.
Proof. unfold local_j, local_same, ready, jos. by intros (-> & _ & _ & ->). Qed.

Definition pulled_entry resp : Entry :=
  mk_Entry (RepoID opts) (RepoType opts) commit (rs_ActualCID resp) (rs_DummyCID resp) (rs_Files resp)
    (rs_TotalSize resp) now "pull".
(** Every file of the manifest reads through the snapshot as announced. *)
Definition delivered resp j : Prop :=
  (∀ f, f ∈ rs_Files resp → ∃ content,
     fs_read_file (os_fs (jos j)) (fjoin [SnapshotDir paths commit; mf_Path f]) = Ok content ∧
     slen content = mf_Size f ∧ (mf_Size f ≠ 0%Z → hex_encode (sha256_sum content) = mf_SHA256 f)) ∧
  CurrentCommit paths ref (nofault (jos j)) = (Ok commit, nofault (jos j)).
Definition well_formed resp : Prop := NoDup (map mf_Path (rs_Files resp)) ∧ coherent (rs_Files resp).

Lemma reconstruct_run fuel p actual resp m j r j' :
  vetted commit actual resp → ready m j → reconstruct fuel hub paths p resp j = (r, j') →
  ready m j' ∧ (is_ok r = true → coherent (rs_Files resp) →
    Forall (λ f, good base f (os_fs (jos j'))) (rs_Files resp)).
Proof.
  intros Hv Hj. unfold reconstruct. rewrite (ve_actual _ _ _ Hv), bind_lift_run.
  destruct (on_jnode (newBlockClient (ai_ID p)) j) as [r1 j1] eqn:E1.
  assert (ready m j1) as Hj1.
  { eapply ready_local; [|exact Hj]. pose proof (local_jnode (newBlockClient (ai_ID p))) as Hl.
    specialize (Hl ltac:(apply pres_wrap, local_on_net) j). by rewrite E1 in Hl. }
  destruct r1 as [s|e]; [|rewrite (bind_run_err _ _ _ _ _ E1); by intros [= <- <-]].
  rewrite (bind_run_ok _ _ _ _ _ E1). unfold with_stream.
  set (x0 := mk_xfer (mk_sess (jb_node j1) s) 0 (jb_events j1)).
  match goal with |- (let '(_, _) := ?mm _ in _) = _ → _ => destruct (mm x0) as [r2 x] eqn:E2 end.
  intros [= <- <-]. destruct Hj1 as (Hm & Hr & Hl).
  assert (Forall (λ f, SafeBlobName (mf_BlobName f) = true) (rs_Files resp)) as Hsafe.
  { eapply Forall_impl; [apply (ve_names _ _ _ Hv)|]. intros f [_ ?]%andb_true_iff. done. }
  destruct (m_wrap "fetch root" (on_sess (ds_Get actual)) x0) as [r3 x1] eqn:E3.
  assert (others_x x0 x1) as O1.
  { pose proof (pres_wrap _ "fetch root" _ (others_sess _ (others_ds_Get actual)) x0) as H. by rewrite E3 in H. }
  assert (xos x1 = xos x0) as S1.
  { pose proof (same_on_sess (ds_Get actual) (kept_ds_Get actual) x0) as H. unfold m_wrap in E3.
    destruct (on_sess (ds_Get actual) x0). injection E3 as _ <-. exact H. }
  assert (rand_ok (xos x1) ∧ linkless dir (os_fs (xos x1))) as Hc1 by by rewrite S1.
  pose proof (clean_reconstruct_files _ _ (NewPaths_at hub (RepoID opts) (RepoType opts) Hhub) fuel hub (rs_TotalSize resp)
    actual (rs_Files resp) Hsafe x1) as C2.
  pose proof (others_reconstruct_files fuel hub paths (rs_TotalSize resp) actual (rs_Files resp) x1) as O2.
  destruct r3 as [nd|e].
  - rewrite (bind_run_ok _ _ _ _ _ E3) in E2. rewrite E2 in C2, O2. cbn [snd] in C2, O2.
    split.
    + destruct O1 as [O1 _], O2 as [O2 _]. split; [|by apply C2]. cbn [jb_node]. by rewrite O2, O1.
    + destruct r2 as [[]|]; [|done]. intros _ Hcoh. destruct Hc1 as [Hr1 Hl1].
      exact (reconstruct_files_good _ _ (NewPaths_at hub (RepoID opts) (RepoType opts) Hhub) _ _ _ _ _ _ _ Hsafe Hcoh Hr1 Hl1 E2).
  - rewrite (bind_run_err _ _ _ _ _ E3) in E2. injection E2 as <- <-. split; [|done].
    destruct O1 as [O1 _]. split; [cbn [jb_node]; by rewrite O1|]. exact Hc1.
Qed.

Lemma pulled_entry_ok resp : decoded_response resp → entry_ok (pulled_entry resp) ∧ published_entry (pulled_entry resp) = pulled_entry resp.
Proof.
  intros [Ht Hf]. split.
  - split; [|done]. eapply Forall_impl; [exact Hf|]. by intros f [? _].
  - unfold published_entry, pulled_entry. cbn. f_equal.
    induction Hf as [|f l Hf _ IH]; [done|]. cbn [map]. by rewrite IH, decoded_published.
Qed.
Lemma commit_hex : is_Some (hex_decode commit) ∧ String.length commit = 40 ∧ seg_ok commit.
Proof.
  destruct (FromCommit commit) as [d|] eqn:E; [|done]. apply commit_seg_ok in E as Hs.
  apply FromCommit_ok_inv in E as [[Hl Hd] _]. done.
Qed.
Lemma finish_pull_run actual resp done m j r j' :
  vetted commit actual resp → decoded_response resp → ready m j →
  (coherent (rs_Files resp) → Forall (λ f, good base f (os_fs (jos j))) (rs_Files resp)) →
  finish_pull paths now commit ref opts actual resp done j = (r, j') →
  (is_ok r = false ∧ represents (nd_map (jb_node j')) m) ∨
  (represents (nd_map (jb_node j')) (<[commit := pulled_entry resp]> m) ∧
   (is_ok r = true → well_formed resp → delivered resp j')).
Proof.
  intros Hv Hdec (Hm & Hr & Hl) Hgood. destruct (pulled_entry_ok resp Hdec) as [Hok Hpub].
  destruct commit_hex as (Hhex & Hlen & Hseg). unfold finish_pull. fold (pulled_entry resp).
  destruct (on_jnode (on_map (DB.Put (pulled_entry resp))) j) as [r1 j1] eqn:E1. rewrite (bind_wrap_run _ _ _ _ _ _ E1).
  assert (represents (nd_map (jb_node j1)) (match r1 with Ok _ => <[commit := pulled_entry resp]> m | Err _ => m end) ∧
    jos j1 = jos j) as [Hm1 S1].
  { unfold on_jnode, on_map, m_zoom in E1. destruct (DB.Put (pulled_entry resp) (nd_map (jb_node j))) as [r0 b] eqn:E.
    injection E1 as <- <-. split; [|done]. apply (Put_run _ _ _ _ _ Hm Hok Hseg) in E. by rewrite Hpub in E. }
  destruct r1 as [[]|e]; [|intros [= <- <-]; by left]. intros H. right. revert H.
  cbv beta iota. destruct (on_jnode (ProvideCommit commit actual) j1) as [r2 j2] eqn:E2.
    rewrite (bind_try_run _ _ _ _ _ E2). clear E1.
  match goal with |- mbind ?k ?mm j2 = _ → _ => destruct (mm j2) as [r3 j3] eqn:E3; assert (local_j j1 j3 ∧ r3 = Ok tt) as [L3 ->] end.
  { pose proof (local_jnode _ (local_ProvideCommit commit actual) j1) as L2. rewrite E2 in L2.
    destruct r2; injection E3 as <- <-; (split; [exact L2|done]). }
  rewrite (bind_run_ok _ _ _ _ _ E3). destruct L3 as (M3 & _ & _ & O3). fold (jos j3) (jos j1) in O3.
  destruct (on_jfiles (WriteSnapshot paths commit (rs_Files resp) ref) j3) as [r4 j4] eqn:E4.
  rewrite (bind_wrap_run _ _ _ _ _ _ E4).
  destruct (WriteSnapshot paths commit (rs_Files resp) ref (jos j3)) as [rw o] eqn:Ew.
  assert (r4 = rw ∧ jos j4 = o ∧ nd_map (jb_node j4) = nd_map (jb_node j3)) as (-> & Ho & M4).
  { unfold on_jfiles, on_jnode, on_files, m_zoom in E4. unfold jos in Ew. rewrite Ew in E4. by injection E4 as <- <-. }
  assert (represents (nd_map (jb_node j4)) (<[commit := pulled_entry resp]> m)) as Hm4 by by rewrite M4, M3.
  destruct rw as [[]|e]; [|by intros [= <- <-]]. unfold send, m_modify. intros [= <- <-]. split; [exact Hm4|].
  intros _ [Hnd Hcoh]. unfold delivered. change (jos (mk_job (jb_node j4) ?e)) with (jos j4). rewrite Ho.
  pose proof (NewPaths_at hub (RepoID opts) (RepoType opts) Hhub) as Hp.
  destruct (WriteSnapshot_run paths base commit (rs_Files resp) ref (jos j3) o Hp Hseg Href ltac:(by rewrite O3, S1) Hhex Hlen Hnd Ew)
    as [Hfiles Hcur]. split; [|exact Hcur].
  intros f Hf. destruct (Hfiles f Hf) as (Hrel & _ & Hread).
  specialize (Hgood Hcoh). rewrite Forall_forall in Hgood. destruct (Hgood f Hf) as (b & Hb & Hsz & Hsha).
  exists (reg_data b). split; [|done]. destruct (link_path_at _ _ Hp commit f Hseg Hrel) as [-> _].
  apply Hread. rewrite O3, S1. unfold blob_segs', blobs_dir in Hb. by rewrite <- app_assoc in Hb.
Qed.
Lemma try_candidates_run fuel candidates lastErr m j r j' :
  ready m j → try_candidates fuel hub paths now commit ref opts candidates lastErr j = (r, j') →
  (is_ok r = false ∧ represents (nd_map (jb_node j')) m) ∨
  ∃ actual resp, vetted commit actual resp ∧ decoded_response resp ∧
    represents (nd_map (jb_node j')) (<[commit := pulled_entry resp]> m) ∧
    (is_ok r = true → well_formed resp → delivered resp j').
Proof.
  revert lastErr j. induction candidates as [|p rest IH]; intros lastErr j Hj H; cbn [try_candidates] in H.
  { injection H as <- <-. left. split; [done|apply Hj]. }
  destruct (on_jnode (mapExchange p (RepoID opts) commit) j) as [r1 j1] eqn:E1.
  rewrite (bind_try_run _ _ _ _ _ E1) in H.
  assert (ready m j1) as Hj1.
  { eapply ready_local; [|exact Hj]. pose proof (local_jnode _ (local_mapExchange p (RepoID opts) commit) j) as L. by rewrite E1 in L. }
  destruct r1 as [[actual resp]|e]; [|by eapply IH in H].
  assert (vetted commit actual resp ∧ decoded_response resp) as [Hv Hdec].
  { unfold on_jnode, m_zoom in E1. destruct (mapExchange p (RepoID opts) commit (jb_node j)) as [r0 n0] eqn:E.
    injection E1 as -> _. by apply mapExchange_run in E as (? & ? & _). }
  unfold say, send in H. unfold mbind at 1, M_bind at 1, m_modify in H.
  match type of H with mbind _ (m_try ?mm) ?jj = _ => destruct (mm jj) as [r2 j2] eqn:E2 end.
  rewrite (bind_try_run _ _ _ _ _ E2) in H. apply (reconstruct_run _ _ actual _ m) in E2 as [Hj2 Hgood]; [|done..].
  destruct r2 as [done'|e]; [|by eapply IH in H].
  eapply finish_pull_run in H; [|done..|exact (Hgood eq_refl)]. destruct H as [H|H]; [by left|right].
  exists actual, resp. done.
Qed.
Lemma pullFromPeers_run fuel self m j r j' :
  ready m j → pullFromPeers fuel self hub paths now commit ref opts j = (r, j') →
  (is_ok r = false ∧ represents (nd_map (jb_node j')) m) ∨
  ∃ actual resp, vetted commit actual resp ∧ decoded_response resp ∧
    represents (nd_map (jb_node j')) (<[commit := pulled_entry resp]> m) ∧
    (is_ok r = true → well_formed resp → delivered resp j').
Proof.
  intros Hj H. unfold pullFromPeers in H. destruct (find_candidates self commit opts j) as [r1 j1] eqn:E1.
  assert (ready m j1) as Hj1.
  { eapply ready_local; [|exact Hj]. pose proof (local_find_candidates self commit opts j) as L. by rewrite E1 in L. }
  destruct r1 as [l|e]; [|rewrite (bind_run_err _ _ _ _ _ E1) in H; injection H as <- <-; left; split; [done|apply Hj1]].
  rewrite (bind_run_ok _ _ _ _ _ E1) in H. destruct l as [|p l].
  { injection H as <- <-. left. split; [done|apply Hj1]. }
  unfold say, send, mbind at 1, M_bind at 1, m_modify in H. by eapply try_candidates_run in H.
Qed.

(** C1. Whatever peers there are and however they behave: when a pull from peers
    succeeds, an answer for this very commit was accepted and recorded, and,
    if its manifest is well formed, every file in it reads through the snapshot
    with the announced size and, unless empty, SHA-256, and the reference
    resolves to the commit. *)
Theorem pullFromPeers_delivers fuel self m j j' :
  represents (nd_map (jb_node j)) m → rand_ok (jos j) → linkless dir (os_fs (jos j)) →
  pullFromPeers fuel self hub paths now commit ref opts j = (Ok tt, j') →
  ∃ actual resp, vetted commit actual resp ∧
    represents (nd_map (jb_node j')) (<[commit := pulled_entry resp]> m) ∧
    (well_formed resp → delivered resp j').
Proof.
  intros Hm Hr Hl H. eapply pullFromPeers_run in H as [[? _]|(actual & resp & Hv & _ & Hm' & Hd)]; [done| |by split].
  exists actual, resp. auto.
Qed.

(** Failed or not, a pull leaves the table a table, with at most one more
    entry: that of the commit that was asked for, and only if a peer's answer
    for it was accepted.  The converse of a failure does not hold: when linking
    fails at the very end the entry stays. *)
Theorem pullFromPeers_table fuel self m j r j' :
  represents (nd_map (jb_node j)) m → rand_ok (jos j) → linkless dir (os_fs (jos j)) →
  pullFromPeers fuel self hub paths now commit ref opts j = (r, j') →
  ∃ m', represents (nd_map (jb_node j')) m' ∧
    (m' = m ∧ is_ok r = false ∨
     ∃ actual resp, vetted commit actual resp ∧ decoded_response resp ∧ m' = <[commit := pulled_entry resp]> m).
Proof.
  intros Hm Hr Hl H. eapply pullFromPeers_run in H as [[Hf Hm']|(actual & resp & Hv & Hd & Hm' & _)]; [..|by split].
  - exists m. auto.
  - eexists. split; [exact Hm'|]. right. by exists actual, resp.
Qed.
End delivery.

(** ** A concrete pull *)
Module ToySwarm.
Import ToyNode ToyBlocks ToyPull.
Definition now : string := "2024-03-01T00:00:00Z".
Definition answered : MapResponse :=
  mk_MapResponse true "" commit "org/m" "model" (cid_string root) "" 4 [mk_FileManifest "f" "b" 4 (hex_encode "data") 0 0 false "" ""].
Definition map_stream : stream := stream_of (frame (print (MapResponse_json answered))).
Definition puller : node :=
  mk_node (nd_map node0) ({[ "r" := "@f=" +:+ cid_string leaf +:+ "," ]} : gmap string string) (∅ : gmap string fref)
    (mk_osst ∅ [] ["17"; "18"] 0) (ToyNet.mk_net ∅ [map_stream; stream_of chunk] []).
Definition job0 : job := mk_job puller [].
Definition opts : Options :=
  {| RepoID := "org/m"; RepoType := Model; Commit := ""; Ref := ""; Peers := ["/seeder"]; Connect := []; Force := false;
     Sources := mk_Sources false false; Token := "" |}.
Definition me : peer_id (Keys := ToyKeys.keys) := "me".
Definition run : result unit * job :=
  pullFromPeers 5 me "/hub" (NewPaths "/hub" (RepoID opts) (RepoType opts)) now commit "main" opts job0.
End ToySwarm.

Section witnesses.
Import ToyNode ToyBlocks ToyPull ToySwarm.

Let m0 : gmap string Entry := ToyNode.table.
Let p0 : Paths := NewPaths "/hub" (RepoID opts) (RepoType opts).
Let f0 : FileManifest := mk_FileManifest "f" "b" 4 (hex_encode "data") 0 0 false "" "".

Lemma ready0 : represents (nd_map (jb_node job0)) m0 ∧ rand_ok (jos job0) ∧
  linkless (blobs_dir (abs_segs "/hub" ++ [RepoDirName (RepoID opts) (RepoType opts)])) (os_fs (jos job0)).
Proof.
  split; [exact represents0|]. split; [constructor; [reflexivity|constructor; [reflexivity|constructor]]|].
  intros w t. unfold jos. cbn [job0 jb_node puller nd_os os_fs]. rewrite fs_get_lookup by done. done.
Defined.

Lemma main_ok : seg_ok "main".
Proof. split_and!; done. Defined.
Lemma commit_ok1 : seg_ok commit.
Proof. split_and!; done. Defined.

Lemma pullFromPeers_delivers_witness :
  run.1 = Ok tt ∧ fs_read_file (os_fs (jos run.2)) (fjoin [SnapshotDir p0 commit; "f"]) = Ok "data".
Proof.
  assert (run.1 = Ok tt) as Hrun by (vm_compute; reflexivity). split; [exact Hrun|].
  destruct ready0 as (Hm & Hr & Hl).
  destruct (pullFromPeers_delivers (MFL := Toy.multiformats_laws) (BAL := ToyDB.batching_laws) "/hub" eq_refl now eq_refl commit "main"
    (or_intror main_ok) eq_refl opts 5 me m0 job0 run.2 Hm Hr Hl) as (actual & resp & Hv & Hm' & Hd).
  { rewrite <- Hrun. apply surjective_pairing. }
  pose proof (Get_run _ _ commit Hm' commit_ok1) as Hg. rewrite lookup_insert_eq in Hg.
  assert ((DB.Get commit (nd_map (jb_node run.2))).1 = Ok (Some (pulled_entry now commit opts answered))) as Hg' by (vm_compute; reflexivity).
  rewrite Hg in Hg'.
  apply (f_equal (λ r : result (option Entry), match r with Ok (Some e) => en_Files e | _ => [] end)) in Hg'.
  assert (rs_Files resp = [f0]) as Hfiles by exact Hg'.
  destruct Hd as [Hd _].
  { split; rewrite Hfiles; [apply NoDup_singleton|]. clear.
    intros f g ->%list_elem_of_singleton ->%list_elem_of_singleton. split; [exact (λ _, conj eq_refl eq_refl)|].
    intros x E. discriminate E. }
  destruct (Hd f0) as (content & Hc & _ & Hsha); [rewrite Hfiles; apply list_elem_of_here|].
  assert (content = "data") as ->; [|exact Hc].
  assert (mf_Size f0 ≠ 0%Z) as Hsz by by apply Z.eqb_neq. specialize (Hsha Hsz). clear -Hsha.
  apply (f_equal hex_decode) in Hsha. cbn [mf_SHA256 f0] in Hsha. rewrite !hex_decode_encode in Hsha. by injection Hsha.
Defined.

Lemma pullFromPeers_table_witness :
  ∃ m', represents (nd_map (jb_node run.2)) m' ∧ is_Some (m' !! commit).
Proof.
  destruct ready0 as (Hm & Hr & Hl).
  destruct (pullFromPeers_table (MFL := Toy.multiformats_laws) (BAL := ToyDB.batching_laws) "/hub" eq_refl now eq_refl commit "main"
    (or_intror main_ok) eq_refl opts 5 me m0 job0 run.1 run.2 Hm Hr Hl (surjective_pairing _)) as (m' & Hm' & Hcase).
  exists m'. split; [exact Hm'|]. destruct Hcase as [[-> _]|(actual & resp & _ & _ & ->)].
  - exists entry. vm_compute. reflexivity.
  - rewrite lookup_insert_eq. by eexists.
Defined.
End witnesses.
