(* ===== verification/Ingest.v ===== *)
(** * internal/ingest: sharing a downloaded snapshot.

    [Run] reads a snapshot, adds every file to the node by reference and wires
    the files into a directory tree, whose root is recorded and announced.  The
    UnixFS importer is the interface [Importer]; [ImporterLaws] says what the
    directories it writes contain, a CID standing for its content whichever
    store holds the block.  A Go map is a [gmap]. *)
From stdpp Require Import gmap.
From S2P Require Import Prelude GoStrings Json GoPath GoFS Protoio Lib Store Dummy Mapping Wire Hfcache Tree.
From S2P Require Import Snapshot Config Identity Net Node Job.

(** ** boxo's UnixFS importer *)
Class Importer `{!Multiformats, !Blockstore, !FileManager} := {
  ufs_dir : Type;
  ufs_new_directory : result ufs_dir;                       (* ufsio.NewDirectory *)
  (* d.AddChild(name, node): may write blocks *)
  ufs_add_child : ufs_dir → string → cid → bstore → fman → result ufs_dir * (bstore * fman);
  ufs_get_node : ufs_dir → result (cid * string);           (* d.GetNode: its CID and bytes *)
  (* balanced.Layout over a size splitter: chunk size, file name, bytes read *)
  ufs_layout : Z → string → string → bstore → fman → result cid * (bstore * fman);
}.
Class ImporterLaws `{!Multiformats, !Blockstore, !FileManager, !Importer} := {
  ufs_view : ufs_dir → gmap string cid;
  (* the entries of the directory a CID stands for *)
  ufs_children : cid → option (gmap string cid);
  ufs_new_spec d : ufs_new_directory = Ok d → ufs_view d = ∅;
  ufs_add_spec d name c b f d' bf :
    ufs_add_child d name c b f = (Ok d', bf) → ufs_view d' = <[name := c]> (ufs_view d);
  ufs_node_spec d c data : ufs_get_node d = Ok (c, data) → ufs_children c = Some (ufs_view d);
}.

Section ingest.
Context {MF : Multiformats} {IP : Ipld} {BS : Blockstore} {FM : FileManager} {FS : Filestore}
  {DS : Datastore} {BA : Batching} {K : Keys} {N : Network} {HS : Hashes} {IM : Importer}.

Definition on_jstores {A} (op : bstore → fman → result A * (bstore * fman)) : M job A := on_jnode (on_stores op).

Record Result := mk_Result {
  re_RepoID : string; re_Commit : string; re_ActualCID : cid; re_DummyCID : cid;
  re_Files : nat; re_Chunks : Z; re_TotalSize : Z
}.

(** ** The tree *)
Definition dirOf (rel : string) : string :=
  let d := fdir rel in if decide (d = ".") then "" else d.

Definition addFileNocopy (chunk : Z) (f : FileManifest) : M job (cid * Z) :=
  if decide (mf_SrcPath f = "") then m_fail (errorf "no source path recorded")
  else
    on_jfiles (os_stat (mf_SrcPath f)) ;;                       (* os.Open *)
    fi ← on_jfiles (os_stat (mf_SrcPath f));                    (* fh.Stat *)
    data ← on_jfiles (os_read_file (mf_SrcPath f));             (* the splitter's reads *)
    root ← on_jstores (ufs_layout chunk (mf_SrcPath f) data);
    mret (root, if decide (fi_size fi > 0)%Z
                then Z.quot (wrap64 (fi_size fi + chunk - 1)) chunk else 0%Z).

(** The maps [buildTree] fills. *)
Record plan := mk_plan { pl_leaves : gmap string cid; pl_byDir : gmap string (list FileManifest); pl_chunks : Z }.
Fixpoint add_files (chunk : Z) (progress : string → M job unit) (files : list FileManifest) (pl : plan) : M job plan :=
  match files with
  | [] => mret pl
  | f :: rest =>
      r ← m_wrap "add" (addFileNocopy chunk f);
      let dir := dirOf (mf_Path f) in
      progress ("ingested " +:+ mf_Path f +:+ " (" +:+ dec_of_Z r.2 +:+ " chunks, " +:+ humanBytes (mf_Size f) +:+ ")") ;;
      add_files chunk progress rest
        (mk_plan (<[mf_Path f := r.1]> (pl_leaves pl))
           (<[dir := default [] (pl_byDir pl !! dir) ++ [f]]> (pl_byDir pl))
           (wrap64 (pl_chunks pl + r.2)))
  end.

(** The directories right below [dir], sorted. *)
Definition subdirs (byDir : gmap string (list FileManifest)) (dir : string) : list string :=
  merge_sort String.le (filter (λ k, k ≠ dir ∧ dirOf k = dir) (map fst (map_to_list byDir))).

Fixpoint link_files (leaves : gmap string cid) (fs : list FileManifest) (d : ufs_dir) : M job ufs_dir :=
  match fs with
  | [] => mret d
  | f :: rest =>
      match leaves !! mf_Path f with
      | None => m_fail (errorf "missing leaf node")
      | Some leaf =>
          d ← m_wrap "link" (on_jstores (ufs_add_child d (fbase (mf_Path f)) leaf));
          link_files leaves rest d
      end
  end.
Section build_dir.
Variable rec : string → M job cid.
Fixpoint link_subs (subs : list string) (d : ufs_dir) : M job ufs_dir :=
  match subs with
  | [] => mret d
  | sub :: rest =>
      subNode ← rec sub;
      d ← m_wrap "link subdir" (on_jstores (ufs_add_child d (fbase sub) subNode));
      link_subs rest d
  end.
End build_dir.
Fixpoint buildDir (fuel : nat) (byDir : gmap string (list FileManifest)) (leaves : gmap string cid) (dir : string) :
    M job cid :=
  match fuel with
  | O => m_fail (errorf "stack overflow")
  | S fuel' =>
      d ← m_lift ufs_new_directory;
      d ← link_subs (buildDir fuel' byDir leaves) (subdirs byDir dir) d;
      d ← link_files leaves (default [] (byDir !! dir)) d;
      root ← m_lift (ufs_get_node d);
      on_jstores (λ b f, fst_put_block b f root.1 root.2) ;;      (* n.DAG.Add *)
      mret root.1
  end.
(** Directories nest no deeper than there are directories with files. *)
Definition buildTree (chunk : Z) (progress : string → M job unit) (files : list FileManifest) : M job (cid * Z) :=
  pl ← add_files chunk progress files (mk_plan ∅ ∅ 0);
  root ← buildDir (S (size (pl_byDir pl))) (pl_byDir pl) (pl_leaves pl) "";
  mret (root, pl_chunks pl).

(** ** Run *)
Definition total_size (files : list FileManifest) : Z := foldl (λ t f, wrap64 (t + mf_Size f)) 0%Z files.
(** From the files of the snapshot on. *)
Definition share (cfg : Config) (now repoID : string) (t : RepoType) (commit : string) (progress : string → M job unit)
    (files : list FileManifest) : M job Result :=
  rc ← buildTree (ChunkSize cfg) progress files;
  dummyCID ← m_lift (FromCommit commit);
  let total := total_size files in
  m_wrap "record mapping" (on_jnode (on_map (DB.Put {|
    en_RepoID := repoID; en_RepoType := t; en_CommitHash := commit;
    en_ActualCID := cid_string rc.1; en_DummyCID := cid_string dummyCID; en_Files := files;
    en_TotalSize := total; en_AddedAt := now; en_Origin := "ingest" |}))) ;;
  m_ignore (on_jnode (ProvideCommit commit rc.1)) ;;
  mret (mk_Result repoID commit rc.1 dummyCID (length files) rc.2 total).
Definition Run (cfg : Config) (now repoID : string) (t : RepoType) (commit : string) (progress : string → M job unit) :
    M job Result :=
  let paths := NewPaths (HFHubDir cfg) repoID t in
  files ← on_jfiles (ReadSnapshot paths commit);
  match files with
  | [] => m_fail (errorf "snapshot contains no files")
  | _ =>
      files ← on_jfiles (EnrichFromTree paths commit files);
      share cfg now repoID t commit progress files
  end.
Definition RunRepo (cfg : Config) (now repoID : string) (t : RepoType) (ref : string) (progress : string → M job unit) :
    M job (option Result * bool) :=
  let paths := NewPaths (HFHubDir cfg) repoID t in
  commit ← on_jfiles (CurrentCommit paths ref);
  has ← on_jnode (on_map (DB.Has commit));
  if has : bool then mret (None, false)
  else
    complete ← on_jfiles (SnapshotComplete paths commit);
    if negb complete then m_fail (errorf "snapshot is not fully downloaded yet")
    else
      res ← Run cfg now repoID t commit progress;
      mret (Some res, true).
End ingest.

(** ** Relative paths as lists of names *)
Definition rel (ws : list string) : string := join "/" ws.
Lemma rel_split ws : ws ≠ [] → Forall seg_ok ws → split_on ch_slash (rel ws) = ws.
Proof. intros Hne Hok. apply split_join; [done|by apply seg_ok_no_slash]. Qed.
Lemma rel_inj ws vs : Forall seg_ok ws → Forall seg_ok vs → rel ws = rel vs → ws = vs.
Proof.
  assert (∀ ws, Forall seg_ok ws → ws ≠ [] → rel ws ≠ "") as Hne.
  { intros ws0 Hok Hws E. pose proof (rel_split ws0 Hws Hok) as Hs. rewrite E in Hs. subst ws0.
    apply Forall_cons_1 in Hok as [(? & _) _]. done. }
  intros Hw Hv E. destruct (decide (ws = [])) as [->|Hws], (decide (vs = [])) as [->|Hvs]; [done| | |].
  - by edestruct (Hne vs).
  - by edestruct (Hne ws).
  - rewrite <- (rel_split ws), <- (rel_split vs) by done. by rewrite E.
Qed.
Lemma fbase_rel ws w : Forall seg_ok (ws ++ [w]) → fbase (rel (ws ++ [w])) = w.
Proof.
  intros Hok. unfold fbase. rewrite rel_split by (done || by destruct ws).
  assert (filter (λ w, w ≠ "") (ws ++ [w]) = ws ++ [w]) as ->; [|by rewrite reverse_snoc].
  clear -Hok. induction Hok as [|x l (Hx & _) _ IH]; [done|]. rewrite filter_cons_True by done. by rewrite IH.
Qed.
Lemma dirOf_rel ws w : Forall seg_ok (ws ++ [w]) → dirOf (rel (ws ++ [w])) = rel ws.
Proof.
  intros Hok. unfold dirOf, fdir. rewrite rel_split by (done || by destruct ws). rewrite reverse_snoc.
  apply Forall_app in Hok as [Hws _]. destruct (decide (ws = [])) as [->|Hne]; [done|].
  destruct (reverse ws) as [|x l] eqn:Er; [apply (f_equal reverse) in Er; by rewrite reverse_involutive in Er|].
  rewrite <- Er, reverse_involutive. fold (rel ws).
  assert (is_abs (rel ws +:+ "/") = false) as Ha.
  { assert (is_abs (rel ws) = false) as Ha.
    { apply is_abs_join. eapply Forall_impl; [exact Hws|]. by intros v (? & _ & _ & ?). }
    pose proof (rel_split ws Hne Hws) as Hs. destruct (rel ws) as [|a s]; [|exact Ha].
    subst ws. by apply Forall_cons_1 in Hws as [(? & _) _]. }
  assert (clean (rel ws +:+ "/") = rel ws) as ->.
  { unfold clean. rewrite Ha. unfold clean_segs. change (rel ws +:+ "/") with (rel ws +:+ String ch_slash "").
    rewrite split_on_app.
    change (split_on ch_slash "") with [""]. rewrite rel_split, foldl_app by done.
    rewrite (foldl_clean_ok false [] ws) by done. rewrite app_nil_r. cbn [foldl]. unfold clean_step at 1.
    rewrite decide_True, reverse_involutive by done. by destruct ws. }
  rewrite decide_False; [done|]. intros E. destruct ws as [|v [|v' ws]]; [done| |].
  - apply Forall_cons_1 in Hws as [(_ & ? & _) _]. done.
  - pose proof (rel_split (v :: v' :: ws) ltac:(done) Hws) as Hs. rewrite E in Hs. done.
Qed.

(** ** The tree that is built *)
Section tree.
Context {MF : Multiformats} {IP : Ipld} {BS : Blockstore} {FM : FileManager} {FS : Filestore}
  {DS : Datastore} {BA : Batching} {K : Keys} {N : Network} {HS : Hashes} {IM : Importer} {IML : ImporterLaws}.
Implicit Types (j : job) (f g : FileManifest) (files : list FileManifest) (d : ufs_dir) (name : string).

Lemma on_jstores_ok {A} (op : bstore → fman → result A * (bstore * fman)) j a j' :
  on_jstores op j = (Ok a, j') → ∃ b fm bf, op b fm = (Ok a, bf).
Proof.
  unfold on_jstores, on_jnode, on_stores, m_zoom. destruct (op (nd_bs (jb_node j)) (nd_fm (jb_node j))) as [r [b fm]] eqn:E.
  intros [= -> _]. eauto.
Qed.
Lemma add_child_view d name c j d' j' :
  m_wrap "link" (on_jstores (ufs_add_child d name c)) j = (Ok d', j') ∨
  m_wrap "link subdir" (on_jstores (ufs_add_child d name c)) j = (Ok d', j') →
  ufs_view d' = <[name := c]> (ufs_view d).
Proof.
  assert (∀ ctx, m_wrap ctx (on_jstores (ufs_add_child d name c)) j = (Ok d', j') →
    ufs_view d' = <[name := c]> (ufs_view d)) as H; [|by intros []; eapply H].
  intros ctx. unfold m_wrap. destruct (on_jstores (ufs_add_child d name c) j) as [[d1|e] j1] eqn:E; [|done].
  intros [= -> _]. apply on_jstores_ok in E as (b & fm & bf & E). by eapply ufs_add_spec.
Qed.

(** What [link_subs] and [link_files] leave in the directory: under a name none
    of the links has, what was there; under the name of exactly one, its node. *)
Lemma link_subs_view rec subs d j d' j' name :
  link_subs rec subs d j = (Ok d', j') →
  ((∀ sub, sub ∈ subs → fbase sub ≠ name) → ufs_view d' !! name = ufs_view d !! name) ∧
  (∀ sub, sub ∈ subs → fbase sub = name → (∀ s, s ∈ subs → fbase s = name → s = sub) →
     ∃ c j1 j2, rec sub j1 = (Ok c, j2) ∧ ufs_view d' !! name = Some c).
Proof.
  revert d j. induction subs as [|sub subs IH]; intros d j H; cbn [link_subs] in H.
  { injection H as <- _. split; [done|]. intros ? []%not_elem_of_nil. }
  apply bind_ok_inv in H as (c & j1 & Hc & H). apply bind_ok_inv in H as (d1 & j2 & Hd & H).
  pose proof (add_child_view _ _ _ _ _ _ (or_intror Hd)) as Hv. destruct (IH _ _ H) as [IH1 IH2]. split.
  - intros Hn. rewrite IH1 by set_solver. rewrite Hv, lookup_insert_ne; [done|]. apply Hn, list_elem_of_here.
  - intros s Hs Hb Hu. destruct (decide (s ∈ subs)) as [Hin|Hout]; [apply (IH2 s); [done..|set_solver]|].
    apply elem_of_cons in Hs as [->|]; [|done]. exists c, j, j1. split; [done|].
    rewrite IH1; [by rewrite Hv, Hb, lookup_insert_eq|]. intros s' Hs' Hb'. apply Hout.
    rewrite <- (Hu s'); [done|by apply list_elem_of_further|done].
Qed.
Lemma link_files_view leaves fs d j d' j' name :
  link_files leaves fs d j = (Ok d', j') →
  ((∀ f, f ∈ fs → fbase (mf_Path f) ≠ name) → ufs_view d' !! name = ufs_view d !! name) ∧
  (∀ f, f ∈ fs → fbase (mf_Path f) = name → (∀ g, g ∈ fs → fbase (mf_Path g) = name → mf_Path g = mf_Path f) →
     is_Some (leaves !! mf_Path f) ∧ ufs_view d' !! name = leaves !! mf_Path f).
Proof.
  revert d j. induction fs as [|f fs IH]; intros d j H; cbn [link_files] in H.
  { injection H as <- _. split; [done|]. intros ? []%not_elem_of_nil. }
  destruct (leaves !! mf_Path f) as [leaf|] eqn:El; [|done].
  apply bind_ok_inv in H as (d1 & j1 & Hd & H). pose proof (add_child_view _ _ _ _ _ _ (or_introl Hd)) as Hv.
  destruct (IH _ _ H) as [IH1 IH2]. split.
  - intros Hn. rewrite IH1 by set_solver. rewrite Hv, lookup_insert_ne; [done|]. apply Hn, list_elem_of_here.
  - intros g Hg Hb Hu. destruct (decide (g ∈ fs)) as [Hin|Hout]; [apply (IH2 g); [done..|set_solver]|].
    apply elem_of_cons in Hg as [->|]; [|done]. split; [by rewrite El|].
    destruct (decide (List.Exists (λ g, fbase (mf_Path g) = name) fs)) as [(g & Hg & Hgb)%Exists_exists|Hno].
    + rewrite <- (Hu g) by (done || by apply list_elem_of_further). apply (IH2 g); [done..|].
      intros g' Hg' Hgb'. rewrite (Hu g), (Hu g') by (done || by apply list_elem_of_further). done.
    + rewrite IH1 by (intros g Hg Hgb; apply Hno, Exists_exists; eauto). by rewrite Hv, Hb, lookup_insert_eq, El.
Qed.

(** Following names from a directory. *)
Fixpoint resolve (c : cid) (ws : list string) : option cid :=
  match ws with
  | [] => Some c
  | w :: rest => ents ← ufs_children c; c' ← ents !! w; resolve c' rest
  end.

(** Paths as a snapshot has them. *)
Definition names f : list string := split_on ch_slash (mf_Path f).
Record regular_files files : Prop := {
  rf_names : ∀ f, f ∈ files → Forall seg_ok (names f);
  (* a path is one file, and no file is a directory of another *)
  rf_free : ∀ f g ws, f ∈ files → g ∈ files → names g = names f ++ ws → ws = [] ∧ g = f
}.
(** A directory that holds a file itself. *)
Definition has_file files (ws : list string) : Prop := ∃ g w, g ∈ files ∧ names g = ws ++ [w].
(** Every directory on the way from [ws] to the file is one. *)
Definition covered files (ws tail : list string) : Prop :=
  ∀ pre suf, tail = pre ++ suf → pre ≠ [] → suf ≠ [] → has_file files (ws ++ pre).

Lemma names_rel f : mf_Path f = rel (names f).
Proof. symmetry. apply join_split. Qed.
Lemma names_nonempty f : names f ≠ [].
Proof. apply split_on_nonempty. Qed.
Lemma file_dir files f : regular_files files → f ∈ files →
  ∃ ws w, names f = ws ++ [w] ∧ Forall seg_ok (ws ++ [w]) ∧ dirOf (mf_Path f) = rel ws ∧ fbase (mf_Path f) = w.
Proof.
  intros Hr Hf. pose proof (rf_names _ Hr f Hf) as Hok. destruct (names f) as [|w ws _] eqn:E using rev_ind.
  { by destruct (names_nonempty f). }
  exists ws, w. rewrite names_rel, E. split_and!; [done..|by apply dirOf_rel|by apply fbase_rel].
Qed.

(** The maps [buildTree] hands to [buildDir]. *)
Record planned files (pl : plan) : Prop := {
  pn_dirs : ∀ dir, default [] (pl_byDir pl !! dir) = filter (λ f, dirOf (mf_Path f) = dir) files;
  pn_keys : ∀ dir, is_Some (pl_byDir pl !! dir) ↔ ∃ f, f ∈ files ∧ dirOf (mf_Path f) = dir
}.
Lemma planned_nil : planned [] (mk_plan ∅ ∅ 0).
Proof. split; intros dir; cbn [pl_byDir]; rewrite lookup_empty; [done|]. split; [by intros []|by intros (? & []%not_elem_of_nil & _)]. Qed.
Lemma add_files_planned chunk progress files pl j pl' j' :
  planned [] pl → add_files chunk progress files pl j = (Ok pl', j') → planned files pl'.
Proof.
  assert (∀ before files pl j, planned before pl → add_files chunk progress files pl j = (Ok pl', j') →
    planned (before ++ files) pl') as Hgen; [|by apply (Hgen [])].
  clear. intros before files. revert before. induction files as [|f files IH]; intros before pl j Hp H; cbn [add_files] in H.
  { injection H as <- _. by rewrite app_nil_r. }
  apply bind_ok_inv in H as (r & j1 & _ & H). apply bind_ok_inv in H as ([] & j2 & _ & H).
  rewrite (cons_middle f before files), app_assoc. eapply IH; [|exact H]. destruct Hp as [Hd Hk]. split; cbn [pl_byDir]; intros dir.
  - rewrite filter_app, <- Hd. cbn [filter list_filter]. destruct (decide (dirOf (mf_Path f) = dir)) as [<-|Hne].
    + by rewrite lookup_insert_eq.
    + by rewrite lookup_insert_ne, app_nil_r.
  - destruct (decide (dirOf (mf_Path f) = dir)) as [<-|Hne].
    + rewrite lookup_insert_eq. split; [|by eexists]. intros _. exists f. split; [set_solver|done].
    + rewrite lookup_insert_ne, Hk by done. setoid_rewrite elem_of_app. setoid_rewrite list_elem_of_singleton. naive_solver.
Qed.

Context (files : list FileManifest) (Hreg : regular_files files).
Context (pl : plan) (Hpl : planned files pl).

Lemma subdirs_spec ws sub :
  Forall seg_ok ws →
  sub ∈ subdirs (pl_byDir pl) (rel ws) ↔
  ∃ w, sub = rel (ws ++ [w]) ∧ Forall seg_ok (ws ++ [w]) ∧ has_file files (ws ++ [w]).
Proof.
  intros Hws. unfold subdirs. rewrite merge_sort_Permutation, list_elem_of_filter, list_elem_of_fmap.
  assert ((∃ kv, sub = kv.1 ∧ kv ∈ map_to_list (pl_byDir pl)) ↔ is_Some (pl_byDir pl !! sub)) as Hkey.
  { split; [intros ([k v] & -> & H%elem_of_map_to_list); by eexists|].
    intros [v H%elem_of_map_to_list]. by exists (sub, v). }
  rewrite Hkey, (pn_keys _ _ Hpl). split.
  - intros ((Hne & Hdir) & f & Hf & Hfd). destruct (file_dir _ _ Hreg Hf) as (ks & v & Hn & Hok & Hd & _).
    rewrite Hd in Hfd. subst sub. apply Forall_app in Hok as [Hks Hv].
    destruct ks as [|w ks _] using rev_ind.
    { exfalso. apply Hne. assert ([] = ws) as <-; [|done]. apply rel_inj; [done..|]. exact Hdir. }
    rewrite dirOf_rel in Hdir by done. apply Forall_app in Hks as Hks'. destruct Hks' as [Hks' _].
    apply rel_inj in Hdir as ->; [|done..]. exists w. split_and!; [done..|]. by exists f, v.
  - intros (w & -> & Hok & g & v & Hg & Hn). split; [split|].
    + intros E. apply rel_inj in E; [|done..]. apply (f_equal length) in E. rewrite length_app in E. simpl in E. lia.
    + by apply dirOf_rel.
    + exists g. split; [done|]. rewrite names_rel, Hn. apply dirOf_rel. rewrite <- Hn. by apply (rf_names _ Hreg).
Qed.
Lemma dir_files ws f : Forall seg_ok ws →
  f ∈ default [] (pl_byDir pl !! rel ws) ↔ f ∈ files ∧ ∃ w, names f = ws ++ [w].
Proof.
  intros Hws. rewrite (pn_dirs _ _ Hpl), list_elem_of_filter. split.
  - intros [Hd Hf]. split; [done|]. destruct (file_dir _ _ Hreg Hf) as (ks & w & Hn & Hok & Hd' & _).
    rewrite Hd' in Hd. apply Forall_app in Hok as [Hks _]. apply rel_inj in Hd as ->; [|done..]. by exists w.
  - intros [Hf [w Hn]]. split; [|done]. rewrite names_rel, Hn. apply dirOf_rel. rewrite <- Hn. by apply (rf_names _ Hreg).
Qed.
Lemma dir_file_base ws f w : names f = ws ++ [w] → f ∈ files → fbase (mf_Path f) = w.
Proof. intros Hn Hf. rewrite names_rel, Hn. apply fbase_rel. rewrite <- Hn. by apply (rf_names _ Hreg). Qed.

(** The entries of a directory that was built. *)
Definition dir_entries (leaves : gmap string cid) (sub_ok : list string → cid → Prop) (ws : list string) (ents : gmap string cid) : Prop :=
  (∀ f w, f ∈ files → names f = ws ++ [w] → is_Some (leaves !! mf_Path f) ∧ ents !! w = leaves !! mf_Path f) ∧
  (∀ w, has_file files (ws ++ [w]) → ∃ c, ents !! w = Some c ∧ sub_ok (ws ++ [w]) c) ∧
  (∀ w, ¬ (∃ f, f ∈ files ∧ names f = ws ++ [w]) → ¬ has_file files (ws ++ [w]) → ents !! w = None).

Lemma buildDir_entries fuel leaves (sub_ok : list string → cid → Prop) ws c j j' :
  Forall seg_ok ws →
  (∀ vs c j j', Forall seg_ok vs → buildDir fuel (pl_byDir pl) leaves (rel vs) j = (Ok c, j') → sub_ok vs c) →
  buildDir (S fuel) (pl_byDir pl) leaves (rel ws) j = (Ok c, j') →
  ∃ ents, ufs_children c = Some ents ∧ dir_entries leaves sub_ok ws ents.
Proof.
  intros Hws Hsub H. cbn [buildDir] in H. rewrite bind_lift_run in H.
  destruct ufs_new_directory as [d0|] eqn:E0; [|done]. apply ufs_new_spec in E0.
  apply bind_ok_inv in H as (d1 & j1 & H1 & H). apply bind_ok_inv in H as (d2 & j2 & H2 & H).
  rewrite bind_lift_run in H. destruct (ufs_get_node d2) as [[c' data]|] eqn:E3; [|done].
  apply bind_ok_inv in H as ([] & j3 & _ & H). injection H as -> _. cbn [fst].
  exists (ufs_view d2). split; [by eapply ufs_node_spec|].
  assert (∀ f w, f ∈ files → names f = ws ++ [w] → ¬ has_file files (ws ++ [w])) as Hfree.
  { intros f w Hf Hn (g & v & Hg & Hgn). rewrite <- Hn in Hgn. by apply (rf_free _ Hreg) in Hgn as []. }
  assert (∀ g, g ∈ default [] (pl_byDir pl !! rel ws) → ∃ v, g ∈ files ∧ names g = ws ++ [v] ∧ fbase (mf_Path g) = v) as Hdf.
  { intros g [Hg [v Hv]]%dir_files; [|done]. exists v. split_and!; [done..|]. by eapply dir_file_base. }
  assert (∀ s, s ∈ subdirs (pl_byDir pl) (rel ws) →
    ∃ v, s = rel (ws ++ [v]) ∧ Forall seg_ok (ws ++ [v]) ∧ has_file files (ws ++ [v]) ∧ fbase s = v) as Hsd.
  { intros s (v & -> & Hok & Hh)%subdirs_spec; [|done]. exists v. split_and!; [done..|]. by apply fbase_rel. }
  split_and!.
  - intros f w Hf Hn. destruct (link_files_view _ _ _ _ _ _ w H2) as [_ Hv]. apply Hv.
    + apply dir_files; eauto.
    + by eapply dir_file_base.
    + intros g (v & _ & Hgn & Hb)%Hdf Hgb. rewrite !names_rel, Hgn, Hn. congruence.
  - intros w Hh. destruct (link_files_view _ _ _ _ _ _ w H2) as [Hv _]. rewrite Hv.
    2:{ intros g (v & Hg & Hgn & Hb)%Hdf Hgb. apply (Hfree g v Hg Hgn). by rewrite <- Hb, Hgb. }
    assert (Forall seg_ok (ws ++ [w])) as Hok.
    { destruct Hh as (g & v & Hg & Hgn). pose proof (rf_names _ Hreg g Hg) as Hg'. rewrite Hgn in Hg'.
      by apply Forall_app in Hg' as [? _]. }
    destruct (link_subs_view _ _ _ _ _ _ w H1) as [_ Hs]. destruct (Hs (rel (ws ++ [w]))) as (c' & ja & jb & Hrec & Hl).
    + apply subdirs_spec; eauto.
    + by apply fbase_rel.
    + intros s (v & -> & _ & _ & Hb)%Hsd Hsb. congruence.
    + exists c'. split; [done|]. by eapply Hsub.
  - intros w Hnf Hnh. destruct (link_files_view _ _ _ _ _ _ w H2) as [Hv _]. rewrite Hv.
    + destruct (link_subs_view _ _ _ _ _ _ w H1) as [Hs _]. rewrite Hs, E0; [apply lookup_empty|].
      intros s (v & -> & _ & Hh & Hb)%Hsd Hsb. apply Hnh. congruence.
    + intros g (v & Hg & Hgn & Hb)%Hdf Hgb. apply Hnf. exists g. split; [done|congruence].
Qed.
Lemma has_file_key ws : Forall seg_ok ws → is_Some (pl_byDir pl !! rel ws) ↔ has_file files ws.
Proof.
  intros Hws. rewrite (pn_keys _ _ Hpl). split.
  - intros (f & Hf & Hd). destruct (file_dir _ _ Hreg Hf) as (ks & w & Hn & Hok & Hd' & _).
    rewrite Hd' in Hd. apply Forall_app in Hok as [Hks _]. apply rel_inj in Hd as ->; [|done..]. by exists f, w.
  - intros (g & w & Hg & Hn). exists g. split; [done|]. rewrite names_rel, Hn. apply dirOf_rel. rewrite <- Hn.
    by apply (rf_names _ Hreg).
Qed.
Lemma buildDir_resolves fuel leaves ws c j j' f tail :
  Forall seg_ok ws → buildDir fuel (pl_byDir pl) leaves (rel ws) j = (Ok c, j') →
  f ∈ files → names f = ws ++ tail → tail ≠ [] →
  (covered files ws tail → is_Some (leaves !! mf_Path f) ∧ resolve c tail = leaves !! mf_Path f) ∧
  (¬ covered files ws tail → resolve c tail = None).
Proof.
  intros Hws H Hf. revert ws c j j' tail Hws H. induction fuel as [|fuel IH]; intros ws c j j' tail Hws H Hn Hne; [done|].
  apply (buildDir_entries _ _ (λ vs c, ∀ tail, names f = vs ++ tail → tail ≠ [] →
    (covered files vs tail → is_Some (leaves !! mf_Path f) ∧ resolve c tail = leaves !! mf_Path f) ∧
    (¬ covered files vs tail → resolve c tail = None))) in H as (ents & He & Hfile & Hdir & Hnone);
    [|done|intros vs c' ja jb Hvs Hb tl Htl Htne; by eapply (IH vs c' ja jb)].
  destruct tail as [|w [|w' tail]]; [done| |].
  - destruct (Hfile f w Hf Hn) as [Hs Hl]. split.
    + intros _. split; [done|]. cbn [resolve]. rewrite He. simpl. destruct Hs as [leaf Hleaf]. rewrite Hl, Hleaf. done.
    + intros Hnc. exfalso. apply Hnc. intros pre suf E Hp Hs'. destruct pre as [|x [|]], suf; done.
  - cbn [resolve]. rewrite He. cbn [mbind option_bind].
    assert (names f = (ws ++ [w]) ++ w' :: tail) as Hn' by by rewrite <- app_assoc.
    assert (Forall seg_ok (ws ++ [w])) as Hok.
    { pose proof (rf_names _ Hreg f Hf) as Hok. rewrite Hn' in Hok. by apply Forall_app in Hok as [? _]. }
    assert (¬ ∃ g, g ∈ files ∧ names g = ws ++ [w]) as Hnf.
    { intros (g & Hg & Hgn). rewrite <- Hgn in Hn'. by apply (rf_free _ Hreg) in Hn' as []. }
    destruct (decide (is_Some (pl_byDir pl !! rel (ws ++ [w])))) as [Hk|Hk]; rewrite (has_file_key _ Hok) in Hk.
    + destruct (Hdir w Hk) as (c' & -> & Hc'). cbn [mbind option_bind].
      destruct (Hc' (w' :: tail) Hn' ltac:(done)) as [Hyes Hno].
      assert (covered files ws (w :: w' :: tail) ↔ covered files (ws ++ [w]) (w' :: tail)) as ->; [|done].
      split; intros Hc pre suf E Hp Hs.
      * rewrite <- app_assoc. apply (Hc ([w] ++ pre) suf); [|done..]. cbn [app]. by rewrite E.
      * destruct pre as [|x pre]; [done|]. injection E as <- E. destruct pre as [|y pre]; [done|].
        change (w :: y :: pre) with ([w] ++ y :: pre). rewrite app_assoc. by apply (Hc (y :: pre) suf).
    + rewrite (Hnone w Hnf Hk). split; [|done]. intros Hc. exfalso. apply Hk. by apply (Hc [w] (w' :: tail)).
Qed.

(** *** The recursion ends *)
Lemma link_subs_ext rec rec' subs d j :
  (∀ sub j, sub ∈ subs → rec sub j = rec' sub j) → link_subs rec subs d j = link_subs rec' subs d j.
Proof.
  revert d j. induction subs as [|sub subs IH]; intros d j H; [done|]. cbn [link_subs]. unfold mbind, M_bind.
  rewrite H by apply list_elem_of_here. destruct (rec' sub j) as [[c|e] j1]; [|done].
  destruct (m_wrap "link subdir" (on_jstores (ufs_add_child d (fbase sub) c)) j1) as [[d'|e] j2]; [|done].
  apply IH. intros. apply H. by apply list_elem_of_further.
Qed.
(** The directories with files strictly below [ws]. *)
Definition below (ws : list string) : gset string :=
  filter (λ k, ws `prefix_of` split_on ch_slash k ∧ split_on ch_slash k ≠ ws) (dom (pl_byDir pl)).
Lemma below_sub ws w :
  Forall seg_ok (ws ++ [w]) → has_file files (ws ++ [w]) → size (below (ws ++ [w])) < size (below ws).
Proof.
  intros Hok Hh. apply subset_size. split.
  - intros k. unfold below. rewrite !elem_of_filter. intros ((Hp & Hne) & Hk). split; [split|done].
    + etrans; [|exact Hp]. by apply prefix_app_r.
    + intros E. rewrite E in Hp. apply prefix_length in Hp. rewrite length_app in Hp. simpl in Hp. lia.
  - intros Hs. specialize (Hs (rel (ws ++ [w]))). unfold below in Hs. rewrite !elem_of_filter in Hs.
    rewrite rel_split in Hs by (done || by destruct ws).
    destruct Hs as [[_ Hn] _]; [|done]. split; [split; [by apply prefix_app_r|]|].
    + intros E. apply (f_equal length) in E. rewrite length_app in E. simpl in E. lia.
    + apply elem_of_dom. by apply has_file_key.
Qed.
Lemma buildDir_fuel fuel k leaves ws j :
  Forall seg_ok ws → size (below ws) < fuel →
  buildDir (fuel + k) (pl_byDir pl) leaves (rel ws) j = buildDir fuel (pl_byDir pl) leaves (rel ws) j.
Proof.
  revert ws j. induction fuel as [|fuel IH]; intros ws j Hws Hf; [lia|]. cbn [Nat.add buildDir].
  unfold mbind, M_bind. destruct (m_lift ufs_new_directory j) as [[d|e] j0]; [|done].
  rewrite (link_subs_ext _ (buildDir fuel (pl_byDir pl) leaves)); [done|].
  intros sub j1 (w & -> & Hok & Hh)%subdirs_spec; [|done]. apply IH; [done|].
  pose proof (below_sub ws w Hok Hh). lia.
Qed.
End tree.

Section ingested.
Context {MF : Multiformats} {IP : Ipld} {BS : Blockstore} {FM : FileManager} {FS : Filestore}
  {DS : Datastore} {BA : Batching} {K : Keys} {N : Network} {HS : Hashes} {IM : Importer} {IML : ImporterLaws}.
Implicit Types (j : job) (f g : FileManifest) (files : list FileManifest).

(** [c] is the CID the importer gave the content of [f]. *)
Definition leaf_of (chunk : Z) f (c : cid) : Prop := ∃ j n j', addFileNocopy chunk f j = (Ok (c, n), j').
Lemma add_files_leaves chunk progress files pl j pl' j' :
  regular_files files → add_files chunk progress files pl j = (Ok pl', j') →
  ∀ f, f ∈ files → ∃ c, pl_leaves pl' !! mf_Path f = Some c ∧ leaf_of chunk f c.
Proof.
  assert (∀ before files pl j, regular_files (before ++ files) → add_files chunk progress files pl j = (Ok pl', j') →
    (∀ f, f ∈ before → ∃ c, pl_leaves pl !! mf_Path f = Some c ∧ leaf_of chunk f c) →
    ∀ f, f ∈ before ++ files → ∃ c, pl_leaves pl' !! mf_Path f = Some c ∧ leaf_of chunk f c) as Hgen.
  2:{ intros Hr H f Hf. eapply (Hgen []); [done|exact H| |done]. by intros ? []%not_elem_of_nil. }
  clear. intros before files. revert before. induction files as [|f files IH]; intros before pl j Hr H Hb; cbn [add_files] in H.
  { injection H as <- _. by rewrite app_nil_r. }
  apply bind_ok_inv in H as ([c n] & j1 & Hc & H). apply bind_ok_inv in H as ([] & j2 & _ & H).
  rewrite (cons_middle f before files), app_assoc in Hr |- *. eapply IH; [done|exact H|]. cbn [pl_leaves fst].
  assert (leaf_of chunk f c) as Hleaf.
  { unfold m_wrap in Hc. destruct (addFileNocopy chunk f j) as [[r|e] j0] eqn:E; [|done]. injection Hc as -> _. by exists j, n, j0. }
  intros g Hg. destruct (decide (mf_Path g = mf_Path f)) as [E|Hne].
  - destruct (rf_free _ Hr f g []) as [_ ->]; [set_solver..| |].
    + rewrite app_nil_r. unfold names. by rewrite E.
    + exists c. by rewrite lookup_insert_eq.
  - apply elem_of_app in Hg as [Hg| ->%list_elem_of_singleton]; [|done].
    rewrite lookup_insert_ne by done. by apply Hb.
Qed.

Lemma buildTree_run chunk progress files j root n j' :
  regular_files files → buildTree chunk progress files j = (Ok (root, n), j') → ∀ f, f ∈ files →
  (covered files [] (names f) → ∃ c, resolve root (names f) = Some c ∧ leaf_of chunk f c) ∧
  (¬ covered files [] (names f) → resolve root (names f) = None).
Proof.
  intros Hr H f Hf. unfold buildTree in H. apply bind_ok_inv in H as (pl & j1 & Hpl & H).
  apply bind_ok_inv in H as (c & j2 & Hb & H). injection H as -> _ _.
  pose proof (add_files_leaves _ _ _ _ _ _ _ Hr Hpl f Hf) as (leaf & Hl & Hleaf).
  apply (add_files_planned _ _ _ _ _ _ _ planned_nil) in Hpl.
  destruct (buildDir_resolves files Hr pl Hpl _ _ [] root _ _ f (names f) ltac:(constructor) Hb Hf eq_refl (names_nonempty f)) as [Hyes Hno].
  split; [|done]. intros Hc. destruct (Hyes Hc) as [_ ->]. by exists leaf.
Qed.

End ingested.

(** ** What sharing touches

    A relation that reading files, writing blocks and reporting keep is kept
    while the tree is built; one that the table and the network keep, by [Run]. *)
Section touching.
Context {MF : Multiformats} {IP : Ipld} {BS : Blockstore} {FM : FileManager} {FS : Filestore}
  {DS : Datastore} {BA : Batching} {K : Keys} {N : Network} {HS : Hashes} {IM : Importer}.
Context (R : relation job) `{!PreOrder R} (chunk : Z) (progress : string → M job unit).
Context (HR_look : ∀ A (op : M osst A), pres same_fs op → pres R (on_jfiles op)).
Context (HR_stores : ∀ A (op : bstore → fman → result A * (bstore * fman)), pres R (on_jstores op)).
Context (HR_progress : ∀ s, pres R (progress s)).

Lemma kept_addFile f : pres R (addFileNocopy chunk f).
Proof.
  unfold addFileNocopy. case_decide; [apply pres_fail, _|].
  do 3 (apply pres_bind; [apply _|apply HR_look, same_fs_query|]; intros ?).
  apply pres_bind; [apply _|apply HR_stores|]. intros ?. apply pres_ret, _.
Qed.
Lemma kept_add_files files pl : pres R (add_files chunk progress files pl).
Proof.
  revert pl. induction files as [|f files IH]; intros pl; cbn [add_files]; [apply pres_ret, _|].
  apply pres_bind; [apply _|apply pres_wrap, kept_addFile|]. intros r.
  apply pres_bind; [apply _|apply HR_progress|]. intros _. apply IH.
Qed.
Lemma kept_buildDir fuel byDir leaves dir : pres R (buildDir fuel byDir leaves dir).
Proof.
  revert dir. induction fuel as [|fuel IH]; intros dir; cbn [buildDir]; [apply pres_fail, _|].
  apply pres_bind; [apply _|apply pres_lift, _|]. intros d0. apply pres_bind; [apply _| |intros d1].
  { generalize (subdirs byDir dir) as l. intros l. revert d0. induction l as [|x l IHl]; intros d0; cbn [link_subs]; [apply pres_ret, _|].
    apply pres_bind; [apply _|apply IH|]. intros c. apply pres_bind; [apply _|apply pres_wrap, HR_stores|]. apply IHl. }
  apply pres_bind; [apply _| |intros d2].
  { generalize (default [] (byDir !! dir)) as l. intros l. revert d1. induction l as [|x l IHl]; intros d1; cbn [link_files]; [apply pres_ret, _|].
    destruct (leaves !! mf_Path x); [|apply pres_fail, _]. apply pres_bind; [apply _|apply pres_wrap, HR_stores|]. apply IHl. }
  apply pres_bind; [apply _|apply pres_lift, _|]. intros root.
  apply pres_bind; [apply _|apply HR_stores|]. intros _. apply pres_ret, _.
Qed.
Lemma kept_buildTree files : pres R (buildTree chunk progress files).
Proof.
  unfold buildTree. apply pres_bind; [apply _|apply kept_add_files|]. intros pl.
  apply pres_bind; [apply _|apply kept_buildDir|]. intros root. apply pres_ret, _.
Qed.

Lemma EnrichFromTree_looks p commit files : pres same_fs (EnrichFromTree p commit files).
Proof. unfold EnrichFromTree, ReadTree. pres_auto. Qed.
Lemma ReadSnapshot_looks p commit : pres same_fs (ReadSnapshot p commit).
Proof.
  unfold ReadSnapshot. apply pres_bind; [apply _|apply pres_wrap, same_fs_query|]. intros _.
  apply pres_bind; [apply _|apply pres_gets, _|]. intros fs. apply pres_bind; [apply _|apply same_fs_query|]. intros root.
  apply pres_bind; [apply _|apply walk_looks|]. intros files. apply pres_ret, _.
Qed.
Context (HR_map : ∀ A (op : M bstate A), pres R (on_jnode (on_map op))).
Context (HR_net : ∀ A (op : M node A), pres local_same op → pres R (on_jnode op)).
Lemma kept_Run cfg now repoID t commit : ChunkSize cfg = chunk → pres R (Run cfg now repoID t commit progress).
Proof.
  intros Hc. unfold Run. apply pres_bind; [apply _|apply HR_look, ReadSnapshot_looks|]. intros snap.
  assert (pres R (files ← on_jfiles (EnrichFromTree (NewPaths (HFHubDir cfg) repoID t) commit snap);
    share cfg now repoID t commit progress files)) as H; [|destruct snap; [apply pres_fail, _|exact H]].
  apply pres_bind; [apply _|apply HR_look, EnrichFromTree_looks|]. intros files. unfold share. rewrite Hc.
  apply pres_bind; [apply _|apply kept_buildTree|]. intros rc. apply pres_bind; [apply _|apply pres_lift, _|]. intros d.
  apply pres_bind; [apply _|apply pres_wrap, HR_map|]. intros _.
  apply pres_bind; [apply _|apply pres_ignore, HR_net, local_ProvideCommit|]. intros _. apply pres_ret, _.
Qed.
End touching.

(** ** What sharing records *)
Section recording.
Context {MF : Multiformats} {MFL : MultiformatsLaws} {IP : Ipld} {BS : Blockstore} {FM : FileManager} {FS : Filestore}
  {DS : Datastore} {BA : Batching} {DL : DatastoreLaws} {BAL : BatchingLaws} {K : Keys} {N : Network} {HS : Hashes} {IM : Importer}.
Implicit Types (j : job) (m : gmap string Entry) (files : list FileManifest).

(** Go's types of the fields of a [FileInfo]. *)
Definition host_ok (fs : gmap fpath fnode) : Prop := ∀ q info, fs_stat fs q = Ok info →
  in_int64 (fi_size info) ∧ (0 ≤ fi_perm info ≤ 4294967295)%Z ∧ in_int64 (fi_mtime info).

Lemma read_entry_ok p snapDir path s l s' :
  host_ok (os_fs s) → read_entry p snapDir path s = (Ok l, s') → Forall manifest_ok l.
Proof.
  intros Hh. unfold read_entry. intros (rl & s1 & Hrel & H)%bind_ok_inv. injection Hrel as _ <-.
  destruct (isInsideBookkeeping rl); [by injection H as <- _|].
  apply bind_ok_inv in H as (info & s2 & Hi & H).
  assert (manifest_ok (mk_FileManifest "" "" (fi_size info) "" (fi_perm info) (fi_mtime info) false "" "")) as Hok.
  { unfold m_wrap in Hi. destruct (os_stat path s) as [[x|] s3] eqn:E; [|done]. injection Hi as -> _.
    apply os_query_ok in E as [E _]. exact (Hh _ _ E). }
  destruct (negb (fi_regular info)); [by injection H as <- _|].
  apply bind_ok_inv in H as (lnk & s3 & _ & H).
  match type of H with (let '(_, _) := ?x in _) _ = _ => destruct x as [src bn] end.
  apply bind_ok_inv in H as (digest & s4 & _ & H). injection H as <- _. by constructor.
Qed.
Lemma walk_ok fuel p snapDir path name isdir s l s' :
  host_ok (os_fs s) → walk_snapshot fuel p snapDir path name isdir s = (Ok l, s') → Forall manifest_ok l.
Proof.
  revert path name isdir s l s'. induction fuel as [|fuel IH]; intros path name isdir s l s' Hh H; cbn [walk_snapshot] in H;
    (destruct isdir; cbn [negb] in H; [|by eapply read_entry_ok]); case_decide; try (by injection H as <- _); [done|].
  apply bind_ok_inv in H as (es & s1 & He & H).
  assert (os_fs s1 = os_fs s) as Hs by (apply os_query_ok in He as [_ ->]; apply ticked_fs).
  apply flat_map_run in H as [H _]; [|intros x; apply walk_looks]. apply Forall_forall. intros f Hf.
  destruct (H f Hf) as (x & ys & s2 & s3 & _ & Hs2 & Hx & Hin).
  apply IH in Hx; [|by rewrite Hs2, Hs]. rewrite Forall_forall in Hx. by apply Hx.
Qed.
Lemma ReadSnapshot_ok p commit s l s' :
  host_ok (os_fs s) → ReadSnapshot p commit s = (Ok l, s') → Forall manifest_ok l.
Proof.
  intros Hh. unfold ReadSnapshot. intros (i & s1 & H1 & H)%bind_ok_inv. rewrite bind_gets_run in H.
  apply bind_ok_inv in H as (root & s2 & H2 & H). apply bind_ok_inv in H as (files & s3 & H3 & H).
  injection H as <- _. assert (os_fs s2 = os_fs s) as Hs.
  { apply os_query_ok in H2 as [_ ->]. rewrite ticked_fs. unfold m_wrap in H1.
    destruct (os_stat _ s) as [r s0] eqn:E. apply os_query_cases in E as [-> _]. destruct r; [|done].
    by injection H1 as _ <-. }
  apply walk_ok in H3; [|by rewrite Hs].
  unfold sortManifests. by rewrite insertion_sort_perm.
Qed.
Lemma EnrichFromTree_ok p commit files s l s' :
  Forall manifest_ok files → EnrichFromTree p commit files s = (Ok l, s') → Forall manifest_ok l.
Proof.
  intros Hf. unfold EnrichFromTree. intros (r & s1 & _ & H)%bind_ok_inv.
  destruct r as [[t|]|]; injection H as <- _; [|done..]. apply Forall_map. eapply Forall_impl; [exact Hf|].
  intros f. unfold enrich. by destruct (tr_Files t !! mf_Path f).
Qed.

(** The table stays. *)
Definition map_kept j j' : Prop := nd_map (jb_node j') = nd_map (jb_node j).
#[export] Instance map_kept_preorder : PreOrder map_kept.
Proof. unfold map_kept. split; [done|]. intros a b c. intros E1 E2. congruence. Qed.
Lemma kept_files {A} (op : M osst A) : pres map_kept (on_jfiles op).
Proof. intros j. unfold on_jfiles, on_jnode, on_files, m_zoom. by destruct (op (nd_os (jb_node j))). Qed.
Lemma kept_stores {A} (op : bstore → fman → result A * (bstore * fman)) : pres map_kept (on_jstores op).
Proof. intros j. unfold on_jstores, on_jnode, on_stores, m_zoom. by destruct (op (nd_bs (jb_node j)) _) as [? [? ?]]. Qed.

Context (chunk : Z) (progress : string → M job unit) (Hprogress : ∀ s, pres map_kept (progress s)).

Context (cfg : Config) (Hchunk : ChunkSize cfg = chunk) (now : string) (Hnow : rfc3339 now = true).
Context (repoID : string) (t : RepoType).
#[local] Abbreviation paths := (NewPaths (HFHubDir cfg) repoID t).

(** What the table holds of a shared revision. *)
Definition shared_entry commit (res : Result) files : Entry :=
  mk_Entry repoID t commit (cid_string (re_ActualCID res)) (cid_string (re_DummyCID res)) (map published files)
    (total_size files) now "ingest".
(** The revision that was shared is the snapshot on disk, enriched from its tree record. *)
Definition shared commit j (res : Result) files : Prop :=
  ∃ snap o1 o2 j1 j2, snap ≠ [] ∧ ReadSnapshot paths commit (jos j) = (Ok snap, o1) ∧
    EnrichFromTree paths commit snap o1 = (Ok files, o2) ∧ jos j1 = o2 ∧
    buildTree chunk progress files j1 = (Ok (re_ActualCID res, re_Chunks res), j2) ∧
    FromCommit commit = Ok (re_DummyCID res) ∧ re_Commit res = commit ∧ re_Files res = length files.

Lemma on_jfiles_run {A} (op : M osst A) j r j' :
  on_jfiles op j = (r, j') → op (jos j) = (r, jos j') ∧ map_kept j j'.
Proof.
  unfold on_jfiles, on_jnode, on_files, m_zoom, jos, map_kept. destruct (op (nd_os (jb_node j))) as [r0 o].
  by intros [= <- <-].
Qed.
Lemma represents_kept m j j' : map_kept j j' → represents (nd_map (jb_node j)) m → represents (nd_map (jb_node j')) m.
Proof. by intros ->. Qed.
Lemma total_size_ok files : in_int64 (total_size files).
Proof.
  unfold total_size. assert (in_int64 0) as H by done. revert H. generalize 0%Z as z.
  induction files as [|f files IH]; intros z Hz; [done|]. cbn [foldl]. apply IH, wrap64_range.
Qed.

Lemma Run_run commit m j r j' :
  represents (nd_map (jb_node j)) m → host_ok (os_fs (jos j)) →
  Run cfg now repoID t commit progress j = (r, j') →
  match r with
  | Err _ => represents (nd_map (jb_node j')) m
  | Ok res => ∃ files, shared commit j res files ∧
      represents (nd_map (jb_node j')) (<[commit := shared_entry commit res files]> m)
  end.
Proof.
  intros Hm Hh. unfold Run.
  destruct (on_jfiles (ReadSnapshot paths commit) j) as [r1 j1] eqn:E1. apply on_jfiles_run in E1 as E; destruct E as [S1 M1].
  apply (represents_kept _ _ _ M1) in Hm. destruct r1 as [snap|e]; [|rewrite (bind_run_err _ _ _ _ _ E1); by intros [= <- <-]].
  rewrite (bind_run_ok _ _ _ _ _ E1). destruct (decide (snap = [])) as [->|Hne]; [by intros [= <- <-]|].
  intros H. assert ((files ← on_jfiles (EnrichFromTree paths commit snap); share cfg now repoID t commit progress files) j1 = (r, j')) as H'.
  { revert H. by destruct snap. }
  clear H; rename H' into H.
  destruct (on_jfiles (EnrichFromTree paths commit snap) j1) as [r2 j2] eqn:E2. apply on_jfiles_run in E2 as E; destruct E as [S2 M2].
  apply (represents_kept _ _ _ M2) in Hm. destruct r2 as [files|e]; [|rewrite (bind_run_err _ _ _ _ _ E2) in H; by injection H as <- <-].
  rewrite (bind_run_ok _ _ _ _ _ E2) in H. unfold share in H. rewrite Hchunk in H.
  destruct (buildTree chunk progress files j2) as [r3 j3] eqn:E3.
  pose proof (kept_buildTree map_kept chunk progress (λ A op _, kept_files op) (@kept_stores) Hprogress files j2) as M3. rewrite E3 in M3. apply (represents_kept _ _ _ M3) in Hm.
  destruct r3 as [[root chunks]|e]; [|rewrite (bind_run_err _ _ _ _ _ E3) in H; by injection H as <- <-].
  rewrite (bind_run_ok _ _ _ _ _ E3), bind_lift_run in H.
  destruct (FromCommit commit) as [d|e] eqn:Ed; [|by injection H as <- <-].
  cbn [fst snd] in H.
  match type of H with mbind _ (m_wrap _ (on_jnode (on_map (DB.Put ?e)))) _ = _ => set (en := e) in H end.
  destruct (on_jnode (on_map (DB.Put en)) j3) as [r4 j4] eqn:E4. rewrite (bind_wrap_run _ _ _ _ _ _ E4) in H.
  assert (represents (nd_map (jb_node j4)) (match r4 with Ok _ => <[commit := published_entry en]> m | Err _ => m end)) as Hm4.
  { unfold on_jnode, on_map, m_zoom in E4. destruct (DB.Put en (nd_map (jb_node j3))) as [r0 b] eqn:E.
    injection E4 as <- <-. apply (Put_run _ m _ _ _ Hm) in E; [exact E| |].
    - split_and!; [|apply total_size_ok|exact Hnow]. eapply EnrichFromTree_ok; [|exact S2].
      eapply ReadSnapshot_ok; [|exact S1]. done.
    - apply FromCommit_ok_inv in Ed as ([Hl _] & raw & _ & Hd & _). apply (hex_seg_ok _ _ Hd). intros E0. cbn [en en_CommitHash] in E0. by rewrite E0 in Hl. }
  destruct r4 as [[]|e]; [|by injection H as <- <-].
  rewrite bind_ignore_run in H. pose proof (local_jnode _ (local_ProvideCommit commit root) j4) as (M5 & _).
  injection H as <- <-. exists files. split; [|by rewrite M5].
  exists snap, (jos j1), (jos j2), j2, j3. by split_and!.
Qed.

(** Checking a snapshot only looks. *)
Section looking.
Context (R : relation osst) `{!PreOrder R} (HR : ∀ A (f : gmap fpath fnode → result A), pres R (os_query f)).
Lemma complete_kept fuel dir : pres R (complete_walk fuel dir).
Proof.
  revert dir. induction fuel as [|fuel IH]; intros dir; cbn [complete_walk]; [apply pres_ret, _|].
  apply pres_bind; [apply _|apply pres_try, HR|]. intros [es|e]; [|apply pres_ret, _].
  induction es as [|[n node] es IHes]; [apply pres_ret, _|].
  case_match.
  - apply pres_bind; [apply _|apply IH|]. intros []; [exact IHes|apply pres_ret, _].
  - apply pres_bind; [apply _|apply pres_try, HR|]. intros []; [exact IHes|apply pres_ret, _].
Qed.
Lemma SnapshotComplete_kept p commit : pres R (SnapshotComplete p commit).
Proof.
  unfold SnapshotComplete. apply pres_bind; [apply _|apply pres_try, HR|]. intros [[|x es]|e]; [apply pres_ret, _| |apply pres_ret, _].
  apply pres_bind; [apply _|apply pres_gets, _|]. intros fs. apply complete_kept.
Qed.
End looking.
Lemma SnapshotComplete_looks p commit : pres same_fs (SnapshotComplete p commit).
Proof. apply SnapshotComplete_kept; [apply _|intros A f; apply same_fs_query]. Qed.

(** C22. Sharing what a reference points at, whatever fails: a revision that is
    in the table already is left alone; otherwise the table gains exactly the
    entry of the commit, made from the snapshot on disk with the tree that was
    built, and only from a snapshot that is complete; and a run that reports an
    error has recorded nothing. *)
Theorem RunRepo_records ref m j r j' :
  represents (nd_map (jb_node j)) m → host_ok (os_fs (jos j)) →
  RunRepo cfg now repoID t ref progress j = (r, j') →
  match r with
  | Err _ => represents (nd_map (jb_node j')) m
  | Ok (None, done) => done = false ∧ represents (nd_map (jb_node j')) m ∧
      ∃ commit o, CurrentCommit paths ref (jos j) = (Ok commit, o) ∧ is_Some (m !! commit)
  | Ok (Some res, done) => done = true ∧ ∃ commit files j0,
      CurrentCommit paths ref (jos j) = (Ok commit, jos j0) ∧ m !! commit = None ∧
      ∃ o, SnapshotComplete paths commit (jos j0) = (Ok true, o) ∧ os_fs o = os_fs (jos j) ∧
      (∃ j1, jos j1 = o ∧ shared commit j1 res files) ∧
      represents (nd_map (jb_node j')) (<[commit := shared_entry commit res files]> m)
  end.
Proof.
  intros Hm Hh. unfold RunRepo.
  destruct (on_jfiles (CurrentCommit paths ref) j) as [r1 j1] eqn:E1. apply on_jfiles_run in E1 as E; destruct E as [S1 M1].
  apply (represents_kept _ _ _ M1) in Hm. destruct r1 as [commit|e]; [|rewrite (bind_run_err _ _ _ _ _ E1); by intros [= <- <-]].
  rewrite (bind_run_ok _ _ _ _ _ E1).
  assert (seg_ok commit ∧ os_fs (jos j1) = os_fs (jos j)) as [Hseg F1].
  { unfold CurrentCommit in S1. apply bind_ok_inv in S1 as (data & o & Hr & H). apply os_query_ok in Hr as [_ ->].
    destruct (negb _) eqn:Hl; [done|]. destruct (hex_decode (trim_space data)) as [raw|] eqn:Hd; [|done].
    injection H as <- <-. split; [|apply ticked_fs]. apply (hex_seg_ok _ _ Hd). intros E. by rewrite E in Hl. }
  assert (on_jnode (on_map (DB.Has commit)) j1 = (Ok (bool_decide (is_Some (m !! commit))), j1)) as E2.
  { unfold on_jnode, on_map, m_zoom. rewrite (Has_run _ _ _ Hm Hseg). by destruct j1 as [[] ?]. }
  rewrite (bind_run_ok _ _ _ _ _ E2). case_bool_decide as Hin.
  { intros [= <- <-]. split_and!; [done..|]. by exists commit, (jos j1). }
  destruct (on_jfiles (SnapshotComplete paths commit) j1) as [r3 j3] eqn:E3. apply on_jfiles_run in E3 as E; destruct E as [S3 M3].
  apply (represents_kept _ _ _ M3) in Hm. destruct r3 as [complete|e]; [|rewrite (bind_run_err _ _ _ _ _ E3); by intros [= <- <-]].
  rewrite (bind_run_ok _ _ _ _ _ E3). destruct complete; cbn [negb]; [|by intros [= <- <-]].
  pose proof (SnapshotComplete_looks paths commit (jos j1)) as F3. rewrite S3 in F3. unfold same_fs in F3. cbn [snd] in F3.
  destruct (Run cfg now repoID t commit progress j3) as [r4 j4] eqn:E4.
  apply (Run_run _ m) in E4 as H4; [|done|by rewrite F3, F1].
  destruct r4 as [res|e]; [|rewrite (bind_run_err _ _ _ _ _ E4); by intros [= <- <-]].
  rewrite (bind_run_ok _ _ _ _ _ E4). intros [= <- <-]. destruct H4 as (files & Hsh & Hm4). split; [done|].
  exists commit, files, j1. split_and!; [done|by apply eq_None_not_Some|]. exists (jos j3).
  split_and!; [done|by rewrite F3, F1| |done]. by exists j3.
Qed.
End recording.

(** ** A concrete importer *)
Module ToyIngest.
Import ToyNode.
(* A directory block is the JSON of its entries; a CID is its codec and the bytes. *)
Definition link_json (kv : string * (ascii * string)) : json := JArr [JStr kv.1; JStr (Toy.to_string kv.2)].
Definition dir_json (d : gmap string (ascii * string)) : json := JArr (map link_json (map_to_list d)).
Definition link_of_json (j : json) : option (string * (ascii * string)) :=
  match j with
  | JArr [JStr n; JStr s] => match Toy.of_string s with Ok c => Some (n, c) | Err _ => None end
  | _ => None
  end.
Definition dir_of_json (j : json) : option (gmap string (ascii * string)) :=
  match j with JArr l => list_to_map <$> mapM link_of_json l | _ => None end.
Lemma dir_json_roundtrip d : dir_of_json (dir_json d) = Some d.
Proof.
  unfold dir_of_json, dir_json. assert (mapM link_of_json (map link_json (map_to_list d)) = Some (map_to_list d)) as ->.
  { apply mapM_Some. generalize (map_to_list d) as l. induction l as [|[n c] l IH]; [constructor|].
    constructor; [|done]. cbn [link_json link_of_json fst snd].
    pose proof (cid_decode_string (H := Toy.multiformats) c) as E. cbn in E. by rewrite E. }
  cbn [fmap option_fmap option_map]. by rewrite list_to_map_to_list.
Qed.
#[export] Instance importer : Importer := {|
  ufs_dir := gmap string (ascii * string);
  ufs_new_directory := Ok ∅;
  ufs_add_child d name c b f := (Ok (<[name := c]> d), (b, f));
  ufs_get_node d := Ok ((byte_of_Z DagProtobuf, print (dir_json d)), print (dir_json d));
  ufs_layout chunk name data b f := (Ok (byte_of_Z Raw, data), (b, f))
|}.
#[export] Program Instance importer_laws : ImporterLaws := {|
  ufs_view d := d;
  ufs_children c := j ← parse c.2; dir_of_json j
|}.
Next Obligation. by intros d [= <-]. Qed.
Next Obligation. by intros d name c b f d' bf [= <- _]. Qed.
Next Obligation.
  intros d c data [= <- _]. cbn [snd]. rewrite parse_print; [apply dir_json_roundtrip|].
  apply plain_arr. intros [n c']. by split_and!.
Qed.

Definition file (path src : string) : FileManifest := mk_FileManifest path path 1 "" 420 0 false "" src.
Definition files : list FileManifest := [file "a" "/s/1"; file "d/x" "/s/2"; file "p/q/z" "/s/3"].
Definition fs : gmap fpath fnode :=
  {[ ["s"] := FDir 493; ["s"; "1"] := FFile (mk_regular "1" 420 0); ["s"; "2"] := FFile (mk_regular "2" 420 0);
     ["s"; "3"] := FFile (mk_regular "3" 420 0) ]}.
Definition job0 : job := mk_job (mk_node (nd_map node0) (nd_bs node0) (nd_fm node0) (mk_osst fs [] [] 0) (nd_net node0)) [].
Definition built : result (cid * Z) * job := buildTree 1048576 (λ _, mret tt) files job0.
Definition root : cid := match built.1 with Ok (c, _) => c | Err _ => cid_undef end.

Lemma files_regular : regular_files files.
Proof.
  split.
  - intros f Hf. repeat (apply elem_of_cons in Hf as [->|Hf]); [..|by apply not_elem_of_nil in Hf];
      apply (bool_decide_unpack _); vm_compute; exact I.
  - intros f g ws Hf Hg. repeat (apply elem_of_cons in Hf as [->|Hf]); [..|by apply not_elem_of_nil in Hf];
      (repeat (apply elem_of_cons in Hg as [->|Hg]); [..|by apply not_elem_of_nil in Hg]);
      intros E; vm_compute in E; try discriminate E; destruct ws; by split || discriminate E.
Defined.

#[export] Instance toy_hashes : Hashes := {| sha256_sum := id; sha1_sum := id |}.
(** A cache with one downloaded revision that is not shared yet. *)
Definition commit2 : string := "89abcdef0123456789abcdef0123456789abcdef".
Definition repo_dir : fpath := ["hub"; "models--org--n"].
Definition fs2 : gmap fpath fnode := list_to_map [
  (["hub"], FDir 493); (repo_dir, FDir 493); (repo_dir ++ ["blobs"], FDir 493);
  (repo_dir ++ ["blobs"; "b"], FFile (mk_regular "data" 420 0)); (repo_dir ++ ["refs"], FDir 493);
  (repo_dir ++ ["refs"; "main"], FFile (mk_regular commit2 420 0)); (repo_dir ++ ["snapshots"], FDir 493);
  (repo_dir ++ ["snapshots"; commit2], FDir 493);
  (repo_dir ++ ["snapshots"; commit2; "f"], FLink "../../blobs/b")].
Definition job2 : job := mk_job (mk_node (nd_map node0) (nd_bs node0) (nd_fm node0) (mk_osst fs2 [] [] 0) (nd_net node0)) [].
Definition now : string := "2024-03-01T00:00:00Z".
Definition shared2 : result (option Result * bool) * job := RunRepo cfg0 now "org/n" Model "" say job2.
Definition value_ok (n : fnode) : Prop :=
  let i := node_info "" n in in_int64 (fi_size i) ∧ (0 ≤ fi_perm i ≤ 4294967295)%Z ∧ in_int64 (fi_mtime i).
#[export] Instance value_ok_dec n : Decision (value_ok n).
Proof. unfold value_ok, in_int64. apply _. Defined.
Lemma host_ok_nodes (h : gmap fpath fnode) : map_Forall (λ _, value_ok) h → host_ok h.
Proof.
  intros Hn q info H. unfold fs_stat, mbind, result_bind in H. destruct (fs_follow _ _ _) as [w|]; [|done].
  destruct (fs_lookup h w) as [n|] eqn:El; [|done]. injection H as <-.
  assert (value_ok n) as Hi.
  { unfold fs_lookup in El. destruct (decide (w = [])) as [->|Hne].
    - unfold fs_get in El. injection El as <-. apply (bool_decide_unpack _). exact I.
    - rewrite fs_get_lookup in El by done. destruct (h !! w) as [x|] eqn:E; [|done]. injection El as <-. exact (Hn _ _ E). }
  by destruct n.
Qed.
End ToyIngest.

Section witnesses.
Import ToyNode ToyIngest.

Lemma covered_d_x : covered files [] ["d"; "x"].
Proof.
  intros pre suf E Hpre Hsuf. exists (file "d/x" "/s/2"), "x".
  split; [apply list_elem_of_further, list_elem_of_here|].
  destruct pre as [|x [|y pre]]; [by destruct Hpre| |].
  - injection E as <- _. reflexivity.
  - injection E as _ _ E. destruct pre; [|discriminate E]. by destruct suf.
Qed.

Lemma not_covered_p_q_z : ¬ covered files [] ["p"; "q"; "z"].
Proof.
  intros Hc. destruct (Hc ["p"] ["q"; "z"]) as (g & w & Hg & Hn); [done..|].
  repeat (apply elem_of_cons in Hg as [->|Hg]); [..|by apply not_elem_of_nil in Hg];
    vm_compute in Hn; discriminate Hn.
Qed.


Lemma RunRepo_records_witness : ∃ res fs, shared2.1 = Ok (Some res, true) ∧ length fs = re_Files res ∧
  represents (nd_map (jb_node shared2.2)) (<[commit2 := shared_entry now "org/n" Model commit2 res fs]> table).
Proof.
  assert (match shared2.1 with Ok (Some _, true) => true | _ => false end = true) as Hok by (vm_compute; reflexivity).
  assert (match (CurrentCommit (NewPaths (HFHubDir cfg0) "org/n" Model) "" (jos job2)).1 with
    | Ok c => String.eqb c commit2 | Err _ => false end = true) as Hc by (vm_compute; reflexivity).
  assert (host_ok (os_fs (jos job2))) as Hh by (apply host_ok_nodes, (bool_decide_unpack _); vm_compute; exact I).
  destruct shared2 as [[[[res|] []]|e] j'] eqn:H; [|discriminate Hok..].
  destruct (RunRepo_records (MFL := Toy.multiformats_laws) (BAL := ToyDB.batching_laws) 1048576 say (λ s j, eq_refl) cfg0 eq_refl
    now eq_refl "org/n" Model "" table job2 _ _ represents0 Hh H)
    as (_ & commit & files & j0 & Hcur & _ & o & _ & _ & (j1 & _ & Hsh) & Hm).
  rewrite Hcur in Hc. apply String.eqb_eq in Hc as ->. destruct Hsh as (? & ? & ? & ? & ? & _ & _ & _ & _ & _ & _ & _ & Hl).
  exists res, files. exact (conj eq_refl (conj (eq_sym Hl) Hm)).
Defined.
End witnesses.
