(* ===== verification/Hfapi.v ===== *)
(** * internal/hfapi: the client of the Hugging Face Hub.

    A server is whatever answers: [wb_answers] is the list of what the requests
    get back, each a transport error or a response whose body comes in pieces
    and may break off; [wb_log] is what was asked.  Which URLs [url.Parse]
    accepts is the interface [Urls].  Timeouts and the idle watchdog cut a body
    off, which is an error at its end.  The one-off warning about cleartext
    tokens is a log line and not modelled. *)
From S2P Require Import Prelude GoStrings Json Protoio Hfcache.

Class Urls := { url_parse : string → result unit }.

(** ** The Hub's documents *)
Record LFSInfo := mk_LFSInfo { li_SHA256 : string; li_Size : Z; li_PointerSize : Z }.
Record Sibling := mk_Sibling { sb_RFilename : string; sb_BlobID : string; sb_Size : Z; sb_LFS : option LFSInfo }.
Record RepoInfo := mk_RepoInfo { ri_ID : string; ri_SHA : string; ri_Siblings : list Sibling }.
Record TreeEntry := mk_TreeEntry {
  te_Path : string; te_Type : string; te_Oid : string; te_Size : Z; te_LFS : option LFSInfo; te_XetHash : string
}.

(** A pointer: [null] makes it nil, anything else is decoded into what it points at. *)
Definition dec_ptr {A} (dec : json → A → result A) (zero : A) (j : json) (old : option A) : result (option A) :=
  match j with
  | JNull => Ok None
  | _ => v ← dec j (default zero old); Ok (Some v)
  end.
Definition LFSInfo_fields : list (field LFSInfo) := [
  mk_field "sha256" dec_string li_SHA256 (λ v '(mk_LFSInfo _ b c), mk_LFSInfo v b c);
  mk_field "size" dec_int64 li_Size (λ v '(mk_LFSInfo a _ c), mk_LFSInfo a v c);
  mk_field "pointerSize" dec_int64 li_PointerSize (λ v '(mk_LFSInfo a b _), mk_LFSInfo a b v)
].
Definition dec_LFSInfo : json → option LFSInfo → result (option LFSInfo) :=
  dec_ptr (dec_struct LFSInfo_fields) (mk_LFSInfo "" 0 0).
Definition Sibling_fields : list (field Sibling) := [
  mk_field "rfilename" dec_string sb_RFilename (λ v '(mk_Sibling _ b c d), mk_Sibling v b c d);
  mk_field "blobId" dec_string sb_BlobID (λ v '(mk_Sibling a _ c d), mk_Sibling a v c d);
  mk_field "size" dec_int64 sb_Size (λ v '(mk_Sibling a b _ d), mk_Sibling a b v d);
  mk_field "lfs" dec_LFSInfo sb_LFS (λ v '(mk_Sibling a b c _), mk_Sibling a b c v)
].
Definition RepoInfo_fields : list (field RepoInfo) := [
  mk_field "id" dec_string ri_ID (λ v '(mk_RepoInfo _ b c), mk_RepoInfo v b c);
  mk_field "sha" dec_string ri_SHA (λ v '(mk_RepoInfo a _ c), mk_RepoInfo a v c);
  mk_field "siblings" (dec_list (dec_struct Sibling_fields) (mk_Sibling "" "" 0 None)) ri_Siblings
    (λ v '(mk_RepoInfo a b _), mk_RepoInfo a b v)
].
Definition TreeEntry_fields : list (field TreeEntry) := [
  mk_field "path" dec_string te_Path (λ v '(mk_TreeEntry _ b c d e f), mk_TreeEntry v b c d e f);
  mk_field "type" dec_string te_Type (λ v '(mk_TreeEntry a _ c d e f), mk_TreeEntry a v c d e f);
  mk_field "oid" dec_string te_Oid (λ v '(mk_TreeEntry a b _ d e f), mk_TreeEntry a b v d e f);
  mk_field "size" dec_int64 te_Size (λ v '(mk_TreeEntry a b c _ e f), mk_TreeEntry a b c v e f);
  mk_field "lfs" dec_LFSInfo te_LFS (λ v '(mk_TreeEntry a b c d _ f), mk_TreeEntry a b c d v f);
  mk_field "xetHash" dec_string te_XetHash (λ v '(mk_TreeEntry a b c d e _), mk_TreeEntry a b c d e v)
].
Definition dec_RepoInfo : json → RepoInfo → result RepoInfo := dec_struct RepoInfo_fields.
Definition dec_TreeEntries : json → list TreeEntry → result (list TreeEntry) :=
  dec_list (dec_struct TreeEntry_fields) (mk_TreeEntry "" "" "" 0 None "").

(** ** Percent-encoding *)
Definition upper_hex (n : N) : ascii := if (n <? 10)%N then ascii_of_N (48 + n) else ascii_of_N (55 + n).
(** What [url.PathEscape] leaves alone. *)
Definition path_safe (a : ascii) : bool :=
  ascii_in 48 57 a || ascii_in 65 90 a || ascii_in 97 122 a || contains_char a "-_.~$&+:=@".
Fixpoint path_escape (s : string) : string :=
  match s with
  | "" => ""
  | String a s' =>
      if path_safe a then String a (path_escape s')
      else String "%" (String (upper_hex (N_of_ascii a / 16)) (String (upper_hex (N_of_ascii a mod 16)) (path_escape s')))
  end.
(** [url.PathUnescape]. *)
Fixpoint path_unescape (s : string) : option string :=
  match s with
  | "" => Some ""
  | String "%" (String a (String b s')) =>
      h ← hex_val a; l ← hex_val b; r ← path_unescape s'; Some (String (ascii_of_N (16 * h + l)) r)
  | String "%" _ => None
  | String a s' => r ← path_unescape s'; Some (String a r)
  end.
Definition escape_seg (s : string) : string :=
  if decide (s = ".") then "%2E" else if decide (s = "..") then "%2E%2E" else path_escape s.
Definition escapePath (p : string) : string := join "/" (map escape_seg (split_on ch_slash p)).

(** ** Requests *)
Record request := mk_request { rq_url : string; rq_accept : option string; rq_auth : option string }.
Record response := mk_response { rp_status : Z; rp_body : list string; rp_end : option error }.
Record web := mk_web { wb_log : list request; wb_answers : list (result response) }.

Definition http_do (r : request) : M web response := λ w,
  match wb_answers w with
  | [] => (Err (errorf "connection refused"), mk_web (wb_log w ++ [r]) [])
  | a :: rest => (a, mk_web (wb_log w ++ [r]) rest)
  end.

(** [io.LimitReader]: the pieces a reader sees, and how they end. *)
Fixpoint limit_reader (n : Z) (pieces : list string) (e : option error) : list string * option error :=
  if (n <=? 0)%Z then ([], None)
  else
    match pieces with
    | [] => ([], e)
    | p :: rest =>
        if (slen p <=? n)%Z then let r := limit_reader (n - slen p) rest e in (p :: r.1, r.2)
        else ([take_bytes (Z.to_nat n) p], None)
    end.
Definition concat_str (l : list string) : string := foldr String.append "" l.
Definition read_all (r : list string * option error) : result string :=
  match r.2 with Some e => Err e | None => Ok (concat_str r.1) end.
Definition snippet (b : string) : string :=
  let s := trim_space b in if 200 <? String.length s then take_bytes 200 s +:+ "…" else s.

(** ** The client *)
Record Client := mk_Client { cl_Endpoint : string; cl_Token : string }.
Definition NewClient (endpoint : string) : Client := mk_Client (trim_right_fn (Ascii.eqb ch_slash) endpoint) "".
Definition attachAuth (c : Client) : option string :=
  if decide (cl_Token c = "") then None else Some ("Bearer " +:+ cl_Token c).
Definition status_error {A} (url : string) (resp : response) (body : string) : M web A :=
  m_fail (errorf ("GET " +:+ url +:+ ": HTTP " +:+ dec_of_Z (rp_status resp) +:+ ": " +:+ snippet body)).

Section client.
Context {U : Urls} (c : Client).

(** A metadata call: at most [limit] bytes of the body of a response with status 200. *)
Definition get_metadata (url : string) (limit : Z) : M web string :=
  m_lift (url_parse url) ;;
  resp ← m_wrap ("GET " +:+ url) (http_do (mk_request url (Some "application/json") (attachAuth c)));
  body ← m_wrap ("read " +:+ url +:+ " response") (m_lift (read_all (limit_reader limit (rp_body resp) (rp_end resp))));
  if decide (rp_status resp ≠ 200%Z) then status_error url resp body else mret body.

Definition info_url (repoID : string) (t : RepoType) (revision : string) (blobs : bool) : string :=
  cl_Endpoint c +:+ "/api/" +:+ APIPath t +:+ "/" +:+ escapePath repoID
  +:+ (if decide (revision = "") then "" else "/revision/" +:+ escapePath revision)
  +:+ "?blobs=" +:+ (if blobs then "true" else "false").
Definition RepoInfoAt (repoID : string) (t : RepoType) (revision : string) (blobs : bool) : M web RepoInfo :=
  let url := info_url repoID t revision blobs in
  body ← get_metadata url 8388608;
  info ← m_wrap ("decode " +:+ url +:+ " response") (m_lift (unmarshal dec_RepoInfo body (mk_RepoInfo "" "" [])));
  if negb (String.length (ri_SHA info) =? 40) then m_fail (errorf "no usable commit hash")
  else match hex_decode (ri_SHA info) with
       | None => m_fail (errorf "non-hex commit hash")
       | Some _ => mret info
       end.
Definition LatestCommit (repoID : string) (t : RepoType) : M web string :=
  info ← RepoInfoAt repoID t "" false; mret (ri_SHA info).

Definition tree_url (repoID : string) (t : RepoType) (revision : string) : string :=
  cl_Endpoint c +:+ "/api/" +:+ APIPath t +:+ "/" +:+ escapePath repoID +:+ "/tree/" +:+ escapePath revision
  +:+ "?recursive=true".
Definition TreeAt (repoID : string) (t : RepoType) (revision : string) : M web (list TreeEntry) :=
  let url := tree_url repoID t revision in
  body ← get_metadata url 33554432;
  all ← m_wrap ("decode " +:+ url +:+ " response") (m_lift (unmarshal dec_TreeEntries body []));
  mret (filter (λ e, te_Type e ≠ "directory") all).

Definition ResolveURL (repoID : string) (t : RepoType) (revision path : string) : string :=
  cl_Endpoint c +:+ "/" +:+ (if decide (t ≠ Model) then APIPath t +:+ "/" else "")
  +:+ escapePath repoID +:+ "/resolve/" +:+ escapePath revision +:+ "/" +:+ escapePath path.

(** ** Download

    [open_download] is the request and what is left to read; [io_copy] moves
    the pieces to the writer [w] and returns all it wrote. *)
Definition open_download (repoID : string) (t : RepoType) (revision path : string) (maxBytes : Z) :
    M web (list string * option error) :=
  let u := ResolveURL repoID t revision path in
  m_lift (url_parse u) ;;
  resp ← m_wrap ("GET " +:+ u) (http_do (mk_request u None (attachAuth c)));
  if decide (rp_status resp ≠ 200%Z)
  then status_error u resp (concat_str (limit_reader 4096 (rp_body resp) (rp_end resp)).1)
  else mret (if decide (0 ≤ maxBytes)%Z then limit_reader (wrap64 (maxBytes + 1)) (rp_body resp) (rp_end resp)
             else (rp_body resp, rp_end resp)).
Fixpoint io_copy {S} (w : string → M S unit) (pieces : list string) (e : option error) : M S string :=
  match pieces with
  | [] => match e with Some err => m_fail err | None => mret "" end
  | p :: rest =>
      (if decide (p = "") then mret tt else w p) ;;
      r ← io_copy w rest e;
      mret (p +:+ r)
  end.
Definition Download {S} (in_web : M web (list string * option error) → M S (list string * option error))
    (repoID : string) (t : RepoType) (revision path : string) (maxBytes : Z) (w : string → M S unit) : M S string :=
  src ← in_web (open_download repoID t revision path maxBytes);
  io_copy w src.1 src.2.
End client.

(** ** Paths reach the server as they are *)
Lemma upper_hex_val n : (n < 16)%N → hex_val (upper_hex n) = Some n.
Proof.
  intros H. assert (n ∈ [0;1;2;3;4;5;6;7;8;9;10;11;12;13;14;15]%N) as Hn.
  { rewrite !elem_of_cons. lia. }
  repeat (apply elem_of_cons in Hn as [->|Hn]; [reflexivity|]). by apply not_elem_of_nil in Hn.
Qed.
Lemma path_safe_plain a : path_safe a = true → a ≠ "%"%char ∧ a ≠ ch_slash ∧ a ≠ "?"%char ∧ a ≠ "#"%char.
Proof. intros H. split_and!; by intros ->. Qed.
Lemma path_unescape_plain a s : a ≠ "%"%char → path_unescape (String a s) = r ← path_unescape s; Some (String a r).
Proof. intros H. cbn [path_unescape]. destruct a as [[] [] [] [] [] [] [] []]; try done. Qed.
Lemma path_unescape_escape s : path_unescape (path_escape s) = Some s.
Proof.
  induction s as [|a s IH]; [done|]. cbn [path_escape]. destruct (path_safe a) eqn:Ha.
  - apply path_safe_plain in Ha as [Ha _]. by rewrite path_unescape_plain, IH.
  - cbn [path_unescape]. rewrite !upper_hex_val, IH by (pose proof (N_ascii_bounded a); apply N.Div0.div_lt_upper_bound || apply N.mod_lt; lia).
    cbn. rewrite <- N.div_mod, ascii_N_embedding by done. done.
Qed.

(** No byte of a segment ends it, the path or the query. *)
Definition reserved (c : ascii) : Prop := c = ch_slash ∨ c = "?"%char ∨ c = "#"%char.
Lemma upper_hex_plain c n : reserved c → (n < 16)%N → Ascii.eqb (upper_hex n) c = false.
Proof.
  intros Hc H. assert (n ∈ [0;1;2;3;4;5;6;7;8;9;10;11;12;13;14;15]%N) as Hn by (rewrite !elem_of_cons; lia).
  destruct Hc as [->|[->| ->]]; repeat (apply elem_of_cons in Hn as [->|Hn]; [reflexivity|]); by apply not_elem_of_nil in Hn.
Qed.
Lemma path_escape_plain c s : reserved c → contains_char c (path_escape s) = false.
Proof.
  intros Hc. induction s as [|a s IH]; [done|]. cbn [path_escape]. destruct (path_safe a) eqn:Ha.
  - cbn [contains_char]. rewrite IH, orb_false_r. apply path_safe_plain in Ha as (_ & ? & ? & ?).
    apply Ascii.eqb_neq. by destruct Hc as [->|[->| ->]].
  - cbn [contains_char]. rewrite !upper_hex_plain, IH by (done || pose proof (N_ascii_bounded a); apply N.Div0.div_lt_upper_bound || apply N.mod_lt; lia).
    by destruct Hc as [->|[->| ->]].
Qed.
Lemma escape_seg_plain c w : reserved c → contains_char c (escape_seg w) = false.
Proof.
  intros Hc. unfold escape_seg. repeat case_decide; [by destruct Hc as [->|[->| ->]]..|]. by apply path_escape_plain.
Qed.
Lemma escape_seg_unescape w : path_unescape (escape_seg w) = Some w.
Proof. unfold escape_seg. repeat case_decide; [by subst..|]. apply path_unescape_escape. Qed.
Lemma escape_seg_dots w : escape_seg w ≠ "." ∧ escape_seg w ≠ "..".
Proof.
  unfold escape_seg. repeat case_decide; [done..|].
  split; intros E; pose proof (path_unescape_escape w) as H1; rewrite E in H1; injection H1 as <-; done.
Qed.

Lemma escapePath_split p : split_on ch_slash (escapePath p) = map escape_seg (split_on ch_slash p).
Proof.
  unfold escapePath. apply split_join.
  - intros E%map_eq_nil. by apply split_on_nonempty in E.
  - apply Forall_map, Forall_forall. intros w _. apply escape_seg_plain. by left.
Qed.

(** Whatever a repository id, revision or file name contains, its escaped
    form has the same segments: each is neither a dot segment nor holds a byte
    that ends the path, so no server or proxy reads another path into it, and
    unescaping gives the original back. *)
Theorem escapePath_literal p :
  mapM path_unescape (split_on ch_slash (escapePath p)) = Some (split_on ch_slash p) ∧
  Forall (λ w, w ≠ "." ∧ w ≠ ".." ∧ ∀ c, reserved c → contains_char c w = false) (split_on ch_slash (escapePath p)).
Proof.
  rewrite escapePath_split. split.
  - apply mapM_Some, Forall2_fmap_l, Forall_Forall2_diag, Forall_forall. intros w _. apply escape_seg_unescape.
  - apply Forall_map, Forall_forall. intros w _. destruct (escape_seg_dots w). split_and!; [done..|].
    intros c Hc. by apply escape_seg_plain.
Qed.

(** ** Downloads are bounded *)
Lemma take_bytes_0 s : take_bytes 0 s = "".
Proof. by destruct s. Qed.
Lemma take_bytes_app_le n s t : (String.length s <= n)%nat → take_bytes n (s +:+ t) = s +:+ take_bytes (n - String.length s) t.
Proof.
  revert n. induction s as [|a s IH]; intros n Hn; [by rewrite !sapp_nil_l, Nat.sub_0_r|].
  rewrite !sapp_cons. cbn [String.length] in *. destruct n as [|n]; [lia|]. cbn [take_bytes]. rewrite IH by lia. done.
Qed.
Lemma take_bytes_app_lt n s t : (n < String.length s)%nat → take_bytes n (s +:+ t) = take_bytes n s.
Proof.
  revert n. induction s as [|a s IH]; intros n Hn; cbn [String.length] in *; [lia|].
  rewrite sapp_cons. destruct n as [|n]; [done|]. cbn [take_bytes]. by rewrite IH by lia.
Qed.
Lemma take_bytes_all n s : (String.length s <= n)%nat → take_bytes n s = s.
Proof.
  intros H. rewrite <- (sapp_nil_r s) at 1. rewrite take_bytes_app_le by done.
  destruct (n - String.length s)%nat; apply sapp_nil_r.
Qed.
(** What is behind a limit: the first [n] bytes; the end of the source shows only below them. *)
Lemma limit_reader_spec n pieces e :
  concat_str (limit_reader n pieces e).1 = take_bytes (Z.to_nat n) (concat_str pieces) ∧
  ((slen (concat_str pieces) < n)%Z → (limit_reader n pieces e).2 = e) ∧
  ((n ≤ slen (concat_str pieces))%Z → (limit_reader n pieces e).2 = None).
Proof.
  revert n. induction pieces as [|p rest IH]; intros n; cbn [limit_reader].
  - destruct (Z.leb_spec n 0); unfold slen; cbn; (split; [by destruct (Z.to_nat n)|]); split; intros; done || lia.
  - cbn [concat_str foldr]. fold (concat_str rest). unfold slen in *. rewrite slength_app.
    destruct (Z.leb_spec n 0); [|destruct (Z.leb_spec (Z.of_nat (String.length p)) n)]; cbn [fst snd].
    + replace (Z.to_nat n) with 0%nat by lia. rewrite take_bytes_0. split; [done|]. split; intros; done || lia.
    + destruct (IH (n - Z.of_nat (String.length p))%Z) as (H1 & H2 & H3).
      cbn [concat_str foldr]. fold (concat_str (limit_reader (n - Z.of_nat (String.length p)) rest e).1).
      rewrite H1, take_bytes_app_le by lia. rewrite Z2Nat.inj_sub, Nat2Z.id by lia.
      split; [done|]. split; intros; [apply H2|apply H3]; lia.
    + cbn. rewrite sapp_nil_r, take_bytes_app_lt by lia. split; [done|]. split; intros; done || lia.
Qed.
Lemma io_copy_ok {S} (w : string → M S unit) pieces e s data s' :
  io_copy w pieces e s = (Ok data, s') → e = None ∧ data = concat_str pieces.
Proof.
  revert s data. induction pieces as [|p rest IH]; intros s data H; cbn [io_copy] in H.
  - destruct e; [done|]. by injection H as <- _.
  - apply bind_ok_inv in H as (u & s1 & _ & H). apply bind_ok_inv in H as (r & s2 & Hr & H).
    injection H as <- <-. by apply IH in Hr as [-> ->].
Qed.
Lemma open_download_ok {U : Urls} c repoID t revision path maxBytes w src w' :
  open_download c repoID t revision path maxBytes w = (Ok src, w') →
  ∃ resp rest, wb_answers w = Ok resp :: rest ∧ rp_status resp = 200%Z ∧
    src = if decide (0 ≤ maxBytes)%Z then limit_reader (wrap64 (maxBytes + 1)) (rp_body resp) (rp_end resp)
          else (rp_body resp, rp_end resp).
Proof.
  unfold open_download. intros (u & w1 & H1 & H)%bind_ok_inv. apply bind_ok_inv in H as (resp & w2 & H2 & H).
  assert (w1 = w) as -> by (unfold m_lift in H1; congruence).
  unfold m_wrap, http_do in H2. destruct (wb_answers w) as [|[resp'|] rest]; [done| |done].
  injection H2 as -> _. case_decide as Hs; [discriminate H|]. injection H as <- _. exists resp, rest.
  by split_and!.
Qed.

(** A writer that keeps what it is given. *)
Definition record_bytes (p : string) : M (web * string) unit := m_modify (λ s, (s.1, s.2 +:+ p)).
Definition on_web {T A} (m : M web A) : M (web * T) A := m_zoom fst (λ w s, (w, s.2)) m.
Lemma io_copy_recorded pieces e w x :
  (io_copy record_bytes pieces e (w, x)).2 = (w, x +:+ concat_str pieces).
Proof.
  revert x. induction pieces as [|p rest IH]; intros x; cbn [io_copy].
  - cbn. rewrite sapp_nil_r. by destruct e.
  - cbn [concat_str foldr]. fold (concat_str rest).
    assert (((if decide (p = "") then mret tt else record_bytes p) : M (web * string) unit) (w, x) = (Ok tt, (w, x +:+ p))) as E.
    { case_decide as Hp; [|done]. by rewrite Hp, sapp_nil_r. }
    rewrite (bind_run_ok _ _ _ _ _ E). specialize (IH (x +:+ p)). rewrite sapp_assoc in IH.
    destruct (io_copy record_bytes rest e (w, x +:+ p)) as [[r|err] s'] eqn:E2.
    + rewrite (bind_run_ok _ _ _ _ _ E2). exact IH.
    + rewrite (bind_run_err _ _ _ _ _ E2). exact IH.
Qed.

(** However much a server sends, a download with the bound [maxBytes]
    writes at most one byte more than that.  When it succeeds with exactly
    [maxBytes] bytes they are the whole body of a response with status 200
    that ended properly; a longer body shows as [maxBytes + 1] bytes. *)
Theorem Download_bounded {U : Urls} c repoID t revision path maxBytes w r w' out :
  (0 ≤ maxBytes < int64_max)%Z →
  Download c on_web repoID t revision path maxBytes record_bytes (w, "") = (r, (w', out)) →
  (slen out ≤ maxBytes + 1)%Z ∧
  ∀ data, r = Ok data → data = out ∧
    ∃ resp rest, wb_answers w = Ok resp :: rest ∧ rp_status resp = 200%Z ∧
      data = take_bytes (Z.to_nat (maxBytes + 1)) (concat_str (rp_body resp)) ∧
      ((slen data ≤ maxBytes)%Z → data = concat_str (rp_body resp) ∧ rp_end resp = None) ∧
      ((maxBytes < slen (concat_str (rp_body resp)))%Z → slen data = (maxBytes + 1)%Z).
Proof.
  intros Hb. unfold Download, on_web, m_zoom, mbind at 1, M_bind at 1. cbn [fst snd].
  destruct (open_download c repoID t revision path maxBytes w) as [[[ps e]|err] w1] eqn:E1.
  2:{ intros [= <- <- <-]. split; [unfold slen; cbn; lia|done]. }
  apply open_download_ok in E1 as (resp & rest & Ha & Hs & Hsrc). rewrite decide_True in Hsrc by lia.
  rewrite wrap64_small in Hsrc by (unfold in_int64, int64_min, int64_max in *; lia).
  destruct (limit_reader_spec (maxBytes + 1) (rp_body resp) (rp_end resp)) as (H1 & H2 & H3).
  rewrite <- Hsrc in H1, H2, H3. cbn [fst snd] in *. intros H.
  pose proof (io_copy_recorded ps e w1 "") as Hout. rewrite H in Hout. injection Hout as -> ->. cbn [String.append].
  assert (slen (concat_str ps) ≤ maxBytes + 1)%Z as Hle.
  { rewrite H1. unfold slen. rewrite length_take_bytes. lia. }
  split; [exact Hle|]. intros data ->. apply io_copy_ok in H as [-> ->]. split; [done|].
  exists resp, rest. split_and!; [done..| |].
  - intros Hlen. assert (slen (concat_str (rp_body resp)) < maxBytes + 1)%Z as Hlt.
    { rewrite H1 in Hlen. unfold slen in *. rewrite length_take_bytes in Hlen. lia. }
    split; [|by rewrite H2]. rewrite H1. apply take_bytes_all. unfold slen in Hlt. lia.
  - intros Hlt. rewrite H1. unfold slen in *. rewrite length_take_bytes. lia.
Qed.

(** ** The token

    Two clients that differ in their token only, side by side: what an
    observer sees who is shown everything but the authorization headers. *)
Definition hide (r : request) : request := mk_request (rq_url r) (rq_accept r) None.
Definition same_web (w1 w2 : web) : Prop := map hide (wb_log w1) = map hide (wb_log w2) ∧ wb_answers w1 = wb_answers w2.
Section token.
Context {U : Urls} (c1 c2 : Client) (Hc : cl_Endpoint c1 = cl_Endpoint c2).

Lemma alike_http_do url acc a1 a2 : alike same_web (http_do (mk_request url acc a1)) (http_do (mk_request url acc a2)).
Proof.
  intros w1 w2 [Hl Ha]. unfold http_do. rewrite Ha.
  destruct (wb_answers w2) as [|a rest]; (split; [done|]; split; [|done]); cbn [snd wb_log]; by rewrite !map_app, Hl.
Qed.
Lemma alike_get_metadata url limit : alike same_web (get_metadata c1 url limit) (get_metadata c2 url limit).
Proof.
  unfold get_metadata. apply alike_bind; [apply alike_lift|]. intros _.
  apply alike_bind; [apply alike_wrap, alike_http_do|]. intros resp.
  apply alike_bind; [apply alike_wrap, alike_lift|]. intros body. case_decide; [apply alike_fail|apply alike_ret].
Qed.
Lemma alike_RepoInfoAt repoID t revision blobs :
  alike same_web (RepoInfoAt c1 repoID t revision blobs) (RepoInfoAt c2 repoID t revision blobs).
Proof.
  unfold RepoInfoAt, info_url. rewrite Hc. cbv zeta. apply alike_bind; [apply alike_get_metadata|]. intros body.
  apply alike_bind; [apply alike_wrap, alike_lift|]. intros info.
  destruct (negb _); [apply alike_fail|]. destruct (hex_decode _); [apply alike_ret|apply alike_fail].
Qed.
Lemma alike_LatestCommit repoID t : alike same_web (LatestCommit c1 repoID t) (LatestCommit c2 repoID t).
Proof. unfold LatestCommit. apply alike_bind; [apply alike_RepoInfoAt|]. intros info. apply alike_ret. Qed.
Lemma alike_TreeAt repoID t revision : alike same_web (TreeAt c1 repoID t revision) (TreeAt c2 repoID t revision).
Proof.
  unfold TreeAt, tree_url. rewrite Hc. cbv zeta. apply alike_bind; [apply alike_get_metadata|]. intros body.
  apply alike_bind; [apply alike_wrap, alike_lift|]. intros all. apply alike_ret.
Qed.
Lemma alike_open_download repoID t revision path maxBytes :
  alike same_web (open_download c1 repoID t revision path maxBytes) (open_download c2 repoID t revision path maxBytes).
Proof.
  unfold open_download, ResolveURL. rewrite Hc. cbv zeta. apply alike_bind; [apply alike_lift|]. intros _.
  apply alike_bind; [apply alike_wrap, alike_http_do|]. intros resp. case_decide; [apply alike_fail|apply alike_ret].
Qed.
End token.

(** ** A concrete server *)
Module ToyHub.
#[export] Instance urls : Urls := {| url_parse _ := Ok tt |}.
Definition client : Client := NewClient "https://hub/".
Definition answer (pieces : list string) : result response := Ok (mk_response 200 pieces None).
End ToyHub.

Section witnesses.
Import ToyHub.
Lemma Download_bounded_witness :
  let run := Download client on_web "org/m" Model "main" "a b" 4 record_bytes (mk_web [] [answer ["dat"; "a!!!"]], "") in
  run.1 = Ok "data!" ∧ (slen run.2.2 ≤ 4 + 1)%Z.
Proof.
  intros run. split; [reflexivity|].
  exact (proj1 (Download_bounded client "org/m" Model "main" "a b" 4 (mk_web [] [answer ["dat"; "a!!!"]]) run.1 run.2.1 run.2.2
    ltac:(by split) eq_refl)).
Defined.
End witnesses.
