(* ===== verification/Idle.v ===== *)
(** * internal/hfapi: the watchdog on a download.

    While [Download] copies a body, a goroutine looks every third of
    [bodyIdleTimeout] at the time of the last completed read and cancels the
    request when it is too long ago.  A [timed] body is the reads with the times
    at which they complete, and when and how the body ends, if it ever does.
    [guard] is the body that is left for [Hfapi.io_copy]; times are in
    nanoseconds of one clock. *)
From S2P Require Import Prelude GoStrings GoFS Hfapi.

Definition bodyIdleTimeout : Z := 60 * 1000000000.
Definition idle_tick : Z := bodyIdleTimeout / 3.

Record timed := mk_timed {
  tb_start : Z; tb_reads : list (Z * string); tb_end : option (Z * option error)
}.
(** [last] as it is at the time [now]. *)
Definition last_read (b : timed) (now : Z) : Z :=
  foldr (λ r acc, if (r.1 <=? now)%Z then Z.max r.1 acc else acc) (tb_start b) (tb_reads b).
Definition ended_by (b : timed) (now : Z) : bool :=
  match tb_end b with Some (t, _) => (t <=? now)%Z | None => false end.
(** The time of the cancellation; [ticks] more looks, the first at [now]. *)
Fixpoint watch_body (b : timed) (ticks : nat) (now : Z) : option Z :=
  match ticks with
  | O => None
  | S ticks' =>
      if ended_by b now then None
      else if (now - last_read b now >? bodyIdleTimeout)%Z then Some now
      else watch_body b ticks' (now + idle_tick)
  end.
(** Looks until the body has ended, or long enough after the last read. *)
Definition latest (b : timed) : Z := foldr (λ r acc, Z.max r.1 acc) (tb_start b) (tb_reads b).
Definition looks (b : timed) : nat :=
  let horizon := match tb_end b with Some (t, _) => Z.max t (latest b) | None => latest b end in
  Z.to_nat ((horizon - tb_start b) / idle_tick) + 5.
Definition watchdog (b : timed) : option Z := watch_body b (looks b) (tb_start b + idle_tick).

Definition canceled : error := errorf "context canceled".
(** What the copy gets: the whole body and its end, or what was read before the
    cancellation.  [None]: it would wait for ever. *)
Definition guard (b : timed) : option (list string * option error) :=
  match watchdog b with
  | Some a => Some ((filter (λ r, (r.1 <= a)%Z) (tb_reads b)).*2, Some canceled)
  | None =>
      match tb_end b with
      | Some (_, e) => Some ((tb_reads b).*2, e)
      | None => None
      end
  end.

(** ** Properties *)
Section idle.
Implicit Types (b : timed).
Local Open Scope Z_scope.

Lemma last_read_spec b now :
  tb_start b ≤ last_read b now ≤ latest b ∧ ∀ r, r ∈ tb_reads b → r.1 ≤ now → r.1 ≤ last_read b now.
Proof.
  unfold last_read, latest. induction (tb_reads b) as [|x l [IH1 IH2]]; cbn [foldr].
  { split; [lia|]. intros r H. by apply not_elem_of_nil in H. }
  destruct (Z.leb_spec x.1 now) as [Hx|Hx]; (split; [lia|]); intros r [->|Hr]%elem_of_cons Hle; try lia;
    specialize (IH2 r Hr Hle); lia.
Qed.
(** A cancellation: the body was silent for the whole timeout, and at the look
    before, if there was one, it was not. *)
Lemma watch_some b ticks now a : watch_body b ticks now = Some a →
  a - last_read b a > bodyIdleTimeout ∧ ended_by b a = false ∧
  (a = now ∨ a - idle_tick - last_read b (a - idle_tick) ≤ bodyIdleTimeout).
Proof.
  revert now. induction ticks as [|ticks IH]; intros now; cbn [watch_body]; [done|].
  destruct (ended_by b now) eqn:Ee; [done|]. destruct (Z.gtb_spec (now - last_read b now) bodyIdleTimeout) as [Hg|Hg].
  - intros [= <-]. split; [lia|]. split; [done|by left].
  - intros H. apply IH in H as (H1 & H2 & [->|H3]); (split; [done|]; split; [done|]; right).
    + by replace (now + idle_tick - idle_tick) with now by lia.
    + exact H3.
Qed.
(** Enough looks find the silence after the last read. *)
Lemma watch_enough b ticks now : tb_end b = None →
  now + Z.of_nat ticks * idle_tick - latest b > bodyIdleTimeout → is_Some (watch_body b (S ticks) now).
Proof.
  intros He. revert now. induction ticks as [|ticks IH]; intros now H; cbn [watch_body]; unfold ended_by at 1; rewrite He.
  all: destruct (Z.gtb_spec (now - last_read b now) bodyIdleTimeout) as [Hg|Hg]; [by eexists|].
  - exfalso. pose proof (last_read_spec b now) as [Hl _]. lia.
  - apply (IH (now + idle_tick)). lia.
Qed.
Lemma ticks_of_timeout : bodyIdleTimeout = 3 * idle_tick ∧ 0 < idle_tick.
Proof. done. Qed.
Lemma latest_start b : tb_start b ≤ latest b.
Proof. unfold latest. induction (tb_reads b) as [|x l IH]; cbn [foldr]; lia. Qed.
Lemma watchdog_unending b : tb_end b = None → is_Some (watchdog b).
Proof.
  intros He. unfold watchdog, looks. rewrite He. rewrite Nat.add_succ_r. apply watch_enough; [done|].
  destruct ticks_of_timeout as [-> Ht]. pose proof (latest_start b) as Hl.
  pose proof (Z.div_mod (latest b - tb_start b) idle_tick ltac:(lia)) as Hd.
  pose proof (Z.mod_pos_bound (latest b - tb_start b) idle_tick Ht) as Hm.
  rewrite Nat2Z.inj_add, Z2Nat.id by (apply Z.div_pos; lia). nia.
Qed.

(** C40. A download always ends, and only a dead one is cut off.  Whatever the
    server sends after its headers, the copy gets a body that ends: the server's
    own, or what was read up to a cancellation.  A cancellation comes only after
    a silence of more than the timeout, and no later than a timeout and a third
    after the last read; a body that is never silent for so long is left alone
    however long it takes. *)
Theorem guard_two_sided b :
  (∃ out, guard b = Some out) ∧
  (∀ a, watchdog b = Some a →
    ended_by b a = false ∧ tb_start b < a - bodyIdleTimeout ∧
    (∀ r, r ∈ tb_reads b → r.1 ≤ a → r.1 < a - bodyIdleTimeout) ∧
    a ≤ latest b + bodyIdleTimeout + idle_tick) ∧
  ((∀ now, tb_start b ≤ now → ended_by b now = false → now - last_read b now ≤ bodyIdleTimeout) →
   ∃ t e, tb_end b = Some (t, e) ∧ guard b = Some ((tb_reads b).*2, e)).
Proof.
  assert (∀ a, watchdog b = Some a →
    ended_by b a = false ∧ tb_start b < a - bodyIdleTimeout ∧
    (∀ r, r ∈ tb_reads b → r.1 ≤ a → r.1 < a - bodyIdleTimeout) ∧ a ≤ latest b + bodyIdleTimeout + idle_tick) as Hcut.
  { intros a (H1 & H2 & H3)%watch_some. pose proof (last_read_spec b a) as [[Hs Hl] Hr].
    split; [done|]. split; [lia|]. split; [intros r Hin Hle; specialize (Hr r Hin Hle); lia|].
    destruct ticks_of_timeout as [Ht Hp]. destruct H3 as [->|H3]; [lia|].
    pose proof (last_read_spec b (a - idle_tick)) as [[_ Hl'] _]. lia. }
  assert (∃ out, guard b = Some out) as Hends.
  { unfold guard. destruct (watchdog b) as [a|] eqn:Ew; [by eexists|]. destruct (tb_end b) as [[t e]|] eqn:Ee; [by eexists|].
    destruct (watchdog_unending b Ee) as [a Ha]. congruence. }
  split; [done|]. split; [done|]. intros Halive. destruct Hends as [out Hg]. unfold guard in *.
  destruct (watchdog b) as [a|] eqn:Ew.
  - exfalso. destruct (Hcut a eq_refl) as (He & Hs & _ & _). destruct (watch_some _ _ _ _ Ew) as (H1 & _ & _).
    specialize (Halive a ltac:(unfold bodyIdleTimeout in *; lia) He). lia.
  - destruct (tb_end b) as [[t e]|]; [|done]. by exists t, e.
Qed.
End idle.

(** ** Concrete bodies *)
Section witnesses.
(* One read every 50 s; and one read, then silence. *)
Definition seconds (n : Z) : Z := n * 1000000000.
Definition slow : timed :=
  mk_timed 0 [(seconds 50, "a"); (seconds 100, "b"); (seconds 150, "c")] (Some (seconds 200, None)).
Definition dead : timed := mk_timed 0 [(seconds 50, "a")] None.

Lemma guard_slow : guard slow = Some (["a"; "b"; "c"], None).
Proof. vm_compute. reflexivity. Qed.
Lemma guard_two_sided_witness :
  watchdog dead = Some (seconds 120) ∧ (seconds 50 < seconds 120 - bodyIdleTimeout)%Z ∧ guard dead = Some (["a"], Some canceled).
Proof.
  assert (watchdog dead = Some (seconds 120)) as E by (vm_compute; reflexivity). split; [exact E|].
  destruct (guard_two_sided dead) as (_ & H & _). destruct (H _ E) as (_ & _ & Hr & _).
  split; [|vm_compute; reflexivity]. apply (Hr (seconds 50, "a")); [apply list_elem_of_singleton; reflexivity|].
  vm_compute. discriminate.
Defined.
End witnesses.
