(* ===== verification/Fallback.v ===== *)
(** * internal/pull: pulling a revision from the Hub.

    [pullFromHF] asks the Hub for the files of a revision, downloads each into
    a temporary file, checks it and renames it into the blob directory, links
    the snapshot and shares it.  The server is any list of answers
    ([Hfapi.web]); system calls may fail or the process die between any two. *)
From stdpp Require Import gmap.
From S2P Require Import Prelude GoStrings Json GoPath GoFS Protoio Lib Store Dummy Mapping Wire Hfcache Tree.
From S2P Require Import Snapshot Sources Config Identity Net Node Blocks Reconstruct Job Exchange Materialise Pull Ingest Hfapi.

Section fallback.
Context {MF : Multiformats} {IP : Ipld} {BS : Blockstore} {FM : FileManager} {FS : Filestore}
  {DS : Datastore} {BA : Batching} {K : Keys} {N : Network} {HS : Hashes} {IM : Importer} {U : Urls}.

(** A job that also talks to the Hub. *)
Record hub := mk_hub { hb_job : job; hb_web : web }.
Definition on_job {A} : M job A → M hub A := m_zoom hb_job (λ j h, mk_hub j (hb_web h)).
Definition on_hub {A} : M web A → M hub A := m_zoom hb_web (λ w h, mk_hub (hb_job h) w).
Definition on_hos {A} (m : M osst A) : M hub A := on_job (on_jfiles m).
Definition hsay (msg : string) : M hub unit := on_job (say msg).
Definition hcount (msg : string) (done total : Z) : M hub unit :=
  on_job (m_modify (λ j, mk_job (jb_node j) (jb_events j ++ [mk_ControlEvent "progress" msg done total]))).

Definition resolveToken (override configured : string) : string :=
  if decide (override ≠ "") then override else configured.
Definition hfClient (cfg : Config) (override : string) : Client :=
  mk_Client (cl_Endpoint (NewClient (HFEndpoint cfg))) (resolveToken override (HFToken cfg)).

(** ** The manifest *)
Definition sibling_manifest (xetByPath : gmap string string) (s : Sibling) : FileManifest :=
  let xet := default "" (xetByPath !! sb_RFilename s) in
  match sb_LFS s with
  | None => mk_FileManifest (sb_RFilename s) (sb_BlobID s) (sb_Size s) "" 420 0 false xet ""
  | Some l => mk_FileManifest (sb_RFilename s) (sb_BlobID s) (li_Size l) (li_SHA256 l) 420 0 true xet ""
  end.
Fixpoint manifest_loop (xetByPath : gmap string string) (siblings : list Sibling) (files : list FileManifest) (total : Z) :
    result (list FileManifest * Z) :=
  match siblings with
  | [] => Ok (files, total)
  | s :: rest =>
      if decide (sb_BlobID s = "") then Err (errorf "no blob id")
      else if negb (SafeBlobName (sb_BlobID s)) || negb (SafeRelPath (sb_RFilename s))
      then Err (errorf "hub returned unsafe blob id or path")
      else if decide (sb_Size s < 0)%Z then Err (errorf "negative size")
      else if match sb_LFS s with Some l => (li_Size l <? 0)%Z | None => false end then Err (errorf "negative size")
      else
        let f := sibling_manifest xetByPath s in
        manifest_loop xetByPath rest (files ++ [f]) (wrap64 (total + mf_Size f))
  end.
Definition manifestFromRevision (siblings : list Sibling) (xetByPath : gmap string string) :
    result (list FileManifest * Z) :=
  manifest_loop xetByPath siblings [] 0.

(** ** One file *)
(** What git hashes of a blob. *)
Definition git_object (size : Z) (content : string) : string :=
  "blob " +:+ dec_of_Z size +:+ String (ascii_of_nat 0) content.
(** The check of a download, and the manifest with its hash filled in. *)
Definition check_download (f : FileManifest) (content : string) : result FileManifest :=
  let got := hex_encode (sha256_sum content) in
  if decide (slen content ≠ mf_Size f) then Err (errorf "wrong number of bytes")
  else if decide (mf_SHA256 f ≠ "" ∧ got ≠ mf_SHA256 f) then Err (errorf "sha256 mismatch")
  else if decide (mf_SHA256 f = "") then
    if decide (hex_encode (sha1_sum (git_object (mf_Size f) content)) ≠ mf_BlobName f)
    then Err (errorf "git blob id mismatch")
    else Ok (mk_FileManifest (mf_Path f) (mf_BlobName f) (mf_Size f) got (mf_Mode f) (mf_Mtime f) (mf_LFS f) (mf_XetHash f) (mf_SrcPath f))
  else Ok f.
Definition discard {A} (tmp : string) (e : error) : M hub A := m_ignore (on_hos (os_remove tmp)) ;; m_fail e.
Definition fetchBlob (c : Client) (paths : Paths) (repoID : string) (t : Hfcache.RepoType) (commit : string) (f : FileManifest)
    (done total : Z) : M hub (FileManifest * Z) :=
  let blobPath := BlobPath paths (mf_BlobName f) in
  st ← m_try (on_hos (os_stat blobPath));
  if match st with Ok st => bool_decide (fi_size st = mf_Size f) | Err _ => false end then
    let done := wrap64 (done + mf_Size f) in
    hcount ("hf: " +:+ mf_Path f +:+ " already cached") done total ;;
    mret (f, done)
  else
    suffix ← on_hos randSuffix;
    let tmp := blobPath +:+ "." +:+ suffix +:+ ".download" in
    m_wrap "hf: create" (on_hos (os_create_trunc tmp 420)) ;;
    d ← m_try (Download c on_hub repoID t commit (mf_Path f) (mf_Size f) (λ b, on_hos (os_append tmp b)));
    match d with
    | Err e => m_ignore (on_hos os_close) ;; discard tmp (ErrWrap "hf: download" e)
    | Ok content =>
        cl ← m_try (on_hos os_close);
        match cl with
        | Err e => discard tmp (ErrWrap "hf: close" e)
        | Ok _ =>
            match check_download f content with
            | Err e => discard tmp e
            | Ok f' =>
                r ← m_try (on_hos (os_rename tmp blobPath));
                match r with
                | Err e => discard tmp (ErrWrap "hf: place blob" e)
                | Ok _ =>
                    let done := wrap64 (done + slen content) in
                    hcount ("hf: " +:+ mf_Path f +:+ " (" +:+ humanBytes (slen content) +:+ ")") done total ;;
                    mret (f', done)
                end
            end
        end
    end.
Fixpoint fetch_files (c : Client) (paths : Paths) (repoID : string) (t : Hfcache.RepoType) (commit : string) (files : list FileManifest)
    (done total : Z) : M hub (list FileManifest) :=
  match files with
  | [] => mret []
  | f :: rest =>
      r ← fetchBlob c paths repoID t commit f done total;
      l ← fetch_files c paths repoID t commit rest r.2 total;
      mret (r.1 :: l)
  end.

(** ** The whole revision *)
Fixpoint xet_by_path (entries : list TreeEntry) (m : gmap string string) : gmap string string :=
  match entries with
  | [] => m
  | e :: rest => xet_by_path rest (if decide (te_XetHash e ≠ "") then <[te_Path e := te_XetHash e]> m else m)
  end.
Definition pullFromHF (cfg : Config) (now : string) (paths : Paths) (commit ref : string) (opts : Options) : M hub unit :=
  hsay ("hf: fetching " +:+ RepoID opts +:+ " @ " +:+ short commit +:+ " from " +:+ HFEndpoint cfg) ;;
  let c := hfClient cfg (Token opts) in
  info ← m_wrap "hf: repo metadata" (on_hub (RepoInfoAt c (RepoID opts) (RepoType opts) commit true));
  match ri_Siblings info with
  | [] => m_fail (errorf "hf: no files")
  | siblings =>
      m_wrap "hf: create" (on_hos (os_mkdir_all (Blobs paths) 493)) ;;
      tree ← m_try (on_hub (TreeAt c (RepoID opts) (RepoType opts) commit));
      let xetByPath := match tree with Ok es => xet_by_path es ∅ | Err _ => ∅ end in
      ft ← m_wrap "hf" (m_lift (manifestFromRevision siblings xetByPath));
      hsay ("hf: " +:+ dec_of_Z (Z.of_nat (length ft.1)) +:+ " file(s), " +:+ humanBytes ft.2) ;;
      files ← fetch_files c paths (RepoID opts) (RepoType opts) commit ft.1 0 ft.2;
      m_wrap "hf: step E (symlinking)" (on_hos (WriteSnapshot paths commit files ref)) ;;
      hsay "hf: downloaded; ingesting so this node can serve it" ;;
      res ← m_wrap "hf: ingest" (on_job (Ingest.Run cfg now (RepoID opts) (RepoType opts) commit say));
      on_job (send "done" ("downloaded " +:+ RepoID opts +:+ " @ " +:+ short commit +:+ " (" +:+ humanBytes (re_TotalSize res)
        +:+ ") from Hugging Face into " +:+ Hfcache.RepoDir paths +:+ "; shared as " +:+ cid_string (re_ActualCID res)))
  end.
End fallback.

(** ** A download is placed whole and verified, or not at all *)
Definition plain_at (n : option fnode) : Prop := match n with None | Some (FFile _) => True | _ => False end.

Section blob.
Context {MF : Multiformats} {IP : Ipld} {BS : Blockstore} {FM : FileManager} {FS : Filestore}
  {DS : Datastore} {BA : Batching} {K : Keys} {N : Network} {HS : Hashes} {IM : Importer} {U : Urls}.
Implicit Types (h : hub) (f : FileManifest).

Definition hos h : osst := jos (hb_job h).
Definition htree h : gmap fpath fnode := os_fs (hos h).
Definition with_hos h (o : osst) : hub :=
  let n := jb_node (hb_job h) in
  mk_hub (mk_job (mk_node (nd_map n) (nd_bs n) (nd_fm n) o (nd_net n)) (jb_events (hb_job h))) (hb_web h).
Lemma on_hos_run {A} (m : M osst A) h : on_hos m h = ((m (hos h)).1, with_hos h (m (hos h)).2).
Proof.
  destruct h as [[[a b c o d] e] w]. unfold on_hos, on_job, on_jfiles, on_jnode, on_files, m_zoom, hos, jos. cbn.
  by destruct (m o).
Qed.
Lemma on_hos_case {A} (m : M osst A) h r h' :
  on_hos m h = (r, h') → ∃ o, m (hos h) = (r, o) ∧ h' = with_hos h o.
Proof. rewrite on_hos_run. intros [= <- <-]. eexists. split; [apply surjective_pairing|done]. Qed.
Lemma on_hub_hos {A} (m : M web A) h : hos (on_hub m h).2 = hos h.
Proof. unfold on_hub, m_zoom. by destruct (m (hb_web h)). Qed.

Context (d : fpath) (w : string) (Hok : Forall seg_ok (d ++ [w])).
#[local] Abbreviation blob := (blob_segs' d w).
Definition tmp_segs (x : string) : fpath := d ++ [w +:+ "." +:+ x +:+ ".download"].
Definition tmp_path (x : string) : string := blob_path d w +:+ "." +:+ x +:+ ".download".
Lemma tmp_abs x : contains_char ch_slash x = false → abs_segs (tmp_path x) = tmp_segs x.
Proof.
  intros Hx. unfold tmp_path, blob_path, blob_segs', tmp_segs. rewrite render_abs_suffix.
  apply abs_segs_render. apply Forall_app in Hok as [Hd [Hw _]%Forall_cons_1].
  apply Forall_app. split; [done|]. constructor; [|constructor]. apply seg_ok_app; [done|].
  rewrite !contains_char_app. by rewrite Hx.
Qed.
Lemma download_ne x : tmp_segs x ≠ blob.
Proof.
  unfold tmp_segs, blob_segs'. intros [_ [= E]]%app_inj_tail. apply (f_equal String.length) in E.
  rewrite slength_app in E. simpl in E. lia.
Qed.
Lemma tmp_nonnil x : tmp_segs x ≠ [].
Proof. unfold tmp_segs. by destruct d. Qed.

(** Only the temporary file differs, and it is a file or gone. *)
Definition tmp_step (x : string) h h' : Prop :=
  (∀ q, q ≠ tmp_segs x → htree h' !! q = htree h !! q) ∧
  (htree h' !! tmp_segs x = htree h !! tmp_segs x ∨ plain_at (htree h' !! tmp_segs x)).
#[local] Instance tmp_step_preorder x : PreOrder (tmp_step x).
Proof.
  split; [intros h; split; auto|]. intros a b c (A1 & A2) (B1 & B2).
  split; [intros q Hq; by rewrite B1, A1|]. destruct B2 as [->|B2]; [exact A2|by right].
Qed.
Lemma step_same x h h' : hos h' = hos h → tmp_step x h h'.
Proof. unfold tmp_step, htree. intros ->. auto. Qed.
Lemma step_web {A} x (m : M web A) : pres (tmp_step x) (on_hub m).
Proof. intros h. apply step_same, on_hub_hos. Qed.
Lemma step_close x : pres (tmp_step x) (on_hos os_close).
Proof.
  intros h. rewrite on_hos_run. unfold os_close, tmp_step, htree. change (hos (_, with_hos h ?o).2) with o.
  destruct (os_tick_cases (hos h)) as [[_ ->]|[_ ->]]; auto.
Qed.
Lemma step_remove x : contains_char ch_slash x = false → pres (tmp_step x) (on_hos (os_remove (tmp_path x))).
Proof.
  intros Hx h. rewrite on_hos_run. destruct (os_remove (tmp_path x) (hos h)) as [r o] eqn:E. cbn [fst snd].
  unfold tmp_step, htree. change (hos (with_hos h o)) with o.
  apply os_update_cases in E as [(_ & E & _)|(e & _ & ->)]; [|auto].
  apply fs_remove_ok in E. rewrite tmp_abs in E by done. cbn [ticked os_fs] in E.
  rewrite E. split; [intros q Hq; by rewrite lookup_delete_ne|]. right. by rewrite lookup_delete_eq.
Qed.
(** The temporary file holds [content]. *)
Definition holds (x content : string) h : Prop :=
  ∃ m, htree h !! tmp_segs x = Some (FFile m) ∧ reg_data m = content.
Lemma holds_same x content h h' : hos h' = hos h → holds x content h → holds x content h'.
Proof. unfold holds, htree. by intros ->. Qed.

Lemma append_step x content b h r h' :
  contains_char ch_slash x = false → holds x content h → on_hos (os_append (tmp_path x) b) h = (r, h') →
  tmp_step x h h' ∧ (is_ok r = true → holds x (content +:+ b) h').
Proof.
  intros Hx (m & Hm & Hc) (o & E & ->)%on_hos_case.
  apply os_append_at with (f := m) in E as (E & _ & _).
  2:{ rewrite tmp_abs, fs_get_lookup by (done || apply tmp_nonnil). exact Hm. }
  rewrite tmp_abs in E by done. unfold tmp_step, holds, htree. change (hos (with_hos h o)) with o. rewrite E. split.
  - split; [|destruct r; [right; by rewrite lookup_insert_eq|by left]].
    intros q Hq. destruct r; [by rewrite lookup_insert_ne|done].
  - destruct r; [|done]. intros _. rewrite lookup_insert_eq. eexists. split; [done|]. simpl. by rewrite Hc.
Qed.
Lemma copy_step x pieces e content h r h' :
  contains_char ch_slash x = false → holds x content h →
  io_copy (λ b, on_hos (os_append (tmp_path x) b)) pieces e h = (r, h') →
  tmp_step x h h' ∧ ∀ data, r = Ok data → holds x (content +:+ data) h'.
Proof.
  intros Hx. revert content h r h'. induction pieces as [|p rest IH]; intros content h r h' Hh H; cbn [io_copy] in H.
  { destruct e; injection H as <- <-; (split; [reflexivity|]); intros data Hd; [done|].
    injection Hd as <-. by rewrite sapp_nil_r. }
  match type of H with mbind _ ?m _ = _ => destruct (m h) as [r1 h1] eqn:E1 end.
  assert (tmp_step x h h1 ∧ (is_ok r1 = true → holds x (content +:+ p) h1)) as [S1 H1].
  { revert E1. case_decide as Hp; [intros [= <- <-]|by apply append_step].
    split; [reflexivity|]. intros _. by rewrite Hp, sapp_nil_r. }
  destruct r1 as [[]|err]; [|rewrite (bind_run_err _ _ _ _ _ E1) in H; by injection H as <- <-].
  rewrite (bind_run_ok _ _ _ _ _ E1) in H.
  destruct (io_copy (λ b, on_hos (os_append (tmp_path x) b)) rest e h1) as [r2 h2] eqn:E2.
  destruct (IH _ _ _ _ (H1 eq_refl) E2) as [S2 H2].
  destruct r2 as [data|err]; [|rewrite (bind_run_err _ _ _ _ _ E2) in H; injection H as <- <-; split; [by etrans|done]].
  rewrite (bind_run_ok _ _ _ _ _ E2) in H. injection H as <- <-. split; [by etrans|].
  intros ? [= <-]. rewrite <- sapp_assoc. by apply H2.
Qed.

Definition checked f (fs : gmap fpath fnode) : Prop :=
  ∃ m, fs !! blob = Some (FFile m) ∧ is_ok (check_download f (reg_data m)) = true.
Definition same_names f f' : Prop :=
  mf_Path f' = mf_Path f ∧ mf_BlobName f' = mf_BlobName f ∧ mf_Size f' = mf_Size f.
Lemma check_download_names f content f' : check_download f content = Ok f' → same_names f f'.
Proof. unfold check_download. repeat case_decide; try done; by intros [= <-]. Qed.
(** The size is all that is asked of a blob that is there. *)
Definition present f h : Prop := ∃ info, fs_stat (htree h) (blob_path d w) = Ok info ∧ fi_size info = mf_Size f.
Definition fetched x f (r : result (FileManifest * Z)) h h' : Prop :=
  (∀ q, q ≠ tmp_segs x → q ≠ blob → htree h' !! q = htree h !! q) ∧
  (htree h' !! tmp_segs x = htree h !! tmp_segs x ∨ plain_at (htree h' !! tmp_segs x)) ∧
  (htree h' !! blob = htree h !! blob ∨ checked f (htree h')) ∧
  (∀ f' n, r = Ok (f', n) → same_names f f' ∧ checked f (htree h')).

Lemma step_fetched x f h h' e : tmp_step x h h' → fetched x f (Err e) h h'.
Proof.
  intros (S1 & S2). split; [intros q Hq _; by apply S1|]. split; [done|]. split; [|done].
  left. apply S1, not_eq_sym, download_ne.
Qed.
Lemma discard_step x e h r h' :
  contains_char ch_slash x = false → discard (A := FileManifest * Z) (tmp_path x) e h = (r, h') →
  tmp_step x h h' ∧ r = Err e.
Proof.
  intros Hx. unfold discard. rewrite bind_ignore_run. intros [= <- <-]. split; [|done]. by apply step_remove.
Qed.

Context (p : Paths) (Hpath : BlobPath p w = blob_path d w) (f : FileManifest) (Hw : mf_BlobName f = w).

(** From the open temporary file on. *)
Lemma place_run x (c : Client) repoID t commit dn tot h r h' :
  contains_char ch_slash x = false → holds x "" h →
  (dl ← m_try (Download c on_hub repoID t commit (mf_Path f) (mf_Size f) (λ b, on_hos (os_append (tmp_path x) b)));
   match dl with
   | Err e => m_ignore (on_hos os_close) ;; discard (tmp_path x) (ErrWrap "hf: download" e)
   | Ok content =>
       cl ← m_try (on_hos os_close);
       match cl with
       | Err e => discard (tmp_path x) (ErrWrap "hf: close" e)
       | Ok _ =>
           match check_download f content with
           | Err e => discard (tmp_path x) e
           | Ok f' =>
               rn ← m_try (on_hos (os_rename (tmp_path x) (blob_path d w)));
               match rn with
               | Err e => discard (tmp_path x) (ErrWrap "hf: place blob" e)
               | Ok _ =>
                   let done := wrap64 (dn + slen content) in
                   hcount ("hf: " +:+ mf_Path f +:+ " (" +:+ humanBytes (slen content) +:+ ")") done tot ;;
                   mret (f', done)
               end
           end
       end
   end) h = (r, h') → fetched x f r h h'.
Proof.
  intros Hx Hh H.
  assert (∀ h1 e, tmp_step x h h1 → discard (tmp_path x) e h1 = (r, h') → fetched x f r h h') as Hback.
  { intros h1 e S1 [S2 ->]%discard_step; [|done]. apply step_fetched. by etrans. }
  destruct (Download c on_hub repoID t commit (mf_Path f) (mf_Size f) (λ b, on_hos (os_append (tmp_path x) b)) h)
    as [r1 h1] eqn:E1. rewrite (bind_try_run _ _ _ _ _ E1) in H.
  assert (tmp_step x h h1 ∧ ∀ data, r1 = Ok data → holds x data h1) as [S1 H1].
  { unfold Download in E1. destruct (on_hub (open_download c repoID t commit (mf_Path f) (mf_Size f)) h) as [r0 h0] eqn:E0.
    pose proof (on_hub_hos (open_download c repoID t commit (mf_Path f) (mf_Size f)) h) as S0. rewrite E0 in S0. cbn [snd] in S0.
    destruct r0 as [[ps e]|e]; [|rewrite (bind_run_err _ _ _ _ _ E0) in E1; injection E1 as <- <-; split; [by apply step_same|done]].
    rewrite (bind_run_ok _ _ _ _ _ E0) in E1. eapply copy_step in E1 as [S1 H1]; [|done|by eapply holds_same].
    split; [|exact H1]. etrans; [by apply step_same|exact S1]. }
  destruct r1 as [content|e].
  2:{ rewrite bind_ignore_run in H. eapply Hback; [|exact H]. etrans; [exact S1|apply step_close]. }
  specialize (H1 content eq_refl). destruct (on_hos os_close h1) as [r2 h2] eqn:E2. rewrite (bind_try_run _ _ _ _ _ E2) in H.
  pose proof (step_close x h1) as S2. rewrite E2 in S2. cbn [snd] in S2.
  assert (htree h2 = htree h1) as T2.
  { rewrite on_hos_run in E2. injection E2 as _ <-. unfold htree. change (hos (with_hos h1 ?o)) with o.
    unfold os_close. by destruct (os_tick_cases (hos h1)) as [[_ ->]|[_ ->]]. }
  assert (tmp_step x h h2) as S12 by by etrans.
  destruct r2 as [[]|e]; [|by eapply Hback].
  destruct (check_download f content) as [f'|e] eqn:Ec; [|by eapply Hback].
  destruct (on_hos (os_rename (tmp_path x) (blob_path d w)) h2) as [r3 h3] eqn:E3x.
  destruct (on_hos_case _ _ _ _ E3x) as (o3 & E3 & ->). rewrite (bind_try_run _ _ _ _ _ E3x) in H.
  apply rename_at in E3. destruct r3 as [[]|e].
  2:{ eapply Hback; [|exact H]. etrans; [exact S12|]. 
      unfold tmp_step, htree. change (hos (with_hos h2 o3)) with o3. rewrite E3. auto. }
  destruct E3 as (n & Hn & _ & E3). destruct H1 as (m & Hm & Hd). rewrite <- T2 in Hm. destruct S12 as [F12 _].
  rewrite tmp_abs, fs_get_lookup in Hn by (done || apply tmp_nonnil). fold (htree h2) in Hn, E3.
  rewrite tmp_abs, (blob_abs d w Hok) in E3 by done. assert (n = FFile m) as -> by congruence.
  assert (htree h' = <[blob := FFile m]> (delete (tmp_segs x) (htree h2)) ∧ r = Ok (f', wrap64 (dn + slen content))) as [T ->].
  { unfold hcount, on_job, m_modify, m_zoom, mbind, M_bind in H. injection H as <- <-. exact (conj E3 eq_refl). }
  assert (checked f (htree h')) as Hc.
  { exists m. rewrite T, lookup_insert_eq, Hd, Ec. done. }
  split; [intros q Hq Hb; by rewrite T, lookup_insert_ne, lookup_delete_ne, F12|].
  split; [right; by rewrite T, lookup_insert_ne, lookup_delete_eq by apply not_eq_sym, download_ne|].
  split; [by right|]. intros g k [= <- <-]. split; [by eapply check_download_names|done].
Qed.

Lemma fetchBlob_run c repoID t commit dn tot h r h' :
  rand_ok (hos h) → (∀ x, no_link (htree h) (tmp_segs x)) →
  fetchBlob c p repoID t commit f dn tot h = (r, h') →
  (htree h' = htree h ∧ present f h ∧ ∃ n, r = Ok (f, n)) ∨
  ∃ x, contains_char ch_slash x = false ∧ fetched x f r h h'.
Proof.
  intros Hr Hl. unfold fetchBlob. rewrite Hw, Hpath. cbv zeta.
  destruct (on_hos (os_stat (blob_path d w)) h) as [r1 h1] eqn:E1. rewrite (bind_try_run _ _ _ _ _ E1).
  apply on_hos_case in E1 as (o1 & E1 & ->). unfold os_stat in E1. apply os_query_cases in E1 as [-> Hr1].
  set (h1 := with_hos h (ticked (hos h))). assert (htree h1 = htree h) as T1 by done.
  match goal with |- (if ?hit then _ else _) _ = _ → _ => destruct hit eqn:Ehit end.
  { destruct r1 as [info|]; [|done]. apply bool_decide_eq_true in Ehit. destruct Hr1 as [Hr1|]; [|done].
    unfold hcount, on_job, m_modify, m_zoom, mbind, M_bind. intros [= <- <-]. left. split; [done|].
    split; [by exists info|by eexists]. }
  destruct (on_hos randSuffix h1) as [r2 h2] eqn:E2.
  assert (∃ x, r2 = Ok x ∧ contains_char ch_slash x = false ∧ htree h2 = htree h) as (x & -> & Hx & T2).
  { rewrite on_hos_run in E2. injection E2 as <- <-. unfold randSuffix, os_random, rand_ok in *. unfold htree.
    change (hos (with_hos h1 ?o)) with o. change (os_rand (hos h1)) with (os_rand (hos h)).
    destruct (os_rand (hos h)) as [|y l]; [by exists "0"|]. exists y. split; [done|]. split; [by inversion Hr|done]. }
  rewrite (bind_run_ok _ _ _ _ _ E2). fold (tmp_path x).
  destruct (on_hos (os_create_trunc (tmp_path x) 420) h2) as [r3 h3] eqn:E3x. rewrite (bind_wrap_run _ _ _ _ _ _ E3x).
  destruct (on_hos_case _ _ _ _ E3x) as (o3 & E3 & ->).
  apply create_trunc_at in E3 as (_ & _ & E3).
  2:{ rewrite tmp_abs by done. fold (htree h2). rewrite T2. apply Hl. }
  fold (htree h2) in E3. rewrite tmp_abs, T2 in E3 by done. set (h3 := with_hos h2 o3) in *.
  change (os_fs o3) with (htree h3) in E3. intros H. right. exists x. split; [done|].
  destruct r3 as [[]|e].
  2:{ injection H as <- <-. apply step_fetched. unfold tmp_step. rewrite E3. auto. }
  destruct E3 as (_ & m & E3).
  assert (tmp_step x h h3) as S3.
  { split; [intros q Hq; by rewrite E3, lookup_insert_ne|]. right. by rewrite E3, lookup_insert_eq. }
  apply place_run in H as (P1 & P2 & P3 & P4); [|done|eexists; by rewrite E3, lookup_insert_eq].
  destruct S3 as [F3 G3]. assert (htree h3 !! blob = htree h !! blob) as Eb by apply F3, not_eq_sym, download_ne.
  split; [intros q Hq Hb; by rewrite P1, F3|]. split; [destruct P2 as [->|P2]; [exact G3|by right]|].
  split; [destruct P3 as [P3|P3]; [left; congruence|by right]|].
  exact P4.
Qed.
End blob.

Section delivered.
Context {MF : Multiformats} {MFL : MultiformatsLaws} {IP : Ipld} {BS : Blockstore} {FM : FileManager} {FS : Filestore}
  {DS : Datastore} {BA : Batching} {DL : DatastoreLaws} {BAL : BatchingLaws} {K : Keys} {N : Network} {HS : Hashes}
  {IM : Importer} {U : Urls}.
Implicit Types (h : hub) (f g : FileManifest) (files : list FileManifest).

(** What the Hub's metadata says of a file's bytes. *)
Definition authentic f (content : string) : Prop :=
  slen content = mf_Size f ∧
  (mf_SHA256 f ≠ "" → hex_encode (sha256_sum content) = mf_SHA256 f) ∧
  (mf_SHA256 f = "" → hex_encode (sha1_sum (git_object (mf_Size f) content)) = mf_BlobName f).
Lemma check_download_authentic f content : is_ok (check_download f content) = true ↔ authentic f content.
Proof.
  unfold check_download, authentic. split.
  - destruct (decide (hex_encode (sha256_sum content) = mf_SHA256 f)) as [E|E];
      repeat case_decide; try done; intros _; split_and!; (done || naive_solver).
  - intros (-> & H1 & H2). rewrite decide_False by naive_solver. rewrite decide_False by naive_solver.
    case_decide as Hs; [|done]. by rewrite decide_False by naive_solver.
Qed.

(** C4. No server can plant a blob.  Whatever the Hub answers, and whichever
    system call fails or whenever the process dies, after fetching a file its
    blob is what it was or has the announced size and the announced SHA-256,
    or for a plain file the announced git object id.  On success it is either
    that, or nothing was fetched because a blob of that size was there already.
    Beside it one temporary file is all that may have changed. *)
Theorem fetchBlob_verified c dir id t repoID commit f dn tot h r h' :
  let p := NewPaths dir id t in
  let d := blobs_dir (abs_segs dir ++ [RepoDirName id t]) in
  let blob := d ++ [mf_BlobName f] in
  is_abs dir = true → SafeBlobName (mf_BlobName f) = true → rand_ok (hos h) →
  (∀ x, no_link (htree h) (d ++ [mf_BlobName f +:+ "." +:+ x +:+ ".download"])) →
  fetchBlob c p repoID t commit f dn tot h = (r, h') →
  (htree h' !! blob = htree h !! blob ∨
   ∃ m, htree h' !! blob = Some (FFile m) ∧ authentic f (reg_data m)) ∧
  (is_ok r = true →
   (htree h' = htree h ∧ ∃ info, fs_stat (htree h) (BlobPath p (mf_BlobName f)) = Ok info ∧ fi_size info = mf_Size f) ∨
   ∃ m, htree h' !! blob = Some (FFile m) ∧ authentic f (reg_data m)) ∧
  ∃ x, ∀ q, q ≠ blob → q ≠ d ++ [mf_BlobName f +:+ "." +:+ x +:+ ".download"] → htree h' !! q = htree h !! q.
Proof.
  cbv zeta. intros Hh Hs Hr Hl H. apply SafeBlobName_spec in Hs as [Hn _].
  pose proof (NewPaths_at dir id t Hh) as Hp. pose proof (blobs_dir_ok _ _ Hp _ Hn) as Hok.
  pose proof (BlobPath_at _ _ Hp _ Hn) as Hpath.
  apply (fetchBlob_run _ _ Hok _ Hpath f eq_refl) in H as [(T & Hpres & n & ->)|(x & _ & F1 & _ & F3 & F4)]; [| |done..].
  - rewrite T. split; [by left|]. split; [intros _; left; rewrite Hpath; by split|]. by exists "".
  - assert (∀ fs, checked (blobs_dir (abs_segs dir ++ [RepoDirName id t])) (mf_BlobName f) f fs → ∃ m, fs !! blob_segs' (blobs_dir (abs_segs dir ++ [RepoDirName id t])) (mf_BlobName f) = Some (FFile m) ∧ authentic f (reg_data m)) as Hc.
    { intros fs (m & Hm & Hck%check_download_authentic). by exists m. }
    split; [destruct F3 as [F3|F3]; [by left|right; by apply Hc]|]. split.
    + destruct r as [[f' n]|]; [|done]. intros _. right. apply Hc. by eapply F4.
    + exists x. intros q Hb Hx. by apply F1.
Qed.

(** ** All files *)
Context (p : Paths) (base : fpath) (Hp : cache_at p base).
#[local] Abbreviation d := (blobs_dir base).
Definition plain_dir (fs : gmap fpath fnode) : Prop := ∀ w, plain_at (fs_get fs (d ++ [w])).
Definition coherent_hub files : Prop := ∀ f g, f ∈ files → g ∈ files →
  (mf_BlobName g = mf_BlobName f → mf_Size g = mf_Size f ∧ mf_SHA256 g = mf_SHA256 f) ∧
  ∀ x, mf_BlobName g ≠ mf_BlobName f +:+ "." +:+ x +:+ ".download".
(** The blob of [g] in [fs] is the one [fs0] had or an authentic one. *)
Definition settled (fs0 : gmap fpath fnode) g (fs : gmap fpath fnode) : Prop :=
  fs !! blob_segs' d (mf_BlobName g) = fs0 !! blob_segs' d (mf_BlobName g) ∨ checked d (mf_BlobName g) g fs.
Definition sized g (fs : gmap fpath fnode) : Prop :=
  ∃ m, fs !! blob_segs' d (mf_BlobName g) = Some (FFile m) ∧ slen (reg_data m) = mf_Size g.

Lemma nonroot w : d ++ [w] ≠ [].
Proof. by destruct d. Qed.
Lemma plain_no_link fs w : plain_dir fs → no_link fs (d ++ [w]).
Proof. intros H t E. specialize (H w). by rewrite E in H. Qed.
Lemma checked_sized g fs : checked d (mf_BlobName g) g fs → sized g fs.
Proof. intros (m & Hm & [Hs _]%check_download_authentic). by exists m. Qed.
Lemma present_sized g h :
  seg_ok (mf_BlobName g) → plain_dir (htree h) → present d (mf_BlobName g) g h → sized g (htree h).
Proof.
  intros Hn Hpl (info & Hst & Hsz). pose proof (blobs_dir_ok p base Hp _ Hn) as Hok.
  unfold fs_stat in Hst. rewrite (blob_abs _ _ Hok), fs_follow_id in Hst by by apply plain_no_link.
  cbn [mbind result_bind] in Hst. unfold fs_lookup in Hst. pose proof (Hpl (mf_BlobName g)) as Hg.
  unfold blob_segs' in *. rewrite fs_get_lookup in Hst, Hg by apply nonroot. unfold sized, blob_segs'.
  destruct (htree h !! _) as [[m| |]|]; try done. exists m. split; [done|]. injection Hst as <-. exact Hsz.
Qed.
Lemma fetched_keeps fs0 x f g r h h' :
  plain_dir (htree h) → coherent_hub [f; g] → fetched d (mf_BlobName f) x f r h h' →
  plain_dir (htree h') ∧ (settled fs0 g (htree h) → settled fs0 g (htree h')) ∧ (sized g (htree h) → sized g (htree h')).
Proof.
  intros Hpl Hc (F1 & F2 & F3 & _). split.
  - intros w. specialize (Hpl w). rewrite fs_get_lookup in Hpl |- * by apply nonroot.
    destruct (decide (w = mf_BlobName f +:+ "." +:+ x +:+ ".download")) as [->|Hw].
    { destruct F2 as [F2|F2]; [unfold tmp_segs in F2; by rewrite F2|exact F2]. }
    destruct (decide (w = mf_BlobName f)) as [->|Hb].
    { destruct F3 as [F3|(m & F3 & _)]; unfold blob_segs' in F3; by rewrite F3. }
    rewrite F1; [done|by intros [_ [= ?]]%app_inj_tail..].
  - assert (f ∈ [f; g] ∧ g ∈ [f; g]) as [Hf Hg] by set_solver. destruct (Hc f g Hf Hg) as [Heq Hne].
    assert (htree h' !! blob_segs' d (mf_BlobName g) = htree h !! blob_segs' d (mf_BlobName g) ∨ checked d (mf_BlobName g) g (htree h')) as Hcase.
    { destruct (decide (mf_BlobName g = mf_BlobName f)) as [E|E].
      - destruct (Heq E) as [Es Eh]. destruct F3 as [F3|(m & Hm & Hck)]; [left; by rewrite E|right].
        exists m. rewrite E. split; [done|]. apply check_download_authentic. apply check_download_authentic in Hck.
        unfold authentic in *. by rewrite Es, Eh, E.
      - left. apply F1; [intros [_ [= Hx]]%app_inj_tail; by apply (Hne x)|by intros [_ [= ?]]%app_inj_tail]. }
    unfold settled, sized. destruct Hcase as [Hs|Hk].
    + split; [|by rewrite Hs]. intros [H0|(m & Hm & Hck)]; [left; congruence|right]. exists m. by rewrite Hs.
    + split; [by right|]. intros _. by apply checked_sized.
Qed.

(** Fetching keeps the table, and the supply of suffixes. *)
Definition quiet_h h h' : Prop :=
  nd_map (jb_node (hb_job h')) = nd_map (jb_node (hb_job h)) ∧ os_rand (hos h') `suffix_of` os_rand (hos h).
#[local] Instance quiet_h_preorder : PreOrder quiet_h.
Proof.
  split; [intros h; by split|]. intros a b c [A1 A2] [B1 B2]. split; [congruence|by etrans].
Qed.
Lemma quiet_os {A} (m : M osst A) : pres os_any m → pres quiet_h (on_hos m).
Proof. intros H h. rewrite on_hos_run. split; [done|]. apply (H (hos h)). Qed.
Lemma quiet_rand : pres quiet_h (on_hos randSuffix).
Proof.
  intros h. rewrite on_hos_run. split; [done|]. unfold randSuffix, os_random. change (hos (_, with_hos h ?o).2) with o.
  destruct (os_rand (hos h)) as [|y l] eqn:E; cbn [snd os_rand]; [by rewrite E|]. by exists [y].
Qed.
Lemma quiet_close : pres quiet_h (on_hos os_close).
Proof. apply quiet_os, pres_os_close. Qed.
Lemma quiet_web {A} (m : M web A) : pres quiet_h (on_hub m).
Proof. intros h. unfold on_hub, m_zoom, quiet_h. by destruct (m (hb_web h)). Qed.
Lemma quiet_count msg n tot : pres quiet_h (hcount msg n tot).
Proof. intros h. by split. Qed.
Lemma quiet_discard {A} tmp e : pres quiet_h (discard (A := A) tmp e).
Proof.
  unfold discard. apply pres_bind; [apply _|apply pres_ignore, quiet_os, pres_any_update|]. intros _. apply pres_fail, _.
Qed.
Lemma quiet_Download c repoID t commit path n tmp :
  pres quiet_h (Download c on_hub repoID t commit path n (λ b, on_hos (os_append tmp b))).
Proof.
  unfold Download. apply pres_bind; [apply _|apply quiet_web|]. intros [ps e]. cbn [fst snd].
  induction ps as [|b ps IH]; cbn [io_copy]; [destruct e; [apply pres_fail, _|apply pres_ret, _]|].
  apply pres_bind; [apply _|case_decide; [apply pres_ret, _|apply quiet_os, pres_any_update]|]. intros _.
  apply pres_bind; [apply _|exact IH|]. intros r. apply pres_ret, _.
Qed.
Lemma quiet_fetchBlob c q repoID t commit f dn tot : pres quiet_h (fetchBlob c q repoID t commit f dn tot).
Proof.
  unfold fetchBlob. cbv zeta. apply pres_bind; [apply _|apply pres_try, quiet_os, pres_os_query|]. intros st.
  destruct (match st with Ok _ => _ | Err _ => _ end).
  { apply pres_bind; [apply _|apply quiet_count|]. intros _. apply pres_ret, _. }
  apply pres_bind; [apply _|apply quiet_rand|]. intros x.
  apply pres_bind; [apply _|apply pres_wrap, quiet_os, pres_any_update|]. intros _.
  apply pres_bind; [apply _|apply pres_try, quiet_Download|]. intros [content|e].
  2:{ apply pres_bind; [apply _|apply pres_ignore, quiet_close|]. intros _. apply quiet_discard. }
  apply pres_bind; [apply _|apply pres_try, quiet_close|]. intros [_|e]; [|apply quiet_discard].
  destruct (check_download f content) as [f'|e]; [|apply quiet_discard].
  apply pres_bind; [apply _|apply pres_try, quiet_os, pres_any_update|]. intros [_|e]; [|apply quiet_discard].
  apply pres_bind; [apply _|apply quiet_count|]. intros _. apply pres_ret, _.
Qed.

Lemma fetch_files_run c repoID t commit tot fs0 before files dn h files' h' :
  Forall (λ f, SafeBlobName (mf_BlobName f) = true) files → coherent_hub (before ++ files) →
  rand_ok (hos h) → plain_dir (htree h) →
  Forall (λ g, settled fs0 g (htree h)) (before ++ files) → Forall (λ g, sized g (htree h)) before →
  fetch_files c p repoID t commit files dn tot h = (Ok files', h') →
  Forall2 same_names files files' ∧ quiet_h h h' ∧
  Forall (λ g, settled fs0 g (htree h')) (before ++ files) ∧ Forall (λ g, sized g (htree h')) (before ++ files).
Proof.
  revert before dn h files'. induction files as [|f files IH]; intros before dn h files' Hs Hc Hr Hpl Hset Hsz H.
  { injection H as <- <-. rewrite app_nil_r in *. by split_and!. }
  apply Forall_cons in Hs as [Hf Hs]. cbn [fetch_files] in H.
  apply bind_ok_inv in H as ([f' dn'] & h1 & E1 & H). apply bind_ok_inv in H as (l & h2 & E2 & H). injection H as <- <-.
  pose proof (quiet_fetchBlob c p repoID t commit f dn tot h) as Q1. rewrite E1 in Q1. cbn [snd] in Q1.
  pose proof Hf as [Hn _]%SafeBlobName_spec. pose proof (blobs_dir_ok p base Hp _ Hn) as Hok.
  assert (Hstep : same_names f f' ∧ plain_dir (htree h1) ∧ Forall (λ g, settled fs0 g (htree h1)) (before ++ f :: files) ∧
    Forall (λ g, sized g (htree h1)) (before ++ [f])).
  { apply (fetchBlob_run _ _ Hok p (BlobPath_at p base Hp _ Hn) f eq_refl) in E1 as [(T & Hpres & n & E)|(x & _ & Hft)];
      [..|done|by intros x; apply plain_no_link].
    - injection E as -> ->. rewrite T. split_and!; [done..|]. apply Forall_app. split; [done|].
      constructor; [by apply present_sized|constructor].
    - assert (∀ g, g ∈ before ++ f :: files → plain_dir (htree h1) ∧
        (settled fs0 g (htree h) → settled fs0 g (htree h1)) ∧ (sized g (htree h) → sized g (htree h1))) as Hk.
      { intros g Hg. eapply fetched_keeps; [done| |exact Hft]. intros a b Ha Hb. apply Hc; set_solver. }
      pose proof Hft as (_ & _ & _ & F4). destruct (F4 f' dn' eq_refl) as [Hsn Hck]. split; [done|].
      split; [apply (Hk f); set_solver|]. rewrite !Forall_forall in *. split.
      + intros g Hg. apply (Hk g Hg). by apply Hset.
      + intros g [Hg|Hg]%elem_of_app; [apply (Hk g); [set_solver|by apply Hsz]|].
        apply list_elem_of_singleton in Hg as ->. by apply checked_sized. }
  destruct Hstep as (Hsn & Hpl1 & Hset1 & Hsz1). rewrite (cons_middle f before files), app_assoc in *.
  apply (IH (before ++ [f])) in E2 as (Hall & Q2 & Hset2 & Hsz2); try done.
  - split_and!; [by constructor|by etrans|done..].
  - eapply rand_ok_suffix; [apply Q1|done].
Qed.

Lemma manifest_safe siblings xet files tot :
  manifestFromRevision siblings xet = Ok (files, tot) →
  Forall (λ f, SafeBlobName (mf_BlobName f) = true ∧ SafeRelPath (mf_Path f) = true ∧ (0 ≤ mf_Size f)%Z) files ∧
  length files = length siblings.
Proof.
  unfold manifestFromRevision.
  assert (∀ acc t0, Forall (λ f, SafeBlobName (mf_BlobName f) = true ∧ SafeRelPath (mf_Path f) = true ∧ (0 ≤ mf_Size f)%Z) acc →
    manifest_loop xet siblings acc t0 = Ok (files, tot) →
    Forall (λ f, SafeBlobName (mf_BlobName f) = true ∧ SafeRelPath (mf_Path f) = true ∧ (0 ≤ mf_Size f)%Z) files ∧
    length files = (length acc + length siblings)%nat) as H; [|by apply H].
  induction siblings as [|s rest IH]; intros acc t0 Hacc H; cbn [manifest_loop] in H.
  { injection H as <- _. split; [done|]. cbn. lia. }
  case_decide; [done|]. destruct (negb (SafeBlobName _) || _) eqn:En; [done|].
  case_decide as Hz; [done|]. destruct (match sb_LFS s with Some l => (li_Size l <? 0)%Z | None => false end) eqn:El; [done|].
  apply orb_false_iff in En as [E1%negb_false_iff E2%negb_false_iff].
  apply IH in H as [H1 H2].
  - split; [done|]. rewrite H2, length_app. cbn. lia.
  - apply Forall_app. split; [done|]. constructor; [|constructor]. unfold sibling_manifest.
    destruct (sb_LFS s) as [l|]; cbn [mf_BlobName mf_Path mf_Size]; split_and!; try done; [|lia].
    apply Z.ltb_ge in El. done.
Qed.

Lemma CurrentCommit_fs q ref (s s' : osst) : os_fs s = os_fs s' →
  (CurrentCommit q ref (nofault s)).1 = (CurrentCommit q ref (nofault s')).1.
Proof.
  intros E. unfold CurrentCommit, os_read_file, mbind, M_bind. rewrite !os_query_nofault by done.
  change (os_fs (nofault s)) with (os_fs s). rewrite E. change (os_fs (nofault s')) with (os_fs s').
  destruct (fs_read_file (os_fs s') _); [|done]. destruct (negb _); [done|]. by destruct (hex_decode _).
Qed.

Context (cfg : Config) (now : string) (Hnow : rfc3339 now = true).
Context (commit ref : string) (Href : ref = "" ∨ seg_ok ref) (Hcommit : is_ok (FromCommit commit) = true) (opts : Options).

(** What a file reads as through the snapshot: authentic bytes, or those of a
    blob of the announced size that was there before. *)
Definition served h h' f : Prop := ∃ content,
  fs_read_file (htree h') (fjoin [SnapshotDir p commit; mf_Path f]) = Ok content ∧ slen content = mf_Size f ∧
  (authentic f content ∨
   ∃ m, htree h !! blob_segs' d (mf_BlobName f) = Some (FFile m) ∧ reg_data m = content).

(** From the manifest on. *)
Lemma deliver_run c files tot h files' h1 h2 :
  Forall (λ f, SafeBlobName (mf_BlobName f) = true) files → coherent_hub files → NoDup (map mf_Path files) →
  rand_ok (hos h) → plain_dir (htree h) →
  fetch_files c p (RepoID opts) (RepoType opts) commit files 0 tot h = (Ok files', h1) →
  on_hos (WriteSnapshot p commit files' ref) h1 = (Ok tt, h2) →
  nd_map (jb_node (hb_job h2)) = nd_map (jb_node (hb_job h)) ∧
  (∀ f, f ∈ files → served h h2 f) ∧ CurrentCommit p ref (nofault (hos h2)) = (Ok commit, nofault (hos h2)).
Proof.
  intros Hs Hc Hnd Hr Hpl E1 E2. destruct (FromCommit commit) as [dd|] eqn:Ed; [|done].
  apply commit_seg_ok in Ed as Hseg. apply FromCommit_ok_inv in Ed as ([Hlen Hhex] & _).
  apply (fetch_files_run _ _ _ _ _ (htree h) []) in E1 as (Hnames & [Qm Qr] & Hset & Hsz); try done.
  2:{ apply Forall_forall. intros g _. by left. }
  cbn [app] in Hset, Hsz. apply on_hos_case in E2 as (o & E2 & ->).
  assert (map mf_Path files' = map mf_Path files) as Hmap.
  { clear -Hnames. induction Hnames as [|f f' l l' (E & _) _ IH]; [done|]. cbn [map]. by rewrite E, IH. }
  eapply WriteSnapshot_run in E2 as [Hfiles Hcur]; [|done..|by eapply rand_ok_suffix|done|done|by rewrite Hmap].
  split; [exact Qm|]. split; [|exact Hcur]. intros f Hf.
  apply list_elem_of_lookup in Hf as [i Hi]. destruct (Forall2_lookup_l _ _ _ _ _ Hnames Hi) as (f' & Hi' & Hp' & Hb' & _).
  apply list_elem_of_lookup_2 in Hi as Hf, Hi' as Hf'. destruct (Hfiles f' Hf') as (Hrel & _ & Hread).
  rewrite Forall_forall in Hset, Hsz. destruct (Hsz f Hf) as (m & Hm & Hml). exists (reg_data m).
  unfold htree. change (hos (with_hos h1 o)) with o. rewrite <- Hp'.
  destruct (link_path_at _ _ Hp commit f' Hseg Hrel) as [-> _]. split; [|split; [exact Hml|]].
  - apply Hread. unfold blob_segs. rewrite Hb'. unfold blob_segs', blobs_dir in Hm. rewrite <- app_assoc in Hm. exact Hm.
  - destruct (Hset f Hf) as [H0|(m' & Hm' & Hck)].
    + right. exists m. split; [exact (eq_trans (eq_sym H0) Hm)|done].
    + left. assert (m' = m) as -> by congruence. by apply check_download_authentic.
Qed.

Lemma on_job_case {A} (op : M job A) h r h' :
  on_job op h = (r, h') → ∃ j, op (hb_job h) = (r, j) ∧ h' = mk_hub j (hb_web h).
Proof. unfold on_job, m_zoom. destruct (op (hb_job h)) as [r0 j]. intros [= <- <-]. by exists j. Qed.
Lemma mkdir_plain h r h' :
  on_hos (os_mkdir_all (Blobs p) 493) h = (r, h') → plain_dir (htree h) →
  plain_dir (htree h') ∧ quiet_h h h' ∧ ∀ w, htree h' !! (d ++ [w]) = htree h !! (d ++ [w]).
Proof.
  intros E Hpl. pose proof (quiet_os (os_mkdir_all (Blobs p) 493)) as Hq.
  specialize (Hq (pres_mkdir_all (λ _, True) _ _) h). rewrite E in Hq. cbn [snd] in Hq.
  assert (∀ w, htree h' !! (d ++ [w]) = htree h !! (d ++ [w])) as Hsame.
  { intros w. apply on_hos_case in E as (o & E & ->).
    pose proof (mkdir_all_at (Blobs p) 493 (d ++ [w])) as Hk. rewrite (ca_blobs _ _ Hp) in Hk, E.
    assert (Forall seg_ok d) as Hd.
    { assert (seg_ok "x") as Hx by by split_and!. by apply (blobs_dir_ok p base Hp), Forall_app in Hx as [? _]. }
    unfold blobs_dir in Hd. rewrite abs_segs_render in Hk by done.
    assert (d ++ [w] ∉ prefixes (base ++ ["blobs"])) as Hnp.
    { intros [l El]%prefixes_prefix. apply (f_equal length) in El. unfold blobs_dir in El. rewrite !length_app in El. simpl in El. lia. }
    specialize (Hk Hnp (hos h)). by rewrite E in Hk. }
  split; [|by split]. intros w. specialize (Hpl w). rewrite fs_get_lookup in Hpl |- * by apply nonroot. by rewrite Hsame.
Qed.
Definition fs_kept (j j' : job) : Prop := os_fs (jos j') = os_fs (jos j).
#[local] Instance fs_kept_preorder : PreOrder fs_kept.
Proof. unfold fs_kept. split; [done|]. intros a b e E1 E2. congruence. Qed.
Lemma ingest_keeps_files j r j' :
  Ingest.Run cfg now (RepoID opts) (RepoType opts) commit say j = (r, j') → fs_kept j j'.
Proof.
  intros H. apply (f_equal snd) in H. cbn [snd] in H. subst j'.
  apply (kept_Run fs_kept (ChunkSize cfg) say); [| |done| | |done].
  - intros A op Hop j0. unfold on_jfiles, on_jnode, on_files, m_zoom, fs_kept, jos. specialize (Hop (nd_os (jb_node j0))).
    by destruct (op (nd_os (jb_node j0))).
  - intros A op j0. unfold on_jstores, on_jnode, on_stores, m_zoom, fs_kept, jos. by destruct (op (nd_bs (jb_node j0)) _) as [? [? ?]].
  - intros A op j0. unfold on_jnode, on_map, m_zoom, fs_kept, jos. by destruct (op (nd_map (jb_node j0))).
  - intros A op Hop j0. specialize (Hop (jb_node j0)) as (_ & _ & _ & Ho). unfold on_jnode, m_zoom, fs_kept, jos.
    destruct (op (jb_node j0)) as [r0 n0]. cbn [snd jb_node] in *. by rewrite Ho.
Qed.

(** The steps of a fallback that succeeds.  Until the downloads start only
    directories change, and the blobs that are there stay as they are. *)
Lemma pullFromHF_steps h h' : rand_ok (hos h) → plain_dir (htree h) →
  pullFromHF cfg now p commit ref opts h = (Ok tt, h') →
  ∃ info w1 xet files tot h1 files' h2 h3 res j j',
    RepoInfoAt (hfClient cfg (Token opts)) (RepoID opts) (RepoType opts) commit true (hb_web h) = (Ok info, w1) ∧
    ri_Siblings info ≠ [] ∧ manifestFromRevision (ri_Siblings info) xet = Ok (files, tot) ∧
    quiet_h h h1 ∧ plain_dir (htree h1) ∧ (∀ w, htree h1 !! (d ++ [w]) = htree h !! (d ++ [w])) ∧
    fetch_files (hfClient cfg (Token opts)) p (RepoID opts) (RepoType opts) commit files 0 tot h1 = (Ok files', h2) ∧
    on_hos (WriteSnapshot p commit files' ref) h2 = (Ok tt, h3) ∧
    jb_node j = jb_node (hb_job h3) ∧ Ingest.Run cfg now (RepoID opts) (RepoType opts) commit say j = (Ok res, j') ∧
    jb_node (hb_job h') = jb_node j'.
Proof.
  intros Hr Hpl. unfold pullFromHF, hsay. intros (u1 & h1 & E1 & H)%bind_ok_inv.
  apply on_job_case in E1 as (j1 & E1 & ->). injection E1 as _ <-.
  set (h1 := mk_hub _ _) in H. assert (quiet_h h h1) as Q1 by by split.
  apply bind_ok_inv in H as (info & h2 & E2%wrap_ok_inv & H).
  pose proof (quiet_web (RepoInfoAt (hfClient cfg (Token opts)) (RepoID opts) (RepoType opts) commit true) h1) as Q2.
  pose proof (on_hub_hos (RepoInfoAt (hfClient cfg (Token opts)) (RepoID opts) (RepoType opts) commit true) h1) as S2.
  rewrite E2 in Q2, S2. cbn [snd] in Q2, S2.
  assert (∃ w1, RepoInfoAt (hfClient cfg (Token opts)) (RepoID opts) (RepoType opts) commit true (hb_web h) = (Ok info, w1)) as [w1 Hinfo].
  { unfold on_hub, m_zoom in E2. change (hb_web h1) with (hb_web h) in E2.
    destruct (RepoInfoAt _ _ _ _ _ (hb_web h)) as [r w0]. injection E2 as -> _. by exists w0. }
  exists info, w1. destruct (ri_Siblings info) as [|sb sbs]; [done|]. set (siblings := sb :: sbs) in *.
  apply bind_ok_inv in H as (u3 & h3 & E3%wrap_ok_inv & H). assert (htree h2 = htree h) as T2 by by unfold htree; rewrite S2.
  apply mkdir_plain in E3 as (Hpl3 & Q3 & Hw3); [|by rewrite T2].
  apply bind_ok_inv in H as (tree & h4 & E4 & H).
  assert (quiet_h h3 h4 ∧ hos h4 = hos h3) as [Q4 S4].
  { unfold m_try in E4. pose proof (quiet_web (TreeAt (hfClient cfg (Token opts)) (RepoID opts) (RepoType opts) commit) h3) as Hq.
    pose proof (on_hub_hos (TreeAt (hfClient cfg (Token opts)) (RepoID opts) (RepoType opts) commit) h3) as Hs.
    destruct (on_hub _ h3) as [r0 h0]. by injection E4 as _ <-. }
  set (xet := match tree with Ok es => xet_by_path es ∅ | Err _ => ∅ end) in H.
  apply bind_ok_inv in H as ([files tot] & h5 & E5%wrap_ok_inv & H). injection E5 as Hman <-.
  cbn [fst snd] in H. apply bind_ok_inv in H as (u6 & h6 & E6 & H). apply on_job_case in E6 as (j6 & E6 & ->). injection E6 as _ <-.
  set (h6 := mk_hub _ _) in H. assert (quiet_h h4 h6 ∧ htree h6 = htree h3) as [Q6 T6] by by (split; [split|unfold htree; rewrite <- S4]).
  apply bind_ok_inv in H as (files' & h7 & E7 & H). apply bind_ok_inv in H as (u8 & h8 & E8%wrap_ok_inv & H). destruct u8.
  apply bind_ok_inv in H as (u9 & h9 & E9 & H). apply on_job_case in E9 as (j9 & E9 & ->). injection E9 as _ <-.
  set (h9 := mk_hub _ _) in H. apply bind_ok_inv in H as (res & h10 & E10%wrap_ok_inv & H). apply on_job_case in E10 as (j10 & E10 & ->).
  apply on_job_case in H as (j11 & H & ->). injection H as <-.
  exists xet, files, tot, h6, files', h7, h8, res, (hb_job h9), j10. split_and!; try done.
  - do 5 (etrans; [eassumption|]). reflexivity.
  - by rewrite T6.
  - intros w. rewrite T6, Hw3. by rewrite T2.
Qed.

End delivered.

(** ** The token stays in its header *)
Section token.
Context {MF : Multiformats} {IP : Ipld} {BS : Blockstore} {FM : FileManager} {FS : Filestore}
  {DS : Datastore} {BA : Batching} {K : Keys} {N : Network} {HS : Hashes} {IM : Importer} {U : Urls}.
(** Everything but the authorization headers is the same. *)
Definition same_hub (h1 h2 : hub) : Prop := hb_job h1 = hb_job h2 ∧ same_web (hb_web h1) (hb_web h2).

Lemma alike_job {A} (op : M job A) : alike same_hub (on_job op) (on_job op).
Proof.
  intros h1 h2 [Hj Hw]. unfold on_job, m_zoom. rewrite Hj. destruct (op (hb_job h2)). by split.
Qed.
Lemma alike_hub {A} (m1 m2 : M web A) : alike same_web m1 m2 → alike same_hub (on_hub m1) (on_hub m2).
Proof.
  intros H h1 h2 [Hj Hw]. destruct (H _ _ Hw) as [Hr Hw']. unfold on_hub, m_zoom.
  destruct (m1 (hb_web h1)), (m2 (hb_web h2)). by split.
Qed.
Lemma alike_discard {A} tmp e : alike same_hub (discard (A := A) tmp e) (discard tmp e).
Proof. unfold discard. apply alike_bind; [apply alike_ignore, alike_job|]. intros _. apply alike_fail. Qed.

Context (c1 c2 : Client) (Hc : cl_Endpoint c1 = cl_Endpoint c2) (p : Paths) (repoID : string) (t : Hfcache.RepoType) (commit : string).
Lemma alike_Download path n tmp :
  alike same_hub (Download c1 on_hub repoID t commit path n (λ b, on_hos (os_append tmp b)))
    (Download c2 on_hub repoID t commit path n (λ b, on_hos (os_append tmp b))).
Proof.
  unfold Download. apply alike_bind; [by apply alike_hub, alike_open_download|]. intros [ps e]. cbn [fst snd].
  induction ps as [|b ps IH]; cbn [io_copy]; [destruct e; [apply alike_fail|apply alike_ret]|].
  apply alike_bind; [case_decide; [apply alike_ret|apply alike_job]|]. intros _.
  apply alike_bind; [exact IH|]. intros r. apply alike_ret.
Qed.
Lemma alike_fetchBlob f dn tot :
  alike same_hub (fetchBlob c1 p repoID t commit f dn tot) (fetchBlob c2 p repoID t commit f dn tot).
Proof.
  unfold fetchBlob. cbv zeta. apply alike_bind; [apply alike_try, alike_job|]. intros st.
  destruct (match st with Ok _ => _ | Err _ => _ end).
  { apply alike_bind; [apply alike_job|]. intros _. apply alike_ret. }
  apply alike_bind; [apply alike_job|]. intros x. apply alike_bind; [apply alike_wrap, alike_job|]. intros _.
  apply alike_bind; [apply alike_try, alike_Download|]. intros [content|e].
  2:{ apply alike_bind; [apply alike_ignore, alike_job|]. intros _. apply alike_discard. }
  apply alike_bind; [apply alike_try, alike_job|]. intros [_|e]; [|apply alike_discard].
  destruct (check_download f content) as [f'|e]; [|apply alike_discard].
  apply alike_bind; [apply alike_try, alike_job|]. intros [_|e]; [|apply alike_discard].
  apply alike_bind; [apply alike_job|]. intros _. apply alike_ret.
Qed.
Lemma alike_fetch_files files dn tot :
  alike same_hub (fetch_files c1 p repoID t commit files dn tot) (fetch_files c2 p repoID t commit files dn tot).
Proof.
  revert dn. induction files as [|f files IH]; intros dn; cbn [fetch_files]; [apply alike_ret|].
  apply alike_bind; [apply alike_fetchBlob|]. intros r. apply alike_bind; [apply IH|]. intros l. apply alike_ret.
Qed.
End token.

Definition set_token (tok : string) (cfg : Config) : Config :=
  let '(mk_Config a b c d e f g h i j k l m n o _ q r) := cfg in mk_Config a b c d e f g h i j k l m n o tok q r.
Definition with_token (tok : string) (opts : Options) : Options :=
  {| RepoID := RepoID opts; RepoType := RepoType opts; Commit := Commit opts; Ref := Ref opts; Peers := Peers opts;
     Connect := Connect opts; Force := Force opts; Sources := Sources opts; Token := tok |}.

(** C25. The access token travels in the authorization header and nowhere
    else: two fallback pulls that differ in the tokens they are given only, and
    get the same answers, return the same, leave the same files, table and
    messages behind, and send the same requests but for that header. *)
Theorem token_confined {MF : Multiformats} {IP : Ipld} {BS : Blockstore} {FM : FileManager} {FS : Filestore}
    {DS : Datastore} {BA : Batching} {K : Keys} {N : Network} {HS : Hashes} {IM : Importer} {U : Urls}
    tok1 tok2 tok1' tok2' cfg now p commit ref opts (h1 h2 : hub) :
  same_hub h1 h2 →
  let r1 := pullFromHF (set_token tok1 cfg) now p commit ref (with_token tok1' opts) h1 in
  let r2 := pullFromHF (set_token tok2 cfg) now p commit ref (with_token tok2' opts) h2 in
  r1.1 = r2.1 ∧ hb_job r1.2 = hb_job r2.2 ∧ map hide (wb_log (hb_web r1.2)) = map hide (wb_log (hb_web r2.2)).
Proof.
  intros Hh. cbv zeta.
  assert (alike same_hub (pullFromHF (set_token tok1 cfg) now p commit ref (with_token tok1' opts))
    (pullFromHF (set_token tok2 cfg) now p commit ref (with_token tok2' opts))) as H.
  2:{ destruct (H _ _ Hh) as (Hr & Hj & Hw & _). by split_and!. }
  destruct cfg as [a b c d e f g h i j k l m n o tok q r]. unfold pullFromHF, hsay. cbn [set_token with_token RepoID RepoType Token HFEndpoint].
  set (c1 := hfClient _ tok1'). set (c2 := hfClient _ tok2'). assert (cl_Endpoint c1 = cl_Endpoint c2) as Hc by done.
  apply alike_bind; [apply alike_job|]. intros _.
  apply alike_bind; [by apply alike_wrap, alike_hub, alike_RepoInfoAt|]. intros info.
  destruct (ri_Siblings info) as [|sb sbs]; [apply alike_fail|].
  apply alike_bind; [apply alike_wrap, alike_job|]. intros _.
  apply alike_bind; [by apply alike_try, alike_hub, alike_TreeAt|]. intros tree.
  apply alike_bind; [apply alike_wrap, alike_lift|]. intros ft. apply alike_bind; [apply alike_job|]. intros _.
  apply alike_bind; [by apply alike_fetch_files|]. intros files.
  apply alike_bind; [apply alike_wrap, alike_job|]. intros _. apply alike_bind; [apply alike_job|]. intros _.
  apply alike_bind; [apply alike_wrap, alike_job|]. intros res. apply alike_job.
Qed.

(** ** A concrete revision *)
Module ToyFallback.
Import ToyNode ToyIngest ToyHub.
#[export] Existing Instances ToyIngest.importer ToyIngest.toy_hashes ToyHub.urls.
Definition commit3 : string := "fedcba9876543210fedcba9876543210fedcba98".
Definition info_body : string := print (JObj [("sha", JStr commit3); ("siblings", JArr [
  JObj [("rfilename", JStr "f"); ("blobId", JStr "b"); ("size", JInt 1);
        ("lfs", JObj [("sha256", JStr (hex_encode "data")); ("size", JInt 4)])]])]).
Definition web0 : web := mk_web [] [answer [info_body]; Err (errorf "timeout"); answer ["da"; "ta"]].
Definition opts3 : Options :=
  {| RepoID := "org/n"; RepoType := Model; Commit := ""; Ref := ""; Peers := []; Connect := []; Force := false;
     Sources := mk_Sources false true; Token := "secret" |}.
Definition paths3 : Paths := NewPaths "/hub" "org/n" Model.
Definition hub0 : hub :=
  mk_hub (mk_job (mk_node (nd_map node0) (nd_bs node0) (nd_fm node0) (mk_osst ∅ [] ["17"; "18"; "19"] 0) (nd_net node0)) []) web0.
Definition now3 : string := "2024-03-01T00:00:00Z".
Definition pulled : result unit * hub := pullFromHF cfg0 now3 paths3 commit3 "" opts3 hub0.
Definition lfs_file : FileManifest := mk_FileManifest "f" "b" 4 (hex_encode "data") 420 0 true "" "".
Definition fetching : hub := mk_hub (hb_job hub0) (mk_web [] [answer ["da"; "ta"]]).
End ToyFallback.

Section witnesses.
Import ToyNode ToyIngest ToyHub ToyFallback.

Lemma empty_fs_get (q : fpath) : q ≠ [] → fs_get (∅ : gmap fpath fnode) q = None.
Proof. intros H. rewrite fs_get_lookup by done. apply lookup_empty. Qed.

Lemma fetchBlob_verified_witness :
  let blobs := ["hub"; "models--org--n"; "blobs"] in
  let node' := mk_hub (mk_job (mk_node (nd_map node0) (nd_bs node0) (nd_fm node0)
    (mk_osst (list_to_map [(["hub"], FDir 493); (["hub"; "models--org--n"], FDir 493); (blobs, FDir 493)] : gmap fpath fnode) [] ["17"] 0) (nd_net node0)) [])
    (mk_web [] [answer ["da"; "ta"]]) in
  let run := fetchBlob client paths3 "org/n" Model commit3 lfs_file 0 4 node' in
  is_ok run.1 = true ∧ ∃ m, htree run.2 !! (blobs ++ ["b"]) = Some (FFile m) ∧ authentic lfs_file (reg_data m).
Proof.
  intros blobs node' run. assert (is_ok run.1 = true) as Hok by (vm_compute; reflexivity). split; [exact Hok|].
  destruct (fetchBlob_verified client "/hub" "org/n" Model "org/n" commit3 lfs_file 0 4 node' run.1 run.2 eq_refl eq_refl)
    as (_ & Hres & _); [by repeat constructor| |apply surjective_pairing|].
  { intros x t E. rewrite fs_get_lookup in E by done. change (htree node') with (os_fs (hos node')) in E.
    apply elem_of_list_to_map_2 in E. repeat (apply elem_of_cons in E as [E|E]; [injection E as E _; discriminate E|]).
    by apply not_elem_of_nil in E. }
  destruct (Hres Hok) as [[_ (info & Hst & _)]|Hm]; [|exact Hm].
  assert (is_ok (fs_stat (htree node') (BlobPath (NewPaths "/hub" "org/n" Model) "b")) = false) as Hno by (vm_compute; reflexivity).
  discriminate (eq_trans (eq_sym Hno) (f_equal is_ok Hst)).
Defined.


Lemma token_confined_witness :
  let pull tok := pullFromHF (set_token "" cfg0) now3 paths3 commit3 "" (with_token tok opts3) hub0 in
  (pull "a").1 = (pull "b").1.
Proof.
  intros pull. destruct (token_confined "" "" "a" "b" cfg0 now3 paths3 commit3 "" opts3 hub0 hub0) as [H _];
    [exact (conj eq_refl (conj eq_refl eq_refl))|exact H].
Defined.
End witnesses.
