(* ===== verification/Pipeline.v ===== *)
(** * internal/pull: the pull pipeline as a whole.

    [Run] resolves the commit, returns early when the revision is shared and
    linked already, and otherwise asks the swarm and the Hub in the order the
    caller chose.  The events it reports follow a protocol that the control
    socket's clients rely on: progress until the very end, then one [done] on
    success and none on failure. *)
From stdpp Require Import gmap.
From S2P Require Import Prelude GoStrings Json GoPath GoFS Protoio Lib Store Dummy Mapping Wire Hfcache Tree.
From S2P Require Import Snapshot Sources Config Identity Net Node Blocks Reconstruct Job Exchange Materialise Pull Ingest Hfapi Fallback.

Section run.
Context {MF : Multiformats} {IP : Ipld} {BS : Blockstore} {FM : FileManager} {FS : Filestore}
  {DS : Datastore} {BA : Batching} {K : Keys} {N : Network} {HS : Hashes} {IM : Importer} {U : Urls}.

(** Step A. *)
Definition resolve_commit (cfg : Config) (opts : Options) : M hub string :=
  if decide (Commit opts = "") then
    hsay ("step A: resolving " +:+ RepoID opts +:+ " against " +:+ HFEndpoint cfg) ;;
    m_wrap "step A (resolve hash)" (on_hub (LatestCommit (hfClient cfg (Token opts)) (RepoID opts) (RepoType opts)))
  else mret (Commit opts).
(** The entry of a revision that is shared already. *)
Definition mapped (commit : string) (opts : Options) : M hub (option Entry) :=
  if Force opts then mret None
  else
    r ← m_try (on_job (on_jnode (on_map (DB.Get commit))));
    mret (match r with Ok e => e | Err _ => None end).
Definition restore (paths : Paths) (commit ref : string) (opts : Options) (entry : Entry) : M hub unit :=
  complete ← on_hos (SnapshotComplete paths commit);
  if complete : bool then
    on_job (send "done" ("already present: " +:+ RepoID opts +:+ " @ " +:+ short commit))
  else
    m_wrap "step E (relink)" (on_hos (WriteSnapshot paths commit (en_Files entry) ref)) ;;
    on_job (send "done" "restored snapshot links from local mapping").
(** The sources, in the caller's order. *)
Definition fetch (fuel : nat) (self : peer_id) (cfg : Config) (now : string) (paths : Paths) (commit ref : string)
    (opts : Options) : M hub unit :=
  let src := Sources.resolve (Sources opts) in
  if P2P src then
    r ← m_try (on_job (pullFromPeers fuel self (HFHubDir cfg) paths now commit ref opts));
    match r with
    | Ok _ => mret tt
    | Err e =>
        if negb (HF src) then m_fail e
        else
          hsay ("p2p could not deliver (" +:+ err_text e +:+ "); falling back to Hugging Face") ;;
          pullFromHF cfg now paths commit ref opts
    end
  else if negb (HF src) then mret tt
  else pullFromHF cfg now paths commit ref opts.
Definition Run (fuel : nat) (self : peer_id) (cfg : Config) (now : string) (opts : Options) : M hub unit :=
  if decide (trim_space (RepoID opts) = "") then m_fail (errorf "pull requires a repo id")
  else
    let ref := if decide (Ref opts = "") then "main" else Ref opts in
    let paths := NewPaths (HFHubDir cfg) (RepoID opts) (RepoType opts) in
    commit ← resolve_commit cfg opts;
    m_wrap "step A" (m_lift (FromCommit commit)) ;;
    hsay ("step A: " +:+ RepoID opts +:+ " @ " +:+ commit) ;;
    entry ← mapped commit opts;
    match entry with
    | Some entry => restore paths commit ref opts entry
    | None => fetch fuel self cfg now paths commit ref opts
    end.
End run.

(** ** What a download cannot do *)
Section keeping.
Context {MF : Multiformats} {IP : Ipld} {BS : Blockstore} {FM : FileManager} {FS : Filestore}
  {DS : Datastore} {BA : Batching} {K : Keys} {N : Network} {HS : Hashes} {IM : Importer} {U : Urls}.
Context (R : relation hub) `{!PreOrder R}.
Context (HR_os : ∀ A (op : M osst A), pres R (on_hos op)) (HR_web : ∀ A (op : M web A), pres R (on_hub op)).
Context (HR_count : ∀ msg n tot, pres R (hcount msg n tot)).

Lemma kept_appends (w : string → M hub unit) pieces e : (∀ b, pres R (w b)) → pres R (io_copy w pieces e).
Proof.
  intros Hw. induction pieces as [|x rest IH]; cbn [io_copy]; [destruct e; [apply pres_fail, _|apply pres_ret, _]|].
  apply pres_bind; [apply _|case_decide; [apply pres_ret, _|apply Hw]|]. intros _.
  apply pres_bind; [apply _|exact IH|]. intros r. apply pres_ret, _.
Qed.
Lemma kept_discard {A} tmp e : pres R (discard (A := A) tmp e).
Proof. apply pres_bind; [apply _|apply pres_ignore, HR_os|]. intros _. apply pres_fail, _. Qed.
Lemma kept_fetchBlob c paths repoID t commit f dn tot : pres R (fetchBlob c paths repoID t commit f dn tot).
Proof.
  unfold fetchBlob. cbv zeta. apply pres_bind; [apply _|apply pres_try, HR_os|]. intros st.
  match goal with |- pres _ (if ?hit then _ else _) => destruct hit end.
  { apply pres_bind; [apply _|apply HR_count|]. intros _. apply pres_ret, _. }
  apply pres_bind; [apply _|apply HR_os|]. intros x. apply pres_bind; [apply _|apply pres_wrap, HR_os|]. intros _.
  apply pres_bind; [apply _|apply pres_try; unfold Download; apply pres_bind; [apply _|apply HR_web|]; intros src;
    apply kept_appends; intros b; apply HR_os|].
  intros [content|e].
  2:{ apply pres_bind; [apply _|apply pres_ignore, HR_os|]. intros _. apply kept_discard. }
  apply pres_bind; [apply _|apply pres_try, HR_os|]. intros [_|e]; [|apply kept_discard].
  destruct (check_download f content); [|apply kept_discard].
  apply pres_bind; [apply _|apply pres_try, HR_os|]. intros [_|e]; [|apply kept_discard].
  apply pres_bind; [apply _|apply HR_count|]. intros _. apply pres_ret, _.
Qed.
Lemma kept_fetch_files c paths repoID t commit files dn tot : pres R (fetch_files c paths repoID t commit files dn tot).
Proof.
  revert dn. induction files as [|f rest IH]; intros dn; cbn [fetch_files]; [apply pres_ret, _|].
  apply pres_bind; [apply _|apply kept_fetchBlob|]. intros r. apply pres_bind; [apply _|apply IH|]. intros l. apply pres_ret, _.
Qed.
End keeping.

(** ** The protocol of events *)
Definition chatter (l l' : list ControlEvent) : Prop := ∃ ps, l' = l ++ ps ∧ Forall (λ e, ce_Type e = "progress") ps.
#[export] Instance chatter_preorder : PreOrder chatter.
Proof.
  split; [intros l; exists []; by rewrite app_nil_r|]. intros a b c (p & -> & Hp) (q & -> & Hq).
  exists (p ++ q). rewrite app_assoc. split; [done|by apply Forall_app].
Qed.
Definition ended (l l' : list ControlEvent) : Prop :=
  ∃ l1 msg, chatter l l1 ∧ l' = l1 ++ [mk_ControlEvent "done" msg 0 0].
Lemma ended_after a b c : chatter a b → ended b c → ended a c.
Proof. intros H (l & msg & Hl & ->). exists l, msg. split; [by etrans|done]. Qed.

Section speaking.
Context {S : Type} (ev : S → list ControlEvent).
(** [m] reports progress only. *)
Definition chats {A} (m : M S A) : Prop := pres (λ s s', chatter (ev s) (ev s')) m.
(** [m] reports progress, then [done] if and only if it succeeds. *)
Definition speaks (m : M S unit) : Prop := ∀ s,
  match (m s).1 with Ok _ => ended (ev s) (ev (m s).2) | Err _ => chatter (ev s) (ev (m s).2) end.
#[export] Instance chats_preorder : PreOrder (λ s s', chatter (ev s) (ev s')).
Proof. split; [intros s; reflexivity|intros a b c; apply transitivity]. Qed.

Lemma speaks_bind {A} (m : M S A) (f : A → M S unit) : chats m → (∀ a, speaks (f a)) → speaks (m ≫= f).
Proof.
  intros Hm Hf s. specialize (Hm s). unfold mbind, M_bind. destruct (m s) as [[a|e] s1]; [|done].
  specialize (Hf a s1). cbn [snd] in Hm. destruct (f a s1) as [[u|e] s2]; cbn [fst snd] in *.
  - by eapply ended_after.
  - by etrans.
Qed.
Lemma speaks_wrap ctx (m : M S unit) : speaks m → speaks (m_wrap ctx m).
Proof. intros H s. specialize (H s). unfold m_wrap. by destruct (m s) as [[[]|e] s']. Qed.
Lemma speaks_fail e : speaks (m_fail e).
Proof. intros s. cbn. reflexivity. Qed.
(** Going on after a failure. *)
Lemma speaks_or (m : M S unit) (f : error → M S unit) : speaks m → (∀ e, speaks (f e)) →
  speaks (r ← m_try m; match r with Ok _ => mret tt | Err e => f e end).
Proof.
  intros Hm Hf s. specialize (Hm s). unfold m_try, mbind, M_bind. destruct (m s) as [[u|e] s1]; cbn [fst snd] in *; [done|].
  specialize (Hf e s1). destruct (f e s1) as [[v|e'] s2]; cbn [fst snd] in *; [by eapply ended_after|by etrans].
Qed.
End speaking.
Lemma speaks_zoom {S T} (ev : S → list ControlEvent) (ev' : T → list ControlEvent) (get : S → T) set (m : M T unit) :
  (∀ s, ev s = ev' (get s)) → (∀ s t, ev (set t s) = ev' t) → speaks ev' m → speaks ev (m_zoom get set m).
Proof.
  intros Hg Hs Hm s. specialize (Hm (get s)). unfold m_zoom. destruct (m (get s)) as [r t]; cbn [fst snd] in *.
  by rewrite Hg, Hs.
Qed.

Section events.
Context {MF : Multiformats} {IP : Ipld} {BS : Blockstore} {FM : FileManager} {FS : Filestore}
  {DS : Datastore} {BA : Batching} {K : Keys} {N : Network} {HS : Hashes} {IM : Importer} {U : Urls}.
#[local] Abbreviation evj := jb_events.
Definition evh (h : hub) : list ControlEvent := jb_events (hb_job h).

Lemma chats_jnode {A} (op : M node A) : chats evj (on_jnode op).
Proof. intros j. unfold on_jnode, m_zoom. destruct (op (jb_node j)). reflexivity. Qed.
Lemma chats_say msg : chats evj (say msg).
Proof. intros j. exists [mk_ControlEvent "progress" msg 0 0]. split; [done|by constructor]. Qed.
Lemma speaks_done msg : speaks evj (send "done" msg).
Proof. intros j. exists (jb_events j), msg. split; [reflexivity|done]. Qed.
Lemma chats_find self commit opts : chats evj (find_candidates self commit opts).
Proof.
  unfold find_candidates. apply pres_bind; [apply _| |intros dialled].
  { generalize (Peers opts) as l. induction l as [|a l IH]; cbn [dial_candidates]; [apply pres_ret, _|].
    apply pres_bind; [apply _|apply pres_try, chats_jnode|]. intros [pid|e].
    - apply pres_bind; [apply _|exact IH|]. intros ?. apply pres_ret, _.
    - apply pres_bind; [apply _|apply chats_say|]. intros _. exact IH. }
  apply pres_bind; [apply _| |intros _].
  { apply pres_foreach; [apply _|]. intros a. unfold dial_bootstrap.
    apply pres_bind; [apply _|apply pres_try, chats_jnode|]. intros [|]; apply chats_say. }
  apply pres_bind; [apply _|apply chats_jnode|]. intros size.
  apply pres_bind; [apply _|case_decide; [apply chats_say|apply pres_ret, _]|]. intros _.
  apply pres_bind; [apply _|apply pres_try, chats_jnode|]. intros [found|e]; [apply pres_ret, _|].
  apply pres_bind; [apply _|apply chats_say|]. intros _. apply pres_ret, _.
Qed.
Lemma chats_reconstruct fuel hubdir paths p resp : chats evj (reconstruct fuel hubdir paths p resp).
Proof.
  unfold reconstruct. apply pres_bind; [apply _|apply pres_lift, _|]. intros actual.
  apply pres_bind; [apply _|apply chats_jnode|]. intros s j. unfold with_stream.
  match goal with |- context [let '(_, _) := ?mm ?x in _] => assert (chats xf_events mm) as H; [|specialize (H x); destruct (mm x) as [r x']; exact H] end.
  apply pres_bind; [apply _| |intros _].
  { apply pres_wrap. intros x. unfold on_sess, m_zoom. destruct (ds_Get actual (xf_sess x)). reflexivity. }
  apply keeps_reconstruct_files; [apply _| | |by intros k x].
  - intros A m _ x. unfold on_sess, m_zoom. destruct (m (xf_sess x)). reflexivity.
  - intros total msg x. eexists [_]. split; [reflexivity|by constructor].
Qed.
Lemma speaks_pullFromPeers fuel self hubdir paths now commit ref opts :
  speaks evj (pullFromPeers fuel self hubdir paths now commit ref opts).
Proof.
  unfold pullFromPeers. apply speaks_bind; [apply chats_find|]. intros [|p l]; [apply speaks_fail|].
  apply speaks_bind; [apply chats_say|]. intros _. generalize (errorf "") as lastErr. generalize (p :: l) as cs. clear p l.
  induction cs as [|p cs IH]; intros lastErr; cbn [try_candidates]; [apply speaks_fail|].
  apply speaks_bind; [apply pres_try, chats_jnode|]. intros [[actual resp]|e].
  2:{ apply speaks_bind; [apply chats_say|]. intros _. apply IH. }
  apply speaks_bind; [apply chats_say|]. intros _. apply speaks_bind; [apply pres_try, chats_reconstruct|]. intros [n|e].
  2:{ apply speaks_bind; [apply chats_say|]. intros _. apply IH. }
  unfold finish_pull. apply speaks_bind; [apply pres_wrap, chats_jnode|]. intros _.
  apply speaks_bind; [apply pres_try, chats_jnode|]. intros r.
  apply speaks_bind; [destruct r; [apply pres_ret, _|apply chats_say]|]. intros _.
  apply speaks_bind; [apply pres_wrap, chats_jnode|]. intros _. apply speaks_done.
Qed.

(** The same on a job that talks to the Hub. *)
Lemma chats_job {A} (op : M job A) : chats evj op → chats evh (on_job op).
Proof. apply pres_zoom. by intros. Qed.
Lemma chats_hub {A} (op : M web A) : chats evh (on_hub op).
Proof. intros h. unfold on_hub, m_zoom. destruct (op (hb_web h)). reflexivity. Qed.
Lemma chats_hos {A} (op : M osst A) : chats evh (on_hos op).
Proof. apply chats_job, chats_jnode. Qed.
Lemma chats_hsay msg : chats evh (hsay msg).
Proof. apply chats_job, chats_say. Qed.
Lemma chats_count msg n tot : chats evh (hcount msg n tot).
Proof. intros h. eexists [_]. split; [reflexivity|by constructor]. Qed.
Lemma speaks_job op : speaks evj op → speaks evh (on_job op).
Proof. by apply speaks_zoom. Qed.

Lemma chats_fetch_files c paths repoID t commit files dn tot : chats evh (fetch_files c paths repoID t commit files dn tot).
Proof. apply kept_fetch_files; [apply _|intros A op; apply chats_hos|intros A op; apply chats_hub|apply chats_count]. Qed.
Lemma chats_ingest cfg now repoID t commit : chats evj (Ingest.Run cfg now repoID t commit say).
Proof.
  apply (kept_Run (λ j j', chatter (evj j) (evj j'))  (ChunkSize cfg)); [| | | | |done].
  - intros A op _. apply chats_jnode.
  - intros A op. apply chats_jnode.
  - intros s. apply chats_say.
  - intros A op. apply chats_jnode.
  - intros A op _. apply chats_jnode.
Qed.
Lemma speaks_pullFromHF cfg now paths commit ref opts : speaks evh (pullFromHF cfg now paths commit ref opts).
Proof.
  unfold pullFromHF. apply speaks_bind; [apply chats_hsay|]. intros _. cbv zeta.
  apply speaks_bind; [apply pres_wrap, chats_hub|]. intros info. destruct (ri_Siblings info); [apply speaks_fail|].
  apply speaks_bind; [apply pres_wrap, chats_hos|]. intros _. apply speaks_bind; [apply pres_try, chats_hub|]. intros tr.
  apply speaks_bind; [apply pres_wrap, pres_lift, _|]. intros ft. apply speaks_bind; [apply chats_hsay|]. intros _.
  apply speaks_bind; [apply chats_fetch_files|]. intros files. apply speaks_bind; [apply pres_wrap, chats_hos|]. intros _.
  apply speaks_bind; [apply chats_hsay|]. intros _. apply speaks_bind; [apply pres_wrap, chats_job, chats_ingest|]. intros res.
  apply speaks_job, speaks_done.
Qed.

Lemma resolve_some s : P2P (Sources.resolve s) || HF (Sources.resolve s) = true.
Proof. by destruct s as [[] []]. Qed.
Lemma speaks_fetch fuel self cfg now paths commit ref opts : speaks evh (fetch fuel self cfg now paths commit ref opts).
Proof.
  unfold fetch. cbv zeta. pose proof (resolve_some (Sources opts)) as Hs.
  destruct (P2P (Sources.resolve (Sources opts))).
  - apply speaks_or; [apply speaks_job, speaks_pullFromPeers|]. intros e.
    destruct (HF (Sources.resolve (Sources opts))); cbn [negb]; [|apply speaks_fail].
    apply speaks_bind; [apply chats_hsay|]. intros _. apply speaks_pullFromHF.
  - cbn in Hs. rewrite Hs. apply speaks_pullFromHF.
Qed.
Lemma speaks_restore paths commit ref opts entry : speaks evh (restore paths commit ref opts entry).
Proof.
  unfold restore. apply speaks_bind; [apply chats_hos|]. intros [|]; [apply speaks_job, speaks_done|].
  apply speaks_bind; [apply pres_wrap, chats_hos|]. intros _. apply speaks_job, speaks_done.
Qed.
Lemma speaks_Run fuel self cfg now opts : speaks evh (Run fuel self cfg now opts).
Proof.
  unfold Run. case_decide; [apply speaks_fail|]. cbv zeta. apply speaks_bind.
  { unfold resolve_commit. case_decide; [|apply pres_ret, _].
    apply pres_bind; [apply _|apply chats_hsay|]. intros _. apply pres_wrap, chats_hub. }
  intros commit. apply speaks_bind; [apply pres_wrap, pres_lift, _|]. intros _.
  apply speaks_bind; [apply chats_hsay|]. intros _. apply speaks_bind.
  { unfold mapped. destruct (Force opts); [apply pres_ret, _|].
    apply pres_bind; [apply _|apply pres_try, chats_job, chats_jnode|]. intros r. apply pres_ret, _. }
  intros [entry|]; [apply speaks_restore|apply speaks_fetch].
Qed.

(** C3. A pull reports any number of progress lines and then, exactly when it
    succeeds, one final [done]; a pull that fails has reported progress only,
    and leaves the [error] to its caller.  So a client never waits for an event
    that does not come, and never sees two endings. *)
Theorem Run_speaks fuel self cfg now opts h :
  let events := evh (Run fuel self cfg now opts h).2 in
  ∃ ps, Forall (λ e, ce_Type e = "progress") ps ∧
  match (Run fuel self cfg now opts h).1 with
  | Ok _ => ∃ msg, events = evh h ++ ps ++ [mk_ControlEvent "done" msg 0 0]
  | Err _ => events = evh h ++ ps
  end.
Proof.
  pose proof (speaks_Run fuel self cfg now opts h) as H. cbv zeta. destruct (Run fuel self cfg now opts h) as [[u|e] h']; cbn [fst snd] in *.
  - destruct H as (l & msg & (ps & -> & Hps) & ->). exists ps. split; [done|]. exists msg. by rewrite app_assoc.
  - destruct H as (ps & -> & Hps). by exists ps.
Qed.
End events.

(** ** What a pull leaves behind *)
Section outcome.
Context {MF : Multiformats} {MFL : MultiformatsLaws} {IP : Ipld} {BS : Blockstore} {FM : FileManager} {FS : Filestore}
  {DS : Datastore} {BA : Batching} {DL : DatastoreLaws} {BAL : BatchingLaws} {K : Keys} {N : Network} {HS : Hashes}
  {IM : Importer} {U : Urls}.
Implicit Types (h : hub) (m : gmap string Entry).

Definition hmap h : bstate := nd_map (jb_node (hb_job h)).
Definition same_map h h' : Prop := hmap h' = hmap h.
#[local] Instance same_map_preorder : PreOrder same_map.
Proof. unfold same_map. split; [done|]. intros a b c E1 E2. congruence. Qed.
Lemma map_os {A} (op : M osst A) : pres same_map (on_hos op).
Proof. intros h. unfold on_hos, on_job, on_jfiles, on_jnode, on_files, m_zoom, same_map. by destruct (op _). Qed.
Lemma map_web {A} (op : M web A) : pres same_map (on_hub op).
Proof. intros h. unfold on_hub, m_zoom, same_map. by destruct (op _). Qed.
Lemma map_count msg n tot : pres same_map (hcount msg n tot).
Proof. by intros h. Qed.
Lemma map_say msg : pres same_map (hsay msg).
Proof. by intros h. Qed.
Lemma kept_step {A B} (op : M hub A) (f : A → M hub B) m h b h' :
  pres same_map op → represents (hmap h) m → (op ≫= f) h = (Ok b, h') →
  ∃ a h1, represents (hmap h1) m ∧ f a h1 = (Ok b, h').
Proof.
  intros Hop Hm (a & h1 & E & H)%bind_ok_inv. exists a, h1. split; [|done].
  specialize (Hop h). rewrite E in Hop. unfold same_map in Hop. cbn [snd] in Hop. by rewrite Hop.
Qed.

Context (cfg : Config) (now : string) (Hnow : rfc3339 now = true) (opts : Options).
#[local] Abbreviation paths := (NewPaths (HFHubDir cfg) (RepoID opts) (RepoType opts)).
(** The table of the node after sharing [commit]. *)
Definition shares commit m h : Prop :=
  ∃ m', represents (hmap h) m' ∧ is_Some (m' !! commit) ∧ ∀ c, c ≠ commit → m' !! c = m !! c.
Lemma shares_insert commit e m h : represents (hmap h) (<[commit := e]> m) → shares commit m h.
Proof. intros H. eexists. split; [exact H|]. split; [rewrite lookup_insert_eq; by eexists|]. intros c Hc. by rewrite lookup_insert_ne. Qed.

Lemma pullFromHF_shares commit ref m h h' :
  represents (hmap h) m → pullFromHF cfg now paths commit ref opts h = (Ok tt, h') → host_ok (htree h') → shares commit m h'.
Proof.
  intros Hm. unfold pullFromHF. intros (u1 & h1 & M1 & H)%(kept_step _ _ _ _ _ _ (map_say _) Hm). cbv zeta in H.
  apply (kept_step _ _ m) in H as (info & h2 & M2 & H); [|apply pres_wrap, map_web|done]. destruct (ri_Siblings info); [done|].
  apply (kept_step _ _ m) in H as (u3 & h3 & M3 & H); [|apply pres_wrap, map_os|done].
  apply (kept_step _ _ m) in H as (tr & h4 & M4 & H); [|apply pres_try, map_web|done].
  apply (kept_step _ _ m) in H as (ft & h5 & M5 & H); [|apply pres_wrap, pres_lift, _|done].
  apply (kept_step _ _ m) in H as (u6 & h6 & M6 & H); [|apply map_say|done].
  apply (kept_step _ _ m) in H as (files & h7 & M7 & H);
    [|apply kept_fetch_files; [apply _|intros A op; apply map_os|intros A op; apply map_web|apply map_count]|done].
  apply (kept_step _ _ m) in H as (u8 & h8 & M8 & H); [|apply pres_wrap, map_os|done].
  apply (kept_step _ _ m) in H as (u9 & h9 & M9 & H); [|apply map_say|done].
  apply bind_ok_inv in H as (res & h10 & E10 & H). unfold m_wrap in E10.
  destruct (on_job (Ingest.Run cfg now (RepoID opts) (RepoType opts) commit say) h9) as [[res'|] h10'] eqn:E; [|done].
  injection E10 as -> ->. apply on_job_case in E as (j & E & ->). apply on_job_case in H as (j' & H & ->). injection H as <-.
  intros Hh. pose proof (ingest_keeps_files _ _ _ _ _ _ _ E) as Hk. unfold fs_kept in Hk.
  assert (host_ok (os_fs (jos (hb_job h9)))) as Hh9 by by rewrite <- Hk.
  destruct (Run_run _ say (λ s j0, eq_refl) cfg eq_refl now Hnow _ _ _ m _ _ _ M9 Hh9 E) as (lst & _ & Hm').
  by eapply shares_insert.
Qed.

Context (fuel : nat) (self : peer_id) (Hhub : is_abs (HFHubDir cfg) = true).
(** Looking up the revision changes neither the disk nor the table. *)
Lemma lookup_run commit m h : represents (hmap h) m → is_ok (FromCommit commit) = true →
  mapped commit opts h = (Ok (if Force opts then None else m !! commit), h).
Proof.
  intros Hm Hc. unfold mapped. destruct (Force opts); [done|]. destruct (FromCommit commit) as [d|] eqn:Ed; [|done].
  apply commit_seg_ok in Ed. pose proof (Get_run _ _ _ Hm Ed) as Hg.
  unfold on_job, on_jnode, on_map, m_try, m_zoom, mbind, M_bind.
  destruct h as [[[s bs fm o w] l] web]. unfold hmap in Hg.
  cbn [hb_job jb_node nd_map] in *. by rewrite Hg.
Qed.
Definition calm_h h h' : Prop := hmap h' = hmap h ∧ hos h' = hos h.
Lemma calm_web {A} (op : M web A) h : calm_h h (on_hub op h).2.
Proof. unfold on_hub, m_zoom, calm_h. by destruct (op _). Qed.
(** From the start of [Run] to the choice of the source. *)
Lemma Run_start h r h' :
  Run fuel self cfg now opts h = (Ok r, h') →
  ∃ commit h1, is_ok (FromCommit commit) = true ∧ (Commit opts ≠ "" → commit = Commit opts) ∧ calm_h h h1 ∧
    (entry ← mapped commit opts;
     match entry with
     | Some entry => restore paths commit (if decide (Ref opts = "") then "main" else Ref opts) opts entry
     | None => fetch fuel self cfg now paths commit (if decide (Ref opts = "") then "main" else Ref opts) opts
     end) h1 = (Ok r, h').
Proof.
  unfold Run. destruct (decide (trim_space (RepoID opts) = "")); [done|]. cbv zeta.
  intros (commit & h1 & E1 & H)%bind_ok_inv. apply bind_ok_inv in H as (u & h2 & E2 & H).
  unfold m_wrap, m_lift in E2. destruct (FromCommit commit) as [d|] eqn:Ed; [|done]. injection E2 as _ <-.
  apply bind_ok_inv in H as (u' & h3 & E3 & H). exists commit, h3. split; [by rewrite Ed|].
  assert (calm_h h h1 ∧ (Commit opts ≠ "" → commit = Commit opts)) as [C1 ?].
  { unfold resolve_commit in E1. destruct (decide (Commit opts = "")) as [Hc|Hc]; [|by injection E1 as <- <-].
    split; [|done]. apply bind_ok_inv in E1 as (u1 & h4 & E4 & E1). apply on_job_case in E4 as (j4 & E4 & ->). injection E4 as _ <-.
    apply (f_equal snd) in E1. cbn [snd] in E1. rewrite <- E1. unfold m_wrap.
    pose proof (calm_web (LatestCommit (hfClient cfg (Token opts)) (RepoID opts) (RepoType opts))) as C. 
    match goal with |- calm_h h (let '(_, _) := _ ?h4 in _).2 => specialize (C h4) end.
    destruct (on_hub _ _) as [r1 h5]. exact C. }
  split; [done|]. split; [|exact H]. apply on_job_case in E3 as (j3 & E3 & ->). injection E3 as _ <-. exact C1.
Qed.


(** A revision that is shared and linked already: nothing is asked of anybody
    and nothing on disk changes, whatever reference was to be pointed at it. *)
Theorem Run_present m h entry o :
  represents (hmap h) m → trim_space (RepoID opts) ≠ "" → is_ok (FromCommit (Commit opts)) = true → Force opts = false →
  m !! Commit opts = Some entry → SnapshotComplete paths (Commit opts) (hos h) = (Ok true, o) →
  let h' := (Run fuel self cfg now opts h).2 in
  (Run fuel self cfg now opts h).1 = Ok tt ∧ htree h' = htree h ∧ hmap h' = hmap h ∧ hb_web h' = hb_web h ∧
  nd_net (jb_node (hb_job h')) = nd_net (jb_node (hb_job h)) ∧
  evh h' = evh h ++ [mk_ControlEvent "progress" ("step A: " +:+ RepoID opts +:+ " @ " +:+ Commit opts) 0 0;
    mk_ControlEvent "done" ("already present: " +:+ RepoID opts +:+ " @ " +:+ short (Commit opts)) 0 0].
Proof.
  intros Hm Hid Hc Hf He Hs. cbv zeta.
  assert (Commit opts ≠ "") as Hne by (intros E; by rewrite E in Hc).
  pose proof (SnapshotComplete_looks paths (Commit opts) (hos h)) as Hlk. rewrite Hs in Hlk. unfold same_fs in Hlk. cbn [snd] in Hlk.
  unfold Run. rewrite decide_False by done. cbv zeta. unfold resolve_commit. rewrite (decide_False (P := Commit opts = "")) by done.
  assert (∃ d, FromCommit (Commit opts) = Ok d) as [d Ed].
  { destruct (FromCommit (Commit opts)) as [d|]; [by exists d|done]. }
  set (h1 := mk_hub (mk_job (jb_node (hb_job h)) (evh h ++ [mk_ControlEvent "progress" ("step A: " +:+ RepoID opts +:+ " @ " +:+ Commit opts) 0 0])) (hb_web h)).
  assert (mapped (Commit opts) opts h1 = (Ok (Some entry), h1)) as Hmap.
  { rewrite (lookup_run _ m) by (done || by rewrite Ed). by rewrite Hf, He. }
  rewrite (bind_run_ok _ _ h (Commit opts) h eq_refl).
  rewrite (bind_run_ok (m_wrap "step A" (m_lift (FromCommit (Commit opts)))) _ h d h) by (unfold m_wrap, m_lift; by rewrite Ed).
  rewrite (bind_run_ok (hsay ("step A: " +:+ RepoID opts +:+ " @ " +:+ Commit opts)) _ h tt h1 eq_refl).
  rewrite (bind_run_ok _ _ _ _ _ Hmap).
  unfold restore. assert (on_hos (SnapshotComplete paths (Commit opts)) h1 = (Ok true, with_hos h1 o)) as E2.
  { rewrite on_hos_run. change (hos h1) with (hos h). by rewrite Hs. }
  rewrite (bind_run_ok _ _ _ _ _ E2). split; [done|]. split; [exact Hlk|]. split; [done|]. split; [done|]. split; [done|].
  unfold evh. cbn. by rewrite <- app_assoc.
Qed.
End outcome.

(** ** Who is asked *)
Section privacy.
Context {MF : Multiformats} {IP : Ipld} {BS : Blockstore} {FM : FileManager} {FS : Filestore}
  {DS : Datastore} {BA : Batching} {K : Keys} {N : Network} {HS : Hashes} {IM : Importer} {U : Urls}.
Definition same_web (h h' : hub) : Prop := hb_web h' = hb_web h.
#[local] Instance same_web_preorder : PreOrder same_web.
Proof. unfold same_web. split; [done|]. intros a b c E1 E2. congruence. Qed.
Lemma web_job {A} (op : M job A) : pres same_web (on_job op).
Proof. intros h. unfold on_job, m_zoom, same_web. by destruct (op _). Qed.

(** The Hub does not learn of a pull that names its commit and leaves the Hub
    out of its sources: not a byte is sent to it, even when no peer delivers. *)
Theorem Run_p2p_only fuel self cfg now opts h :
  Commit opts ≠ "" → HF (Sources.resolve (Sources opts)) = false → hb_web (Run fuel self cfg now opts h).2 = hb_web h.
Proof.
  intros Hc Hs. revert h. change (pres same_web (Run fuel self cfg now opts)). unfold Run.
  case_decide; [apply pres_fail, _|]. cbv zeta. unfold resolve_commit. rewrite (decide_False (P := Commit opts = "")) by done.
  apply pres_bind; [apply _|apply pres_ret, _|]. intros commit. apply pres_bind; [apply _|apply pres_wrap, pres_lift, _|]. intros _.
  apply pres_bind; [apply _|apply web_job|]. intros _. apply pres_bind; [apply _| |].
  { unfold mapped. destruct (Force opts); [apply pres_ret, _|]. apply pres_bind; [apply _|apply pres_try, web_job|].
    intros r. apply pres_ret, _. }
  intros [entry|].
  - unfold restore. apply pres_bind; [apply _|apply web_job|]. intros [|]; [apply web_job|].
    apply pres_bind; [apply _|apply pres_wrap, web_job|]. intros _. apply web_job.
  - unfold fetch. cbv zeta. rewrite Hs. cbn [negb]. destruct (P2P _); [|apply pres_ret, _].
    apply pres_bind; [apply _|apply pres_try, web_job|]. intros [|e]; [apply pres_ret, _|apply pres_fail, _].
Qed.
End privacy.

(** ** Concrete pulls *)
Module ToyPipeline.
Import ToyNode ToyIngest ToyHub ToyFallback.
Definition me : peer_id (Keys := ToyKeys.keys) := "me".
Definition asking (commit : string) (src : Sources.Sources) : Options :=
  {| RepoID := "org/n"; RepoType := Model; Commit := commit; Ref := "dev"; Peers := []; Connect := []; Force := false;
     Sources := src; Token := "" |}.
(* No peer has it, the Hub does. *)
Definition fell_back : result unit * hub := Run 5 me cfg0 now3 (asking commit3 DefaultSources) hub0.
(* A node whose one shared revision is linked. *)
Definition linked : gmap fpath fnode := list_to_map [
  (["hub"], FDir 493); (repo_dir, FDir 493); (repo_dir ++ ["blobs"], FDir 493);
  (repo_dir ++ ["blobs"; "b"], FFile (mk_regular "data" 420 0)); (repo_dir ++ ["snapshots"], FDir 493);
  (repo_dir ++ ["snapshots"; commit], FDir 493);
  (repo_dir ++ ["snapshots"; commit; "f"], FLink "../../blobs/b")].
Definition having : hub :=
  mk_hub (mk_job (mk_node (nd_map node0) (nd_bs node0) (nd_fm node0) (mk_osst linked [] [] 0) (nd_net node0)) []) (mk_web [] []).
End ToyPipeline.

Section witnesses.
Import ToyNode ToyIngest ToyHub ToyFallback ToyPipeline.


Lemma Run_present_witness :
  let h' := (Run 5 me cfg0 now3 (asking ToyNode.commit DefaultSources) having).2 in
  htree h' = linked ∧ (CurrentCommit (NewPaths "/hub" "org/n" Model) "dev" (nofault (hos h'))).1 ≠ Ok ToyNode.commit.
Proof.
  destruct (SnapshotComplete (NewPaths "/hub" "org/n" Model) ToyNode.commit (hos having)) as [r o] eqn:E.
  assert (r = Ok true) as ->.
  { apply (f_equal fst) in E. cbn [fst] in E. rewrite <- E. vm_compute. reflexivity. }
  assert (is_ok (CurrentCommit (NewPaths "/hub" "org/n" Model) "dev" (nofault (mk_osst linked [] [] 0))).1 = false) as Hno
    by (vm_compute; reflexivity).
  intros h'. destruct (Run_present (MFL := Toy.multiformats_laws) (BAL := ToyDB.batching_laws) cfg0 now3 (asking ToyNode.commit DefaultSources)
    5 me table having entry o represents0) as (_ & Hf & _); [discriminate|reflexivity|reflexivity|reflexivity|exact E|].
  split; [exact Hf|]. rewrite (CurrentCommit_fs _ _ _ (mk_osst linked [] [] 0) Hf). intros Hc.
  discriminate (eq_trans (eq_sym Hno) (f_equal is_ok Hc)).
Defined.

Lemma Run_p2p_only_witness :
  hb_web (Run 5 me cfg0 now3 (asking commit3 (mk_Sources true false)) hub0).2 = web0.
Proof. apply (Run_p2p_only 5 me cfg0 now3 (asking commit3 (mk_Sources true false)) hub0); [discriminate|reflexivity]. Defined.
End witnesses.
