(* ===== verification/Controls.v ===== *)
(** * internal/controls: the daemon's control socket.

    One connection carries one request and the events of its command.  A
    [daemon] is a node that may talk to the Hub, its reachability verdict and
    the channel that asks it to stop.  [Call] is the client's side.  The
    cancellation of a command whose client has gone shows as the failure of
    whatever it does next. *)
From stdpp Require Import gmap.
From S2P Require Import Prelude GoStrings Json GoPath GoFS Protoio Lib Store Dummy Mapping Wire Hfcache Tree Evict.
From S2P Require Import Snapshot Sources Config Identity Net Node Blocks Reconstruct Job Exchange Materialise Pull Ingest Hfapi.
From S2P Require Import Fallback Pipeline.

(** ** Serving one command *)
Section serve.
Context {MF : Multiformats} {IP : Ipld} {BS : Blockstore} {FM : FileManager} {FS : Filestore}
  {DS : Datastore} {BA : Batching} {K : Keys} {N : Network} {HS : Hashes} {IM : Importer} {U : Urls}.

(** The parts of a node that evicting works on; its messages become events. *)
Definition on_target {A} (show : string → list ControlEvent) (op : M target A) : M job A := λ j,
  let n := jb_node j in
  let '(r, t) := op (mk_target (nd_map n) (nd_bs n) (nd_fm n) (nd_os n) []) in
  (r, mk_job (mk_node (tg_map t) (tg_bs t) (tg_fm t) (tg_os t) (nd_net n)) (jb_events j ++ flat_map show (tg_log t))).
Definition as_progress (msg : string) : list ControlEvent := [mk_ControlEvent "progress" msg 0 0].

Record daemon := mk_daemon { dm_hub : hub; dm_reach : Reachability; dm_shutdown : bool }.
Definition in_hub {A} : M hub A → M daemon A := m_zoom dm_hub (λ h d, mk_daemon h (dm_reach d) (dm_shutdown d)).
Definition in_job {A} (op : M job A) : M daemon A := in_hub (on_job op).

(* What a run depends on: its configuration and identity, the clock, and the order of a Go map. *)
Context (cfg : Config) (self : peer_id) (now : string) (pull_fuel evict_fuel : nat) (map_order : gset cid → list cid).

Definition statusLine (reach : Reachability) (n : node) : string :=
  let rt := dht_table_size (nd_net n) in
  let tail := if decide (rt = 0%Z)
    then String "010" "         (not joined the DHT swarm: providers cannot be announced or resolved)" else "" in
  "peer : " +:+ peer_string self +:+ String "010" "addrs:" +:+ String "010" "  "
  +:+ join (String "010" "  ") (Addrs self n)
  +:+ String "010" "dht  : routing table " +:+ dec_of_Z rt +:+ " peer(s)" +:+ tail
  +:+ String "010" "reach: " +:+ ReachabilityLine reach cfg.

(** The answer to a command that failed. *)
Definition or_error {A} (r : result A) (f : A → M job unit) : M job unit :=
  match r with Err e => send "error" (err_text e) | Ok a => f a end.

Definition pull_options (t : Hfcache.RepoType) (src : Sources.Sources) (req : ControlRequest) : Options := {|
  RepoID := cr_RepoID req; RepoType := t; Commit := cr_Commit req; Ref := cr_Ref req; Peers := cr_Peers req;
  Connect := cr_Connect req; Force := cr_Force req; Sources := src; Token := cr_Token req |}.
Definition serve_pull (req : ControlRequest) : M hub unit :=
  match ParseRepoType (cr_RepoType req) with
  | Err e => on_job (send "error" (err_text e))
  | Ok t =>
      match ParseSources (cr_From req) with
      | Err e => on_job (send "error" ("pull: " +:+ err_text e))
      | Ok src =>
          r ← m_try (Pipeline.Run pull_fuel self cfg now (pull_options t src req));
          on_job (or_error r (λ _, mret tt))
      end
  end.
Definition serve_ingest (req : ControlRequest) : M job unit :=
  or_error (ParseRepoType (cr_RepoType req)) (λ t,
  c ← m_try (if decide (cr_Commit req = "")
             then on_jfiles (CurrentCommit (NewPaths (HFHubDir cfg) (cr_RepoID req) t) (cr_Ref req))
             else mret (cr_Commit req));
  or_error c (λ commit,
  r ← m_try (Ingest.Run cfg now (cr_RepoID req) t commit say);
  or_error r (λ res,
  send "done" ("shared " +:+ re_RepoID res +:+ "@" +:+ Job.short (re_Commit res) +:+ ": "
    +:+ cid_string (re_ActualCID res) +:+ " (" +:+ humanBytes (re_TotalSize res) +:+ ")")))).
Definition list_line (e : Entry) : string :=
  en_RepoID e +:+ "@" +:+ Job.short (en_CommitHash e) +:+ " -> " +:+ en_ActualCID e +:+ " ("
  +:+ humanBytes (en_TotalSize e) +:+ ", " +:+ dec_of_Z (Z.of_nat (length (en_Files e))) +:+ " files)".
Definition serve_list : M job unit :=
  r ← m_try (on_jnode (on_map DB.List));
  or_error r (λ entries,
  m_foreach (λ e, say (list_line e)) entries ;;
  send "done" (dec_of_Z (Z.of_nat (length entries)) +:+ " shared revision(s)")).
Definition serve_evict (req : ControlRequest) : M job unit :=
  if decide (cr_Commit req ≠ "") then
    r ← m_try (on_jnode (on_map (DB.Get (cr_Commit req))));
    match r with
    | Err e => send "error" (err_text e)
    | Ok None => send "error" "unknown commit"
    | Ok (Some entry) =>
        r ← m_try (on_target as_progress (Evict.Commit evict_fuel map_order (HFHubDir cfg) entry));
        or_error r (λ _, send "done" ("evicted " +:+ en_RepoID entry +:+ "@" +:+ Job.short (en_CommitHash entry)))
    end
  else
    r ← m_try (on_target as_progress (Evict.Repo evict_fuel map_order (HFHubDir cfg) (cr_RepoID req)));
    or_error (match r with Ok (n, Ok _) => Ok n | Ok (_, Err e) => Err e | Err e => Err e end) (λ n,
    send "done" ("evicted " +:+ dec_of_Z n +:+ " revision(s) of " +:+ cr_RepoID req)).
(** The channel is closed once. *)
Definition serve_shutdown : M daemon unit :=
  in_job (send "done" "shutting down") ;;
  closed ← m_gets dm_shutdown;
  if closed : bool then mret tt else m_modify (λ d, mk_daemon (dm_hub d) (dm_reach d) true).
Definition dispatch (req : ControlRequest) : M daemon unit :=
  if decide (cr_Cmd req = CmdPull) then in_hub (serve_pull req)
  else if decide (cr_Cmd req = CmdIngest) then in_job (serve_ingest req)
  else if decide (cr_Cmd req = CmdStatus) then
    reach ← m_gets dm_reach;
    in_job (n ← m_gets jb_node; send "done" (statusLine reach n))
  else if decide (cr_Cmd req = CmdList) then in_job serve_list
  else if decide (cr_Cmd req = CmdEvict) then in_job (serve_evict req)
  else if decide (cr_Cmd req = CmdShutdown) then serve_shutdown
  else in_job (send "error" ("unknown command: " +:+ cr_Cmd req)).

(** ** One connection *)
Record conn := mk_conn { cn_in : rstate; cn_out : wstate }.
Record session := mk_session { sn_daemon : daemon; sn_conn : conn }.
Definition conn_read {A} : M rstate A → M session A :=
  m_zoom (λ s, cn_in (sn_conn s)) (λ x s, mk_session (sn_daemon s) (mk_conn x (cn_out (sn_conn s)))).
Definition conn_write {A} : M wstate A → M session A :=
  m_zoom (λ s, cn_out (sn_conn s)) (λ x s, mk_session (sn_daemon s) (mk_conn (cn_in (sn_conn s)) x)).
Definition in_daemon {A} : M daemon A → M session A := m_zoom sn_daemon (λ x s, mk_session x (sn_conn s)).
Definition writeEvent (e : ControlEvent) : M wstate unit := WriteJSON (ControlEvent_json e).
(** Every event is tried, whatever became of the one before. *)
Definition reply (l : list ControlEvent) : M session unit := m_foreach (λ e, m_ignore (conn_write (writeEvent e))) l.
Definition dm_events (d : daemon) : list ControlEvent := jb_events (hb_job (dm_hub d)).
Definition set_events (l : list ControlEvent) : M daemon unit :=
  in_job (m_modify (λ j, mk_job (jb_node j) l)).
Definition handle : M session unit :=
  r ← m_try (conn_read (ReadJSON dec_ControlRequest zero_ControlRequest));
  match r with
  | Err e => reply [mk_ControlEvent "error" (err_text e) 0 0]
  | Ok req =>
      in_daemon (set_events []) ;;
      in_daemon (dispatch req) ;;
      l ← in_daemon (m_gets dm_events);
      reply l
  end.
End serve.

(** ** The client *)
(** [fn] sees each event; what it saw is kept. *)
Record client := mk_client { ct_in : rstate; ct_seen : list ControlEvent }.
Definition ct_read {A} : M rstate A → M client A := m_zoom ct_in (λ x c, mk_client x (ct_seen c)).
Section client.
Variable fn : ControlEvent → result unit.
Fixpoint call_loop (fuel : nat) : M client unit :=
  match fuel with
  | O => m_fail (errorf "out of fuel")
  | S fuel' =>
      r ← m_try (ct_read (ReadJSON dec_ControlEvent zero_ControlEvent));
      match r with
      | Err e =>
          if errors_is e SEOF then m_fail (errorf "daemon closed control connection before completing")
          else m_fail (ErrWrap "read control event" e)
      | Ok ev =>
          m_modify (λ c, mk_client (ct_in c) (ct_seen c ++ [ev])) ;;
          m_lift (fn ev) ;;
          if decide (ce_Type ev = "done") then mret tt
          else if decide (ce_Type ev = "error") then m_fail (errorf (ce_Message ev))
          else call_loop fuel'
      end
  end.
End client.
(** The request is sent, then the events are read: every one of them takes at
    least four bytes. *)
Definition Call (fn : ControlEvent → result unit) (req : ControlRequest) (w : wstate) (r : rstate) :
    result unit * list ControlEvent :=
  match WriteJSON (ControlRequest_json req) w with
  | (Err e, _) => (Err (ErrWrap "send control request" e), [])
  | (Ok _, _) =>
      let '(res, c) := call_loop fn (S (String.length (rs_in r))) (mk_client r []) in
      (res, ct_seen c)
  end.

(** ** Every command is answered once *)
Section closing.
Context {S : Type} (ev : S → list ControlEvent).
Definition final_event (e : ControlEvent) : Prop := ce_Type e = "done" ∨ ce_Type e = "error".
Definition closed_by (l l' : list ControlEvent) : Prop :=
  ∃ ps e, l' = l ++ ps ++ [e] ∧ Forall (λ e, ce_Type e = "progress") ps ∧ final_event e.
(** [m] always ends, with progress and then one final event. *)
Definition closes (m : M S unit) : Prop := ∀ s, (m s).1 = Ok tt ∧ closed_by (ev s) (ev (m s).2).
Definition surely {A} (m : M S A) : Prop := ∀ s, is_ok (m s).1 = true.

Lemma closed_after l l1 l2 : chatter l l1 → closed_by l1 l2 → closed_by l l2.
Proof.
  intros (p & -> & Hp) (q & e & -> & Hq & He). exists (p ++ q), e. rewrite <- !app_assoc.
  split; [done|]. split; [by apply Forall_app|done].
Qed.
Lemma closes_bind {A} (m : M S A) (f : A → M S unit) : chats ev m → surely m → (∀ a, closes (f a)) → closes (m ≫= f).
Proof.
  intros Hc Hs Hf s. specialize (Hc s). specialize (Hs s). unfold mbind, M_bind.
  destruct (m s) as [[a|e] s1]; [|done]. cbn [snd] in Hc. destruct (Hf a s1) as [H1 H2]. split; [done|]. by eapply closed_after.
Qed.
Lemma surely_try {A} (m : M S A) : surely (m_try m).
Proof. intros s. unfold m_try. by destruct (m s). Qed.
Lemma surely_gets {A} (f : S → A) : surely (m_gets f).
Proof. by intros s. Qed.
Lemma surely_foreach {A} (f : A → M S unit) l : (∀ a, surely (f a)) → surely (m_foreach f l).
Proof.
  intros Hf. induction l as [|a l IH]; [by intros s|]. intros s. cbn [m_foreach]. specialize (Hf a s).
  unfold mbind, M_bind. destruct (f a s) as [[u|e] s1]; [apply IH|done].
Qed.
Lemma surely_spec {A} (m : M S A) s : surely m → ∃ a, (m s).1 = Ok a.
Proof. intros H. specialize (H s). destruct (m s) as [[a|e] s1]; [by exists a|done]. Qed.
End closing.
Lemma closes_zoom {S T} (ev : S → list ControlEvent) (ev' : T → list ControlEvent) (get : S → T) set (m : M T unit) :
  (∀ s, ev s = ev' (get s)) → (∀ s t, ev (set t s) = ev' t) → closes ev' m → closes ev (m_zoom get set m).
Proof.
  intros Hg Hs Hm s. destruct (Hm (get s)) as [H1 H2]. unfold m_zoom. destruct (m (get s)) as [r t]; cbn [fst snd] in *.
  rewrite Hg, Hs. by split.
Qed.

Section answered.
Context {MF : Multiformats} {IP : Ipld} {BS : Blockstore} {FM : FileManager} {FS : Filestore}
  {DS : Datastore} {BA : Batching} {K : Keys} {N : Network} {HS : Hashes} {IM : Importer} {U : Urls}.
#[local] Abbreviation evj := jb_events.

Lemma closes_send ty msg : ty = "done" ∨ ty = "error" → closes evj (send ty msg).
Proof. intros H j. split; [done|]. exists [], (mk_ControlEvent ty msg 0 0). by split_and!. Qed.
Lemma closes_or_error {A} (r : result A) f : (∀ a, closes evj (f a)) → closes evj (or_error r f).
Proof. intros H. destruct r as [a|e]; [apply H|]. apply closes_send. by right. Qed.
Lemma chats_target {A} (op : M target A) : chats evj (on_target as_progress op).
Proof.
  intros j. unfold on_target. destruct (op _) as [r t]. eexists. split; [done|].
  induction (tg_log t) as [|m l IH]; [constructor|]. by constructor.
Qed.
Lemma surely_say msg : surely (say msg).
Proof. by intros j. Qed.

Context (cfg : Config) (self : peer_id) (now : string) (pull_fuel evict_fuel : nat) (map_order : gset cid → list cid).
Lemma closes_ingest req : closes evj (serve_ingest cfg now req).
Proof.
  apply closes_or_error. intros t. apply closes_bind; [apply pres_try|apply surely_try|].
  { case_decide; [apply chats_jnode|apply pres_ret, _]. }
  intros c. apply closes_or_error. intros commit.
  apply closes_bind; [apply pres_try, chats_ingest|apply surely_try|]. intros r.
  apply closes_or_error. intros res. apply closes_send. by left.
Qed.
Lemma closes_list : closes evj serve_list.
Proof.
  apply closes_bind; [apply pres_try, chats_jnode|apply surely_try|]. intros r. apply closes_or_error. intros l.
  apply closes_bind; [apply pres_foreach; [apply _|intros e; apply chats_say]|apply surely_foreach; intros e; apply surely_say|].
  intros _. apply closes_send. by left.
Qed.
Lemma closes_evict req : closes evj (serve_evict cfg evict_fuel map_order req).
Proof.
  unfold serve_evict. case_decide.
  - apply closes_bind; [apply pres_try, chats_jnode|apply surely_try|].
    intros [[entry|]|e]; [|apply closes_send; by right..].
    apply closes_bind; [apply pres_try, chats_target|apply surely_try|].
    intros r. apply closes_or_error. intros _. apply closes_send. by left.
  - apply closes_bind; [apply pres_try, chats_target|apply surely_try|].
    intros r. apply closes_or_error. intros n. apply closes_send. by left.
Qed.
Lemma closes_pull req : closes evh (serve_pull cfg self now pull_fuel req).
Proof.
  assert (∀ ty msg, ty = "done" ∨ ty = "error" → closes evh (on_job (send ty msg))) as Hsend.
  { intros ty msg H. by apply (closes_zoom evh evj), closes_send. }
  unfold serve_pull. destruct (ParseRepoType _) as [t|]; [|apply Hsend; by right].
  destruct (ParseSources _) as [src|]; [|apply Hsend; by right].
  intros h. pose proof (speaks_Run pull_fuel self cfg now (pull_options t src req) h) as Hr.
  unfold m_try, mbind, M_bind. destruct (Pipeline.Run _ _ _ _ _ h) as [[u|e] h1]; cbn [fst snd] in Hr.
  - destruct Hr as (l1 & msg & (ps & -> & Hps) & Hl). split; [done|]. exists ps, (mk_ControlEvent "done" msg 0 0).
    split; [|split; [done|by left]]. rewrite app_assoc. exact Hl.
  - split; [done|]. eapply closed_after; [exact Hr|]. eexists [], _. split; [done|]. split; [done|by right].
Qed.
Definition evd (d : daemon) : list ControlEvent := evh (dm_hub d).
Lemma closes_job op : closes evj op → closes evd (in_job op).
Proof. intros H. by apply (closes_zoom evd evh), (closes_zoom evh evj). Qed.
(** Whatever the command. *)
Lemma closes_dispatch req : closes evd (dispatch cfg self now pull_fuel evict_fuel map_order req).
Proof.
  unfold dispatch. case_decide; [by apply (closes_zoom evd evh), closes_pull|].
  case_decide; [apply closes_job, closes_ingest|]. case_decide.
  { apply closes_bind; [apply pres_gets, _|apply surely_gets|]. intros reach. apply closes_job.
    apply closes_bind; [apply pres_gets, _|apply surely_gets|]. intros n. apply closes_send. by left. }
  case_decide; [apply closes_job, closes_list|]. case_decide; [apply closes_job, closes_evict|].
  case_decide; [|apply closes_job, closes_send; by right].
  intros d. unfold serve_shutdown, in_job, in_hub, on_job, send, m_modify, m_gets, m_zoom, mbind, M_bind.
  destruct d as [[[nd l] w] reach []]; (split; [done|]); eexists [], _; (split; [done|split; [done|by left]]).
Qed.
End answered.

(** ** What the client learns *)
Section telling.
Definition event_bytes (e : ControlEvent) : string := print (ControlEvent_json e).
(** Go's types of the fields, and a frame of its own. *)
Definition sendable (e : ControlEvent) : Prop :=
  in_int64 (ce_Bytes e) ∧ in_int64 (ce_Total e) ∧ (slen (event_bytes e) ≤ MaxFrame)%Z.
#[export] Instance sendable_dec e : Decision (sendable e).
Proof. unfold sendable, in_int64. apply _. Defined.
Definition sent (l : list ControlEvent) : string := frames (map event_bytes l).

Lemma writeEvent_run e out : sendable e → writeEvent e (mk_wstate out []) = (Ok tt, mk_wstate (out +:+ frame (event_bytes e)) []).
Proof. intros (_ & _ & H). by apply WriteFrame_run. Qed.
Lemma read_event e rest end_ : sendable e →
  ReadJSON dec_ControlEvent zero_ControlEvent (mk_rstate (frame (event_bytes e) +:+ rest) end_) = (Ok e, mk_rstate rest end_).
Proof.
  intros (H1 & H2 & H3). unfold event_bytes. rewrite ReadJSON_frame by (done || apply plain_ControlEvent).
  by rewrite dec_ControlEvent_json.
Qed.
Lemma read_cut n e end_ : sendable e → n < String.length (frame (event_bytes e)) →
  is_ok (ReadJSON dec_ControlEvent zero_ControlEvent (mk_rstate (take_bytes n (frame (event_bytes e))) end_)).1 = false.
Proof.
  intros (_ & _ & H) Hn. unfold ReadJSON. apply (ReadFrame_cut n _ end_ H) in Hn.
  destruct (ReadFrame _) as [[d|err] r] eqn:E; [done|]. by rewrite (bind_run_err _ _ _ _ _ E).
Qed.

Context (fn : ControlEvent → result unit) (Hfn : ∀ e, ce_Type e ≠ "error" → fn e = Ok tt).
(** What the final event means to the caller. *)
Definition said_done (e : ControlEvent) : bool := bool_decide (ce_Type e = "done").
Lemma call_err fuel r seen : is_ok (ReadJSON dec_ControlEvent zero_ControlEvent r).1 = false →
  is_ok (call_loop fn fuel (mk_client r seen)).1 = false.
Proof.
  intros H. destruct fuel as [|fuel]; [done|]. cbn [call_loop].
  destruct (ReadJSON dec_ControlEvent zero_ControlEvent r) as [[e|err] r'] eqn:E; [done|].
  assert (ct_read (ReadJSON dec_ControlEvent zero_ControlEvent) (mk_client r seen) = (Err err, mk_client r' seen)) as E'.
  { unfold ct_read, m_zoom. cbn [ct_in]. by rewrite E. }
  rewrite (bind_try_run _ _ _ _ _ E'). by destruct (errors_is err SEOF).
Qed.
Lemma call_step fuel e rest end_ seen : sendable e →
  call_loop fn (S fuel) (mk_client (mk_rstate (frame (event_bytes e) +:+ rest) end_) seen) =
  (m_lift (fn e) ;;
   if decide (ce_Type e = "done") then mret tt
   else if decide (ce_Type e = "error") then m_fail (errorf (ce_Message e))
   else call_loop fn fuel) (mk_client (mk_rstate rest end_) (seen ++ [e])).
Proof.
  intros He. cbn [call_loop].
  assert (ct_read (ReadJSON dec_ControlEvent zero_ControlEvent)
    (mk_client (mk_rstate (frame (event_bytes e) +:+ rest) end_) seen) = (Ok e, mk_client (mk_rstate rest end_) seen)) as E'.
  { unfold ct_read, m_zoom. cbn [ct_in]. by rewrite read_event. }
  by rewrite (bind_try_run _ _ _ _ _ E').
Qed.

Lemma sapp_inv_head (a b c : string) : a +:+ b = a +:+ c → b = c.
Proof. apply (inj (String.append a)). Qed.
Lemma call_cut ps final n end_ fuel seen :
  Forall (λ e, ce_Type e = "progress") ps → final_event final → Forall sendable (ps ++ [final]) →
  let data := take_bytes n (sent (ps ++ [final])) in
  String.length data < fuel →
  let run := call_loop fn fuel (mk_client (mk_rstate data end_) seen) in
  (is_ok run.1 = true ↔ data = sent (ps ++ [final]) ∧ ce_Type final = "done") ∧
  (data = sent (ps ++ [final]) → ct_seen run.2 = seen ++ ps ++ [final]).
Proof.
  intros Hps Hfin Hs. revert n fuel seen. induction ps as [|p ps IH]; intros n fuel seen; cbv zeta; intros Hf.
  - cbn [app] in *. apply Forall_cons_1 in Hs as [He _]. unfold sent in *. cbn [map frames foldr] in *. rewrite sapp_nil_r in *.
    destruct (decide (n < String.length (frame (event_bytes final)))) as [Hn|Hn].
    { assert (take_bytes n (frame (event_bytes final)) ≠ frame (event_bytes final)) as Hne.
      { intros E. apply (f_equal String.length) in E. rewrite length_take_bytes in E. lia. }
      split; [|done]. rewrite call_err by by apply read_cut. split; [done|]. by intros [? _]. }
    assert (take_bytes n (frame (event_bytes final)) = frame (event_bytes final)) as E.
    { rewrite <- (sapp_nil_r (frame (event_bytes final))) at 1. rewrite take_bytes_split.
      destruct (Nat.ltb_spec n (String.length (frame (event_bytes final)))); [lia|].
      destruct (n - _); by rewrite sapp_nil_r. }
    rewrite E in *. destruct fuel as [|fuel]; [lia|]. 
    rewrite <- (sapp_nil_r (frame (event_bytes final))), call_step, sapp_nil_r by done.
    destruct (decide (ce_Type final = "done")) as [Hd|Hd].
    + rewrite Hfn by by rewrite Hd. split; [|done]. by split.
    + destruct Hfin as [?|Hfe]; [done|]. rewrite decide_True by done. unfold m_lift, mbind, M_bind.
      destruct (fn final); (split; [split; [done|by intros [_ ?]]|done]).
  - apply Forall_cons_1 in Hps as [Hp Hps]. cbn [app] in *. apply Forall_cons_1 in Hs as [He Hs]. specialize (IH Hps Hs).
    change (sent (p :: ps ++ [final])) with (frame (event_bytes p) +:+ sent (ps ++ [final])) in *.
    rewrite take_bytes_split in *. destruct (Nat.ltb_spec n (String.length (frame (event_bytes p)))) as [Hn|Hn].
    { assert (take_bytes n (frame (event_bytes p)) ≠ frame (event_bytes p) +:+ sent (ps ++ [final])) as Hne.
      { intros E. apply (f_equal String.length) in E. rewrite length_take_bytes, slength_app in E. lia. }
      split; [|done]. rewrite call_err by by apply read_cut. split; [done|]. by intros [? _]. }
    destruct fuel as [|fuel]; [lia|]. rewrite call_step by done.
    rewrite Hfn by by rewrite Hp. rewrite (decide_False (P := ce_Type p = "done")), (decide_False (P := ce_Type p = "error")) by by rewrite Hp.
    specialize (IH (n - String.length (frame (event_bytes p))) fuel (seen ++ [p])).
    rewrite slength_app in Hf. change (String.length (frame (event_bytes p))) with (4 + String.length (event_bytes p)) in Hf at 1.
    destruct IH as [IH1 IH2]; [lia|]. change ((m_lift (Ok tt) ;; call_loop fn fuel) ?s) with (call_loop fn fuel s). split.
    + rewrite IH1. split; intros [E ?]; (split; [|done]); [by rewrite E|by eapply sapp_inv_head].
    + intros E%sapp_inv_head. rewrite IH2 by done. by rewrite <- app_assoc.
Qed.

(** C6. A client reports success exactly when the daemon had finished the command
    and said so.  However the stream is cut off (a daemon that dies, a deadline),
    and whatever error it ends with, a client that has not received the final
    [done] whole reports a failure; and nothing it was sent is lost. *)
Theorem Call_truth req w ps final n end_ :
  ws_faults w = [] → (slen (print (ControlRequest_json req)) ≤ MaxFrame)%Z →
  Forall (λ e, ce_Type e = "progress") ps → final_event final → Forall sendable (ps ++ [final]) →
  let data := take_bytes n (sent (ps ++ [final])) in
  (is_ok (Call fn req w (mk_rstate data end_)).1 = true ↔ data = sent (ps ++ [final]) ∧ ce_Type final = "done") ∧
  (data = sent (ps ++ [final]) → (Call fn req w (mk_rstate data end_)).2 = ps ++ [final]).
Proof.
  intros Hw Hr Hps Hfin Hs data. unfold Call. destruct w as [out fl]. cbn [ws_faults] in Hw. subst fl.
  unfold WriteJSON. rewrite WriteFrame_run by done. cbn [rs_in].
  pose proof (call_cut ps final n end_ (S (String.length data)) [] Hps Hfin Hs) as [H1 H2]; [fold data; lia|].
  fold data in H1, H2. destruct (call_loop _ _ _) as [res c]. cbn [fst snd] in *. by split.
Qed.
End telling.

(** ** Both ends together *)
Section together.
Context {MF : Multiformats} {IP : Ipld} {BS : Blockstore} {FM : FileManager} {FS : Filestore}
  {DS : Datastore} {BA : Batching} {K : Keys} {N : Network} {HS : Hashes} {IM : Importer} {U : Urls}.
Context (cfg : Config) (self : peer_id) (now : string) (pull_fuel evict_fuel : nat) (map_order : gset cid → list cid).
#[local] Abbreviation handle := (handle cfg self now pull_fuel evict_fuel map_order).
#[local] Abbreviation dispatch := (dispatch cfg self now pull_fuel evict_fuel map_order).

Lemma reply_run l s out : Forall sendable l → cn_out (sn_conn s) = mk_wstate out [] →
  reply l s = (Ok tt, mk_session (sn_daemon s) (mk_conn (cn_in (sn_conn s)) (mk_wstate (out +:+ sent l) []))).
Proof.
  intros Hl. revert s out. induction Hl as [|e l He _ IH]; intros [d [i o]] out Ho; cbn [sn_conn cn_out] in Ho; subst o.
  { cbn. by rewrite sapp_nil_r. }
  unfold reply in *. cbn [m_foreach].
  assert (m_ignore (conn_write (writeEvent e)) (mk_session d (mk_conn i (mk_wstate out []))) =
    (Ok tt, mk_session d (mk_conn i (mk_wstate (out +:+ frame (event_bytes e)) [])))) as E.
  { unfold m_ignore, conn_write, m_zoom. cbn [sn_conn cn_out]. by rewrite writeEvent_run. }
  rewrite (bind_run_ok _ _ _ _ _ E), (IH (mk_session d (mk_conn i (mk_wstate (out +:+ frame (event_bytes e)) []))) _ eq_refl). cbn [sn_daemon sn_conn cn_in].
  by rewrite sapp_assoc.
Qed.
Lemma reply_daemon l s : sn_daemon (reply l s).2 = sn_daemon s.
Proof.
  revert s. change (pres (λ s s', sn_daemon s' = sn_daemon s) (reply l)). apply pres_foreach.
  { split; [done|]. intros a b c E1 E2. congruence. }
  intros e. apply pres_ignore. intros s. unfold conn_write, m_zoom. by destruct (writeEvent e _).
Qed.
Definition cleared (d : daemon) : daemon :=
  mk_daemon (mk_hub (mk_job (jb_node (hb_job (dm_hub d))) []) (hb_web (dm_hub d))) (dm_reach d) (dm_shutdown d).
(** A request that arrives is dispatched, and its events are sent. *)
Lemma handle_ok s req r' : ReadJSON dec_ControlRequest zero_ControlRequest (cn_in (sn_conn s)) = (Ok req, r') →
  let d' := (dispatch req (cleared (sn_daemon s))).2 in
  handle s = reply (dm_events d') (mk_session d' (mk_conn r' (cn_out (sn_conn s)))).
Proof.
  intros Hr. cbv zeta. destruct s as [d [i o]]. cbn [sn_conn sn_daemon cn_in cn_out] in *. unfold Controls.handle.
  assert (conn_read (ReadJSON dec_ControlRequest zero_ControlRequest) (mk_session d (mk_conn i o)) =
    (Ok req, mk_session d (mk_conn r' o))) as E by by (unfold conn_read, m_zoom; cbn [sn_conn cn_in]; rewrite Hr).
  rewrite (bind_try_run _ _ _ _ _ E).
  rewrite (bind_run_ok _ _ (mk_session d (mk_conn r' o)) tt (mk_session (cleared d) (mk_conn r' o)) eq_refl).
  pose proof (closes_dispatch cfg self now pull_fuel evict_fuel map_order req (cleared d)) as [Hok _].
  destruct (dispatch req (cleared d)) as [r d'] eqn:Ed. cbn [fst snd] in *. subst r.
  assert (in_daemon (dispatch req) (mk_session (cleared d) (mk_conn r' o)) = (Ok tt, mk_session d' (mk_conn r' o))) as E2
    by by (unfold in_daemon, m_zoom; cbn [sn_daemon]; rewrite Ed).
  by rewrite (bind_run_ok _ _ _ _ _ E2).
Qed.


End together.

(** ** A concrete connection *)
Module ToyControls.
Import ToyNode ToyIngest ToyHub ToyFallback ToyPipeline.
Definition eof : error := ErrRoot SEOF "EOF".
Definition asked : ControlRequest :=
  mk_ControlRequest CmdPull "org/n" "model" commit3 "dev" [] [] false "p2p,hf" "".
Definition order (X : gset cid) : list cid := elements X.
Definition idle : daemon := mk_daemon hub0 ReachabilityUnknown false.
Definition connected : session :=
  mk_session idle (mk_conn (mk_rstate (ws_out (WriteJSON (ControlRequest_json asked) (mk_wstate "" [])).2) eof) (mk_wstate "" [])).
Definition served : session := (handle cfg0 me now3 5 9 order connected).2.
Definition print_event (e : ControlEvent) : result unit :=
  if decide (ce_Type e = "error") then Err (errorf (ce_Message e)) else Ok tt.
Definition halfway : list ControlEvent := [mk_ControlEvent "progress" "half" 1 2].
Definition over : ControlEvent := mk_ControlEvent "done" "all" 0 0.
End ToyControls.

Section witnesses.
Import ToyNode ToyIngest ToyHub ToyFallback ToyPipeline ToyControls.

Lemma print_event_ok e : ce_Type e ≠ "error" → print_event e = Ok tt.
Proof. intros H. unfold print_event. by rewrite decide_False. Qed.

Lemma Call_truth_witness :
  is_ok (Call print_event asked (mk_wstate "" []) (mk_rstate (take_bytes 60 (sent (halfway ++ [over]))) eof)).1 = false.
Proof.
  assert (Forall sendable (halfway ++ [over])) as Hs by (apply (bool_decide_unpack _); vm_compute; exact I).
  destruct (Call_truth print_event print_event_ok asked (mk_wstate "" []) halfway over 60 eof) as [H _];
    [reflexivity|by apply Z.leb_le|by repeat constructor|by left|exact Hs|].
  destruct (is_ok _); [|reflexivity]. destruct (proj1 H eq_refl) as [E _].
  apply (f_equal String.length) in E. vm_compute in E. discriminate E.
Defined.


End witnesses.
