(* ===== verification/Socket.v ===== *)
(** * internal/controls: the socket file and the shutdown channel.

    [Serve] and [Close] work on one path of the file system, the process's
    umask and the listener; [sk_seen] keeps what was at the path after every
    system call.  Any system call may fail ([sk_faults]).

    The shutdown channel is shared by the handlers that run at the same time:
    looking at it and closing it are two steps, which [chan_step] interleaves. *)
From stdpp Require Import relations.
From S2P Require Import Prelude GoStrings.

(** ** The socket *)
(** A socket is live while a process listens on it. *)
Inductive snode := Sock (perm : Z) (live : bool) | Plain (perm : Z).
#[export] Instance snode_eq_dec : EqDecision snode.
Proof. solve_decision. Defined.
Record sockst := mk_sockst {
  sk_node : option snode; sk_umask : Z; sk_faults : list bool; sk_seen : list (option snode)
}.

(** A system call that fails when the schedule says so, and else does [f]. *)
Definition sys {A} (f : option snode → Z → result A * option snode) : M sockst A := λ s,
  let '(fail, rest) := match sk_faults s with [] => (false, []) | b :: l => (b, l) end in
  let '(r, n) := if fail : bool then (Err (errorf "input/output error"), sk_node s) else f (sk_node s) (sk_umask s) in
  (r, mk_sockst n (sk_umask s) rest (sk_seen s ++ [n])).
Definition sock_stat : M sockst bool := sys (λ n _,
  (match n with None => Err (ErrRoot SNotExist "no such file or directory") | Some (Sock _ _) => Ok true | Some (Plain _) => Ok false end, n)).
Definition sock_dial : M sockst unit := sys (λ n _,
  (match n with Some (Sock _ true) => Ok tt | _ => Err (errorf "connection refused") end, n)).
Definition sock_remove : M sockst unit := sys (λ n _,
  match n with None => (Err (ErrRoot SNotExist "no such file or directory"), n) | Some _ => (Ok tt, None) end).
(** [bind] creates the file with the permissions the umask leaves. *)
Definition sock_listen : M sockst unit := sys (λ n umask,
  match n with
  | Some _ => (Err (errorf "address already in use"), n)
  | None => (Ok tt, Some (Sock (Z.ldiff 511 umask) true))
  end).
Definition sock_chmod (perm : Z) : M sockst unit := sys (λ n _,
  match n with
  | None => (Err (ErrRoot SNotExist "no such file or directory"), n)
  | Some (Sock _ l) => (Ok tt, Some (Sock perm l))
  | Some (Plain _) => (Ok tt, Some (Plain perm))
  end).
(** [ln.Close] unlinks the path. *)
Definition sock_close : M sockst unit := sys (λ _ _, (Ok tt, None)).
Definition umask (mask : Z) : M sockst Z := λ s,
  (Ok (sk_umask s), mk_sockst (sk_node s) mask (sk_faults s) (sk_seen s)).

Definition probe : M sockst bool :=
  r ← m_try sock_dial;
  mret (is_ok r).
Definition Alive : M sockst bool := probe.
Definition Serve : M sockst unit :=
  st ← m_try sock_stat;
  (if match st with Ok true => true | _ => false end then
     alive ← probe;
     if alive : bool then mret tt else m_ignore sock_remove
   else mret tt) ;;
  old ← umask 127;                                                           (* 0o177 *)
  ln ← m_try sock_listen;
  umask old ;;
  match ln with
  | Err e => m_fail (ErrWrap "listen" e)
  | Ok _ =>
      c ← m_try (sock_chmod 384);                                            (* 0o600 *)
      match c with
      | Err e => m_ignore sock_close ;; m_fail (ErrWrap "chmod" e)
      | Ok _ => mret tt
      end
  end.
Definition Close : M sockst unit :=
  r ← m_try sock_close;
  m_ignore sock_remove ;;
  m_lift r.

(** ** The shutdown channel *)
Inductive pc := AtSelect | AtClose | Finished.
Record chan := mk_chan { ch_closed : bool; ch_panicked : bool; ch_pcs : list pc }.
(** One step of the [i]th handler of a shutdown command.  Closing a closed
    channel panics. *)
Definition handler_step (i : nat) (c : chan) : option chan :=
  match ch_pcs c !! i with
  | Some AtSelect =>
      Some (mk_chan (ch_closed c) (ch_panicked c) (<[i := if ch_closed c then Finished else AtClose]> (ch_pcs c)))
  | Some AtClose => Some (mk_chan true (ch_closed c) (<[i := Finished]> (ch_pcs c)))
  | _ => None
  end.
Definition chan_step (c c' : chan) : Prop := ch_panicked c = false ∧ ∃ i, handler_step i c = Some c'.
Definition commands (n : nat) : chan := mk_chan false false (replicate n AtSelect).

(** ** Properties *)
Section socket.
Implicit Types (s : sockst).

(** What appears at the path, and was not there, is an owner's own socket. *)
Definition tight (n0 : option snode) (s : sockst) : Prop :=
  Forall (λ n, n = None ∨ n = n0 ∨ ∃ l, n = Some (Sock 384 l)) (sk_node s :: sk_seen s).

Ltac tight_trace :=
  unfold tight; cbn [sk_node sk_seen app];
  repeat (apply Forall_cons_2; [first [by left|by right; left|by right; right; eexists]|]); apply Forall_nil_2.

(** C13. Nobody else can connect to the control socket, at any moment: whatever was
    at the path and whatever fails, everything that appears there while the
    daemon starts to serve is a socket with permissions 0600, even between
    [bind] and [chmod] and under any umask; and the umask is restored.  A start
    that succeeds leaves such a socket, live; it took the place of nothing or of
    a dead socket.  A file is never removed, and a live daemon's socket only
    when it did not answer the probe. *)
Theorem Serve_private s r s' :
  sk_seen s = [] → Serve s = (r, s') →
  tight (sk_node s) s' ∧ sk_umask s' = sk_umask s ∧
  (is_ok r = true → sk_node s' = Some (Sock 384 true) ∧ ∀ p, sk_node s ≠ Some (Plain p)) ∧
  (∀ p, sk_node s = Some (Plain p) → sk_node s' = sk_node s) ∧
  (∀ p, sk_node s = Some (Sock p true) → nth 1 (sk_faults s) false = false → is_ok r = false ∧ sk_node s' = sk_node s).
Proof.
  destruct s as [node um fl seen]. cbn [sk_seen sk_node sk_umask sk_faults]. intros -> H.
  destruct node as [[p []|p]|]; destruct fl as [|[] [|[] [|[] [|[] [|[] [|[] fl]]]]]]; vm_compute in H; injection H as <- <-;
    (split; [tight_trace|]); split_and!; try done; by intros ? [= <-].
Qed.
End socket.

(** One handler on its own. *)
Definition lone (c : chan) : Prop :=
  ch_panicked c = false ∧
  (ch_closed c = false ∧ ch_pcs c = [AtSelect] ∨ ch_closed c = false ∧ ch_pcs c = [AtClose] ∨ ch_pcs c = [Finished]).
Lemma lone_step i c c' : lone c → handler_step i c = Some c' → lone c'.
Proof.
  destruct c as [cl pa pcs]. unfold lone, handler_step. cbn [ch_closed ch_panicked ch_pcs].
  intros (-> & [[-> ->]|[[-> ->]| ->]]) H; destruct i as [|i]; cbn in H; try done; injection H as <-; cbn; eauto.
Qed.

(** C38. Two shutdown commands at the same time can bring the daemon down: the
    handlers look at the channel before either closes it, and the second close
    panics.  One command at a time never does. *)
Theorem shutdown_race n : (∃ c, rtc chan_step (commands n) c ∧ ch_panicked c = true) ↔ 2 ≤ n.
Proof.
  split.
  - intros (c & Hc & Hp). destruct n as [|[|n]]; [| |lia].
    + apply rtc_inv in Hc as [<-|(c1 & (_ & i & H) & _)]; [done|]. by destruct i.
    + assert (lone c) as Hl; [|by destruct Hl as [Hl _]; rewrite Hl in Hp].
      revert Hc. generalize (ltac:(split; [done|by left]) : lone (commands 1)). generalize (commands 1) as c0.
      intros c0 H0 Hc. induction Hc as [|a b c (_ & i & Hi) _ IH]; [done|]. by eapply IH, lone_step.
  - intros Hn. destruct n as [|[|n]]; [lia..|].
    exists (mk_chan true true (Finished :: Finished :: replicate n AtSelect)). split; [|done].
    eapply rtc_l; [split; [done|by exists 0]|]. cbn.
    eapply rtc_l; [split; [done|by exists 1]|]. cbn.
    eapply rtc_l; [split; [done|by exists 0]|]. cbn.
    apply rtc_once. split; [done|by exists 1].
Qed.

(** ** A socket left behind by a crash *)
Definition stale : sockst := mk_sockst (Some (Sock 493 false)) 0 [] [].
Lemma Serve_private_witness : sk_node (Serve stale).2 = Some (Sock 384 true) ∧ sk_umask (Serve stale).2 = 0%Z.
Proof.
  destruct (Serve_private stale (Serve stale).1 (Serve stale).2 eq_refl (surjective_pairing _)) as (_ & Hu & Hok & _).
  split; [|exact Hu]. apply Hok. reflexivity.
Defined.
