(* ===== verification/Watch.v ===== *)
(** * internal/watch: noticing finished downloads.

    A [watcher] is a node with the repositories that changed lately, the
    directories it has asked to be told about, and fsnotify's side of that.
    [tryIngest], [pruneOrphans] and [Scan] work on the node alone.  Time is in
    nanoseconds.  Log lines and cancellation are left out; the goroutines that
    share a watcher take its lock around every access to its maps. *)
From stdpp Require Import gmap.
From S2P Require Import Prelude GoStrings Json GoPath GoFS Protoio Lib Store Dummy Mapping Wire Hfcache Tree Evict.
From S2P Require Import Snapshot Sources Config Identity Net Node Blocks Reconstruct Job Exchange Materialise Pull Ingest Hfapi.
From S2P Require Import Fallback Pipeline Controls.

(** fsnotify: what is watched, and [Add], which may fail. *)
Class Notifier := { watches : Type; fw_add : string → watches → result unit * watches }.

(** ** Sharing and pruning *)
Section rescan.
Context {MF : Multiformats} {IP : Ipld} {BS : Blockstore} {FM : FileManager} {FS : Filestore}
  {DS : Datastore} {BA : Batching} {K : Keys} {N : Network} {HS : Hashes} {IM : Importer}.
Context (cfg : Config) (evict_fuel : nat) (map_order : gset cid → list cid).

Fixpoint first_dir (repoID : string) (types : list Hfcache.RepoType) : M osst Hfcache.RepoType :=
  match types with
  | [] => mret Model
  | t :: rest =>
      st ← m_try (os_stat (fjoin [HFHubDir cfg; RepoDirName repoID t]));
      if match st with Ok i => fi_is_dir i | Err _ => false end then mret t else first_dir repoID rest
  end.
Definition repoType (repoID : string) : M osst Hfcache.RepoType := first_dir repoID [Model; Dataset; Space].

Definition evict_entry (e : Entry) : M job unit :=
  m_ignore (on_target (λ _, []) (Evict.Commit evict_fuel map_order (HFHubDir cfg) e)).
(** Is the revision still in the cache? *)
Definition in_cache (e : Entry) : M osst bool :=
  let paths := NewPaths (HFHubDir cfg) (en_RepoID e) (en_RepoType e) in
  there ← Hfcache.Exists paths;
  if there : bool then SnapshotComplete paths (en_CommitHash e) else mret false.
Definition prune_entry (repoID : string) (e : Entry) : M job unit :=
  if decide (repoID ≠ "" ∧ en_RepoID e ≠ repoID) then mret tt
  else
    ok ← on_jfiles (in_cache e);
    if ok : bool then mret tt else evict_entry e.
Definition pruneOrphans (repoID : string) : M job unit :=
  r ← m_try (on_jnode (on_map DB.List));
  match r with
  | Err _ => mret tt
  | Ok entries => m_foreach (prune_entry repoID) entries
  end.
Definition quietly (s : string) : M job unit := mret tt.
Definition tryIngest (now repoID : string) : M job unit :=
  t ← on_jfiles (repoType repoID);
  let paths := NewPaths (HFHubDir cfg) repoID t in
  c ← m_try (on_jfiles (CurrentCommit paths "main"));
  match c with
  | Err _ => pruneOrphans repoID
  | Ok commit =>
      r ← m_try (on_jnode (on_map (DB.Get commit)));
      match r with
      | Ok (Some entry) =>
          complete ← on_jfiles (SnapshotComplete paths commit);
          if complete : bool then mret tt else evict_entry entry
      | _ =>
          complete ← on_jfiles (SnapshotComplete paths commit);
          if complete : bool then m_ignore (Ingest.Run cfg now repoID t commit quietly) else mret tt
      end
  end.
Definition Scan (now : string) : M job unit :=
  r ← m_try (on_jfiles (ListRepos (HFHubDir cfg)));
  match r with
  | Err _ => mret tt
  | Ok repos => m_foreach (tryIngest now) repos ;; pruneOrphans ""
  end.
End rescan.

(** ** Events *)
(** [repoDirOf] climbs at most six times. *)
Fixpoint climb (n : nat) (hub cur : string) : string :=
  match n with
  | O => ""
  | S n' =>
      if decide (cur = hub) then ""
      else
        let parent := fdir cur in
        if decide (parent = cur) then ""
        else if decide (fdir parent = hub) then parent
        else climb n' hub parent
  end.
Definition repoDirOf (hub path : string) : string := climb 6 hub path.

(** 1500 ms. *)
Definition DebounceWindow : Z := 1500 * 1000000.

Section watcher.
Context {MF : Multiformats} {IP : Ipld} {BS : Blockstore} {FM : FileManager} {FS : Filestore}
  {DS : Datastore} {BA : Batching} {K : Keys} {N : Network} {HS : Hashes} {IM : Importer} {W : Notifier}.

Record watcher := mk_watcher {
  wt_job : job; wt_pending : gmap string Z; wt_known : gset string; wt_fw : watches
}.
Definition w_job {A} : M job A → M watcher A :=
  m_zoom wt_job (λ x w, mk_watcher x (wt_pending w) (wt_known w) (wt_fw w)).
Definition w_os {A} (op : M osst A) : M watcher A := w_job (on_jfiles op).
Definition w_fw {A} : M watches A → M watcher A :=
  m_zoom wt_fw (λ x w, mk_watcher (wt_job w) (wt_pending w) (wt_known w) x).
Definition set_pending (f : gmap string Z → gmap string Z) : M watcher unit :=
  m_modify (λ w, mk_watcher (wt_job w) (f (wt_pending w)) (wt_known w) (wt_fw w)).
Definition set_known (dir : string) : M watcher unit :=
  m_modify (λ w, mk_watcher (wt_job w) (wt_pending w) ({[dir]} ∪ wt_known w) (wt_fw w)).

Context (cfg : Config) (evict_fuel : nat) (map_order : gset cid → list cid).
(* The order in which the loop over [pending] runs. *)
Context (pend_order : gmap string Z → list (string * Z)).
(* What [time.Now] stands for in a mapping entry. *)
Context (stamp : Z → string).

Definition is_dir_at (p : string) : M watcher bool :=
  st ← m_try (w_os (os_stat p));
  mret (match st with Ok i => fi_is_dir i | Err _ => false end).
Definition watch_dir (dir : string) : M watcher unit :=
  seen ← m_gets (λ w, bool_decide (dir ∈ wt_known w));
  if seen : bool then mret tt
  else
    isdir ← is_dir_at dir;
    if negb isdir then mret tt
    else
      r ← m_try (w_fw (fw_add dir));
      match r with
      | Err _ => mret tt
      | Ok _ => set_known dir
      end.
Definition repo_subdirs (repoDir : string) : list string := map (λ sub, fjoin [repoDir; sub]) [""; "refs"; "snapshots"].
Definition addRepoWatches (repoDir : string) : M watcher unit := m_foreach watch_dir (repo_subdirs repoDir).
Definition trackExistingRepos : M watcher unit :=
  r ← m_try (w_os (os_read_dir (HFHubDir cfg)));
  match r with
  | Err _ => mret tt
  | Ok entries =>
      m_foreach (λ e : string * fnode,
        if is_dir_node (Some e.2) && (RepoFromDirName e.1).2 then addRepoWatches (fjoin [HFHubDir cfg; e.1]) else mret tt) entries
  end.

Record fsevent := mk_fsevent { ev_Name : string; ev_Create : bool }.
Definition handle (now : Z) (ev : fsevent) : M watcher unit :=
  (if ev_Create ev then
     isdir ← is_dir_at (ev_Name ev);
     let base := fbase (ev_Name ev) in
     if isdir && (has_prefix base "models--" || has_prefix base "datasets--" || has_prefix base "spaces--")
     then addRepoWatches (ev_Name ev) else mret tt
   else mret tt) ;;
  let repoDir := repoDirOf (HFHubDir cfg) (ev_Name ev) in
  if decide (repoDir = "") then mret tt
  else
    let '(repoID, _, ok) := RepoFromDirName (fbase repoDir) in
    if negb ok then mret tt
    else
      addRepoWatches repoDir ;;
      set_pending (λ p, <[repoID := now]> p).

Definition due (now : Z) (l : list (string * Z)) : list string :=
  (filter (λ kv, (DebounceWindow ≤ now - kv.2)%Z) l).*1.
Definition flush (now : Z) : M watcher unit :=
  p ← m_gets wt_pending;
  let ids := due now (pend_order p) in
  set_pending (λ p, foldl (λ p id, delete id p) p ids) ;;
  m_foreach (λ id, w_job (tryIngest cfg evict_fuel map_order (stamp now) id)) ids.

(** What the loop of [Run] is woken by. *)
Inductive wakeup := Event (now : Z) (ev : fsevent) | Debounce (now : Z) | Rescan (now : Z).
Definition wake (u : wakeup) : M watcher unit :=
  match u with
  | Event now ev => handle now ev
  | Debounce now => flush now
  | Rescan now =>
      w_job (Scan cfg evict_fuel map_order (stamp now)) ;;
      m_ignore (w_job (on_jnode ReprovideAll))
  end.
(** [Run] until the context is cancelled, with the wakeups it gets until then. *)
Definition Run (now : Z) (wakeups : list wakeup) : M watcher unit :=
  w_os (os_mkdir_all (HFHubDir cfg) 493) ;;
  w_fw (fw_add (HFHubDir cfg)) ;;
  trackExistingRepos ;;
  w_job (Scan cfg evict_fuel map_order (stamp now)) ;;
  m_foreach wake wakeups.
End watcher.

(** ** Looking changes nothing *)
Section still.
(** Without failures to come. *)
Definition still (s s' : osst) : Prop := os_faults s = [] → s' = s.
#[export] Instance still_preorder : PreOrder still.
Proof. unfold still. split; [done|]. intros a b c H1 H2 Ha. specialize (H1 Ha). subst b. auto. Qed.
Lemma still_query {A} (f : gmap fpath fnode → result A) : pres still (os_query f).
Proof. intros s Hs. by rewrite os_query_nofault. Qed.
Lemma still_complete p commit : pres still (SnapshotComplete p commit).
Proof. apply SnapshotComplete_kept; [apply _|intros A f; apply still_query]. Qed.
Lemma still_ref p ref : pres still (CurrentCommit p ref).
Proof.
  unfold CurrentCommit. apply pres_bind; [apply _|apply still_query|]. intros data. cbv zeta.
  destruct (negb _); [apply pres_fail, _|]. destruct (hex_decode _); [apply pres_ret, _|apply pres_fail, _].
Qed.
Lemma still_type cfg id : pres still (repoType cfg id).
Proof.
  unfold repoType. generalize [Model; Dataset; Space]. intros l. induction l as [|t l IH]; [apply pres_ret, _|].
  cbn [first_dir]. apply pres_bind; [apply _|apply pres_try, still_query|]. intros st. 
  match goal with |- pres _ (if ?b then _ else _) => destruct b end; [apply pres_ret, _|exact IH].
Qed.
Lemma still_in_cache cfg e : pres still (in_cache cfg e).
Proof.
  unfold in_cache. cbv zeta. apply pres_bind; [apply _| |].
  - unfold Hfcache.Exists. apply pres_bind; [apply _|apply pres_try, still_query|]. intros st. apply pres_ret, _.
  - intros []; [apply still_complete|apply pres_ret, _].
Qed.
(** What a look finds. *)
Lemma still_run {A} (op : M osst A) s : pres still op → os_faults s = [] → op s = ((op s).1, s).
Proof. intros H Hs. specialize (H s Hs). destruct (op s) as [r s']. cbn [snd fst] in *. by subst. Qed.
End still.

(** A check always has an answer. *)
Lemma surely_walk fuel dir : surely (complete_walk fuel dir).
Proof.
  revert dir. induction fuel as [|fuel IH]; intros dir s; cbn [complete_walk]; [done|].
  destruct (os_read_dir dir s) as [r s1] eqn:E. rewrite (bind_try_run _ _ _ _ _ E). destruct r as [es|e]; [|reflexivity].
  clear s E. revert s1. induction es as [|[n node] es IHes]; intros s; [done|]. destruct (is_dir_node (Some node)).
  - specialize (IH (fjoin [dir; n]) s). destruct (complete_walk fuel (fjoin [dir; n]) s) as [[b|e] s1] eqn:E; [|discriminate IH].
    rewrite (bind_run_ok _ _ _ _ _ E). destruct b; [apply IHes|reflexivity].
  - destruct (os_stat (fjoin [dir; n]) s) as [r s1] eqn:E. rewrite (bind_try_run _ _ _ _ _ E).
    destruct r; [apply IHes|reflexivity].
Qed.
Lemma surely_complete p commit : surely (SnapshotComplete p commit).
Proof.
  intros s. unfold SnapshotComplete. destruct (os_read_dir (SnapshotDir p commit) s) as [r s1] eqn:E.
  rewrite (bind_try_run _ _ _ _ _ E). destruct r as [[|e es]|e]; [reflexivity| |reflexivity].
  rewrite bind_gets_run. apply surely_walk.
Qed.

(** ** Where an event belongs *)
Lemma render_abs_inj a b : Forall seg_ok a → Forall seg_ok b → render_abs a = render_abs b → a = b.
Proof. intros Ha Hb E. apply (f_equal abs_segs) in E. by rewrite !abs_segs_render in E. Qed.
Lemma climb_at n hub repo ws : hub ≠ [] → Forall seg_ok (hub ++ repo :: ws) →
  climb n (render_abs hub) (render_abs (hub ++ repo :: ws)) =
  if (1 <=? length ws) && (length ws <=? n) then render_abs (hub ++ [repo]) else "".
Proof.
  intros Hhub. revert ws. induction n as [|n IH]; intros ws Hok; [by destruct ws|]. cbn [climb].
  assert (Forall seg_ok hub) as Hh by by apply Forall_app in Hok as [? _].
  rewrite decide_False.
  2:{ intros E%render_abs_inj; [|done..]. apply (f_equal length) in E. rewrite length_app in E. simpl in E. lia. }
  destruct ws as [|w ws _] using rev_ind.
  - rewrite (fdir_render hub repo) by done. cbv zeta. rewrite decide_False.
    2:{ intros E%render_abs_inj; [|done..]. apply (f_equal length) in E. rewrite length_app in E. simpl in E. lia. }
    destruct (exists_last Hhub) as (h & x & Ehub). subst hub. rewrite (fdir_render h x) by done. rewrite decide_False.
    2:{ intros E%render_abs_inj; [|by apply Forall_app in Hh as [? _]|done]. apply (f_equal length) in E. rewrite length_app in E. simpl in E. lia. }
    destruct n; [done|]. cbn [climb]. by rewrite decide_True.
  - assert (Forall seg_ok (hub ++ repo :: ws)) as Hpre.
    { rewrite app_comm_cons, app_assoc in Hok. by apply Forall_app in Hok as [? _]. }
    rewrite app_comm_cons, app_assoc. rewrite (fdir_render (hub ++ repo :: ws) w) by by rewrite <- app_assoc, <- app_comm_cons.
    cbv zeta. rewrite decide_False.
    2:{ intros E%render_abs_inj; [|done|by rewrite <- app_assoc, <- app_comm_cons]. apply (f_equal length) in E.
        rewrite !length_app in E. simpl in E. lia. }
    destruct ws as [|w' ws _] using rev_ind.
    + rewrite (fdir_render hub repo) by done. rewrite decide_True by done. done.
    + assert (Forall seg_ok (hub ++ repo :: ws)) as Hpre2.
      { rewrite app_comm_cons, app_assoc in Hpre. by apply Forall_app in Hpre as [? _]. }
      assert (fdir (render_abs (hub ++ repo :: ws ++ [w'])) = render_abs (hub ++ repo :: ws)) as ->.
      { rewrite app_comm_cons, app_assoc. apply fdir_render. by rewrite <- app_assoc, <- app_comm_cons. }
      rewrite decide_False.
      2:{ intros E%render_abs_inj; [|done..]. apply (f_equal length) in E. rewrite length_app in E. simpl in E. lia. }
      rewrite IH by done. rewrite !length_app. simpl. destruct (length ws + 1) eqn:El; [lia|].
      replace (S n0 + 1) with (S (S n0)) by lia. done.
Qed.
Lemma fdir_abs p : is_abs p = true → ∃ x, is_abs x = true ∧ fdir p = clean x.
Proof.
  intros H. assert (∃ q, p = String ch_slash q) as [q ->].
  { destruct p as [|[[] [] [] [] [] [] [] []] q]; try done. by exists q. }
  unfold fdir. cbn [split_on]. rewrite Ascii.eqb_refl.
  destruct (exists_last (split_on_nonempty ch_slash q)) as (l & w & ->).
  rewrite app_comm_cons, reverse_snoc. destruct (reverse ("" :: l)) as [|y ys] eqn:E.
  { apply (f_equal length) in E. by rewrite length_reverse in E. }
  rewrite <- E, reverse_involutive. eexists. split; [|reflexivity]. by destruct l.
Qed.
(** A directory is always spelled cleanly. *)
Lemma climb_unclean n hub cur : is_abs cur = true → clean hub ≠ hub → climb n hub cur = "".
Proof.
  intros Hc Hh. revert cur Hc. induction n as [|n IH]; intros cur Hc; [done|]. cbn [climb]. cbv zeta.
  case_decide; [done|]. case_decide; [done|]. destruct (fdir_abs cur Hc) as (x & Hx & E).
  assert (is_abs (fdir cur) = true) as Hd by (rewrite E; by apply is_abs_clean).
  destruct (fdir_abs _ Hd) as (y & Hy & E2). rewrite decide_False; [by apply IH|].
  intros Eh. apply Hh. by rewrite <- Eh, E2, clean_idemp.
Qed.

(** An event is credited to the repository it happened in: a path one to six
    levels below [hub/<repo>] to that directory, the directory itself, the hub
    and anything deeper to none.  All of this supposes that the hub is spelled
    cleanly: with a trailing slash, say, no event belongs anywhere. *)
Theorem repoDirOf_spec hub repo ws hub' path :
  hub ≠ [] → Forall seg_ok (hub ++ repo :: ws) → is_abs path = true → clean hub' ≠ hub' →
  repoDirOf (render_abs hub) (render_abs (hub ++ repo :: ws)) =
    (if (1 <=? length ws) && (length ws <=? 6) then render_abs (hub ++ [repo]) else "") ∧
  repoDirOf hub' path = "".
Proof. intros Hh Hok Hp Hc. split; [by apply climb_at|by apply climb_unclean]. Qed.

(** ** One repository *)
Section settled.
Context {MF : Multiformats} {MFL : MultiformatsLaws} {IP : Ipld} {BS : Blockstore} {BSL : BlockstoreLaws}
  {FM : FileManager} {FML : FileManagerLaws} {FS : Filestore} {DS : Datastore} {BA : Batching} {DL : DatastoreLaws}
  {BAL : BatchingLaws} {K : Keys} {N : Network} {HS : Hashes} {IM : Importer}.
Context (cfg : Config) (Hhub : is_abs (HFHubDir cfg) = true) (evict_fuel : nat) (map_order : gset cid → list cid)
  (map_order_perm : ∀ X, map_order X ≡ₚ elements X).
Implicit Types (j : job) (m : gmap string Entry).
#[local] Abbreviation tryIngest := (tryIngest cfg evict_fuel map_order).
#[local] Abbreviation pruneOrphans := (pruneOrphans cfg evict_fuel map_order).

Definition as_target j : target :=
  let n := jb_node j in mk_target (nd_map n) (nd_bs n) (nd_fm n) (nd_os n) [].
Definition quiet_job j : Prop := os_faults (jos j) = [] ∧ healthy (as_target j) ∧ enough (nd_bs (jb_node j)) evict_fuel.

Lemma look_run {A} (op : M osst A) j : pres still op → os_faults (jos j) = [] → on_jfiles op j = ((op (jos j)).1, j).
Proof.
  intros Hop Hj. unfold on_jfiles, on_jnode, on_files, m_zoom, jos in *. rewrite (still_run op _ Hop Hj).
  by destruct j as [[] ?].
Qed.
Lemma get_run m j c : represents (nd_map (jb_node j)) m → seg_ok c → on_jnode (on_map (DB.Get c)) j = (Ok (m !! c), j).
Proof. intros Hm Hc. unfold on_jnode, on_map, m_zoom. rewrite (Get_run _ _ _ Hm Hc). by destruct j as [[] ?]. Qed.
Lemma surely_look {A} (op : M osst A) : surely op → surely (on_jfiles op).
Proof. intros H j. specialize (H (jos j)). unfold on_jfiles, on_jnode, on_files, m_zoom, jos in *. by destruct (op _). Qed.

Lemma evict_entry_run m j e r j' : represents (nd_map (jb_node j)) m → quiet_job j → m !! en_CommitHash e = Some e → seg_ok (en_CommitHash e) →
  evict_entry cfg evict_fuel map_order e j = (r, j') →
  r = Ok tt ∧ (represents (nd_map (jb_node j')) m ∨ represents (nd_map (jb_node j')) (delete (en_CommitHash e) m)).
Proof.
  intros Hm (_ & Hh & Hf) _ Hc. unfold evict_entry, m_ignore, on_target. fold (as_target j).
  change (mk_target (nd_map (jb_node j)) (nd_bs (jb_node j)) (nd_fm (jb_node j)) (nd_os (jb_node j)) []) with (as_target j).
  destruct (Evict.Commit evict_fuel map_order (HFHubDir cfg) e (as_target j)) as [r0 t] eqn:E.
  apply (Commit_outcome map_order map_order_perm evict_fuel (HFHubDir cfg) Hhub e (as_target j) m) in E as (_ & _ & Hrep & _); [|done..].
  intros [= <- <-]. split; [done|]. cbn [jb_node nd_map]. destruct r0; auto.
Qed.

Context (now : string) (Hnow : rfc3339 now = true).

(** Nothing is pruned that is still there: with no failing system call, a pass
    over the table leaves the node exactly as it is when every entry it looks
    at has its repository and its whole snapshot. *)
Theorem pruneOrphans_keeps id m j :
  represents (nd_map (jb_node j)) m → os_faults (jos j) = [] →
  (∀ c e, m !! c = Some e → (id = "" ∨ en_RepoID e = id) → (in_cache cfg e (jos j)).1 = Ok true) →
  pruneOrphans id j = (Ok tt, j).
Proof.
  intros Hm Hf Hall. unfold Watch.pruneOrphans. destruct (List_run _ _ Hm) as (l & Hl & Hp & _).
  assert (on_jnode (on_map DB.List) j = (Ok l, j)) as Hl'.
  { unfold on_jnode, on_map, m_zoom. rewrite Hl. by destruct j as [[] ?]. }
  rewrite (bind_try_run _ _ _ _ _ Hl').
  assert (∀ e, e ∈ l → prune_entry cfg evict_fuel map_order id e j = (Ok tt, j)) as Hone.
  { intros e He. unfold prune_entry. case_decide as Hid; [done|].
    rewrite (bind_run_ok _ _ _ true j); [done|]. rewrite (look_run _ _ (still_in_cache cfg e) Hf). f_equal.
    rewrite Hp in He. apply list_elem_of_fmap in He as ([c e'] & -> & He%elem_of_map_to_list).
    apply (Hall c e' He). cbn [snd] in Hid. destruct (decide (id = "")); [by left|right].
    destruct (decide (en_RepoID e' = id)); [done|]. exfalso. by apply Hid. }
  clear Hp Hl Hl'. induction l as [|e l IH]; [done|]. cbn [m_foreach].
  rewrite (bind_run_ok _ _ _ _ _ (Hone e (list_elem_of_here _ _))). apply IH. intros e' He'.
  apply Hone. by apply list_elem_of_further.
Qed.

(** There is nothing to do for a repository: its refs/main names a revision
    that is shared and all there, or neither; or it names none. *)
Definition nothing_to_do (id : string) m j : Prop :=
  ∃ t, (repoType cfg id (jos j)).1 = Ok t ∧
  match (CurrentCommit (NewPaths (HFHubDir cfg) id t) "main" (jos j)).1 with
  | Err _ => True
  | Ok commit =>
      seg_ok commit ∧ (SnapshotComplete (NewPaths (HFHubDir cfg) id t) commit (jos j)).1 = Ok (bool_decide (is_Some (m !! commit)))
  end.
Lemma tryIngest_rests id m j : represents (nd_map (jb_node j)) m → os_faults (jos j) = [] →
  (∀ c e, m !! c = Some e → (in_cache cfg e (jos j)).1 = Ok true) → nothing_to_do id m j →
  tryIngest now id j = (Ok tt, j).
Proof.
  intros Hm Hf Hall (t & Ht & H). unfold Watch.tryIngest.
  rewrite (bind_run_ok _ _ _ t j) by by rewrite (look_run _ _ (still_type cfg id) Hf), Ht. cbv zeta.
  rewrite (bind_try_run _ _ _ _ _ (look_run _ _ (still_ref _ _) Hf)).
  destruct (CurrentCommit (NewPaths (HFHubDir cfg) id t) "main" (jos j)).1 as [commit|err]; [destruct H as [Hc Hs]|].
  - rewrite (bind_try_run _ _ _ _ _ (get_run _ _ _ Hm Hc)).
    pose proof (look_run _ _ (still_complete (NewPaths (HFHubDir cfg) id t) commit) Hf) as Hlook. rewrite Hs in Hlook.
    destruct (m !! commit) as [entry|]; by rewrite (bind_run_ok _ _ _ _ _ Hlook).
  - apply (pruneOrphans_keeps id m); [done|done|]. intros c e He _. by apply (Hall c e).
Qed.
(** C16. A rescan of a settled cache is idle: with no failing system call it leaves
    the node exactly as it is when there is nothing to do for any repository
    found and every shared revision is in the cache. *)
Theorem Scan_stable m j repos :
  represents (nd_map (jb_node j)) m → os_faults (jos j) = [] →
  (ListRepos (HFHubDir cfg) (jos j)).1 = Ok repos → (∀ id, id ∈ repos → nothing_to_do id m j) →
  (∀ c e, m !! c = Some e → (in_cache cfg e (jos j)).1 = Ok true) →
  Scan cfg evict_fuel map_order now j = (Ok tt, j).
Proof.
  intros Hm Hf Hl Hrest Hall. unfold Scan.
  assert (pres still (ListRepos (HFHubDir cfg))) as Hstill.
  { unfold ListRepos. apply pres_bind; [apply _|apply pres_try, still_query|]. intros [es|err]; [apply pres_ret, _|].
    destruct (errors_is err SNotExist); [apply pres_ret, _|apply pres_fail, _]. }
  rewrite (bind_try_run _ _ _ (Ok repos) j) by by rewrite (look_run _ _ Hstill Hf), Hl.
  assert (m_foreach (tryIngest now) repos j = (Ok tt, j)) as E.
  { clear Hl. induction repos as [|id repos IH]; [done|]. cbn [m_foreach].
    rewrite (bind_run_ok _ _ _ tt j) by (apply (tryIngest_rests id m); [done..|apply Hrest, list_elem_of_here]).
    apply IH. intros id' Hin. by apply Hrest, list_elem_of_further. }
  rewrite (bind_run_ok _ _ _ _ _ E). apply (pruneOrphans_keeps "" m); [done|done|]. intros c e He _. by apply (Hall c e).
Qed.

(** But a system call that fails for a moment is taken for a missing directory:
    when the first one fails, a pass over a table with one entry goes straight
    to evicting it, whatever is on disk. *)
Theorem pruneOrphans_transient c e j faults :
  represents (nd_map (jb_node j)) {[c := e]} → os_faults (jos j) = true :: faults →
  ∃ j1, os_fs (jos j1) = os_fs (jos j) ∧ os_faults (jos j1) = faults ∧ nd_map (jb_node j1) = nd_map (jb_node j) ∧
    pruneOrphans "" j = evict_entry cfg evict_fuel map_order e j1.
Proof.
  intros Hm Hf. unfold Watch.pruneOrphans. destruct (List_run _ _ Hm) as (l & Hl & Hp & _).
  assert (on_jnode (on_map DB.List) j = (Ok l, j)) as Hl'.
  { unfold on_jnode, on_map, m_zoom. rewrite Hl. by destruct j as [[] ?]. }
  rewrite (bind_try_run _ _ _ _ _ Hl'). rewrite map_to_list_singleton in Hp. apply Permutation_singleton_r in Hp as ->.
  cbn [fmap list_fmap snd m_foreach]. set (o := mk_osst (os_fs (jos j)) faults (os_rand (jos j)) (os_clock (jos j))).
  set (j1 := mk_job (mk_node (nd_map (jb_node j)) (nd_bs (jb_node j)) (nd_fm (jb_node j)) o (nd_net (jb_node j))) (jb_events j)).
  exists j1. split_and!; [done..|].
  assert (on_jfiles (in_cache cfg e) j = (Ok false, j1)) as E.
  { unfold on_jfiles, on_jnode, on_files, m_zoom, in_cache, Hfcache.Exists. cbv zeta.
    assert (os_stat (Hfcache.RepoDir (NewPaths (HFHubDir cfg) (en_RepoID e) (en_RepoType e))) (nd_os (jb_node j)) =
      (Err (ErrRoot SIO "input/output error"), o)) as Es.
    { unfold os_stat, os_query, os_tick. unfold mbind at 1, M_bind at 1. unfold jos in Hf. rewrite Hf. reflexivity. }
    unfold mbind at 1 2, M_bind at 1 2. unfold m_try. rewrite Es. reflexivity. }
  assert (prune_entry cfg evict_fuel map_order "" e j = evict_entry cfg evict_fuel map_order e j1) as E2.
  { unfold prune_entry. rewrite decide_False by tauto. by rewrite (bind_run_ok _ _ _ _ _ E). }
  unfold evict_entry, m_ignore in *. unfold mbind, M_bind. rewrite E2. by destruct (on_target _ _ j1).
Qed.
End settled.

(** ** Events and time *)
Section events.
Context {MF : Multiformats} {IP : Ipld} {BS : Blockstore} {FM : FileManager} {FS : Filestore}
  {DS : Datastore} {BA : Batching} {K : Keys} {N : Network} {HS : Hashes} {IM : Importer} {W : Notifier}.
Context (cfg : Config) (evict_fuel : nat) (map_order : gset cid → list cid).
Context (pend_order : gmap string Z → list (string * Z)) (pend_perm : ∀ p, pend_order p ≡ₚ map_to_list p) (stamp : Z → string).
Implicit Types (w : watcher) (p : gmap string Z).

(** The outside of a watcher's node. *)
Definition same_watch w w' : Prop := wt_pending w' = wt_pending w ∧ wt_known w' = wt_known w ∧ wt_fw w' = wt_fw w.
#[local] Instance same_watch_preorder : PreOrder same_watch.
Proof.
  split; [by intros w|]. intros a b c (A1 & A2 & A3) (B1 & B2 & B3). split_and!; congruence.
Qed.
Lemma same_w_job {A} (op : M job A) : pres same_watch (w_job op).
Proof. intros w. unfold w_job, m_zoom. by destruct (op (wt_job w)). Qed.

Lemma known_run dir w : dir ∈ wt_known w → watch_dir dir w = (Ok tt, w).
Proof. intros H. unfold watch_dir. rewrite bind_gets_run. by rewrite bool_decide_eq_true_2. Qed.
Lemma addRepoWatches_known repoDir w :
  Forall (λ d, d ∈ wt_known w) (repo_subdirs repoDir) → addRepoWatches repoDir w = (Ok tt, w).
Proof.
  unfold addRepoWatches. intros H. induction H as [|d l Hd _ IH]; [done|]. cbn [m_foreach].
  by rewrite (bind_run_ok _ _ _ _ _ (known_run _ _ Hd)).
Qed.
Lemma is_dir_run path w : ∃ b w1, is_dir_at path w = (Ok b, w1) ∧ same_watch w w1.
Proof.
  unfold is_dir_at. pose proof (same_w_job (on_jfiles (os_stat path)) w) as H. fold (w_os (os_stat path)) in H.
  destruct (w_os (os_stat path) w) as [r w1] eqn:E. rewrite (bind_try_run _ _ _ _ _ E). cbn [snd] in H. by eexists _, w1.
Qed.

(** A directory is watched once and for all: after a repository's three
    directories have been watched, no event in it, the creation of its directory
    after it was deleted included, makes the watcher ask fsnotify for them
    again, although a deleted directory's watch is gone. *)
Theorem never_rewatched hub repo ws now create w :
  HFHubDir cfg = render_abs hub → hub ≠ [] → Forall seg_ok (hub ++ repo :: ws) →
  Forall (λ d, d ∈ wt_known w) (repo_subdirs (render_abs (hub ++ [repo]))) →
  (create = true → ws ≠ [] → RepoFromDirName (fbase (render_abs (hub ++ repo :: ws))) = ("", "", false)) →
  let w' := (handle cfg now (mk_fsevent (render_abs (hub ++ repo :: ws)) create) w).2 in
  wt_fw w' = wt_fw w ∧ wt_known w' = wt_known w ∧ (ws = [] → wt_pending w' = wt_pending w).
Proof.
  intros Hc Hh Hok Hk Hn. cbv zeta. unfold handle. cbn [ev_Name ev_Create].
  match goal with |- context [mbind ?k ?first w] =>
    assert (∃ w1, first w = (Ok tt, w1) ∧ same_watch w w1) as (w1 & E1 & S1) end.
  { destruct create; [|by exists w]. destruct (is_dir_run (render_abs (hub ++ repo :: ws)) w) as (b & w1 & E & S).
    exists w1. rewrite (bind_run_ok _ _ _ _ _ E). cbv zeta. split; [|done].
    match goal with |- (if ?c then _ else _) _ = _ => destruct c eqn:Ec end; [|done].
    destruct ws as [|x ws].
    - apply addRepoWatches_known. destruct S as (_ & -> & _). exact Hk.
    - exfalso. apply andb_true_iff in Ec as [_ Ec]. specialize (Hn eq_refl ltac:(done)).
      revert Ec Hn. generalize (fbase (render_abs (hub ++ repo :: x :: ws))) as base. intros base Ec. unfold RepoFromDirName.
      change (DirPrefix Model) with "models--". cbn [filter list_filter].
      change (has_prefix base (DirPrefix Model)) with (has_prefix base "models--").
      change (has_prefix base (DirPrefix Dataset)) with (has_prefix base "datasets--").
      change (has_prefix base (DirPrefix Space)) with (has_prefix base "spaces--").
      destruct (has_prefix base "models--"); [done|]. destruct (has_prefix base "datasets--"); [done|].
      by destruct (has_prefix base "spaces--"). }
  rewrite (bind_run_ok _ _ _ _ _ E1). cbv zeta. rewrite Hc. unfold repoDirOf. rewrite climb_at by done.
  destruct S1 as (P1 & K1 & F1). destruct ((1 <=? length ws) && (length ws <=? 6)) eqn:El.
  2:{ rewrite decide_True by done. by split_and!. }
  rewrite decide_False by (intros E; discriminate E).
  destruct (RepoFromDirName (fbase (render_abs (hub ++ [repo])))) as [[id t] []]; cbn [negb]; [|cbn; by split_and!].
  rewrite (bind_run_ok _ _ w1 tt w1) by (apply addRepoWatches_known; by rewrite K1).
  cbn. split_and!; [done..|]. intros ->. discriminate El.
Qed.

Lemma due_spec now p id : id ∈ due now (map_to_list p) ↔ ∃ at_, p !! id = Some at_ ∧ (DebounceWindow ≤ now - at_)%Z.
Proof.
  unfold due. rewrite list_elem_of_fmap. split.
  - intros ([k v] & -> & [Hd Hin%elem_of_map_to_list]%list_elem_of_filter). by exists v.
  - intros (v & Hv & Hd). exists (id, v). split; [done|]. apply list_elem_of_filter. split; [done|]. by apply elem_of_map_to_list.
Qed.
Lemma lookup_delete_all p ids id : foldl (λ p id, delete id p) p ids !! id = if decide (id ∈ ids) then None else p !! id.
Proof.
  revert p. induction ids as [|x ids IH]; intros p; [by rewrite decide_False by apply not_elem_of_nil|].
  cbn [foldl]. rewrite IH. destruct (decide (id ∈ ids)) as [Hin|Hin].
  { by rewrite decide_True by by apply list_elem_of_further. }
  destruct (decide (id = x)) as [->|Hne].
  - rewrite lookup_delete_eq, decide_True; [done|]. apply list_elem_of_here.
  - rewrite lookup_delete_ne by done. rewrite decide_False; [done|]. by intros [?|?]%elem_of_cons.
Qed.
Lemma w_job_foreach {A} (f : A → M job unit) l w :
  (m_foreach (λ a, w_job (f a)) l w).2 = mk_watcher (m_foreach f l (wt_job w)).2 (wt_pending w) (wt_known w) (wt_fw w).
Proof.
  revert w. induction l as [|a l IH]; intros w; [by destruct w|]. cbn [m_foreach]. unfold mbind, M_bind, w_job at 1, m_zoom.
  destruct (f a (wt_job w)) as [[u|e] j]; [|by destruct w]. by rewrite IH.
Qed.

(** C37. When the debounce timer fires, exactly the repositories that have been
    quiet for the window are looked at, each once, in some order; the others
    stay pending with the time of their last event, and no watch changes. *)
Theorem flush_quiet now w :
  let p := wt_pending w in
  let quiet := filter (λ kv : string * Z, (DebounceWindow ≤ now - kv.2)%Z) (map_to_list p) in
  let w' := (flush cfg evict_fuel map_order pend_order stamp now w).2 in
  (∀ id at_, wt_pending w' !! id = Some at_ ↔ p !! id = Some at_ ∧ (now - at_ < DebounceWindow)%Z) ∧
  wt_known w' = wt_known w ∧ wt_fw w' = wt_fw w ∧
  ∃ ids, ids ≡ₚ quiet.*1 ∧ NoDup ids ∧
    wt_job w' = (m_foreach (tryIngest cfg evict_fuel map_order (stamp now)) ids (wt_job w)).2.
Proof.
  cbv zeta. unfold flush. rewrite bind_gets_run. cbv zeta. set (ids := due now (pend_order (wt_pending w))).
  assert (ids ≡ₚ due now (map_to_list (wt_pending w))) as Hids by (unfold ids, due; by rewrite pend_perm).
  rewrite (bind_run_ok _ _ w tt (mk_watcher (wt_job w) (foldl (λ p id, delete id p) (wt_pending w) ids) (wt_known w) (wt_fw w)) eq_refl).
  rewrite w_job_foreach. cbn [wt_pending wt_known wt_fw wt_job]. split; [|split; [done|split; [done|]]].
  - intros id at_. rewrite lookup_delete_all. case_decide as Hin.
    + rewrite Hids in Hin. apply due_spec in Hin as (v & Hv & Hd). split; [done|]. intros [Hv' Hlt]. rewrite Hv in Hv'. injection Hv' as ->. lia.
    + split; [|tauto]. intros Hv. split; [done|]. destruct (decide (now - at_ < DebounceWindow)%Z); [done|].
      destruct Hin. rewrite Hids. apply due_spec. exists at_. split; [done|lia].
  - exists ids. split; [exact Hids|]. split; [|done]. rewrite Hids. unfold due.
    eapply sublist_NoDup; [apply (NoDup_fst_map_to_list (wt_pending w))|]. apply fmap_sublist, sublist_filter.
Qed.
End events.

(** ** Concrete repositories *)
Module ToyWatch.
Import ToyNode ToyIngest ToyHub ToyFallback ToyPipeline.
#[export] Instance notifier : Notifier := {| watches := list string; fw_add d l := (Ok tt, l ++ [d]) |}.
Definition order (X : gset cid) : list cid := elements X.
(* A dataset with the id of the model, finished too. *)
Definition twins : gmap fpath fnode := fs2 ∪ list_to_map [
  (["hub"; "datasets--org--n"], FDir 493); (["hub"; "datasets--org--n"; "refs"], FDir 493);
  (["hub"; "datasets--org--n"; "refs"; "main"], FFile (mk_regular commit3 420 0))].
Definition job_of (fs : gmap fpath fnode) (faults : list bool) : job :=
  mk_job (mk_node (nd_map node0) (nd_bs node0) (nd_fm node0) (mk_osst fs faults [] 0) (nd_net node0)) [].
(* The one shared revision of [node0], all there. *)
Definition repo_m : fpath := ["hub"; "models--org--m"].
Definition intact : gmap fpath fnode := list_to_map [
  (["hub"], FDir 493); (repo_m, FDir 493); (repo_m ++ ["blobs"], FDir 493);
  (repo_m ++ ["blobs"; "b"], FFile (mk_regular "data" 420 0)); (repo_m ++ ["snapshots"], FDir 493);
  (repo_m ++ ["snapshots"; commit], FDir 493);
  (repo_m ++ ["snapshots"; commit; "f"], FLink "../../blobs/b")].
Definition looked : result unit * job := tryIngest cfg0 9 order now3 "org/n" (job_of twins []).
Definition watching : watcher :=
  mk_watcher (job_of intact []) {[ "org/m" := 0%Z; "org/n" := 2000000000%Z ]}
    (list_to_set (repo_subdirs (render_abs repo_m))) ["/hub"].
Definition stamp (_ : Z) : string := now3.
Definition plan (p : gmap string Z) : list (string * Z) := map_to_list p.
End ToyWatch.

Section witnesses.
Import ToyNode ToyIngest ToyHub ToyFallback ToyPipeline ToyWatch.

Lemma repoDirOf_spec_witness :
  repoDirOf "/hub" "/hub/models--org--m/refs/main" = "/hub/models--org--m" ∧
  repoDirOf "/hub/" "/hub/models--org--m/refs/main" = "".
Proof.
  destruct (repoDirOf_spec ["hub"] "models--org--m" ["refs"; "main"] "/hub/" "/hub/models--org--m/refs/main") as [H1 H2];
    [discriminate|by repeat constructor|reflexivity|discriminate|]. exact (conj H1 H2).
Defined.


Lemma pruneOrphans_keeps_witness : pruneOrphans cfg0 9 order "" (job_of intact []) = (Ok tt, job_of intact []).
Proof.
  apply (pruneOrphans_keeps (BAL := ToyDB.batching_laws) cfg0 9 order "" table (job_of intact [])); [exact represents0|reflexivity|].
  intros c e He _. unfold table in He. apply lookup_singleton_Some in He as [<- <-]. vm_compute. reflexivity.
Defined.

Lemma Scan_stable_witness : Scan cfg0 9 order now3 (job_of intact []) = (Ok tt, job_of intact []).
Proof.
  apply (Scan_stable (BAL := ToyDB.batching_laws) cfg0 9 order now3 table (job_of intact []) ["org/m"]);
    [exact represents0|reflexivity|vm_compute; reflexivity| |].
  - intros id Hid. apply list_elem_of_singleton in Hid as ->. exists Model. split; [vm_compute; reflexivity|].
    assert (is_ok (CurrentCommit (NewPaths (HFHubDir cfg0) "org/m" Model) "main" (jos (job_of intact []))).1 = false) as H
      by (vm_compute; reflexivity).
    destruct (CurrentCommit _ _ _).1; [discriminate H|exact I].
  - intros c e He. unfold table in He. apply lookup_singleton_Some in He as [<- <-]. vm_compute. reflexivity.
Defined.

Lemma pruneOrphans_transient_witness :
  (in_cache cfg0 entry (mk_osst intact [] [] 0)).1 = Ok true ∧
  (∃ j1, os_fs (jos j1) = intact ∧ pruneOrphans cfg0 9 order "" (job_of intact [true]) = evict_entry cfg0 9 order entry j1) ∧
  (* and so the revision is gone *)
  (DB.Get commit (nd_map (jb_node (pruneOrphans cfg0 9 order "" (job_of intact [true])).2))).1 = Ok None.
Proof.
  split; [vm_compute; reflexivity|]. split; [|vm_compute; reflexivity].
  destruct (pruneOrphans_transient (BAL := ToyDB.batching_laws) cfg0 9 order commit entry (job_of intact [true]) []
    represents0 eq_refl) as (j1 & Hfs & _ & _ & H).
  exists j1. exact (conj Hfs H).
Defined.

Lemma never_rewatched_witness :
  wt_fw (handle cfg0 5 (mk_fsevent "/hub/models--org--m" true) watching).2 = ["/hub"].
Proof.
  destruct (never_rewatched cfg0 ["hub"] "models--org--m" [] 5 true watching) as [H _];
    [reflexivity|discriminate|by repeat constructor| |intros _ Hn; by destruct Hn|exact H].
  apply (bool_decide_unpack _). vm_compute. exact I.
Defined.

Lemma flush_quiet_witness :
  let w' := (flush cfg0 9 order plan stamp 1600000000 watching).2 in
  wt_pending w' !! "org/m" = None ∧ wt_pending w' !! "org/n" = Some 2000000000%Z.
Proof.
  intros w'. destruct (flush_quiet cfg0 9 order plan (λ p, reflexivity _) stamp 1600000000 watching) as [H _]. split.
  - destruct (wt_pending w' !! "org/m") as [a|] eqn:E; [|reflexivity]. apply H in E as [E Hlt].
    assert (a = 0%Z) as -> by (injection E as <-; reflexivity). exfalso. unfold DebounceWindow in Hlt. lia.
  - apply H. split; [reflexivity|]. unfold DebounceWindow. lia.
Defined.
End witnesses.
