(* ===== verification/Cli.v ===== *)
(** * main.go: the command line.

    The first part is Go's [flag] package as far as the program uses it, and
    [splitArgs], which reorders the arguments for it.  The second is what every
    command makes of its arguments: a request for a running daemon, or the work
    to do in this process ([perform]).  The last compares the two, and a pull
    with the daemon it starts.  Printing, signals and the start of processes are
    left out. *)
From stdpp Require Import gmap.
From S2P Require Import Prelude GoStrings Json GoPath GoFS Protoio Lib Store Dummy Mapping Wire Hfcache Tree.
From S2P Require Import Snapshot Sources Config Identity Net Node Blocks Reconstruct Job Exchange Materialise Pull Ingest Hfapi.
From S2P Require Import Fallback Pipeline Controls.

(** ** The [flag] package *)
(** A defined flag: is it boolean, and does its [Set] accept a value? *)
Record flagdef := mk_flagdef { fk_bool : bool; fk_ok : string → bool }.
Definition flagset : Type := list (string * flagdef).
Definition Lookup (fs : flagset) (name : string) : option flagdef :=
  (λ kv : string * flagdef, kv.2) <$> List.find (λ kv, String.eqb kv.1 name) fs.

Definition ch_eq : ascii := "="%char.
(** [strconv.ParseBool]. *)
Definition ParseBool (s : string) : option bool :=
  if decide (s ∈ ["1"; "t"; "T"; "TRUE"; "true"; "True"]) then Some true
  else if decide (s ∈ ["0"; "f"; "F"; "FALSE"; "false"; "False"]) then Some false
  else None.

(** The name and the value at the first [=]. *)
Fixpoint cut_eq (s : string) : string * option string :=
  match s with
  | "" => ("", None)
  | String a s' => if Ascii.eqb a ch_eq then ("", Some s') else let '(n, v) := cut_eq s' in (String a n, v)
  end.
Definition flag_token (s : string) : result (string * option string) :=
  match drop_bytes (if has_prefix s "--" then 2 else 1) s with
  | "" => Err (errorf "bad flag syntax")
  | String a rest =>
      if Ascii.eqb a ch_dash || Ascii.eqb a ch_eq then Err (errorf "bad flag syntax")
      else let '(n, v) := cut_eq rest in Ok (String a n, v)
  end.
Definition ErrHelp : error := errorf "flag: help requested".
(** One flag: what is set, and whether the next argument was its value. *)
Definition take_flag (fs : flagset) (a : string) (rest : list string) : result (string * string * bool) :=
  nv ← flag_token a;
  let '(name, val) := nv in
  match Lookup fs name with
  | None => Err (if decide (name = "help" ∨ name = "h") then ErrHelp else errorf "flag provided but not defined")
  | Some k =>
      if fk_bool k then
        let v := default "true" val in
        if fk_ok k v then Ok (name, v, false) else Err (errorf "invalid boolean value")
      else
        match val, rest with
        | Some v, _ => if fk_ok k v then Ok (name, v, false) else Err (errorf "invalid value")
        | None, v :: _ => if fk_ok k v then Ok (name, v, true) else Err (errorf "invalid value")
        | None, [] => Err (errorf "flag needs an argument")
        end
  end.
(** Is the argument not a positional one? *)
Definition dashed (a : string) : bool := has_prefix a "-" && negb (String.eqb a "-").
(** The settings in order, and [Args()]. *)
Fixpoint Parse (fs : flagset) (args : list string) : result (list (string * string) * list string) :=
  match args with
  | [] => Ok ([], [])
  | a :: rest =>
      if negb (dashed a) then Ok ([], args)
      else if decide (a = "--") then Ok ([], rest)
      else
        t ← take_flag fs a rest;
        p ← match t.2, rest with
            | true, _ :: rest' => Parse fs rest'
            | _, _ => Parse fs rest
            end;
        Ok (t.1 :: p.1, p.2)
  end.

(** ** [splitArgs] *)
Definition isBool (fs : flagset) (name : string) : bool :=
  match Lookup fs name with Some k => fk_bool k | None => false end.
Fixpoint split_loop (fs : flagset) (args : list string) (flags positional : list string) : list string * list string :=
  match args with
  | [] => (flags, positional)
  | a :: rest =>
      if decide (a = "--") then (flags, positional ++ rest)
      else if negb (dashed a) then split_loop fs rest flags (positional ++ [a])
      else
        let name := trim_left_fn (Ascii.eqb ch_dash) a in
        if contains_char ch_eq a then split_loop fs rest (flags ++ [a]) positional
        else if isBool fs name then split_loop fs rest (flags ++ [a]) positional
        else match rest with
             | [] => (flags ++ [a], positional)
             | v :: rest' => split_loop fs rest' (flags ++ [a; v]) positional
             end
  end.
Definition splitArgs (fs : flagset) (args : list string) : list string :=
  let '(flags, positional) := split_loop fs args [] [] in flags ++ positional.

(** ** What a command line means *)
(** Flags anywhere, positional arguments in order, everything after [--] positional. *)
Fixpoint interleaved (fs : flagset) (args : list string) : result (list (string * string) * list string) :=
  match args with
  | [] => Ok ([], [])
  | a :: rest =>
      if decide (a = "--") then Ok ([], rest)
      else if negb (dashed a) then p ← interleaved fs rest; Ok (p.1, a :: p.2)
      else
        t ← take_flag fs a rest;
        p ← match t.2, rest with
            | true, _ :: rest' => interleaved fs rest'
            | _, _ => interleaved fs rest
            end;
        Ok (t.1 :: p.1, p.2)
  end.

Lemma cut_eq_spec s : match (cut_eq s).2 with
  | None => contains_char ch_eq s = false ∧ (cut_eq s).1 = s
  | Some _ => contains_char ch_eq s = true end.
Proof.
  induction s as [|a s IH]; [done|]. cbn [cut_eq contains_char]. destruct (Ascii.eqb a ch_eq); [done|].
  destruct (cut_eq s) as [n [v|]]; cbn [fst snd orb] in *; [done|]. destruct IH as [? ->]. done.
Qed.
(** [splitArgs] and [Parse] agree on where a flag's value is. *)
Lemma flag_token_spec a name val : dashed a = true → flag_token a = Ok (name, val) →
  match val with
  | None => contains_char ch_eq a = false ∧ trim_left_fn (Ascii.eqb ch_dash) a = name
  | Some _ => contains_char ch_eq a = true
  end.
Proof.
  intros Hd. unfold dashed in Hd. apply andb_true_iff in Hd as [Hp _].
  destruct a as [|c a]; [done|]. cbn [has_prefix] in Hp. rewrite andb_true_r in Hp. apply Ascii.eqb_eq in Hp as ->.
  unfold flag_token. set (b := drop_bytes _ _).
  assert (contains_char ch_eq (String "-" a) = contains_char ch_eq b ∧
    trim_left_fn (Ascii.eqb ch_dash) (String "-" a) = trim_left_fn (Ascii.eqb ch_dash) b) as [-> ->].
  { unfold b. destruct a as [|d a]; [done|]. cbn [has_prefix]. destruct (Ascii.eqb_spec d "-"%char) as [->|Hd]; [done|].
    done. }
  clearbody b. destruct b as [|d b]; [done|]. destruct (Ascii.eqb d ch_dash) eqn:E1; [done|]. cbn [orb].
  destruct (Ascii.eqb d ch_eq) eqn:E2; [done|]. pose proof (cut_eq_spec b) as Hc. destruct (cut_eq b) as [n v].
  intros [= <- <-]. cbn [contains_char trim_left_fn]. rewrite E2. rewrite Ascii.eqb_sym in E1. unfold ch_dash in *. rewrite E1.
  cbn [fst snd] in Hc. destruct v; [done|]. by destruct Hc as [? ->].
Qed.
Lemma split_loop_acc fs args flags pos :
  split_loop fs args flags pos = (flags ++ (split_loop fs args [] []).1, pos ++ (split_loop fs args [] []).2).
Proof.
  enough (∀ n args flags pos, length args ≤ n → split_loop fs args flags pos =
    (flags ++ (split_loop fs args [] []).1, pos ++ (split_loop fs args [] []).2)) as H by by eapply H.
  clear. induction n as [|n IH]; intros [|a rest] flags pos Hl; simpl in Hl; try lia; cbn [split_loop];
    try (by rewrite !app_nil_r).
  case_decide; [by rewrite app_nil_r|]. destruct (negb (dashed a)).
  { rewrite (IH rest flags (pos ++ [a])), (IH rest [] ([] ++ [a])) by lia. cbn [fst snd]. by rewrite <- app_assoc. }
  destruct (contains_char ch_eq a).
  { rewrite (IH rest (flags ++ [a]) pos), (IH rest ([] ++ [a]) []) by lia. cbn [fst snd]. by rewrite <- app_assoc. }
  destruct (isBool fs _).
  { rewrite (IH rest (flags ++ [a]) pos), (IH rest ([] ++ [a]) []) by lia. cbn [fst snd]. by rewrite <- app_assoc. }
  destruct rest as [|v rest']; [by rewrite app_nil_r|]. simpl in Hl.
  rewrite (IH rest' (flags ++ [a; v]) pos), (IH rest' ([] ++ [a; v]) []) by lia. cbn [fst snd]. by rewrite <- app_assoc.
Qed.
Definition needs_argument : error := errorf "flag needs an argument".
Lemma take_flag_spec fs a rest : dashed a = true →
  match take_flag fs a rest with
  | Ok (_, true) => contains_char ch_eq a = false ∧ isBool fs (trim_left_fn (Ascii.eqb ch_dash) a) = false ∧ rest ≠ []
  | Ok (_, false) => contains_char ch_eq a = true ∨ isBool fs (trim_left_fn (Ascii.eqb ch_dash) a) = true
  | Err _ => True
  end ∧
  (∀ rest', head rest' = head rest → take_flag fs a rest' = take_flag fs a rest) ∧
  (contains_char ch_eq a = true ∨ isBool fs (trim_left_fn (Ascii.eqb ch_dash) a) = true → ∀ rest',
   take_flag fs a rest ≠ Err needs_argument → take_flag fs a rest' = take_flag fs a rest) ∧
  (∀ e rest', take_flag fs a [] = Err e → e ≠ needs_argument → take_flag fs a rest' = Err e).
Proof.
  intros Hd. unfold take_flag. pose proof (flag_token_spec a) as Ht. destruct (flag_token a) as [[name val]|e].
  2:{ split; [done|]. split; [done|]. split; [done|]. by intros e0 rest' [= <-] _. }
  specialize (Ht name val Hd eq_refl). cbn [mbind result_bind]. unfold isBool.
  destruct (Lookup fs name) as [k|] eqn:El.
  2:{ split; [done|]. split; [done|]. split; [done|]. by intros e0 rest' [= <-] _. }
  destruct (fk_bool k) eqn:Eb.
  { split; [|split; [done|split; [done|]]].
    - destruct (fk_ok k (default "true" val)); [|done]. destruct val; [by left|right]. destruct Ht as [_ ->]. by rewrite El.
    - by intros e0 rest' -> _. }
  destruct val as [v|].
  { split; [by destruct (fk_ok k v); [left|]|]. split; [done|]. split; [done|]. by intros e0 rest' -> _. }
  destruct Ht as [H1 H2]. rewrite H1, H2, El, Eb. split; [|split; [|split; [by intros [?|?]|]]].
  - destruct rest as [|v rest]; [done|]. by destruct (fk_ok k v).
  - intros rest' Hh. destruct rest as [|v rest], rest' as [|w rest']; try discriminate Hh; [done|]. by injection Hh as ->.
  - intros e0 rest' [= <-] Hn. by destruct Hn.
Qed.

(** What the loop does with its first argument. *)
Lemma split_loop_step fs a rest : a ≠ "--" →
  split_loop fs (a :: rest) [] [] =
    if negb (dashed a) then ((split_loop fs rest [] []).1, a :: (split_loop fs rest [] []).2)
    else if contains_char ch_eq a || isBool fs (trim_left_fn (Ascii.eqb ch_dash) a) then
      (a :: (split_loop fs rest [] []).1, (split_loop fs rest [] []).2)
    else match rest with
         | [] => ([a], [])
         | v :: rest' => (a :: v :: (split_loop fs rest' [] []).1, (split_loop fs rest' [] []).2)
         end.
Proof.
  intros Ha. cbn [split_loop]. rewrite decide_False by done.
  destruct (negb (dashed a)); [by rewrite split_loop_acc|]. destruct (contains_char ch_eq a); [by rewrite split_loop_acc|].
  destruct (isBool fs _); [by rewrite split_loop_acc|]. destruct rest; [done|by rewrite split_loop_acc].
Qed.
Lemma Parse_flag fs a rest : dashed a = true → a ≠ "--" →
  Parse fs (a :: rest) =
    (t ← take_flag fs a rest;
     p ← match t.2, rest with true, _ :: rest' => Parse fs rest' | _, _ => Parse fs rest end;
     Ok (t.1 :: p.1, p.2)).
Proof. intros Hd Ha. cbn [Parse]. rewrite Hd. cbn [negb]. by rewrite decide_False. Qed.

Definition reads_as (fs : flagset) (fp : list string * list string)
    (r : result (list (string * string) * list string)) : Prop :=
  match r with
  | Ok (sets, pos) => fp.2 = pos ∧ ∀ tail, match tail with [] => True | p :: _ => dashed p = false end →
      Parse fs (fp.1 ++ tail) = Ok (sets, tail)
  | Err e => e ≠ needs_argument → ∀ tail, Parse fs (fp.1 ++ tail) = Err e
  end.
(** A flag in front of what is read already. *)
Lemma reads_as_flag fs l fp set r : reads_as fs fp r →
  (∀ tail, Parse fs (l ++ fp.1 ++ tail) = (p ← Parse fs (fp.1 ++ tail); Ok (set :: p.1, p.2))) →
  reads_as fs (l ++ fp.1, fp.2) (p ← r; Ok (set :: p.1, p.2)).
Proof.
  intros H Hp. destruct r as [[sets pos]|e]; cbn [reads_as mbind result_bind fst snd] in *.
  - destruct H as [-> H]. split; [done|]. intros tail Ht. by rewrite <- app_assoc, Hp, H.
  - intros He tail. by rewrite <- app_assoc, Hp, H.
Qed.
Lemma split_parse fs args : reads_as fs (split_loop fs args [] []) (interleaved fs args).
Proof.
  enough (∀ n args, length args ≤ n → reads_as fs (split_loop fs args [] []) (interleaved fs args)) as H by by eapply H.
  assert (∀ tail, match tail with [] => True | p :: _ => dashed p = false end → Parse fs tail = Ok ([], tail)) as Htail.
  { intros [|p tail] Hp; [done|]. cbn [Parse]. by rewrite Hp. }
  clear args. induction n as [|n IH]; intros [|a rest] Hl; simpl in Hl; try lia; try (by split).
  cbn [interleaved]. destruct (decide (a = "--")) as [->|Hdd]; [by split|]. rewrite split_loop_step by done.
  destruct (dashed a) eqn:Hd; cbn [negb].
  2:{ specialize (IH rest ltac:(lia)). destruct (interleaved fs rest) as [[sets pos]|e]; [|exact IH].
      destruct IH as [Hp IH]. split; [cbn [snd fst]; by rewrite Hp|exact IH]. }
  pose proof (take_flag_spec fs a rest Hd) as (Hs & Hsame & Hany & Hlone).
  destruct (contains_char ch_eq a || isBool fs (trim_left_fn (Ascii.eqb ch_dash) a)) eqn:Ealone.
  - apply orb_true_iff in Ealone. specialize (Hany Ealone). destruct (take_flag fs a rest) as [[set []]|e] eqn:Et.
    + exfalso. destruct Hs as (H1 & H2 & _). destruct Ealone; congruence.
    + apply (reads_as_flag fs [a]); [apply IH; lia|]. intros tail. cbn [app]. rewrite Parse_flag by done. by rewrite Hany.
    + intros He tail. cbn [fst app]. rewrite Parse_flag by done. rewrite Hany; [done|]. intros [= ->]. done.
  - apply orb_false_iff in Ealone as [E1 E2]. destruct rest as [|v rest'].
    + destruct (take_flag fs a []) as [[set []]|e] eqn:Et; [by destruct Hs as (_ & _ & ?)|destruct Hs; congruence|].
      intros He tail. cbn [fst app]. rewrite Parse_flag by done. by rewrite (Hlone e tail eq_refl He).
    + simpl in Hl. destruct (take_flag fs a (v :: rest')) as [[set []]|e] eqn:Et.
      * apply (reads_as_flag fs [a; v]); [apply IH; lia|]. intros tail. cbn [app]. rewrite Parse_flag by done.
        by rewrite (Hsame (v :: (split_loop fs rest' [] []).1 ++ tail) eq_refl).
      * destruct Hs; congruence.
      * intros He tail. cbn [fst app]. rewrite Parse_flag by done. by rewrite (Hsame (v :: (split_loop fs rest' [] []).1 ++ tail) eq_refl).
Qed.


(** ** The commands' flags *)
Definition fstr : flagdef := mk_flagdef false (λ _, true).
Definition fbool : flagdef := mk_flagdef true (λ v, bool_decide (is_Some (ParseBool v))).
Definition str_value (name dflt : string) (sets : list (string * string)) : string :=
  foldl (λ d kv, if decide (kv.1 = name) then kv.2 else d) dflt sets.
Definition list_value (name : string) (sets : list (string * string)) : list string :=
  (filter (λ kv : string * string, kv.1 = name) sets).*2.
Definition bool_value (name : string) (sets : list (string * string)) : bool :=
  default false (ParseBool (str_value name "false" sets)).

Record commonFlags := mk_commonFlags {
  cf_repo : string; cf_hfHub : string; cf_endpoint : string; cf_hfToken : string; cf_logLevel : string
}.
Definition common_flags : flagset :=
  [("repo", fstr); ("hf-hub", fstr); ("endpoint", fstr); ("hf-token", fstr); ("log-level", fstr)].
Definition common_of (sets : list (string * string)) : commonFlags :=
  mk_commonFlags (str_value "repo" "" sets) (str_value "hf-hub" "" sets) (str_value "endpoint" "" sets)
    (str_value "hf-token" "" sets) (str_value "log-level" "info" sets).

(** What a command comes down to: a message, a request for the daemon behind a
    socket, or work in this process. *)
Inductive task :=
  | TPull (repoType : string) (opts : Hfcache.RepoType → Options)
  | TIngest (repoID repoType commit ref : string)
  | TEvict (repoID commit : string)
  | TList | TStatus | TID
  | TResolve (repoID : string) (t : Hfcache.RepoType).
Inductive outcome :=
  | Failed (e : error)
  | Printed
  | StartDaemon (cfg : Config) (noWatch : bool)
  | Proxied (socket : string) (req : ControlRequest)
  | Here (cfg : Config) (t : task).

Section commands.
(* The environment of the process. *)
Context (home : result string) (env : string → string).
(* go-log's names of levels. *)
Context (level_ok : string → bool).
(* [strconv.ParseInt(s, 0, 64)] and [time.ParseDuration]. *)
Context (parse_int64 parse_duration : string → option Z).
(* The answers of [controls.Alive]: before and after a daemon may have been started. *)
Context (alive alive2 : bool).

Definition fint : flagdef := mk_flagdef false (λ v, bool_decide (is_Some (parse_int64 v))).
Definition fdur : flagdef := mk_flagdef false (λ v, bool_decide (is_Some (parse_duration v))).

Definition apply (c : commonFlags) (cfg : Config) : result Config :=
  let '(mk_Config repo hub a b i1 c1 h r n rs sr rb ck ds endpoint token sock resc) := cfg in
  let '(repo, sock) := if decide (cf_repo c ≠ "") then (cf_repo c, cf_repo c +:+ "/api.sock") else (repo, sock) in
  let hub := if decide (cf_hfHub c ≠ "") then cf_hfHub c else hub in
  let endpoint := if decide (cf_endpoint c ≠ "") then trim_right_slash (cf_endpoint c) else endpoint in
  let token := if decide (cf_hfToken c ≠ "") then cf_hfToken c else token in
  let level := if decide (cf_logLevel c = "") then "info" else cf_logLevel c in
  if level_ok level then Ok (mk_Config repo hub a b i1 c1 h r n rs sr rb ck ds endpoint token sock resc)
  else Err (errorf "unrecognized level").
Definition configured (c : commonFlags) : result Config :=
  cfg ← Config.Default home env;
  apply c cfg.
(** The commands that open a node only to use it are no DHT servers. *)
Definition as_client (cfg : Config) : Config :=
  let '(mk_Config repo hub a b i1 c1 h r n rs sr rb ck _ endpoint token sock resc) := cfg in
  mk_Config repo hub a b i1 c1 h r n rs sr rb ck false endpoint token sock resc.

Definition or_failed {A} (r : result A) (f : A → outcome) : outcome :=
  match r with Ok a => f a | Err e => Failed e end.
(** The flags of a command that needs [n] arguments, and its configuration. *)
Definition with_flags (fs : flagset) (n : nat) (args : list string)
    (f : list (string * string) → list string → commonFlags → outcome) : outcome :=
  or_failed (Parse (fs ++ common_flags) (splitArgs (fs ++ common_flags) args)) (λ p,
  if length p.2 <? n then Failed (errorf "usage") else f p.1 p.2 (common_of p.1)).

(** *** daemon *)
Definition daemon_flags : flagset :=
  [("listen", fstr); ("bootstrap", fstr); ("connect", fstr); ("chunk-size", fint); ("no-watch", fbool);
   ("dht-client", fbool); ("isolated", fbool); ("no-relay", fbool); ("no-nat-portmap", fbool); ("no-hole-punch", fbool);
   ("relay-bulk", fbool); ("relay-service", fbool); ("static-relay", fstr); ("rescan", fdur)].
Definition or_list (l dflt : list string) : list string := match l with [] => dflt | _ => l end.
(** The value of the last setting that parses, as [Set] leaves it. *)
Definition parsed_value (parse : string → option Z) (name : string) (dflt : Z) (sets : list (string * string)) : Z :=
  foldl (λ d kv, if decide (kv.1 = name) then default d (parse kv.2) else d) dflt sets.
Definition daemon_config (sets : list (string * string)) (cfg : Config) : Config := {|
  RepoDir := RepoDir cfg; HFHubDir := HFHubDir cfg;
  Listen := or_list (list_value "listen" sets) (Listen cfg);
  Bootstrap := or_list (list_value "bootstrap" sets) (Config.Bootstrap cfg);
  Isolated := bool_value "isolated" sets;
  Config.Connect := or_list (list_value "connect" sets) (Config.Connect cfg);
  HolePunch := negb (bool_value "no-hole-punch" sets); Relay := negb (bool_value "no-relay" sets);
  NATPortMap := negb (bool_value "no-nat-portmap" sets); RelayService := bool_value "relay-service" sets;
  StaticRelays := list_value "static-relay" sets; RelayBulk := bool_value "relay-bulk" sets;
  ChunkSize := parsed_value parse_int64 "chunk-size" DefaultChunkSize sets; DHTServer := negb (bool_value "dht-client" sets);
  HFEndpoint := HFEndpoint cfg; HFToken := HFToken cfg; APISocket := APISocket cfg;
  RescanInterval := parsed_value parse_duration "rescan" (5 * 60 * 1000000000) sets |}.
Definition request (cmd repoID repoType commit ref : string) : ControlRequest :=
  mk_ControlRequest cmd repoID repoType commit ref [] [] false "" "".
Definition cmdShutdown (args : list string) : outcome :=
  with_flags [] 0 args (λ _ _ c, or_failed (configured c) (λ cfg,
  if alive then Proxied (APISocket cfg) (request CmdShutdown "" "" "" "") else Failed (errorf "no daemon running"))).
Definition cmdDaemon (args : list string) : outcome :=
  let start args := with_flags daemon_flags 0 args (λ sets _ c,
    or_failed (cfg ← Config.Default home env; apply c (daemon_config sets cfg)) (λ cfg,
    StartDaemon cfg (bool_value "no-watch" sets))) in
  match args with
  | a :: rest => if decide (a = "stop") then cmdShutdown rest else start args
  | [] => start args
  end.

(** *** pull *)
Definition pull_flags : flagset :=
  [("commit", fstr); ("ref", fstr); ("repo-type", fstr); ("peer", fstr); ("connect", fstr);
   ("force", fbool); ("no-daemon", fbool); ("no-fork", fbool); ("from", fstr)].
Definition pull_request (cfg : Config) (src : Sources.Sources) (repoID : string) (sets : list (string * string)) : ControlRequest := {|
  cr_Cmd := CmdPull; cr_RepoID := repoID; cr_RepoType := str_value "repo-type" "model" sets;
  cr_Commit := str_value "commit" "" sets; cr_Ref := str_value "ref" "main" sets;
  cr_Peers := list_value "peer" sets; cr_Connect := list_value "connect" sets; cr_Force := bool_value "force" sets;
  cr_From := String_ src; cr_Token := HFToken cfg |}.
Definition here_options (cfg : Config) (src : Sources.Sources) (repoID : string) (sets : list (string * string))
    (t : Hfcache.RepoType) : Options := {|
  RepoID := repoID; RepoType := t; Commit := str_value "commit" "" sets; Ref := str_value "ref" "main" sets;
  Peers := list_value "peer" sets; Connect := list_value "connect" sets; Force := bool_value "force" sets;
  Sources := src; Token := HFToken cfg |}.
(** Asks for a daemon to be started when there is none, then looks again. *)
Definition wants_fork (sets : list (string * string)) : bool :=
  negb (bool_value "no-daemon" sets) && negb alive && negb (bool_value "no-fork" sets).
Definition daemon_answers (sets : list (string * string)) : bool :=
  negb (bool_value "no-daemon" sets) && (if wants_fork sets then alive2 else alive).
Definition cmdPull (args : list string) : outcome :=
  with_flags pull_flags 1 args (λ sets pos c,
  let repoID := hd "" pos in
  or_failed (configured c) (λ cfg,
  or_failed (wrap_result "--from" (ParseSources (str_value "from" "p2p,hf" sets))) (λ src,
  if daemon_answers sets then Proxied (APISocket cfg) (pull_request cfg src repoID sets)
  else Here (as_client cfg) (TPull (str_value "repo-type" "model" sets) (here_options cfg src repoID sets))))).
(** The arguments and the one changed variable of the daemon it starts. *)
Definition opt_flag (name value : string) : list string := if decide (value ≠ "") then [name; value] else [].
Definition fork_args (c : commonFlags) : list string :=
  ["daemon"] ++ opt_flag "--repo" (cf_repo c) ++ opt_flag "--hf-hub" (cf_hfHub c)
  ++ opt_flag "--endpoint" (cf_endpoint c) ++ opt_flag "--log-level" (cf_logLevel c).
Definition fork_env (cfg : Config) (name : string) : string :=
  if decide (name = "HF_TOKEN") then HFToken cfg else env name.

(** What has to be there before the child is started: the state directory, the
    executable, the log, which is opened for appending, and /dev/null. *)
Definition fork_log (cfg : Config) : string := fjoin [RepoDir cfg; "daemon.log"].
Definition fork_prepare (cfg : Config) (exe : result string) (devnull : result unit) : M osst unit :=
  EnsureDirs cfg ;;
  m_lift exe ;;
  open_rw (fork_log cfg) 384 ;;                                               (* 0o600 *)
  m_lift devnull.
(** The wait for its socket: a look every 200 ms for 30 s, unless the child is
    seen to have ended. *)
Definition forkTicks : nat := 150.
Fixpoint fork_wait (ticks : nat) (i : nat) (looks : nat → bool) (exited : nat → option (result unit)) : result unit :=
  if looks i then Ok tt
  else
    match exited i with
    | Some r => Err (ErrWrap "daemon exited before it was ready" (match r with Ok _ => errorf "exited cleanly" | Err e => e end))
    | None =>
        match ticks with
        | O => Err (errorf "daemon did not answer within 30s")
        | S ticks' => fork_wait ticks' (S i) looks exited
        end
    end.
Definition forkDaemon (cfg : Config) (exe : result string) (devnull start : result unit)
    (looks : nat → bool) (exited : nat → option (result unit)) : M osst unit :=
  fork_prepare cfg exe devnull ;;
  m_lift start ;;
  m_lift (fork_wait forkTicks 0 looks exited).

(** *** The other commands *)
Definition ingest_flags : flagset := [("commit", fstr); ("ref", fstr); ("repo-type", fstr)].
Definition cmdIngest (args : list string) : outcome :=
  with_flags ingest_flags 1 args (λ sets pos c, or_failed (configured c) (λ cfg,
  let repoID := hd "" pos in let repoType := str_value "repo-type" "model" sets in
  let commit := str_value "commit" "" sets in let ref := str_value "ref" "main" sets in
  if alive then Proxied (APISocket cfg) (request CmdIngest repoID repoType commit ref)
  else Here (as_client cfg) (TIngest repoID repoType commit ref))).
Definition cmdEvict (args : list string) : outcome :=
  with_flags [("commit", fstr)] 1 args (λ sets pos c, or_failed (configured c) (λ cfg,
  let repoID := hd "" pos in let commit := str_value "commit" "" sets in
  if alive then Proxied (APISocket cfg) (request CmdEvict repoID "" commit "")
  else Here (as_client cfg) (TEvict repoID commit))).
Definition cmdList (args : list string) : outcome :=
  with_flags [] 0 args (λ _ _ c, or_failed (configured c) (λ cfg,
  if alive then Proxied (APISocket cfg) (request CmdList "" "" "" "") else Here (as_client cfg) TList)).
Definition cmdStatus (args : list string) : outcome :=
  with_flags [] 0 args (λ _ _ c, or_failed (configured c) (λ cfg,
  if alive then Proxied (APISocket cfg) (request CmdStatus "" "" "" "") else Here cfg TStatus)).
Definition cmdID (args : list string) : outcome :=
  with_flags [] 0 args (λ _ _ c, or_failed (configured c) (λ cfg, Here cfg TID)).
Definition cmdResolve (args : list string) : outcome :=
  with_flags [("repo-type", fstr)] 1 args (λ sets pos c, or_failed (configured c) (λ cfg,
  or_failed (ParseRepoType (str_value "repo-type" "model" sets)) (λ t, Here cfg (TResolve (hd "" pos) t)))).
Definition run (args : list string) : outcome :=
  match args with
  | [] => Failed (errorf "missing command")
  | cmd :: rest =>
      if decide (cmd = "daemon") then cmdDaemon rest
      else if decide (cmd ∈ ["pull"; "download"]) then cmdPull rest
      else if decide (cmd = "ingest") then cmdIngest rest
      else if decide (cmd = "evict") then cmdEvict rest
      else if decide (cmd = "list") then cmdList rest
      else if decide (cmd = "status") then cmdStatus rest
      else if decide (cmd = "id") then cmdID rest
      else if decide (cmd = "resolve") then cmdResolve rest
      else if decide (cmd = "shutdown") then cmdShutdown rest
      else if decide (cmd ∈ ["version"; "-v"; "--version"; "help"; "-h"; "--help"]) then Printed
      else Failed (errorf "unknown command")
  end.
End commands.

(** *** The work of a command, in this process *)
Section perform.
Context {MF : Multiformats} {IP : Ipld} {BS : Blockstore} {FM : FileManager} {FS : Filestore}
  {DS : Datastore} {BA : Batching} {K : Keys} {N : Network} {HS : Hashes} {IM : Importer} {U : Urls}.
Context (cfg : Config) (self : peer_id) (now : string) (pull_fuel evict_fuel : nat) (map_order : gset cid → list cid).

Definition perform_ingest (repoID repoType commit ref : string) : M job Result :=
  t ← m_lift (ParseRepoType repoType);
  commit ← (if decide (commit = "") then on_jfiles (CurrentCommit (NewPaths (HFHubDir cfg) repoID t) ref) else mret commit);
  Ingest.Run cfg now repoID t commit say.
Definition perform_evict (repoID commit : string) : M job Z :=
  if decide (commit ≠ "") then
    r ← on_jnode (on_map (DB.Get commit));
    match r with
    | None => m_fail (errorf "the commit is not shared by this node")
    | Some entry => on_target (λ _, []) (Evict.Commit evict_fuel map_order (HFHubDir cfg) entry) ;; mret 1%Z
    end
  else
    r ← on_target as_progress (Evict.Repo evict_fuel map_order (HFHubDir cfg) repoID);
    m_lift (match r with (n, Ok _) => Ok n | (_, Err e) => Err e end).
Definition perform (t : task) : M hub unit :=
  match t with
  | TPull repoType opts => t ← m_lift (ParseRepoType repoType); Pipeline.Run pull_fuel self cfg now (opts t)
  | TIngest repoID repoType commit ref => on_job (perform_ingest repoID repoType commit ref) ;; mret tt
  | TEvict repoID commit => on_job (perform_evict repoID commit) ;; mret tt
  | TList => on_job (on_jnode (on_map DB.List)) ;; mret tt
  | TStatus => m_ignore (on_hos (Load (KeyPath cfg)))
  | TID => on_hos (Load (KeyPath cfg)) ;; mret tt
  | TResolve repoID t => info ← on_hub (RepoInfoAt (mk_Client (cl_Endpoint (NewClient (HFEndpoint cfg))) (HFToken cfg)) repoID t "" true); m_lift (FromCommit (ri_SHA info)) ;; mret tt
  end.
End perform.

(** *** Output *)
Definition printEvent (e : ControlEvent) : result unit :=
  if decide (ce_Type e = "error") then Err (errorf (ce_Message e)) else Ok tt.
Definition onOff (b : bool) : string := if b then "on" else "off".
Definition tokenStatus (tok : string) : string :=
  if decide (tok = "") then "unset"
  else if String.length tok <=? 4 then "set"
  else "set (…" +:+ drop_bytes (String.length tok - 4) tok +:+ ")".

(** ** The daemon does what the command would have done *)
Section served.
Context (home : result string) (env : string → string) (level_ok : string → bool)
  (parse_int64 parse_duration : string → option Z).
#[local] Abbreviation run_with a := (run home env level_ok parse_int64 parse_duration a a).

Lemma ParseSources_resolved s src : ParseSources s = Ok src → Sources.resolve src = src.
Proof.
  unfold ParseSources. intros H. case_decide; [by injection H as <-|]. destruct (parse_tokens _ _) as [r|]; [|done].
  cbn [mbind result_bind] in H. destruct (P2P r) eqn:E1, (HF r) eqn:E2; cbn [negb andb] in H; try discriminate H;
    injection H as <-; unfold Sources.resolve; by rewrite E1, ?E2.
Qed.
(** The request for a piece of work. *)
Definition requests (t : task) (req : ControlRequest) : Prop :=
  match t with
  | TPull ty opts => cr_Cmd req = CmdPull ∧ cr_RepoType req = ty ∧
      ∃ src, ParseSources (cr_From req) = Ok src ∧ ∀ t, pull_options t src req = opts t
  | TIngest repoID ty commit ref => req = request CmdIngest repoID ty commit ref
  | TEvict repoID commit => req = request CmdEvict repoID "" commit ""
  | TList => req = request CmdList "" "" "" ""
  | TStatus => req = request CmdStatus "" "" "" ""
  | TID | TResolve _ _ => False
  end.
Definition matched (here there : outcome) : Prop :=
  match here, there with
  | Here cfg t, Proxied sock req => sock = APISocket cfg ∧ requests t req
  | _, _ => True
  end.
Lemma matched_failed {A} (r : result A) f g : (∀ a, r = Ok a → matched (f a) (g a)) → matched (or_failed r f) (or_failed r g).
Proof. destruct r; [|done]. intros H. by apply H. Qed.
Lemma matched_flags fs n args f g :
  (∀ sets pos c, matched (f sets pos c) (g sets pos c)) → matched (with_flags fs n args f) (with_flags fs n args g).
Proof. intros H. apply matched_failed. intros p _. by destruct (_ <? _). Qed.
Lemma as_client_socket cfg : APISocket (as_client cfg) = APISocket cfg.
Proof. by destruct cfg. Qed.

(** Without a daemon the command works here, with one it sends the request for that work. *)
Lemma run_matched args : matched (run_with false args) (run_with true args).
Proof.
  unfold run. destruct args as [|cmd args]; [done|].
  assert (matched (cmdShutdown home env level_ok false args) (cmdShutdown home env level_ok true args)) as Hs
    by by apply matched_flags; intros; apply matched_failed.
  assert (∀ n fs here there, (∀ sets pos c cfg, matched (here sets pos c cfg) (there sets pos c cfg)) →
    matched (with_flags fs n args (λ sets pos c, or_failed (configured home env level_ok c) (here sets pos c)))
            (with_flags fs n args (λ sets pos c, or_failed (configured home env level_ok c) (there sets pos c)))) as Hc
    by by intros n fs here there H; apply matched_flags; intros; apply matched_failed; intros.
  case_decide; [|case_decide; [|repeat (case_decide; [first [done|apply Hc; intros sets pos c cfg;
    first [exact I|by split; [rewrite ?as_client_socket|]|by apply matched_failed]]|]); done]].
  - unfold cmdDaemon. destruct args as [|a args]; [by apply matched_flags; intros; apply matched_failed|].
    case_decide; by apply matched_flags; intros; apply matched_failed.
  - apply matched_flags. intros sets pos c. apply matched_failed. intros cfg _. apply matched_failed. intros src Hsrc.
    unfold daemon_answers, wants_fork. destruct (bool_value "no-daemon" sets); [done|]. cbn [negb andb].
    replace (if negb (bool_value "no-fork" sets) then false else false) with false by by destruct (bool_value "no-fork" sets).
    cbn [negb]. split; [by rewrite as_client_socket|]. split; [done|]. split; [done|]. exists src. split; [|done].
    cbn [cr_From pull_request]. rewrite sources_roundtrip. f_equal. destruct (ParseSources _) eqn:E in Hsrc; [|done].
    injection Hsrc as <-. by eapply ParseSources_resolved.
Qed.

(** The daemon's answer to the request, against the work itself. *)
Section work.
Context {MF : Multiformats} {IP : Ipld} {BS : Blockstore} {FM : FileManager} {FS : Filestore}
  {DS : Datastore} {BA : Batching} {K : Keys} {N : Network} {HS : Hashes} {IM : Importer} {U : Urls}.
Context (cfg : Config) (self : peer_id) (now : string) (pull_fuel evict_fuel : nat) (map_order : gset cid → list cid).

(** The job ends with the node as the work leaves it, and the last event says how the work ended. *)
Definition tells {A} (done : result A * job) (j : job) : Prop :=
  jb_node j = jb_node done.2 ∧ ∃ ps final, jb_events j = ps ++ [final] ∧ said_done final = is_ok done.1.
Lemma tells_send {A} (done : result A * job) j msg : jb_node j = jb_node done.2 →
  tells done (send (if is_ok done.1 then "done" else "error") msg j).2.
Proof. intros Hn. split; [exact Hn|]. eexists _, _. split; [reflexivity|]. by destruct (is_ok done.1). Qed.
Lemma serve_ingest_tells repoID ty commit ref j :
  tells (perform_ingest cfg now repoID ty commit ref j) (serve_ingest cfg now (request CmdIngest repoID ty commit ref) j).2.
Proof.
  unfold perform_ingest, serve_ingest. cbn [cr_RepoType cr_Commit cr_Ref cr_RepoID request].
  rewrite bind_lift_run. destruct (ParseRepoType ty) as [t|e]; [|by apply (tells_send (Err e, j))]. cbn [or_error].
  set (c := if decide (commit = "") then _ else _). destruct (c j) as [[c'|e] j1] eqn:Ec; rewrite (bind_try_run _ _ _ _ _ Ec).
  2:{ rewrite (bind_run_err _ _ _ _ _ Ec). by apply (tells_send (Err e, j1)). }
  rewrite (bind_run_ok _ _ _ _ _ Ec). cbn [or_error].
  destruct (Ingest.Run cfg now repoID t c' say j1) as [[res|e] j2] eqn:Er; rewrite (bind_try_run _ _ _ _ _ Er).
  - by apply (tells_send (Ok res, j2)).
  - by apply (tells_send (Err e, j2)).
Qed.
Lemma serve_list_tells j : tells (on_jnode (on_map DB.List) j) (serve_list j).2.
Proof.
  unfold serve_list. destruct (on_jnode (on_map DB.List) j) as [[entries|e] j1] eqn:E; rewrite (bind_try_run _ _ _ _ _ E).
  2:{ by apply (tells_send (Err e, j1)). }
  cbn [or_error]. assert (∀ l j, (m_foreach (λ e, say (list_line e)) l j).1 = Ok tt ∧
    jb_node (m_foreach (λ e, say (list_line e)) l j).2 = jb_node j) as Hf.
  { clear. induction l as [|e l IH]; intros j; [done|]. cbn [m_foreach]. rewrite (bind_run_ok (say _) _ _ tt _ eq_refl). exact (IH (say (list_line e) j).2). }
  specialize (Hf entries j1) as [Hr Hn]. destruct (m_foreach _ _ j1) as [r j2] eqn:Ef. cbn [fst snd] in Hr, Hn. subst r.
  rewrite (bind_run_ok _ _ _ _ _ Ef). by apply (tells_send (Ok entries, j1)).
Qed.
Lemma on_target_shows {A} show1 show2 (op : M Evict.target A) j :
  (on_target show1 op j).1 = (on_target show2 op j).1 ∧ jb_node (on_target show1 op j).2 = jb_node (on_target show2 op j).2.
Proof. unfold on_target. by destruct (op _). Qed.
Lemma serve_evict_tells repoID commit j :
  tells (perform_evict cfg evict_fuel map_order repoID commit j)
    (serve_evict cfg evict_fuel map_order (request CmdEvict repoID "" commit "") j).2.
Proof.
  unfold perform_evict, serve_evict. cbn [cr_Commit cr_RepoID request]. case_decide.
  - destruct (on_jnode (on_map (DB.Get commit)) j) as [[[entry|]|e] j1] eqn:E; rewrite (bind_try_run _ _ _ _ _ E);
      [rewrite (bind_run_ok _ _ _ _ _ E)|rewrite (bind_run_ok _ _ _ _ _ E)|rewrite (bind_run_err _ _ _ _ _ E)].
    2:{ by apply (tells_send (Err _, j1)). }
    2:{ by apply (tells_send (Err e, j1)). }
    set (op := Evict.Commit _ _ _ _). pose proof (on_target_shows as_progress (λ _, []) op j1) as [H1 H2].
    destruct (on_target as_progress op j1) as [r j2] eqn:E1, (on_target (λ _, []) op j1) as [r' j2'] eqn:E2.
    cbn [fst snd] in H1, H2. subst r'. rewrite (bind_try_run _ _ _ _ _ E1). destruct r as [[]|e].
    + rewrite (bind_run_ok _ _ _ _ _ E2). by apply (tells_send (Ok _, j2')).
    + rewrite (bind_run_err _ _ _ _ _ E2). by apply (tells_send (Err e, j2')).
  - set (op := Evict.Repo _ _ _ _). destruct (on_target as_progress op j) as [[[n [[]|e]]|e] j1] eqn:E; rewrite (bind_try_run _ _ _ _ _ E).
    + rewrite (bind_run_ok _ _ _ _ _ E). by apply (tells_send (Ok n, j1)).
    + rewrite (bind_run_ok _ _ _ _ _ E). by apply (tells_send (Err e, j1)).
    + rewrite (bind_run_err _ _ _ _ _ E). by apply (tells_send (Err e, j1)).
Qed.
Lemma tells_job {A B} (work : M job A) (op : M job B) d : tells (work (hb_job (dm_hub d))) (op (hb_job (dm_hub d))).2 →
  let done := (on_job work ;; mret tt) (dm_hub d) in
  let h' := dm_hub (in_job op d).2 in
  jb_node (hb_job h') = jb_node (hb_job done.2) ∧ hb_web h' = hb_web done.2 ∧
  ∃ ps final, jb_events (hb_job h') = ps ++ [final] ∧ said_done final = is_ok done.1.
Proof.
  unfold tells, in_job, in_hub, on_job, m_zoom, mbind, M_bind. cbv zeta.
  destruct (work _) as [[a|e] j1], (op _) as [r j2]; cbn; intros (-> & ps & final & -> & <-);
    (split; [reflexivity|]; split; [reflexivity|]; by exists ps, final).
Qed.
Lemma serve_pull_tells ty opts src req h : cr_RepoType req = ty → ParseSources (cr_From req) = Ok src →
  (∀ t, pull_options t src req = opts t) →
  let done := perform cfg self now pull_fuel evict_fuel map_order (TPull ty opts) h in
  let h' := (serve_pull cfg self now pull_fuel req h).2 in
  tells (done.1, hb_job done.2) (hb_job h') ∧ hb_web h' = hb_web done.2.
Proof.
  intros <- Hsrc Hopts. cbv zeta. cbn [perform]. unfold serve_pull. rewrite bind_lift_run.
  destruct (ParseRepoType (cr_RepoType req)) as [t|e]; [|split; [by apply (tells_send (Err e, hb_job h))|done]].
  rewrite Hsrc, Hopts. pose proof (speaks_Run pull_fuel self cfg now (opts t) h) as Hr.
  destruct (Pipeline.Run pull_fuel self cfg now (opts t) h) as [[[]|e] h1] eqn:E; rewrite (bind_try_run _ _ _ _ _ E); cbn [fst snd] in Hr.
  - destruct Hr as (l1 & msg & _ & Hl). split; [|by destruct h1]. split; [by destruct h1|].
    exists l1, (mk_ControlEvent "done" msg 0 0). by destruct h1.
  - split; [|by destruct h1]. by apply (tells_send (Err e, hb_job h1)).
Qed.
End work.




End served.

(** What [Controls.Call] needs of the command's output. *)
Lemma printEvent_ok e : ce_Type e ≠ "error" → printEvent e = Ok tt.
Proof. intros H. unfold printEvent. by rewrite decide_False. Qed.

(** ** The daemon that a pull starts *)
(** The wait succeeds exactly when the socket answers in time, before the child
    is seen to end. *)
Lemma fork_wait_ok ticks i looks exited : fork_wait ticks i looks exited = Ok tt ↔
  ∃ k, i ≤ k ≤ i + ticks ∧ looks k = true ∧ ∀ j, i ≤ j < k → looks j = false ∧ exited j = None.
Proof.
  revert i. induction ticks as [|ticks IH]; intros i; cbn [fork_wait]; destruct (looks i) eqn:El.
  1,3: (split; [|done]); intros _; exists i; split; [lia|]; split; [done|]; intros j Hj; lia.
  - split; [by destruct (exited i)|]. intros (k & Hk & Hl & _). assert (k = i) as -> by lia. congruence.
  - destruct (exited i) as [r|] eqn:Ex.
    { split; [done|]. intros (k & Hk & Hl & Hbefore). destruct (decide (k = i)) as [->|]; [congruence|].
      destruct (Hbefore i ltac:(lia)) as [_ ?]. congruence. }
    rewrite IH. split; intros (k & Hk & Hl & Hbefore).
    + exists k. split; [lia|]. split; [done|]. intros j Hj. destruct (decide (j = i)) as [->|]; [done|]. apply Hbefore. lia.
    + destruct (decide (k = i)) as [->|]; [congruence|]. exists k. split; [lia|]. split; [done|]. intros j Hj. apply Hbefore. lia.
Qed.

Section fork.
Context (home : result string) (env : string → string) (level_ok : string → bool)
  (parse_int64 parse_duration : string → option Z).

(** What the child reads back from its arguments. *)
Lemma fork_args_parse c :
  ∃ sets, Parse (daemon_flags parse_int64 parse_duration ++ common_flags)
    (splitArgs (daemon_flags parse_int64 parse_duration ++ common_flags) (tl (fork_args c))) = Ok (sets, []) ∧
  common_of sets = mk_commonFlags (cf_repo c) (cf_hfHub c) (cf_endpoint c) ""
    (if decide (cf_logLevel c = "") then "info" else cf_logLevel c) ∧
  bool_value "no-watch" sets = false.
Proof.
  destruct c as [repo hub endpoint token level]. unfold fork_args, opt_flag. cbn [cf_repo cf_hfHub cf_endpoint cf_logLevel].
  repeat case_decide; subst; try done; (eexists; split; [vm_compute; reflexivity|split; [|reflexivity]]; cbn; reflexivity).
Qed.
End fork.

Section fork_config.
Context (home : result string) (env : string → string) (level_ok : string → bool)
  (parse_int64 parse_duration : string → option Z).

(** A token that had to be looked for is found again in the variable. *)
Lemma token_again tok hug : let v := trim_space (firstNonEmpty [tok; hug]) in
  trim_space (firstNonEmpty [v; hug]) = v.
Proof.
  intros v. assert (trim_space v = v) as Hv by apply trim_space_idem. cbn [firstNonEmpty]. rewrite Hv.
  case_decide as Hd; [done|]. rewrite Hd. unfold v in Hd. clear v Hv. cbn [firstNonEmpty] in Hd.
  revert Hd. repeat case_decide; done.
Qed.

(** What a pull and the daemon it starts must agree on. *)
Definition shared (cfg : Config) : string * string * string * string * string :=
  (RepoDir cfg, HFHubDir cfg, APISocket cfg, HFEndpoint cfg, HFToken cfg).
Definition level_of (c : commonFlags) : string := if decide (cf_logLevel c = "") then "info" else cf_logLevel c.
Lemma apply_shared c cfg : match apply level_ok c cfg with
  | Ok cfg' => level_ok (level_of c) = true ∧ shared cfg' =
      (if decide (cf_repo c ≠ "") then cf_repo c else RepoDir cfg,
       if decide (cf_hfHub c ≠ "") then cf_hfHub c else HFHubDir cfg,
       if decide (cf_repo c ≠ "") then cf_repo c +:+ "/api.sock" else APISocket cfg,
       if decide (cf_endpoint c ≠ "") then trim_right_slash (cf_endpoint c) else HFEndpoint cfg,
       if decide (cf_hfToken c ≠ "") then cf_hfToken c else HFToken cfg)
  | Err _ => level_ok (level_of c) = false
  end.
Proof.
  destruct cfg. unfold apply. cbn. fold (level_of c).
  destruct (decide (cf_repo c ≠ "")); destruct (level_ok (level_of c)) eqn:E; by rewrite ?E.
Qed.
Lemma daemon_config_shared sets cfg : shared (daemon_config parse_int64 parse_duration sets cfg) = shared cfg.
Proof. done. Qed.

(** Only the token depends on that variable. *)
Lemma Default_env env' base : (∀ name, name ≠ "HF_TOKEN" → env' name = env name) → Default home env = Ok base →
  ∃ base', Default home env' = Ok base' ∧
  (RepoDir base', HFHubDir base', APISocket base', HFEndpoint base') =
    (RepoDir base, HFHubDir base, APISocket base, HFEndpoint base) ∧
  HFToken base' = trim_space (firstNonEmpty [env' "HF_TOKEN"; env "HUGGING_FACE_HUB_TOKEN"]) ∧
  HFToken base = trim_space (firstNonEmpty [env "HF_TOKEN"; env "HUGGING_FACE_HUB_TOKEN"]).
Proof.
  intros He. unfold Default. destruct home as [dir|]; [|done]. cbn [wrap_result mbind result_bind]. intros [= <-].
  eexists. split; [reflexivity|]. cbn [RepoDir HFHubDir APISocket HFEndpoint HFToken].
  by rewrite !(He "SWARMFACE_REPO"), !(He "HF_IPFS_REPO"), !(He "HF_HOME"), !(He "HF_HUB_CACHE"), !(He "HF_ENDPOINT"),
    !(He "HUGGING_FACE_HUB_TOKEN") by done.
Qed.

(** C35. The daemon that [sf pull] starts shares its state directory, its cache, its
    endpoint and its token with it, and answers on the socket the pull waits
    at, although the token is not among the arguments.  Spaces around a token
    given as a flag are the exception. *)
Theorem fork_same_config c cfg alive alive2 :
  configured home env level_ok c = Ok cfg → trim_space (cf_hfToken c) = cf_hfToken c →
  ∃ cfg', run home (fork_env env cfg) level_ok parse_int64 parse_duration alive alive2 (fork_args c) = StartDaemon cfg' false ∧
  shared cfg' = shared cfg.
Proof.
  intros Hc Htok. destruct (fork_args_parse parse_int64 parse_duration c) as (sets & Hp & Hco & Hw).
  unfold configured in Hc. destruct (Default home env) as [base|] eqn:Hb; [|done]. cbn [mbind result_bind] in Hc.
  pose proof (apply_shared c base) as Hs. rewrite Hc in Hs. destruct Hs as [Hl Hs].
  destruct (Default_env (fork_env env cfg) base) as (base' & Hb' & Heq & Ht' & Ht); [|done|].
  { intros name Hn. unfold fork_env. by rewrite decide_False. }
  pose proof (apply_shared (common_of sets) (daemon_config parse_int64 parse_duration sets base')) as Hs'.
  assert (level_of (common_of sets) = level_of c) as El.
  { rewrite Hco. unfold level_of. cbn [cf_logLevel]. by repeat case_decide. }
  destruct (apply level_ok (common_of sets) _) as [cfg'|] eqn:Ea; [|congruence].
  exists cfg'. split.
  - assert (cmdDaemon home (fork_env env cfg) level_ok parse_int64 parse_duration alive (tl (fork_args c)) =
      with_flags (daemon_flags parse_int64 parse_duration) 0 (tl (fork_args c)) (λ sets _ c,
        or_failed (cfg ← Default home (fork_env env cfg); apply level_ok c (daemon_config parse_int64 parse_duration sets cfg)) (λ cfg,
        StartDaemon cfg (bool_value "no-watch" sets)))) as Hd.
    { unfold fork_args, opt_flag. cbn [app tl]. by repeat case_decide. }
    change (fork_args c) with ("daemon" :: tl (fork_args c)). unfold run. rewrite decide_True by done. rewrite Hd.
    unfold with_flags. rewrite Hp. cbn [or_failed fst snd length Nat.ltb Nat.leb].
    rewrite Hb'. cbn [mbind result_bind]. rewrite Ea. cbn [or_failed]. by rewrite Hw.
  - destruct Hs' as [_ ->]. rewrite Hs. rewrite Hco. cbn [cf_repo cf_hfHub cf_endpoint cf_hfToken RepoDir HFHubDir APISocket HFEndpoint HFToken daemon_config].
    rewrite (decide_False _ (P := "" ≠ "")) by (intros H; by apply H).
    injection Heq as -> -> -> ->. f_equal. 
    rewrite Ht'. change (fork_env env cfg "HF_TOKEN") with (HFToken cfg). unfold shared in Hs. injection Hs as _ _ _ _ ->.
    destruct (decide (cf_hfToken c ≠ "")) as [Hn|Hn]; [|rewrite Ht; apply token_again]. cbn [firstNonEmpty]. rewrite Htok. by rewrite decide_True.
Qed.
End fork_config.

(** ** Concrete command lines *)
Module ToyCli.
Definition home : result string := Ok "/home/u".
Definition env (name : string) : string := if decide (name = "HF_TOKEN") then "hf_secret" else "".
Definition levels (l : string) : bool := bool_decide (l ∈ ["debug"; "info"; "warn"; "error"]).
Definition no_number (s : string) : option Z := None.
Definition pull_line : list string := ["pull"; "org/n"; "--commit"; ToyFallback.commit3; "--ref=dev"].
Definition flags_of_pull : flagset := pull_flags ++ common_flags.
Definition given : commonFlags := mk_commonFlags "/state" "" "http://hub/" "" "debug".
End ToyCli.

Section witnesses.
Import ToyNode ToyIngest ToyHub ToyFallback ToyPipeline ToyControls ToyCli.

(** The two lines that [splitArgs_interleaves] leaves out: what follows [--] is
    taken for a flag again, and a last flag without its value takes a
    positional argument for it. *)
Lemma splitArgs_gaps :
  Parse flags_of_pull (splitArgs flags_of_pull ["--"; "--repo"; "x"]) = Ok ([("repo", "x")], []) ∧
  Parse flags_of_pull (splitArgs flags_of_pull ["org/n"; "--commit"]) = Ok ([("commit", "org/n")], []).
Proof. split; reflexivity. Qed.

Lemma fork_same_config_witness :
  ∃ cfg', run home (fork_env env (mk_Config "/state" "" [] [] false [] true true true false [] false 0 true "" "hf_secret" "" 0))
    levels no_number no_number false false (fork_args given) = StartDaemon cfg' false ∧ HFToken cfg' = "hf_secret".
Proof.
  destruct (configured home env levels given) as [cfg|] eqn:E; [|vm_compute in E; discriminate E].
  destruct (fork_same_config home env levels no_number no_number given cfg false false E eq_refl) as (cfg' & Hr & Hs).
  vm_compute in E. injection E as <-. exists cfg'. split; [exact Hr|]. injection Hs as _ _ _ _ H. exact H.
Defined.

End witnesses.
