(* ===== verification/Daemon.v ===== *)
(** * main.go: the life of the daemon.

    [daemon_main] is [cmdDaemon] from [node.New] on.  A [process] is what it
    holds ([Start.res], with the files), the node's data, the path of the control
    socket and the lines it has printed.  Everything that happens while it
    serves, by connections, protocol handlers and the watcher, is a list of
    changes to the node. *)
From stdpp Require Import gmap.
From S2P Require Import Prelude GoStrings GoPath GoFS Protoio Lib Store Dummy Mapping Wire Hfcache Config Identity Net Node Start.
From S2P Require Import Sources Job Ingest Hfapi Fallback Controls Socket Cli.

Section daemon.
Context {MF : Multiformats} {IP : Ipld} {B : Bolt} {BS : Blockstore} {FM : FileManager} {DS : Datastore} {BA : Batching}
  {K : Keys} {N : Network}.

Record process := mk_process { pr_res : res; pr_node : node; pr_sock : sockst; pr_out : list string }.
Definition on_res {A} : M res A → M process A :=
  m_zoom pr_res (λ x p, mk_process x (pr_node p) (pr_sock p) (pr_out p)).
Definition on_sock {A} : M sockst A → M process A :=
  m_zoom pr_sock (λ x p, mk_process (pr_res p) (pr_node p) x (pr_out p)).
(** The node works on the process's files. *)
Definition node_of (p : process) : node :=
  let n := pr_node p in mk_node (nd_map n) (nd_bs n) (nd_fm n) (lk_os (re_lock (pr_res p))) (nd_net n).
Definition set_files (o : osst) (s : res) : res :=
  mk_res (mk_lockst o (lk_held (re_lock s))) (re_db s) (re_store_open s) (re_host_open s) (re_dht_open s).
Definition on_pnode {A} : M node A → M process A :=
  m_zoom node_of (λ n p, mk_process (set_files (nd_os n) (pr_res p)) n (pr_sock p) (pr_out p)).
Definition print (line : string) : M process unit :=
  m_modify (λ p, mk_process (pr_res p) (pr_node p) (pr_sock p) (pr_out p ++ [line])).

(** What ends the daemon: a signal, a shutdown command, or the watcher. *)
Inductive ending := Cancelled | ShutdownAsked | WatcherFailed (e : error).

Context (version : string) (lp : libp2p) (cfg : Config).
(* AutoNAT's verdict when the banner is printed. *)
Context (reach : Reachability).
Context (noWatch : bool) (acts : list (node → node)) (e : ending).

Definition bool_text (b : bool) : string := if b then "true" else "false".
Definition bootDesc : string :=
  if Isolated cfg then "isolated (none)"
  else match Config.Bootstrap cfg with
       | [] => "libp2p defaults"
       | l => dec_of_Z (Z.of_nat (length l)) +:+ " custom"
       end.
Definition banner (id : peer_id) : M process unit :=
  print ("sf " +:+ version +:+ " daemon") ;;
  print ("  peer id : " +:+ peer_string id) ;;
  n ← m_gets node_of;
  m_foreach (λ a, print ("  addr    : " +:+ a)) (Addrs id n) ;;
  (if DHTServer cfg && BoundLoopbackOnly n
   then
     print "  warn    : bound to loopback only — no other peer can dial this node." ;;
     print "            The DHT will hand out 127.0.0.1, so every transparent pull fails." ;;
     print "            Drop the --listen override to get the default /ip4/0.0.0.0/tcp/4008."
   else mret tt) ;;
  print ("  hub     : " +:+ HFHubDir cfg) ;;
  print ("  repo    : " +:+ RepoDir cfg) ;;
  print ("  hf      : endpoint=" +:+ HFEndpoint cfg +:+ " token=" +:+ tokenStatus (HFToken cfg)) ;;
  print ("  dht     : server=" +:+ bool_text (DHTServer cfg) +:+ " bootstrap=" +:+ bootDesc) ;;
  print ("  nat     : portmap=" +:+ onOff (NATPortMap cfg && negb (Isolated cfg)) +:+ " relay=" +:+ onOff (Relay cfg)
    +:+ " holepunch=" +:+ onOff (HolePunch cfg && negb (Isolated cfg)) +:+ " bulk-over-relay=" +:+ onOff (RelayBulk cfg)
    +:+ " relay-service=" +:+ onOff (RelayService cfg && negb (Isolated cfg))
    +:+ " static-relays=" +:+ dec_of_Z (Z.of_nat (length (StaticRelays cfg)))).
(** 15 s, looked at every 100 ms. *)
Definition joinTicks : nat := 150.
Definition join_swarm : M process unit :=
  on_pnode (DialPeers cfg) ;;
  rt ← on_pnode (WaitForRoutingTable joinTicks);
  print ("  swarm   : routing table " +:+ dec_of_Z rt +:+ " peer(s)") ;;
  (if decide (rt = 0%Z ∧ Isolated cfg = false)
   then print "  warn    : not joined the DHT swarm; provider records cannot be announced or resolved" else mret tt) ;;
  print ("  reach   : " +:+ ReachabilityLine reach cfg) ;;
  c ← m_try (on_pnode ReprovideAll);
  match c with
  | Err err => print ("  warn    : reprovide failed: " +:+ err_text err)
  | Ok count => if (0 <? count)%Z then print ("  shared  : re-announced " +:+ dec_of_Z count +:+ " revision(s)") else mret tt
  end.
Definition serving : M process unit :=
  print ("  control : " +:+ APISocket cfg) ;;
  print "  running — Ctrl-C to stop" ;;
  m_foreach (λ f : node → node, on_pnode (m_modify f)) acts ;;
  match e with
  | WatcherFailed err => if noWatch then mret tt else m_fail err
  | _ => mret tt
  end.
(** The deferred calls run in the order last in, first out. *)
Definition daemon_body (n : started) : M process unit :=
  banner (sn_id n) ;;
  join_swarm ;;
  on_sock Serve ;;
  r ← m_try serving;
  m_ignore (on_sock Close) ;;
  m_lift r.
Definition daemon_main : M process unit :=
  n ← on_res (New lp cfg);
  r ← m_try (daemon_body n);
  m_ignore (on_res (CloseNode n)) ;;
  m_lift r.
(** A command that works in its own process: the node is opened for it and
    closed after it.  The configuration is that of a DHT client. *)
Definition standalone (work : peer_id → M node unit) : M process unit :=
  n ← on_res (New lp (as_client cfg));
  r ← m_try (on_pnode (work (sn_id n)));
  m_ignore (on_res (CloseNode n)) ;;
  m_lift r.
End daemon.

(** ** What the parts leave alone *)
Section frame.
Context {MF : Multiformats} {IP : Ipld} {B : Bolt} {BS : Blockstore} {FM : FileManager} {DS : Datastore} {BA : Batching}
  {K : Keys} {N : Network}.
Implicit Types (p : process) (s : res).

Definition holds_same s s' : Prop :=
  lk_held (re_lock s') = lk_held (re_lock s) ∧ re_store_open s' = re_store_open s ∧
  re_host_open s' = re_host_open s ∧ re_dht_open s' = re_dht_open s.
#[export] Instance holds_same_preorder : PreOrder holds_same.
Proof. unfold holds_same. split; [done|]. intros a b c (?&?&?&?) (?&?&?&?). split_and!; congruence. Qed.
(** The process holds the same and the socket path is as it was. *)
Definition steady p p' : Prop := holds_same (pr_res p) (pr_res p') ∧ pr_sock p' = pr_sock p.
#[export] Instance steady_preorder : PreOrder steady.
Proof.
  unfold steady. split; [done|]. intros a b c [H1 E1] [H2 E2]. split; [by etrans|congruence].
Qed.
Lemma steady_print line : pres steady (print line).
Proof. by intros p. Qed.
Lemma steady_node {A} (op : M node A) : pres steady (on_pnode op).
Proof. intros p. unfold on_pnode, m_zoom. by destruct (op (node_of p)). Qed.
(** And the node is untouched, its files included. *)
Definition unseen p p' : Prop := pr_res p' = pr_res p ∧ pr_node p' = pr_node p ∧ pr_sock p' = pr_sock p.
#[export] Instance unseen_preorder : PreOrder unseen.
Proof. unfold unseen. split; [done|]. intros a b c (?&?&?) (?&?&?). split_and!; congruence. Qed.
Lemma unseen_print line : pres unseen (print line).
Proof. by intros p. Qed.
Lemma unseen_steady {A} (m : M process A) : pres unseen m → pres steady m.
Proof. intros H p. destruct (H p) as (E1 & _ & E3). split; [|done]. unfold holds_same. by rewrite E1. Qed.
Lemma unseen_banner version cfg id : pres unseen (banner version cfg id).
Proof.
  unfold banner. repeat first [apply unseen_print|apply pres_ret, _|apply pres_gets, _|apply pres_foreach; [apply _|]
    |apply pres_bind; [apply _| |]|case_decide|progress intros ?|case_match]; apply unseen_print || apply pres_ret, _.
Qed.
End frame.

(** ** The daemon from start to end *)
Section life.
Context {MF : Multiformats} {IP : Ipld} {B : Bolt} {BS : Blockstore} {FM : FileManager} {DS : Datastore} {DL : DatastoreLaws}
  {BA : Batching} {BAL : BatchingLaws} {K : Keys} {N : Network} {NL : NetworkLaws}.
Context (version : string) (lp : libp2p) (cfg : Config) (reach : Reachability) (noWatch : bool) (acts : list (node → node)) (e : ending).
Implicit Types (p : process) (s : res) (m : gmap string Entry).
#[local] Abbreviation daemon_main := (daemon_main version lp cfg reach noWatch acts e).
#[local] Abbreviation serving := (serving cfg noWatch acts e).
#[local] Abbreviation join_swarm := (join_swarm cfg reach).

Lemma steady_join : pres steady join_swarm.
Proof.
  unfold Daemon.join_swarm. apply pres_bind; [apply _|apply steady_node|]. intros _.
  apply pres_bind; [apply _|apply steady_node|]. intros rt. apply pres_bind; [apply _|apply steady_print|]. intros _.
  apply pres_bind; [apply _|case_decide; [apply steady_print|apply pres_ret, _]|]. intros _.
  apply pres_bind; [apply _|apply steady_print|]. intros _. apply pres_bind; [apply _|apply pres_try, steady_node|].
  intros [c|err]; [|apply steady_print]. destruct (0 <? c)%Z; [apply steady_print|apply pres_ret, _].
Qed.
Lemma steady_serving : pres steady serving.
Proof.
  unfold Daemon.serving. do 2 (apply pres_bind; [apply _|apply steady_print|]; intros _).
  apply pres_bind; [apply _|apply pres_foreach; [apply _|intros f; apply steady_node]|]. intros _.
  destruct e; [apply pres_ret, _..|]. destruct noWatch; [apply pres_ret, _|apply pres_fail, _].
Qed.

(** With no failing system call. *)
Lemma Serve_outcome (s : sockst) : sk_faults s = [] → let '(r, s') := Serve s in
  sk_faults s' = [] ∧
  match sk_node s with
  | Some (Plain _) | Some (Sock _ true) => is_ok r = false ∧ sk_node s' = sk_node s
  | _ => r = Ok tt
  end.
Proof. destruct s as [[[? []|?]|] um fl seen]. all: cbn [sk_faults]; intros ->; vm_compute; by split_and!. Qed.
Lemma Close_outcome (s : sockst) : sk_faults s = [] → sk_node (Socket.Close s).2 = None.
Proof. destruct s as [node um fl seen]. cbn [sk_faults]. intros ->. by vm_compute. Qed.

(** The body: how the process's holdings and the socket end up. *)
Lemma body_run n p r p' : daemon_body version cfg reach noWatch acts e n p = (r, p') →
  holds_same (pr_res p) (pr_res p') ∧
  (sk_faults (pr_sock p) = [] →
   (sk_node (pr_sock p') = None ∨ is_ok r = false ∧ sk_node (pr_sock p') = sk_node (pr_sock p))).
Proof.
  intros H. unfold daemon_body in H. destruct (banner version cfg (sn_id n) p) as [r1 p1] eqn:E1.
  pose proof (unseen_steady _ (unseen_banner version cfg (sn_id n)) p) as S1. rewrite E1 in S1. cbn [snd] in S1.
  destruct r1 as [[]|err]; [|rewrite (bind_run_err _ _ _ _ _ E1) in H; injection H as <- <-; destruct S1 as [? ->]; split; [done|by right]].
  rewrite (bind_run_ok _ _ _ _ _ E1) in H. destruct (join_swarm p1) as [r2 p2] eqn:E2.
  pose proof (steady_join p1) as S2. rewrite E2 in S2. cbn [snd] in S2. assert (steady p p2) as S12 by by etrans. clear S1 S2.
  destruct r2 as [[]|err]; [|rewrite (bind_run_err _ _ _ _ _ E2) in H; injection H as <- <-; destruct S12 as [? ->]; split; [done|by right]].
  rewrite (bind_run_ok _ _ _ _ _ E2) in H. destruct S12 as [Hh Hs].
  pose proof (Serve_outcome (pr_sock p2)) as Hserve. destruct (Serve (pr_sock p2)) as [r3 k3] eqn:E3.
  set (p3 := mk_process (pr_res p2) (pr_node p2) k3 (pr_out p2)).
  assert (on_sock Serve p2 = (r3, p3)) as E3' by by (unfold on_sock, m_zoom; rewrite E3).
  destruct r3 as [[]|err].
  2:{ rewrite (bind_run_err _ _ _ _ _ E3') in H. injection H as <- <-. split; [done|]. rewrite <- Hs. intros Hf.
      destruct (Hserve Hf) as [_ Hn]. right. split; [done|]. destruct (sk_node (pr_sock p2)) as [[? []|?]|]; try done; by destruct Hn. }
  rewrite (bind_run_ok _ _ _ _ _ E3') in H. destruct (serving p3) as [r4 p4] eqn:E4.
  rewrite (bind_try_run _ _ _ _ _ E4) in H. pose proof (steady_serving p3) as [Hh4 Hs4]. rewrite E4 in Hh4, Hs4. cbn [snd] in Hh4, Hs4.
  rewrite bind_ignore_run in H. assert (p' = (on_sock Socket.Close p4).2) as -> by by destruct r4; injection H.
  unfold on_sock, m_zoom. pose proof (Close_outcome (pr_sock p4)) as Hc. destruct (Socket.Close (pr_sock p4)) as [r5 k5]. cbn [snd pr_res pr_sock] in *.
  split; [by etrans|]. intros Hf. left. apply Hc. rewrite Hs4. rewrite <- Hs in Hf. by destruct (Hserve Hf).
Qed.


Lemma join_run p p' : join_swarm p = (Ok tt, p') →
  ∃ n1, local_same (node_of p) n1 ∧ pr_node p' = (ReprovideAll n1).2 ∧ lk_os (re_lock (pr_res p')) = nd_os (pr_node p').
Proof.
  assert (∀ p0, ∃ q, on_pnode (DialPeers cfg) p0 = (Ok tt, q) ∧ local_same (node_of p0) (node_of q)) as Hdial.
  { intros p0. assert (∀ l n, (m_foreach (λ a, m_ignore (Dial a)) l n).1 = Ok tt) as Hok.
    { clear. induction l as [|a l IH]; intros n; [done|]. cbn [m_foreach]. rewrite bind_ignore_run. apply IH. }
    assert (pres local_same (DialPeers cfg)) as Hl
      by by (apply pres_foreach; [apply _|]; intros a; apply pres_ignore, local_Dial).
    specialize (Hl (node_of p0)). specialize (Hok (Config.Connect cfg) (node_of p0)). unfold on_pnode, m_zoom, DialPeers in *.
    destruct (m_foreach _ _ (node_of p0)) as [r n]. cbn [fst snd] in Hok, Hl. subst r. eexists. split; [reflexivity|].
    unfold node_of at 2. by destruct n. }
  unfold Daemon.join_swarm. destruct (Hdial p) as (q & Eq & Hq). rewrite (bind_run_ok _ _ _ _ _ Eq).
  intros H. apply bind_ok_inv in H as (rt & q1 & E1 & H).
  assert (local_same (node_of q) (node_of q1)) as Hq1.
  { pose proof (local_wait joinTicks (node_of q)) as Hw. unfold on_pnode, m_zoom in E1.
    destruct (WaitForRoutingTable joinTicks (node_of q)) as [r0 n0]. injection E1 as _ <-. unfold node_of at 2. by destruct n0. }
  apply bind_ok_inv in H as (u1 & q2 & E2 & H). injection E2 as _ <-.
  apply bind_ok_inv in H as (u3 & q3 & E3 & H). assert (node_of q3 = node_of q1) as N3 by by (case_decide; injection E3 as _ <-).
  apply bind_ok_inv in H as (u4 & q4 & E4 & H). injection E4 as _ <-.
  apply bind_ok_inv in H as (c & q5 & E5 & H). exists (node_of q3).
  split; [rewrite N3; by etrans|]. unfold m_try, on_pnode, m_zoom in E5.
  match type of E5 with context [ReprovideAll ?n0] => change n0 with (node_of q3) in E5 end.
  destruct (ReprovideAll (node_of q3)) as [r6 n6]. injection E5 as <- <-. cbn [snd].
  destruct r6 as [c|err]; [destruct (0 <? c)%Z|]; by injection H as <-.
Qed.
Lemma acts_run l p : lk_os (re_lock (pr_res p)) = nd_os (pr_node p) →
  ∃ q, m_foreach (λ f : node → node, on_pnode (m_modify f)) l p = (Ok tt, q) ∧ pr_node q = foldl (λ n f, f n) (pr_node p) l.
Proof.
  revert p. induction l as [|f l IH]; intros p Hos; [by exists p|]. cbn [m_foreach foldl].
  assert (node_of p = pr_node p) as En by (unfold node_of; rewrite Hos; by destruct (pr_node p)).
  set (p1 := mk_process (set_files (nd_os (f (pr_node p))) (pr_res p)) (f (pr_node p)) (pr_sock p) (pr_out p)).
  rewrite (bind_run_ok _ _ _ tt p1) by (unfold on_pnode, m_zoom, m_modify; by rewrite En). by apply (IH p1).
Qed.

Lemma deferred_ok {A C} (body : M process A) (cleanup : M process C) p a p' :
  (r ← m_try body; m_ignore cleanup ;; m_lift r) p = (Ok a, p') → ∃ q, body p = (Ok a, q) ∧ p' = (cleanup q).2.
Proof.
  destruct (body p) as [r q] eqn:E. rewrite (bind_try_run _ _ _ _ _ E), bind_ignore_run. intros [= -> <-]. by exists q.
Qed.
Lemma serving_run p p' : lk_os (re_lock (pr_res p)) = nd_os (pr_node p) → serving p = (Ok tt, p') →
  pr_node p' = foldl (λ n f, f n) (pr_node p) acts.
Proof.
  intros Hos H. unfold Daemon.serving in H. do 2 (apply bind_ok_inv in H as (? & ? & E & H); injection E as _ <-).
  set (p2 := mk_process _ _ _ _) in H. destruct (acts_run acts p2 Hos) as (q & Eq & Nq).
  rewrite (bind_run_ok _ _ _ _ _ Eq) in H. change (pr_node p) with (pr_node p2). rewrite <- Nq. destruct e; [by injection H as <-..|]. destruct noWatch; [by injection H as <-|done].
Qed.
Lemma body_node n p p' : daemon_body version cfg reach noWatch acts e n p = (Ok tt, p') →
  ∃ n1, nd_map n1 = nd_map (pr_node p) ∧ pr_node p' = foldl (λ n f, f n) (ReprovideAll n1).2 acts.
Proof.
  intros H. unfold daemon_body in H. apply bind_ok_inv in H as ([] & p1 & E1 & H).
  pose proof (unseen_banner version cfg (sn_id n) p) as (_ & N1 & _). rewrite E1 in N1. cbn [snd] in N1.
  apply bind_ok_inv in H as ([] & p2 & E2 & H). apply join_run in E2 as (n1 & (M1 & _) & N2 & O2).
  apply bind_ok_inv in H as ([] & p3 & E3 & H).
  assert (pr_node p3 = pr_node p2 ∧ pr_res p3 = pr_res p2) as [N3 R3]
    by by (unfold on_sock, m_zoom in E3; destruct (Serve _); injection E3 as _ <-).
  apply deferred_ok in H as (q & Eq & ->). apply serving_run in Eq; [|by rewrite R3, N3].
  exists n1. split; [rewrite M1; unfold node_of; by rewrite <- N1|].
  unfold on_sock, m_zoom. destruct (Socket.Close _). cbn [snd pr_node]. by rewrite Eq, N3, N2.
Qed.

End life.

(** ** A command beside a daemon *)
Section beside.
Context {MF : Multiformats} {IP : Ipld} {B : Bolt} {BS : Blockstore} {FM : FileManager} {DS : Datastore}
  {BA : Batching} {K : Keys} {N : Network}.
Context (lp : libp2p) (cfg : Config).

(** C39. While a daemon of the same configuration holds the repository, a
    command in another process does nothing but fail: the node is not opened and
    none of the command's work is done.  So a pull that gave up waiting for the
    daemon it has started cannot go on by itself, as it says it does. *)
Theorem beside_daemon_refused cfg' work p r p' :
  shared cfg' = shared cfg → idle (pr_res p) (pr_res p) → lock_file cfg' ∈ lk_held (re_lock (pr_res p)) →
  standalone lp cfg work p = (r, p') →
  is_ok r = false ∧ pr_node p' = pr_node p ∧ pr_sock p' = pr_sock p ∧ idle (pr_res p) (pr_res p').
Proof.
  intros Hs Hi Hin H. unfold standalone in H. pose proof (New_stages lp (as_client cfg) (pr_res p) (pr_res p) Hi) as Hn.
  assert (lock_file (as_client cfg) ∈ lk_held (re_lock (pr_res p))) as Hin'.
  { injection Hs as Hr _ _ _ _. unfold lock_file, LockPath in *. rewrite Hr in Hin. by destruct cfg. }
  destruct (New lp (as_client cfg) (pr_res p)) as [[n|err] s1] eqn:E1.
  { destruct Hn as [_ (Hni & _)]. by destruct Hni. }
  set (p1 := mk_process s1 (pr_node p) (pr_sock p) (pr_out p)).
  assert (on_res (New lp (as_client cfg)) p = (Err err, p1)) as E1' by by (unfold on_res, m_zoom; rewrite E1).
  rewrite (bind_run_err _ _ _ _ _ E1') in H. injection H as <- <-. split; [done|]. split; [done|]. split; [done|].
  destruct Hn as [Hn|[_ (Hni & _)]]; [exact Hn|]. by destruct Hni.
Qed.
End beside.

(** ** A concrete daemon *)
Module ToyDaemon.
Import ToyNode ToyStart.
Definition p0 : process := mk_process s0 node0 (mk_sockst (Some (Sock 493 false)) 18 [] []) [].
Definition lived (e : ending) : result unit * process :=
  daemon_main "0.6.0" up (ToyStart.cfg []) ReachabilityUnknown false [] e p0.
End ToyDaemon.

Section witnesses.
Import ToyNode ToyStart ToyDaemon.



(* The daemon has just been started by a pull on the same directory. *)
Lemma beside_daemon_refused_witness :
  let held := mk_process (mk_res (mk_lockst (mk_osst ∅ [] ["17"] 0) {[lock_file (ToyStart.cfg [])]}) None false false false)
    node0 (mk_sockst None 0 [] []) [] in
  (standalone up (ToyStart.cfg []) (λ _, m_modify (λ _, node0)) held).1 ≠ Ok tt.
Proof.
  cbv zeta. intros H. 
  match type of H with (standalone _ _ _ ?p).1 = _ =>
    destruct (beside_daemon_refused up (ToyStart.cfg []) (ToyStart.cfg []) (λ _, m_modify (λ _, node0)) p
      (standalone up (ToyStart.cfg []) (λ _, m_modify (λ _, node0)) p).1 (standalone up (ToyStart.cfg []) (λ _, m_modify (λ _, node0)) p).2)
      as [Hr _] end.
  - reflexivity.
  - by split_and!.
  - cbn [pr_res re_lock lk_held]. apply elem_of_singleton. reflexivity.
  - apply surjective_pairing.
  - rewrite H in Hr. discriminate Hr.
Defined.
End witnesses.
